(** * cbortojson.c: CBOR to JSON conversion, embedded and verified

    A shallow embedding of [src/cbortojson.c] (tinycbor).  The C functions
    [generic_dump_base64], [dump_bytestring_base64url], [stringify_map_key],
    [array_to_json], [map_to_json], [value_to_json] and
    [cbor_value_to_json_advance] are translated statement by statement.

    - The parser API of [cbor.h] (the [cbor_value_*] functions) is an
      interface: the type class [CborParser].
    - [FILE *out] and the C heap are an explicit state, [World], threaded
      through a small state monad [C]; a computation can also [Fault]
      (undefined behaviour, a failed [assert]) or run out of fuel.
    - [double] is IEEE 754 binary64, as specified by [SpecFloat];
      [printf] and [strtod] conversions are exact, round to nearest even. *)

From Stdlib Require Import Reals Lra.
From Stdlib Require Import ZArith List String Ascii Bool Lia.
From Stdlib Require Import SpecFloat DecimalString DecimalZ.
Import ListNotations.

Local Open Scope Z_scope.

(** ** Enumerations of cbor.h *)

Inductive CborType : Type :=
| CborIntegerType
| CborByteStringType
| CborTextStringType
| CborArrayType
| CborMapType
| CborTagType
| CborSimpleType
| CborBooleanType
| CborNullType
| CborUndefinedType
| CborHalfFloatType
| CborFloatType
| CborDoubleType
| CborInvalidType.

Inductive CborError : Type :=
| CborNoError
| CborUnknownError
| CborErrorUnknownLength
| CborErrorAdvancePastEOF
| CborErrorIO
| CborErrorGarbageAtEnd
| CborErrorUnexpectedEOF
| CborErrorUnexpectedBreak
| CborErrorUnknownType
| CborErrorIllegalType
| CborErrorIllegalNumber
| CborErrorIllegalSimpleType
| CborErrorJsonObjectKeyIsAggregate
| CborErrorJsonObjectKeyNotString
| CborErrorUnsupportedType
| CborErrorDataTooLarge
| CborErrorNestingTooDeep
| CborErrorOutOfMemory
| CborErrorInternalError.

(** [if (err)]: a [CborError] is true when it is not [CborNoError]. *)
Definition is_error (e : CborError) : bool :=
  match e with CborNoError => false | _ => true end.

Definition CborType_eqb (a b : CborType) : bool :=
  match a, b with
  | CborIntegerType, CborIntegerType
  | CborByteStringType, CborByteStringType
  | CborTextStringType, CborTextStringType
  | CborArrayType, CborArrayType
  | CborMapType, CborMapType
  | CborTagType, CborTagType
  | CborSimpleType, CborSimpleType
  | CborBooleanType, CborBooleanType
  | CborNullType, CborNullType
  | CborUndefinedType, CborUndefinedType
  | CborHalfFloatType, CborHalfFloatType
  | CborFloatType, CborFloatType
  | CborDoubleType, CborDoubleType
  | CborInvalidType, CborInvalidType => true
  | _, _ => false
  end.

(** ** C strings and bytes *)

Definition NUL : ascii := "000"%char.
Definition dquote : ascii := "034"%char.

(** A byte ([uint8_t]) is a [Z] in [0, 256); a [char] is an [ascii]. *)
Definition char_of_byte (b : Z) : ascii := ascii_of_N (Z.to_N (b mod 256)).
Definition byte_of_char (c : ascii) : Z := Z.of_N (N_of_ascii c).

Fixpoint string_of_bytes (l : list Z) : string :=
  match l with
  | [] => EmptyString
  | b :: l' => String (char_of_byte b) (string_of_bytes l')
  end.

Fixpoint bytes_of_string (s : string) : list Z :=
  match s with
  | EmptyString => []
  | String c s' => byte_of_char c :: bytes_of_string s'
  end.

(** What [%s] reads from a buffer: the characters before the first NUL.
    A buffer without a terminator has no C string in it. *)
Fixpoint c_str (buf : string) : option string :=
  match buf with
  | EmptyString => None
  | String c rest =>
      if Ascii.eqb c NUL then Some EmptyString
      else option_map (String c) (c_str rest)
  end.

(** A [char *] as the code uses it: NULL, an indeterminate value (an
    uninitialised variable), or a pointer to a heap buffer with the given
    contents (terminator included). *)
Inductive charp : Type :=
| NullPtr
| WildPtr
| Chars (buf : string).

(** ** The output stream and the heap *)

(** [FILE *out]: what has been written, and how many more write calls
    that transmit something will succeed ([None]: all of them). *)
Record FILE : Type := mkFILE {
  written : string;
  writes_left : option nat
}.

(** The heap: how many more allocations will succeed ([None]: all), what a
    fresh block contains, and whether a failing [asprintf] stores NULL in
    its result pointer (BSD) or leaves it as it was (glibc documents the
    contents as undefined). *)
Record Heap : Type := mkHeap {
  allocs_left : option nat;
  fresh_byte : Z -> Z;
  asprintf_nulls : bool
}.

Record World : Type := mkWorld {
  out : FILE;
  heap : Heap
}.

(** ** The monad of C computations *)

Inductive Run (A : Type) : Type :=
| Ret (a : A) (w : World)
| Fault
| OutOfFuel.
Arguments Ret {A} a w.
Arguments Fault {A}.
Arguments OutOfFuel {A}.

Definition C (A : Type) : Type := World -> Run A.

Definition ret {A} (a : A) : C A := fun w => Ret a w.
Definition fault {A} : C A := fun _ => Fault.
Definition out_of_fuel {A} : C A := fun _ => OutOfFuel.

Definition bind {A B} (c : C A) (k : A -> C B) : C B :=
  fun w => match c w with
           | Ret a w' => k a w'
           | Fault => Fault
           | OutOfFuel => OutOfFuel
           end.

Declare Scope C_scope.
Delimit Scope C_scope with C.
Notation "x <- c ;; k" := (bind c (fun x => k))
  (at level 61, c at next level, right associativity) : C_scope.
Notation "' p <- c ;; k" := (bind c (fun x => let p := x in k))
  (at level 61, p pattern, c at next level, right associativity) : C_scope.
Local Open Scope C_scope.

(** [fprintf]/[fputc]: the result is negative when the write fails, and
    the stream stays in error afterwards.  A call that has nothing to
    transmit ([fprintf(out, "%s", comma)] with the empty comma of a first
    turn) writes nothing and does not fail. *)
Definition fwrite (s : string) : C Z :=
  fun w =>
    match s, writes_left (out w) with
    | EmptyString, _ => Ret 0 w
    | _, None =>
        Ret (Z.of_nat (String.length s))
            (mkWorld (mkFILE (written (out w) ++ s) None) (heap w))
    | _, Some O => Ret (-1) w
    | _, Some (S k) =>
        Ret (Z.of_nat (String.length s))
            (mkWorld (mkFILE (written (out w) ++ s) (Some k)) (heap w))
    end.

Definition fprintf (s : string) : C Z := fwrite s.
Definition fputc (c : ascii) : C Z := fwrite (String c EmptyString).

(** [fprintf(out, pre "%s" post, p)]: reading through a pointer that does
    not point to a C string is undefined. *)
Definition fprintf_s (pre : string) (p : charp) (post : string) : C Z :=
  match p with
  | Chars buf =>
      match c_str buf with
      | Some s => fprintf (pre ++ s ++ post)
      | None => fault
      end
  | _ => fault
  end.

(** [malloc(n)]: NULL on failure, else a block of [n] unspecified bytes. *)
Definition malloc (n : Z) : C (option (list Z)) :=
  fun w =>
    let h := heap w in
    let block := map (fun i => fresh_byte h (Z.of_nat i) mod 256)
                     (seq 0 (Z.to_nat n)) in
    match allocs_left h with
    | None => Ret (Some block) w
    | Some O => Ret None w
    | Some (S k) =>
        Ret (Some block)
            (mkWorld (out w) (mkHeap (Some k) (fresh_byte h) (asprintf_nulls h)))
    end.

(** [strdup(s)]: NULL on failure, else a copy of [s] with its terminator. *)
Definition strdup (s : string) : C charp :=
  m <- malloc (Z.of_nat (String.length s) + 1) ;;
  match m with
  | None => ret NullPtr
  | Some _ => ret (Chars (s ++ String NUL EmptyString))
  end.

(** [asprintf(&p, ...)] with the formatted text [s] and the old value
    [old] of [p]: the new value of [p].  The code never looks at the
    return value. *)
Definition asprintf (old : charp) (s : string) : C charp :=
  m <- malloc (Z.of_nat (String.length s) + 1) ;;
  match m with
  | None =>
      fun w => Ret (if asprintf_nulls (heap w) then NullPtr else old) w
  | Some _ => ret (Chars (s ++ String NUL EmptyString))
  end.

(** ** Decimal text *)

Definition digit_char (d : Z) : ascii := ascii_of_N (Z.to_N (48 + d mod 10)).

(** [n] written with exactly [w] decimal digits (its low [w] digits). *)
Fixpoint digits_fixed (w : nat) (n : Z) : string :=
  match w with
  | O => EmptyString
  | S w' => digits_fixed w' (n / 10) ++ String (digit_char n) EmptyString
  end.

Fixpoint ilog10_fuel (fuel : nat) (n : Z) : Z :=
  match fuel with
  | O => 0
  | S f => if n <? 10 then 0 else 1 + ilog10_fuel f (n / 10)
  end.

(** The integer logarithm: [10 ^ ilog10 n <= n < 10 ^ (ilog10 n + 1)]
    for [1 <= n]. *)
Definition ilog10 (n : Z) : Z := ilog10_fuel (Z.to_nat (Z.log2 n)) n.

(** [%PRIu64] and [%PRIi64]. *)
Definition dec_uint (n : Z) : string :=
  digits_fixed (Z.to_nat (ilog10 n + 1)) n.

Definition dec (z : Z) : string :=
  if z <? 0 then String "-" (dec_uint (- z)) else dec_uint z.

(** Reading decimal text back. *)
Definition digit_of_char (c : ascii) : option Z :=
  let n := byte_of_char c in
  if (48 <=? n) && (n <=? 57) then Some (n - 48) else None.

Fixpoint digits_value_acc (acc : Z) (s : string) : option Z :=
  match s with
  | EmptyString => Some acc
  | String c s' =>
      match digit_of_char c with
      | Some d => digits_value_acc (acc * 10 + d) s'
      | None => None
      end
  end.

(** The number a non-empty run of digits denotes. *)
Definition digits_value (s : string) : option Z :=
  match s with
  | EmptyString => None
  | _ => digits_value_acc 0 s
  end.

(** An integer literal: an optional minus sign and digits. *)
Definition parse_int (s : string) : option Z :=
  match s with
  | String "-" s' => option_map Z.opp (digits_value s')
  | _ => digits_value s
  end.

(** ** IEEE 754 binary64 and binary32 *)

Definition double := spec_float.

Definition valid_double (x : double) : bool := valid_binary 53 1024 x.
Definition valid_float (x : spec_float) : bool := valid_binary 24 128 x.

(** [(double)v] for a [uint64_t] (or any integer) [v]. *)
Definition double_of_int (v : Z) : double := binary_normalize 53 1024 v 0 false.

(** [(double)f] for a [float] [f]: exact. *)
Definition double_of_float (f : spec_float) : double :=
  match f with
  | S754_finite s m e => binary_normalize 53 1024 (cond_Zopp s (Zpos m)) e s
  | _ => f
  end.

Definition isnan (x : double) : bool :=
  match x with S754_nan => true | _ => false end.

Definition isinf (x : double) : bool :=
  match x with S754_infinity _ => true | _ => false end.

Definition fabs (x : double) : double := SFabs x.

(** What the target does where ISO C leaves the behaviour of this file
    open: the [uint64_t] a [double] outside [0, 2^64) converts to. *)
Class Target : Type := {
  out_of_range_uint64 : double -> Z
}.

(** Truncation of a finite double towards zero. *)
Definition trunc_double (x : double) : option Z :=
  match x with
  | S754_zero _ => Some 0
  | S754_finite s m e =>
      Some (cond_Zopp s (if 0 <=? e then Zpos m * 2 ^ e
                         else Zpos m / 2 ^ (- e)))
  | _ => None
  end.

(** [(uint64_t)x]. *)
Definition uint64_of_double `{Target} (x : double) : Z :=
  match trunc_double x with
  | Some t =>
      if (0 <=? t) && (t <? 2 ^ 64) then t
      else out_of_range_uint64 x mod 2 ^ 64
  | None => out_of_range_uint64 x mod 2 ^ 64
  end.

(** ** printf conversions of a double *)

(** [a / b] rounded to the nearest integer, ties to even ([0 < b]). *)
Definition div_nearest_even (a b : Z) : Z :=
  let q := a / b in
  match 2 * (a mod b) ?= b with
  | Lt => q
  | Gt => q + 1
  | Eq => if Z.even q then q else q + 1
  end.

Definition sign_text (s : bool) : string :=
  if s then "-"%string else EmptyString.

(** A finite non-zero magnitude [m * 2^e] as a fraction. *)
Definition numer (m : positive) (e : Z) : Z :=
  if 0 <=? e then Zpos m * 2 ^ e else Zpos m.
Definition denom (e : Z) : Z :=
  if 0 <=? e then 1 else 2 ^ (- e).

(** ["%.0f"] *)
Definition printf_f0 (x : double) : string :=
  match x with
  | S754_nan => "nan"%string
  | S754_infinity s => (sign_text s ++ "inf")%string
  | S754_zero s => (sign_text s ++ "0")%string
  | S754_finite s m e =>
      (sign_text s ++ dec_uint (div_nearest_even (numer m e) (denom e)))%string
  end.

(** The decimal exponent of [a / b]:
    [10 ^ X <= a / b < 10 ^ (X + 1)] for [0 < a], [0 < b]. *)
Definition floor_log10 (a b : Z) : Z :=
  if b <=? a then ilog10 (a / b) else - (ilog10 ((b - 1) / a) + 1).

(** [a / b * 10 ^ k] rounded to the nearest integer, ties to even. *)
Definition scale_nearest_even (a b k : Z) : Z :=
  if 0 <=? k then div_nearest_even (a * 10 ^ k) b
  else div_nearest_even a (b * 10 ^ (- k)).

(** The [P] significant digits of [a / b] and their decimal exponent:
    [(N, X)] with [10 ^ (P-1) <= N < 10 ^ P] and [a / b] about
    [N * 10 ^ (X - (P-1))]. *)
Definition sig_digits (P : Z) (a b : Z) : Z * Z :=
  let X := floor_log10 a b in
  let N := scale_nearest_even a b (P - 1 - X) in
  if N =? 10 ^ P then (10 ^ (P - 1), X + 1) else (N, X).

Fixpoint strip_zeros (s : string) : string :=
  match s with
  | EmptyString => EmptyString
  | String c r =>
      match strip_zeros r with
      | EmptyString => if Ascii.eqb c "0" then EmptyString
                       else String c EmptyString
      | r' => String c r'
      end
  end.

(** A fractional part: nothing when it is empty, else a point and it. *)
Definition point_frac (frac : string) : string :=
  match frac with
  | EmptyString => EmptyString
  | _ => String "." frac
  end.

(** The exponent of style e: a sign and at least two digits. *)
Definition exp_text (X : Z) : string :=
  let a := Z.abs X in
  String "e" (String (if X <? 0 then "-"%char else "+"%char)
    (if a <? 10 then String "0" (dec_uint a) else dec_uint a)).

(** ["%.Pg"] of the digits [N] with exponent [X]: style f when
    [-4 <= X < P], else style e; trailing zeros removed. *)
Definition g_text (P : Z) (N X : Z) : string :=
  if (-4 <=? X) && (X <? P) then
    if 0 <=? X then
      let k := P - 1 - X in
      (dec_uint (N / 10 ^ k)
       ++ point_frac (strip_zeros (digits_fixed (Z.to_nat k) (N mod 10 ^ k))))%string
    else
      (String "0" (point_frac
         (strip_zeros (digits_fixed (Z.to_nat (P - 1 - X)) N))))%string
  else
    (dec_uint (N / 10 ^ (P - 1))
     ++ point_frac (strip_zeros (digits_fixed (Z.to_nat (P - 1))
                                              (N mod 10 ^ (P - 1))))
     ++ exp_text X)%string.

(** ["%.Pg"] for [1 <= P]. *)
Definition printf_g (P : Z) (x : double) : string :=
  match x with
  | S754_nan => "nan"%string
  | S754_infinity s => (sign_text s ++ "inf")%string
  | S754_zero s => (sign_text s ++ "0")%string
  | S754_finite s m e =>
      let '(N, X) := sig_digits P (numer m e) (denom e) in
      (sign_text s ++ g_text P N X)%string
  end.

(** Modelled from the spec: the macro [DBL_DECIMAL_DIG_STR] is not under
    src/.  The spec asks for the maximum round-trip decimal digit count of
    the type: [DBL_DECIMAL_DIG] of <float.h>, 17 for binary64. *)
Definition DBL_DECIMAL_DIG : Z := 17.

(** ** Fixed-width integers *)

Definition uint8 (z : Z) : Z := z mod 2 ^ 8.
Definition uint64 (z : Z) : Z := z mod 2 ^ 64.
Definition int64 (z : Z) : Z := (z + 2 ^ 63) mod 2 ^ 64 - 2 ^ 63.
(** [size_t] is 64 bits wide. *)
Definition size_t (z : Z) : Z := z mod 2 ^ 64.

(** ** The parser API of cbor.h *)

(** [CborValue]: the position [ptr] in the input, which this file assigns
    to, and the rest of the iterator, which it never looks into. *)
Record CborValue (St : Type) : Type := mkCborValue {
  ptr : Z;
  rest : St
}.
Arguments mkCborValue {St} ptr rest.
Arguments ptr {St} c.
Arguments rest {St} c.

(** [it->ptr = p] *)
Definition set_ptr {St} (it : CborValue St) (p : Z) : CborValue St :=
  mkCborValue p (rest it).

(** The functions and the constant the file takes from cbor.h and
    cborjson.h.  A function that writes through a [CborValue *] returns the
    new value; [cbor_value_enter_container] returns [recursed] also when it
    fails.  [cbor_value_string_contents] is the string at the cursor and the
    cursor after it: what the copy and dup functions iterate over. *)
Class CborParser (St : Type) : Type := {
  CborConvertStringifyMapKeys : Z;
  cbor_value_get_type : CborValue St -> CborType;
  cbor_value_at_end : CborValue St -> bool;
  cbor_value_advance_fixed : CborValue St -> CborError * CborValue St;
  cbor_value_enter_container : CborValue St -> CborError * CborValue St;
  cbor_value_leave_container :
    CborValue St -> CborValue St -> CborError * CborValue St;
  cbor_value_is_unsigned_integer : CborValue St -> bool;
  cbor_value_is_negative_integer : CborValue St -> bool;
  cbor_value_get_raw_integer : CborValue St -> Z;
  cbor_value_get_uint64 : CborValue St -> Z;
  cbor_value_get_int64 : CborValue St -> Z;
  cbor_value_get_tag : CborValue St -> Z;
  cbor_value_get_simple_type : CborValue St -> Z;
  cbor_value_get_boolean : CborValue St -> bool;
  cbor_value_get_float : CborValue St -> spec_float;
  cbor_value_get_double : CborValue St -> double;
  cbor_value_calculate_string_length : CborValue St -> CborError * Z;
  cbor_value_string_contents :
    CborValue St -> CborError * string * CborValue St
}.

(** ** Memory blocks *)

(** [buf[i]] and [buf[i] = v] on a heap block; an access outside the
    block is undefined. *)
Definition load (buf : list Z) (i : Z) : C Z :=
  if i <? 0 then fault
  else match nth_error buf (Z.to_nat i) with
       | Some v => ret v
       | None => fault
       end.

Fixpoint update (l : list Z) (i : nat) (v : Z) : list Z :=
  match l, i with
  | [], _ => []
  | _ :: l', O => v :: l'
  | x :: l', S i' => x :: update l' i' v
  end.

Definition store (buf : list Z) (i : Z) (v : Z) : C (list Z) :=
  if (0 <=? i) && (i <? Z.of_nat (List.length buf))
  then ret (update buf (Z.to_nat i) (uint8 v))
  else fault.

Fixpoint store_bytes (buf : list Z) (i : Z) (bs : list Z) : C (list Z) :=
  match bs with
  | [] => ret buf
  | b :: bs' => buf' <- store buf i b ;; store_bytes buf' (i + 1) bs'
  end.

(** [alphabet[i]] for a string literal: its characters, then the NUL. *)
Definition char_at (alphabet : string) (i : Z) : Z :=
  nth (Z.to_nat i) (bytes_of_string alphabet) 0.

Section Converter.

Context {St : Type} `{CborParser St} `{Target}.

Local Abbreviation Cursor := (CborValue St).

(** Modelled from the spec: cbor.h is not under src/.
    [cbor_value_copy_byte_string(it, buffer + at, &buflen, next)] copies the
    string at the cursor into the block, adds a NUL when [buflen] leaves
    room for it, and sets [buflen] to the length of the string; it fails
    with [CborErrorOutOfMemory], writing nothing, when the string is longer
    than [buflen].  A null [buffer] makes the pointer passed invalid. *)
Definition cbor_value_copy_byte_string (it : Cursor)
    (buffer : option (list Z)) (at_ : Z) (buflen : Z)
    : C (CborError * list Z * Z * Cursor) :=
  match buffer with
  | None => fault
  | Some buf =>
      let '(err, s, next) := cbor_value_string_contents it in
      if is_error err then ret (err, buf, buflen, it)
      else
        let total := Z.of_nat (String.length s) in
        if buflen <? total then ret (CborErrorOutOfMemory, buf, buflen, it)
        else
          buf1 <- store_bytes buf at_ (bytes_of_string s) ;;
          buf2 <- (if total <? buflen then store buf1 (at_ + total) 0
                   else ret buf1) ;;
          ret (CborNoError, buf2, total, next)
  end.

(** Modelled from the spec: cbor.h is not under src/.
    [cbor_value_dup_text_string(it, &p, &n, next)] allocates a block for the
    string at the cursor and its NUL and copies the string into it; [p] and
    [next] are written only on success, and a failed allocation is
    [CborErrorOutOfMemory]. *)
Definition cbor_value_dup_text_string (old : charp) (it : Cursor)
    : C (CborError * charp * Cursor) :=
  let '(err, s, next) := cbor_value_string_contents it in
  if is_error err then ret (err, old, it)
  else
    m <- malloc (Z.of_nat (String.length s) + 1) ;;
    match m with
    | None => ret (CborErrorOutOfMemory, old, it)
    | Some _ => ret (CborNoError, Chars (s ++ String NUL EmptyString), next)
    end.

(** *** generic_dump_base64 *)

(** The [for] loop: three bytes read at [in_], four characters written at
    [out_]. *)
Fixpoint base64_loop (fuel : nat) (alphabet : string) (buf : list Z)
    (n out_ in_ : Z) : C (list Z * Z * Z * Z) :=
  if 3 <=? n then
    match fuel with
    | O => out_of_fuel
    | S fuel' =>
        in0 <- load buf in_ ;;
        in1 <- load buf (in_ + 1) ;;
        in2 <- load buf (in_ + 2) ;;
        let val := Z.lor (Z.lor (Z.shiftl in0 16) (Z.shiftl in1 8)) in2 in
        buf <- store buf out_
                 (char_at alphabet (Z.land (Z.shiftr val 18) 63)) ;;
        buf <- store buf (out_ + 1)
                 (char_at alphabet (Z.land (Z.shiftr val 12) 63)) ;;
        buf <- store buf (out_ + 2)
                 (char_at alphabet (Z.land (Z.shiftr val 6) 63)) ;;
        buf <- store buf (out_ + 3)
                 (char_at alphabet (Z.land val 63)) ;;
        base64_loop fuel' alphabet buf (n - 3) (out_ + 4) (in_ + 3)
    end
  else ret (buf, n, out_, in_).

(** The one or two bytes left, or the terminator alone. *)
Definition base64_tail (alphabet : string) (buf : list Z) (n out_ in_ : Z)
    : C (list Z) :=
  if negb (n =? 0) then
    in0 <- load buf in_ ;;
    let val := Z.shiftl in0 16 in
    buf <- store buf (out_ + 4) 0 ;;
    buf <- store buf (out_ + 3) (char_at alphabet 64) ;;
    '(val, buf) <-
      (if n =? 2 then
         in1 <- load buf (in_ + 1) ;;
         let val := Z.lor val (Z.shiftl in1 8) in
         buf <- store buf (out_ + 2)
                  (char_at alphabet (Z.land (Z.shiftr val 6) 63)) ;;
         ret (val, buf)
       else
         buf <- store buf (out_ + 2) (char_at alphabet 64) ;;
         ret (val, buf)) ;;
    buf <- store buf (out_ + 1)
             (char_at alphabet (Z.land (Z.shiftr val 12) 63)) ;;
    store buf out_ (char_at alphabet (Z.land (Z.shiftr val 18) 63))
  else
    store buf out_ 0.

(** [generic_dump_base64(result, it, alphabet)]; [old] is [*result] on
    entry.  The block is returned whole, as [*result] points to it. *)
Definition generic_dump_base64 (old : charp) (it : Cursor)
    (alphabet : string) : C (CborError * charp * Cursor) :=
  let '(err, n) := cbor_value_calculate_string_length it in
  if is_error err then ret (err, old, it)
  else
    let n := size_t n in
    let len := size_t (size_t (n + 5) / 3 * 4) in
    buffer <- malloc (size_t (len + 1)) ;;
    let out_ := 0 in
    let in_ := len - n in
    let n := size_t (n + 1) in
    '(err, buf, n, it) <- cbor_value_copy_byte_string it buffer in_ n ;;
    if is_error err then fault   (* assert(err == CborNoError) *)
    else
      '(buf, n, out_, in_) <-
        base64_loop (Z.to_nat n) alphabet buf n out_ in_ ;;
      buf <- base64_tail alphabet buf n out_ in_ ;;
      ret (CborNoError, Chars (string_of_bytes buf), it).

Definition base64url_alphabet : string :=
  "ABCDEFGHIJKLMNOPQRSTUVWXYZabcdefghijklmnopqrstuvwxyz0123456789-_".

Definition dump_bytestring_base64url (old : charp) (it : Cursor)
    : C (CborError * charp * Cursor) :=
  generic_dump_base64 old it base64url_alphabet.

(** *** stringify_map_key *)

(** [stringify_map_key(key, it, flags, type)]; [old] is [*key] on entry. *)
Definition stringify_map_key (old : charp) (it : Cursor) (flags : Z)
    (type : CborType) : C (CborError * charp * Cursor) :=
  (* the part after the switch *)
  let finish (key : charp) : C (CborError * charp * Cursor) :=
    match key with
    | NullPtr => ret (CborErrorOutOfMemory, key, it)
    | _ => let '(err, it') := cbor_value_advance_fixed it in
           ret (err, key, it')
    end in
  (* the shared body of the float and double cases *)
  let floating (val : double) : C (CborError * charp * Cursor) :=
    key <- (if isnan val || isinf val then strdup "null"
            else asprintf old (printf_g 19 val)) ;;
    finish key in
  match type with
  | CborArrayType
  | CborMapType =>
      (* can't convert these *)
      ret (CborErrorJsonObjectKeyIsAggregate, old, it)

  | CborIntegerType =>
      key <- (if cbor_value_is_unsigned_integer it then
                let val := uint64 (cbor_value_get_uint64 it) in
                asprintf old (dec val)
              else
                let val := int64 (cbor_value_get_int64 it) in
                if val <? 0 then asprintf old (dec val)
                else asprintf old (String "-" (dec (uint64 (- val - 1))))) ;;
      finish key

  | CborByteStringType =>
      dump_bytestring_base64url old it

  | CborTextStringType =>
      fault   (* unreachable() *)

  | CborTagType =>
      ret (CborErrorUnsupportedType, old, it)

  | CborSimpleType =>
      let type := uint8 (cbor_value_get_simple_type it) in
      (* the conditional expression that follows the call has no effect *)
      key <- asprintf old ("simple(" ++ dec type ++ ")") ;;
      finish key

  | CborNullType =>
      key <- strdup "null" ;;
      finish key

  | CborUndefinedType =>
      key <- strdup "undefined" ;;
      finish key

  | CborBooleanType =>
      let val := cbor_value_get_boolean it in
      key <- strdup (if val then "true" else "false") ;;
      finish key

  | CborDoubleType =>
      floating (cbor_value_get_double it)

  | CborFloatType =>
      floating (double_of_float (cbor_value_get_float it))

  | CborHalfFloatType =>
      ret (CborErrorUnsupportedType, old, it)

  | CborInvalidType =>
      ret (CborErrorUnknownType, old, it)
  end.

(** *** array_to_json, map_to_json, value_to_json *)

(** The three functions are mutually recursive.  [array_to_json] and
    [map_to_json] take [value_to_json] as [value]; their [while] loops and
    the recursion of [value_to_json] are bounded by fuel. *)
Section Containers.

Variable value : Cursor -> Z -> CborType -> C (CborError * Cursor).

(** The loop of [array_to_json], entered with the current [comma]. *)
Fixpoint array_to_json_loop (fuel : nat) (comma : string) (it : Cursor)
    (flags : Z) : C (CborError * Cursor) :=
  if negb (cbor_value_at_end it) then
    match fuel with
    | O => out_of_fuel
    | S fuel' =>
        r <- fprintf comma ;;
        if r <? 0 then ret (CborErrorIO, it)
        else
          let comma := ","%string in
          '(err, it) <- value it flags (cbor_value_get_type it) ;;
          if is_error err then ret (err, it)
          else array_to_json_loop fuel' comma it flags
    end
  else ret (CborNoError, it).

Definition array_to_json (fuel : nat) (it : Cursor) (flags : Z)
    : C (CborError * Cursor) :=
  array_to_json_loop fuel EmptyString it flags.

(** The loop of [map_to_json]; [char *key] is declared in the body. *)
Fixpoint map_to_json_loop (fuel : nat) (comma : string) (it : Cursor)
    (flags : Z) : C (CborError * Cursor) :=
  if negb (cbor_value_at_end it) then
    match fuel with
    | O => out_of_fuel
    | S fuel' =>
        let key := WildPtr in
        r <- fprintf comma ;;
        if r <? 0 then ret (CborErrorIO, it)
        else
          let comma := ","%string in
          (* the part of the body after the key has been fetched *)
          let print_pair (fetched : CborError * charp * Cursor) :=
            let '(err, key, it) := fetched in
            if is_error err then ret (err, it)
            else
              (* first, print the key *)
              r <- fprintf_s (String dquote EmptyString) key
                             (String dquote ":") ;;
              if r <? 0 then ret (CborErrorIO, it)
              else
                (* then, print the value *)
                '(err, it) <- value it flags (cbor_value_get_type it) ;;
                if is_error err then ret (err, it)
                else map_to_json_loop fuel' comma it flags in
          let keyType := cbor_value_get_type it in
          if CborType_eqb keyType CborTextStringType then
            fetched <- cbor_value_dup_text_string key it ;;
            print_pair fetched
          else if negb (Z.land flags CborConvertStringifyMapKeys =? 0) then
            fetched <- stringify_map_key key it flags keyType ;;
            print_pair fetched
          else
            ret (CborErrorJsonObjectKeyNotString, it)
    end
  else ret (CborNoError, it).

Definition map_to_json (fuel : nat) (it : Cursor) (flags : Z)
    : C (CborError * Cursor) :=
  map_to_json_loop fuel EmptyString it flags.

End Containers.

(** The text of an integer: the magnitude goes through a [double]. *)
Definition integer_text (it : Cursor) : string :=
  let val := uint64 (cbor_value_get_raw_integer it) in
  let num := double_of_int val in
  let num := if cbor_value_is_negative_integer it
             then SFsub 53 1024 (SFopp num) (double_of_int 1)  (* -num - 1 *)
             else num in
  printf_f0 num.

(** The text of a finite [double]. *)
Definition finite_double_text (val : double) : string :=
  let ival := uint64_of_double (fabs val) in
  if SFeqb (double_of_int ival) (fabs val) then
    (* print as integer so we get the full precision *)
    ((if SFltb val (double_of_int 0) then "-" else "") ++ dec ival)%string
  else
    (* this number is definitely not a 64-bit integer *)
    printf_g DBL_DECIMAL_DIG val.

Fixpoint value_to_json (fuel : nat) (it : Cursor) (flags : Z)
    (type : CborType) {struct fuel} : C (CborError * Cursor) :=
  match fuel with
  | O => out_of_fuel
  | S fuel' =>
    (* [break]: the return after the switch *)
    let advance : C (CborError * Cursor) :=
      ret (cbor_value_advance_fixed it) in
    let floating (val : double) : C (CborError * Cursor) :=
      if isinf val || isnan val then
        r <- fprintf "null" ;;
        if r <? 0 then ret (CborErrorIO, it) else advance
      else
        r <- fprintf (finite_double_text val) ;;
        if r <? 0 then ret (CborErrorIO, it) else advance in
    let is_array := CborType_eqb type CborArrayType in
    match type with
    | CborArrayType
    | CborMapType =>
        (* recursive type *)
        let '(err, recursed) := cbor_value_enter_container it in
        if is_error err then
          ret (err, set_ptr it (ptr recursed))       (* parse error *)
        else
          r <- fputc (if is_array then "[" else "{")%char ;;
          if r <? 0 then ret (CborErrorIO, it)
          else
            '(err, recursed) <-
              (if is_array
               then array_to_json (value_to_json fuel') fuel' recursed flags
               else map_to_json (value_to_json fuel') fuel' recursed flags) ;;
            if is_error err then
              ret (err, set_ptr it (ptr recursed))   (* parse error *)
            else
              r <- fputc (if is_array then "]" else "}")%char ;;
              if r <? 0 then ret (CborErrorIO, it)
              else
                let '(err, it') := cbor_value_leave_container it recursed in
                if is_error err then ret (err, it')  (* parse error *)
                else ret (CborNoError, it')

    | CborIntegerType =>
        r <- fprintf (integer_text it) ;;
        if r <? 0 then ret (CborErrorIO, it) else advance

    | CborByteStringType
    | CborTextStringType =>
        let str := WildPtr in
        '(err, str, it) <-
          (if CborType_eqb type CborByteStringType
           then dump_bytestring_base64url str it
           else cbor_value_dup_text_string str it) ;;
        if is_error err then ret (err, it)
        else
          r <- fprintf_s (String dquote EmptyString) str
                         (String dquote EmptyString) ;;
          ret (if r <? 0 then CborErrorIO else CborNoError, it)

    | CborTagType =>
        ret (CborErrorUnsupportedType, it)

    | CborSimpleType =>
        let simple_type := uint8 (cbor_value_get_simple_type it) in
        r <- fprintf (String dquote ("simple(" ++ dec simple_type ++ ")"
                                     ++ String dquote EmptyString)) ;;
        if r <? 0 then ret (CborErrorIO, it) else advance

    | CborNullType =>
        r <- fprintf "null" ;;
        if r <? 0 then ret (CborErrorIO, it) else advance

    | CborUndefinedType =>
        r <- fprintf (String dquote ("undefined" ++ String dquote EmptyString)) ;;
        if r <? 0 then ret (CborErrorIO, it) else advance

    | CborBooleanType =>
        let val := cbor_value_get_boolean it in
        r <- fprintf (if val then "true" else "false") ;;
        if r <? 0 then ret (CborErrorIO, it) else advance

    | CborDoubleType =>
        floating (cbor_value_get_double it)

    | CborFloatType =>
        floating (double_of_float (cbor_value_get_float it))

    | CborHalfFloatType =>
        ret (CborErrorUnsupportedType, it)

    | CborInvalidType =>
        ret (CborErrorUnknownType, it)
    end
  end.

Definition cbor_value_to_json_advance (fuel : nat) (value : Cursor)
    (flags : Z) : C (CborError * Cursor) :=
  value_to_json fuel value flags (cbor_value_get_type value).

End Converter.

(** ** A parser over decoded items *)

(** Modelled from the spec: the decoding engine is not under src/.  The
    spec (section 3) describes a cursor over a stream of typed values with
    type inspection, scalar extraction, enter/leave of containers, an
    end-of-container test and a step past a fixed-size value.  Here the
    stream is the list of the decoded data items in input order, a
    container being a header with its count followed by its contents;
    [ptr] counts items, and a cursor knows how many values are left in its
    container.  A header that promises more values than the stream holds
    is the malformed input: the cursor reports [CborErrorUnexpectedEOF]. *)
Module Items.

Inductive Item : Type :=
| Integer (negative : bool) (raw : Z)
| ByteString (s : string)
| TextString (s : string)
| ArrayOf (count : Z)
| MapOf (pairs : Z)
| Tag (t : Z)
| Simple (n : Z)
| Boolean (b : bool)
| Null
| Undefined
| HalfFloat (bits : Z)
| Float (f : spec_float)
| Double (d : double).

(** The part of a cursor besides [ptr]. *)
Record Pos : Type := mkPos {
  input : list Item;
  remaining : Z
}.

Definition Cursor := CborValue Pos.

Definition cursor (items : list Item) (p remaining : Z) : Cursor :=
  mkCborValue p (mkPos items remaining).

(** A cursor at the start of a stream that holds one top-level value. *)
Definition start (items : list Item) : Cursor := cursor items 0 1.

Definition current (it : Cursor) : option Item :=
  if (ptr it <? 0) || (remaining (rest it) <=? 0) then None
  else nth_error (input (rest it)) (Z.to_nat (ptr it)).

Definition type_of (i : Item) : CborType :=
  match i with
  | Integer _ _ => CborIntegerType
  | ByteString _ => CborByteStringType
  | TextString _ => CborTextStringType
  | ArrayOf _ => CborArrayType
  | MapOf _ => CborMapType
  | Tag _ => CborTagType
  | Simple _ => CborSimpleType
  | Boolean _ => CborBooleanType
  | Null => CborNullType
  | Undefined => CborUndefinedType
  | HalfFloat _ => CborHalfFloatType
  | Float _ => CborFloatType
  | Double _ => CborDoubleType
  end.

Definition get_type (it : Cursor) : CborType :=
  match current it with
  | Some i => type_of i
  | None => CborInvalidType
  end.

(** The cursor [p] items further with [r] values left; the next value,
    when one is due, must be in the stream. *)
Definition arrive (it : Cursor) (p r : Z) : CborError * Cursor :=
  let it' := cursor (input (rest it)) p r in
  if (0 <? r) && (Z.of_nat (List.length (input (rest it))) <=? p)
  then (CborErrorUnexpectedEOF, it')
  else (CborNoError, it').

Definition advance_fixed (it : Cursor) : CborError * Cursor :=
  arrive it (ptr it + 1) (remaining (rest it) - 1).

Definition enter_container (it : Cursor) : CborError * Cursor :=
  match current it with
  | Some (ArrayOf n) => arrive it (ptr it + 1) n
  | Some (MapOf n) => arrive it (ptr it + 1) (2 * n)
  | _ => (CborErrorIllegalType, it)
  end.

Definition leave_container (it recursed : Cursor) : CborError * Cursor :=
  arrive it (ptr recursed) (remaining (rest it) - 1).

Definition string_contents (it : Cursor) : CborError * string * Cursor :=
  match current it with
  | Some (ByteString s) | Some (TextString s) =>
      let '(err, next) := advance_fixed it in (err, s, next)
  | _ => (CborErrorIllegalType, EmptyString, it)
  end.

Definition calculate_string_length (it : Cursor) : CborError * Z :=
  match current it with
  | Some (ByteString s) | Some (TextString s) =>
      (CborNoError, Z.of_nat (String.length s))
  | _ => (CborErrorIllegalType, 0)
  end.

Definition raw_integer (it : Cursor) : Z :=
  match current it with Some (Integer _ raw) => raw | _ => 0 end.

Definition is_negative (it : Cursor) : bool :=
  match current it with Some (Integer neg _) => neg | _ => false end.

Definition is_unsigned (it : Cursor) : bool :=
  match current it with Some (Integer neg _) => negb neg | _ => false end.

(** The value as an [int64_t], wrapping around when it does not fit. *)
Definition get_int64 (it : Cursor) : Z :=
  match current it with
  | Some (Integer neg raw) =>
      if neg then int64 (- int64 raw - 1) else int64 raw
  | _ => 0
  end.

#[export] Instance parser : CborParser Pos := {
  CborConvertStringifyMapKeys := 8;
  cbor_value_get_type := get_type;
  cbor_value_at_end := fun it => remaining (rest it) <=? 0;
  cbor_value_advance_fixed := advance_fixed;
  cbor_value_enter_container := enter_container;
  cbor_value_leave_container := leave_container;
  cbor_value_is_unsigned_integer := is_unsigned;
  cbor_value_is_negative_integer := is_negative;
  cbor_value_get_raw_integer := raw_integer;
  cbor_value_get_uint64 := raw_integer;
  cbor_value_get_int64 := get_int64;
  cbor_value_get_tag :=
    fun it => match current it with Some (Tag t) => t | _ => 0 end;
  cbor_value_get_simple_type :=
    fun it => match current it with Some (Simple n) => n | _ => 0 end;
  cbor_value_get_boolean :=
    fun it => match current it with Some (Boolean b) => b | _ => false end;
  cbor_value_get_float :=
    fun it => match current it with Some (Float f) => f | _ => S754_zero false end;
  cbor_value_get_double :=
    fun it => match current it with Some (Double d) => d | _ => S754_zero false end;
  cbor_value_calculate_string_length := calculate_string_length;
  cbor_value_string_contents := string_contents
}.

(** A target that converts an out-of-range [double] to 0 (what x86-64
    compilers produce for values of 2^64 and above). *)
#[export] Instance target : Target := {
  out_of_range_uint64 := fun _ => 0
}.

(** A stream that accepts every write, a heap that never fails. *)
Definition fresh_world : World :=
  mkWorld (mkFILE EmptyString None) (mkHeap None (fun _ => 170) false).

(** Worlds whose stream fails after [k] writes that transmit something,
    or whose heap fails after [k] allocations. *)
Definition world_io (k : nat) : World :=
  mkWorld (mkFILE EmptyString (Some k)) (mkHeap None (fun _ => 170) false).
Definition world_mem (k : nat) (nulls : bool) : World :=
  mkWorld (mkFILE EmptyString None) (mkHeap (Some k) (fun _ => 170) nulls).

(** Run the converter on a stream: the result, the final [ptr] and the
    text written, when the run ends. *)
Definition convert (fuel : nat) (items : list Item) (flags : Z) (w : World)
    : option (CborError * Z * string) :=
  match cbor_value_to_json_advance fuel (start items) flags w with
  | Ret (err, it) w' => Some (err, ptr it, written (out w'))
  | _ => None
  end.

End Items.

(** ** Vocabulary of the statements *)

(** The stream accepts [k] more writes; the heap [k] more allocations. *)
Definition can_write (k : nat) (w : World) : bool :=
  match writes_left (out w) with
  | None => true
  | Some m => (k <=? m)%nat
  end.

Definition can_alloc (k : nat) (w : World) : bool :=
  match allocs_left (heap w) with
  | None => true
  | Some m => (k <=? m)%nat
  end.

(** The world after a successful write of [s] (an empty [s] leaves the
    stream as it is), and after a successful allocation. *)
Definition put (s : string) (w : World) : World :=
  mkWorld (match s with
           | EmptyString => out w
           | _ => mkFILE (written (out w) ++ s)
                         (option_map pred (writes_left (out w)))
           end)
          (heap w).

Definition took (w : World) : World :=
  mkWorld (out w)
          (mkHeap (option_map pred (allocs_left (heap w)))
                  (fresh_byte (heap w)) (asprintf_nulls (heap w))).

(** The block a successful [malloc(n)] returns in [w]. *)
Definition fresh_block (w : World) (n : Z) : list Z :=
  map (fun i => fresh_byte (heap w) (Z.of_nat i) mod 256)
      (seq 0 (Z.to_nat n)).

Definition znth (l : list Z) (i : Z) : Z := nth (Z.to_nat i) l 0.

Definition bytes_ok (bs : list Z) : Prop :=
  Forall (fun b => 0 <= b < 256) bs.

(** A text without its surrounding JSON quotes, if it has them. *)
Definition strip_quotes (t : string) : string :=
  match t with
  | String c r =>
      if Ascii.eqb c dquote then
        match String.length r with
        | O => t
        | S k =>
            if Ascii.eqb (match get k r with Some d => d | None => NUL end)
                         dquote
            then substring 0 k r else t
        end
      else t
  | EmptyString => t
  end.

(** *** Base64 by its definition *)

(** The [k]-th 6-bit digit of a 24-bit group, as a character. *)
Definition sextet (alphabet : string) (group k : Z) : Z :=
  char_at alphabet (group / 64 ^ k mod 64).

(** Following the spec (4.2): every three bytes give four characters; a
    tail of one or two bytes is extended with zero bits and gives two or
    three characters, the filler (the 65th character of the alphabet)
    taking the other places. *)
Fixpoint base64_text (alphabet : string) (bs : list Z) : list Z :=
  match bs with
  | a :: b :: c :: rest =>
      let g := a * 65536 + b * 256 + c in
      sextet alphabet g 3 :: sextet alphabet g 2 :: sextet alphabet g 1
        :: sextet alphabet g 0 :: base64_text alphabet rest
  | [a; b] =>
      let g := a * 65536 + b * 256 in
      [sextet alphabet g 3; sextet alphabet g 2; sextet alphabet g 1;
       char_at alphabet 64]
  | [a] =>
      let g := a * 65536 in
      [sextet alphabet g 3; sextet alphabet g 2; char_at alphabet 64;
       char_at alphabet 64]
  | [] => []
  end.

(** The loop of [generic_dump_base64] followed by the code after it. *)
Definition encode_loop_tail (fuel : nat) (alphabet : string) (buf : list Z)
    (n out_ in_ : Z) : C (list Z) :=
  r <- base64_loop fuel alphabet buf n out_ in_ ;;
  let '(buf, n, out_, in_) := r in base64_tail alphabet buf n out_ in_.

Fixpoint no_nul (s : string) : bool :=
  match s with
  | EmptyString => true
  | String c r => negb (Ascii.eqb c NUL) && no_nul r
  end.

(** The C string in a block of bytes (empty when there is none). *)
Definition c_string (buf : list Z) : string :=
  match c_str (string_of_bytes buf) with
  | Some s => s
  | None => EmptyString
  end.

Definition quoted (s : string) : string :=
  String dquote (s ++ String dquote EmptyString).

Section Vocabulary.

Context {St : Type} `{CborParser St} `{Target}.

(** The text [stringify_map_key] formats for a key that is neither a
    string nor a container. *)
Definition key_text (it : CborValue St) (type : CborType) : string :=
  let floating (val : double) : string :=
    if isnan val || isinf val then "null"%string else printf_g 19 val in
  match type with
  | CborIntegerType =>
      if cbor_value_is_unsigned_integer it then
        dec (uint64 (cbor_value_get_uint64 it))
      else
        let val := int64 (cbor_value_get_int64 it) in
        if val <? 0 then dec val else String "-" (dec (uint64 (- val - 1)))
  | CborSimpleType =>
      ("simple(" ++ dec (uint8 (cbor_value_get_simple_type it)) ++ ")")%string
  | CborNullType => "null"%string
  | CborUndefinedType => "undefined"%string
  | CborBooleanType =>
      if cbor_value_get_boolean it then "true"%string else "false"%string
  | CborDoubleType => floating (cbor_value_get_double it)
  | CborFloatType => floating (double_of_float (cbor_value_get_float it))
  | _ => EmptyString
  end.

(** The types [stringify_map_key] formats with [asprintf] or [strdup]. *)
Definition formatted_key (type : CborType) : bool :=
  match type with
  | CborIntegerType | CborSimpleType | CborNullType | CborUndefinedType
  | CborBooleanType | CborDoubleType | CborFloatType => true
  | _ => false
  end.

(** What [map_to_json] does once a key is printed: the value at [it],
    then the remaining pairs. *)
Definition map_pair_rest
    (value : CborValue St -> Z -> CborType -> C (CborError * CborValue St))
    (fuel : nat) (it : CborValue St) (flags : Z)
    : C (CborError * CborValue St) :=
  '(err, it) <- value it flags (cbor_value_get_type it) ;;
  if is_error err then ret (err, it)
  else map_to_json_loop value fuel "," it flags.

(** The contents of a container, as [value_to_json] renders them. *)
Definition contents_to_json (fuel : nat) (type : CborType)
    (recursed : CborValue St) (flags : Z) : C (CborError * CborValue St) :=
  if CborType_eqb type CborArrayType
  then array_to_json (value_to_json fuel) fuel recursed flags
  else map_to_json (value_to_json fuel) fuel recursed flags.

End Vocabulary.

Section ValueVocabulary.

Context {St : Type} `{CborParser St} `{Target}.

(** The integer at the cursor: a negative integer with magnitude [raw]
    is [-raw - 1]. *)
Definition integer_value (it : CborValue St) : Z :=
  let raw := uint64 (cbor_value_get_raw_integer it) in
  if cbor_value_is_negative_integer it then - raw - 1 else raw.

(** The text [value_to_json] writes for a value that is neither a string
    nor a container. *)
Definition value_text (it : CborValue St) (type : CborType) : string :=
  let floating (val : double) : string :=
    if isinf val || isnan val then "null"%string
    else finite_double_text val in
  match type with
  | CborIntegerType => integer_text it
  | CborSimpleType =>
      quoted ("simple(" ++ dec (uint8 (cbor_value_get_simple_type it)) ++ ")")
  | CborNullType => "null"%string
  | CborUndefinedType => quoted "undefined"
  | CborBooleanType =>
      if cbor_value_get_boolean it then "true"%string else "false"%string
  | CborDoubleType => floating (cbor_value_get_double it)
  | CborFloatType => floating (double_of_float (cbor_value_get_float it))
  | _ => EmptyString
  end.

End ValueVocabulary.

(** *** Rounding a fraction to a double *)

(** The binary exponent of [a / b]:
    [2 ^ floor_log2 a b <= a / b < 2 ^ (floor_log2 a b + 1)]. *)
Definition floor_log2 (a b : Z) : Z :=
  if b <=? a then Z.log2 (a / b) else - (Z.log2 ((b - 1) / a) + 1).

(** The binary64 nearest to [a / b] ([0 < a], [0 < b]) with sign [s],
    ties to even: the exponent of the last place is that of a 53-bit
    mantissa, not below the subnormal exponent -1074; a mantissa that
    rounds up to [2^53] moves to the next exponent; exponents above 971
    overflow. *)
Definition round_to_double (s : bool) (a b : Z) : double :=
  let e := Z.max (floor_log2 a b - 52) (-1074) in
  let m := div_nearest_even (a * 2 ^ Z.max 0 (- e)) (b * 2 ^ Z.max 0 e) in
  let '(m, e) := if m =? 2 ^ 53 then (2 ^ 52, e + 1) else (m, e) in
  match m with
  | Zpos p => if e <=? 971 then S754_finite s p e else S754_infinity s
  | _ => S754_zero s
  end.

Fixpoint string_forall (p : ascii -> bool) (s : string) : bool :=
  match s with
  | EmptyString => true
  | String c r => p c && string_forall p r
  end.

Definition is_digit (c : ascii) : bool :=
  match digit_of_char c with Some _ => true | None => false end.

(** *** Reading a decimal literal *)

(** A text cut at the first character that satisfies [p]. *)
Fixpoint split_at (p : ascii -> bool) (s : string) : string * option string :=
  match s with
  | EmptyString => (EmptyString, None)
  | String c r =>
      if p c then (EmptyString, Some r)
      else let '(a, b) := split_at p r in (String c a, b)
  end.

Definition split_sign (s : string) : bool * string :=
  match s with
  | String "-" r => (true, r)
  | _ => (false, s)
  end.

Definition is_point (c : ascii) : bool := Ascii.eqb c ".".
Definition is_exp (c : ascii) : bool := Ascii.eqb c "e" || Ascii.eqb c "E".

(** [digits] or [digits.digits]: [(N, X)] for the number [N * 10 ^ X]. *)
Definition parse_mantissa (s : string) : option (Z * Z) :=
  let '(int_part, frac) := split_at is_point s in
  match digits_value int_part, frac with
  | Some i, None => Some (i, 0)
  | Some i, Some f =>
      let k := Z.of_nat (String.length f) in
      option_map (fun v => (i * 10 ^ k + v, - k)) (digits_value f)
  | None, _ => None
  end.

(** The digits of an exponent, after an optional sign. *)
Definition parse_exponent (s : string) : option Z :=
  match s with
  | String "+" r => digits_value r
  | String "-" r => option_map Z.opp (digits_value r)
  | _ => digits_value s
  end.

(** A decimal literal [-? digits (. digits)? ((e|E) (+|-)? digits)?]:
    its sign, and [(N, X)] for the magnitude [N * 10 ^ X]. *)
Definition parse_number (s : string) : option (bool * Z * Z) :=
  let '(neg, s) := split_sign s in
  let '(mant, ex) := split_at is_exp s in
  match parse_mantissa mant,
        match ex with Some x => parse_exponent x | None => Some 0 end with
  | Some (N, X), Some E => Some (neg, N, X + E)
  | _, _ => None
  end.

(** [strtod] on a decimal literal: the double nearest to the number it
    denotes, ties to even. *)
Definition strtod (s : string) : option double :=
  match parse_number s with
  | Some (neg, N, X) =>
      Some (if N =? 0 then S754_zero neg
            else round_to_double neg (N * 10 ^ Z.max 0 X) (10 ^ Z.max 0 (- X)))
  | None => None
  end.

(** The first character of a text is a digit. *)
Definition starts_with_digit (s : string) : bool :=
  match s with
  | String c _ => is_digit c
  | EmptyString => false
  end.

(** A double with its sign replaced. *)
Definition with_sign (s : bool) (x : double) : double :=
  match x with
  | S754_zero _ => S754_zero s
  | S754_infinity _ => S754_infinity s
  | S754_finite _ m e => S754_finite s m e
  | S754_nan => S754_nan
  end.

(** The integer a double denotes, when it has no fractional part. *)
Definition double_integer (x : double) : option Z :=
  match x with
  | S754_zero _ => Some 0
  | S754_finite s m e =>
      if 0 <=? e then Some (cond_Zopp s (Zpos m * 2 ^ e))
      else if Zpos m mod 2 ^ (- e) =? 0
           then Some (cond_Zopp s (Zpos m / 2 ^ (- e)))
           else None
  | _ => None
  end.

Section IntegerAccessors.

Context {St : Type} `{CborParser St} `{Target}.

(** The accessors of an integer agree: the unsigned test is the negation
    of the negative test, [cbor_value_get_uint64] gives the magnitude of an
    unsigned integer, [cbor_value_get_int64] the value of a negative one. *)
Definition integer_accessors_agree (it : CborValue St) : Prop :=
  cbor_value_is_unsigned_integer it
    = negb (cbor_value_is_negative_integer it)
  /\ (cbor_value_is_negative_integer it = false ->
      uint64 (cbor_value_get_uint64 it)
        = uint64 (cbor_value_get_raw_integer it))
  /\ (cbor_value_is_negative_integer it = true ->
      int64 (cbor_value_get_int64 it)
        = - uint64 (cbor_value_get_raw_integer it) - 1).

End IntegerAccessors.

(** ** Vocabulary of further properties *)

(** The characters of a text before its first NUL: what [%s] prints of
    a C string with these contents. *)
Fixpoint until_nul (s : string) : string :=
  match s with
  | EmptyString => EmptyString
  | String c r => if Ascii.eqb c NUL then EmptyString else String c (until_nul r)
  end.

(** The keys [stringify_map_key] formats with [asprintf]: integers,
    simple values and finite floating-point numbers. *)
Definition asprintf_key {St} `{CborParser St} (it : CborValue St)
    (type : CborType) : bool :=
  match type with
  | CborIntegerType | CborSimpleType => true
  | CborDoubleType =>
      negb (isnan (cbor_value_get_double it)
            || isinf (cbor_value_get_double it))
  | CborFloatType =>
      negb (isnan (double_of_float (cbor_value_get_float it))
            || isinf (double_of_float (cbor_value_get_float it)))
  | _ => false
  end.

(** *** Integers as doubles *)

(** The integer nearest to [z] among the multiples of [2 ^ (log2 z - 52)]:
    the value of the double nearest to an integer [z] of 53 bits or
    more. *)
Definition nearest_double_integer (z : Z) : Z :=
  div_nearest_even z (2 ^ (Z.log2 z - 52)) * 2 ^ (Z.log2 z - 52).

(** *** Base64 without padding, and back *)

(** The 6-bit digits of a byte string: four for every three bytes, three
    for a tail of two bytes, two for a tail of one. *)
Fixpoint base64_digits (bs : list Z) : list Z :=
  match bs with
  | a :: b :: c :: rest =>
      let g := a * 65536 + b * 256 + c in
      g / 64 ^ 3 mod 64 :: g / 64 ^ 2 mod 64 :: g / 64 ^ 1 mod 64
        :: g / 64 ^ 0 mod 64 :: base64_digits rest
  | [a; b] =>
      let g := a * 65536 + b * 256 in
      [g / 64 ^ 3 mod 64; g / 64 ^ 2 mod 64; g / 64 ^ 1 mod 64]
  | [a] =>
      let g := a * 65536 in
      [g / 64 ^ 3 mod 64; g / 64 ^ 2 mod 64]
  | [] => []
  end.

(** The base64url text of a byte string, without fillers. *)
Definition base64url_text (s : string) : string :=
  string_of_bytes
    (map (char_at base64url_alphabet) (base64_digits (bytes_of_string s))).

(** The place of a character among the 64 digits of an alphabet. *)
Definition index_of (alphabet : string) (c : Z) : option Z :=
  find (fun i => char_at alphabet i =? c) (map Z.of_nat (seq 0 64)).

Fixpoint indices (alphabet : string) (cs : list Z) : option (list Z) :=
  match cs with
  | [] => Some []
  | c :: r =>
      match index_of alphabet c, indices alphabet r with
      | Some v, Some vs => Some (v :: vs)
      | _, _ => None
      end
  end.

(** The bytes that 6-bit digits denote: three for every four digits, two
    for a tail of three digits, one for a tail of two. *)
Fixpoint group_bytes (vs : list Z) : option (list Z) :=
  match vs with
  | v0 :: v1 :: v2 :: v3 :: rest =>
      let g := ((v0 * 64 + v1) * 64 + v2) * 64 + v3 in
      option_map (fun bs => g / 65536 :: g / 256 mod 256 :: g mod 256 :: bs)
                 (group_bytes rest)
  | [v0; v1; v2] =>
      let g := ((v0 * 64 + v1) * 64 + v2) * 64 in
      Some [g / 65536; g / 256 mod 256]
  | [v0; v1] =>
      let g := (v0 * 64 + v1) * 4096 in
      Some [g / 65536]
  | [_] => None
  | [] => Some []
  end.

(** Decoding unpadded base64 text. *)
Definition base64_decode (alphabet : string) (text : string)
    : option (list Z) :=
  match indices alphabet (bytes_of_string text) with
  | Some vs => group_bytes vs
  | None => None
  end.


(** Digits of base 64. *)
Definition digits_ok (ds : list Z) : Prop := Forall (fun d => 0 <= d < 64) ds.

(** *** JSON texts *)

(** The grammar of RFC 8259 for texts without white space and without
    escapes in strings. *)

(** A character that a string holds as it is: printable ASCII, neither
    the quotation mark nor the backslash. *)
Definition unescaped (c : ascii) : bool :=
  let n := byte_of_char c in
  (32 <=? n) && (n <=? 126) && negb (n =? 34) && negb (n =? 92).

(** [int = zero / ( digit1-9 *DIGIT )] *)
Inductive json_int : string -> Prop :=
| json_int_zero : json_int "0"
| json_int_digits c r :
    is_digit c = true -> c <> "0"%char ->
    string_forall is_digit r = true ->
    json_int (String c r).

(** [[ frac ]], [frac = decimal-point 1*DIGIT] *)
Inductive json_frac : string -> Prop :=
| json_no_frac : json_frac ""
| json_frac_digits c r :
    is_digit c = true -> string_forall is_digit r = true ->
    json_frac (String "." (String c r)).

(** [[ exp ]], [exp = e [ minus / plus ] 1*DIGIT] *)
Inductive json_exp : string -> Prop :=
| json_no_exp : json_exp ""
| json_exp_digits e sign c r :
    e = "e"%char \/ e = "E"%char ->
    sign = ""%string \/ sign = "+"%string \/ sign = "-"%string ->
    is_digit c = true -> string_forall is_digit r = true ->
    json_exp (String e (sign ++ String c r)).

(** [number = [ minus ] int [ frac ] [ exp ]] *)
Inductive json_number : string -> Prop :=
| json_number_parts minus i f e :
    minus = ""%string \/ minus = "-"%string ->
    json_int i -> json_frac f -> json_exp e ->
    json_number (minus ++ i ++ f ++ e).

(** [string = quotation-mark *char quotation-mark], every [char]
    unescaped. *)
Inductive json_string : string -> Prop :=
| json_string_chars s :
    string_forall unescaped s = true -> json_string (quoted s).

(** [value = false / null / true / object / array / number / string],
    [array = begin-array [ value *( value-separator value ) ] end-array],
    [object = begin-object [ member *( value-separator member ) ]
    end-object], [member = string name-separator value]. *)
Inductive json_value : string -> Prop :=
| json_null : json_value "null"
| json_true : json_value "true"
| json_false : json_value "false"
| json_a_number s : json_number s -> json_value s
| json_a_string s : json_string s -> json_value s
| json_empty_array : json_value "[]"
| json_array r : json_elements r -> json_value ("[" ++ r ++ "]")
| json_empty_object : json_value "{}"
| json_object r : json_members r -> json_value ("{" ++ r ++ "}")
with json_elements : string -> Prop :=
| json_element v : json_value v -> json_elements v
| json_elements_more v r :
    json_value v -> json_elements r -> json_elements (v ++ "," ++ r)
with json_members : string -> Prop :=
| json_member k v :
    json_string k -> json_value v -> json_members (k ++ ":" ++ v)
| json_members_more k v r :
    json_string k -> json_value v -> json_members r ->
    json_members (k ++ ":" ++ v ++ "," ++ r).

(** *** Trees of data items *)

(** A stream that accepts every write and a heap that never fails. *)
Definition unlimited (w : World) : Prop :=
  writes_left (out w) = None /\ allocs_left (heap w) = None.

(** Texts written one after the other, as the loops of [array_to_json]
    and [map_to_json] do: [comma] before the first, [","] before the
    others. *)
Fixpoint joined (comma : string) (texts : list string) : string :=
  match texts with
  | [] => EmptyString
  | t :: r => (comma ++ t ++ joined "," r)%string
  end.

(** The world after the write calls of the texts [ss], one after the
    other. *)
Fixpoint attempt (ss : list string) (w : World) : World :=
  match ss with
  | [] => w
  | s :: r =>
      match fwrite s w with
      | Ret _ w' => attempt r w'
      | _ => w
      end
  end.

(** The calls that transmit something, which are those the stream
    counts, and whether the stream accepts the calls [ss]. *)
Definition transmits (s : string) : bool :=
  match s with
  | EmptyString => false
  | _ => true
  end.

Definition transmitted (ss : list string) : list string :=
  filter transmits ss.

Definition accepts (ss : list string) (w : World) : bool :=
  can_write (List.length (transmitted ss)) w.

(** Texts one after the other. *)
Definition appended (ss : list string) : string :=
  fold_right String.append EmptyString ss.

(** The write calls of the loops of [array_to_json] and [map_to_json]:
    one for the comma (empty before the first turn), then those of the
    turn. *)
Fixpoint joined_writes (comma : string) (turns : list (list string))
    : list string :=
  match turns with
  | [] => []
  | t :: r => comma :: t ++ joined_writes "," r
  end.

Module Data.
Import Items.

(** A data item with the items it holds: a value that is not a
    container, an array with its elements, or a map with its pairs (a key
    item and a value). *)
#[warnings="-register-all"]
Inductive Data : Type :=
| Scalar (i : Item)
| Array (elements : list Data)
| Map (pairs : list (Item * Data)).

(** The stream of items of a tree: a container is its header followed
    by its contents. *)
Fixpoint encode (d : Data) : list Item :=
  match d with
  | Scalar i => [i]
  | Array es => ArrayOf (Z.of_nat (List.length es)) :: flat_map encode es
  | Map ps =>
      MapOf (Z.of_nat (List.length ps))
        :: flat_map (fun '(k, v) => k :: encode v) ps
  end.

(** The text of a value that is not a container. *)
Definition scalar_text (i : Item) : string :=
  match i with
  | TextString s => quoted (until_nul s)
  | ByteString s => quoted (base64url_text s)
  | _ => value_text (start [i]) (type_of i)
  end.

(** The text of a key, without its quotes. *)
Definition key_string (k : Item) : string :=
  match k with
  | TextString s => until_nul s
  | ByteString s => base64url_text s
  | _ => key_text (start [k]) (type_of k)
  end.

(** The JSON text of a tree. *)
Fixpoint text (d : Data) : string :=
  match d with
  | Scalar i => scalar_text i
  | Array es => ("[" ++ joined "" (map text es) ++ "]")%string
  | Map ps =>
      ("{" ++ joined ""
                (map (fun '(k, v) =>
                        (String dquote (key_string k ++ String dquote ":")
                         ++ text v)%string) ps)
           ++ "}")%string
  end.

(** The texts of the write calls for a tree, in order: one for a value
    that is not a container; for a container one for each bracket, and in
    between one for each comma, one for each key with its quotes and
    colon, and those of the values. *)
Fixpoint writes (d : Data) : list string :=
  match d with
  | Scalar i => [scalar_text i]
  | Array es => "["%string :: joined_writes "" (map writes es) ++ ["]"%string]
  | Map ps =>
      "{"%string
        :: joined_writes ""
             (map (fun '(k, v) =>
                     String dquote (key_string k ++ String dquote ":")
                       :: writes v) ps)
        ++ ["}"%string]
  end.

(** The values the converter renders: no tag and no half-precision
    float, byte strings shorter than [2^62]. *)
Definition scalar_ok (i : Item) : bool :=
  match i with
  | ArrayOf _ | MapOf _ | Tag _ | HalfFloat _ => false
  | ByteString s => Z.of_nat (String.length s) <? 2 ^ 62
  | _ => true
  end.

(** The keys the converter renders: text strings, and with the
    stringify flag also the other values that are not containers. *)
Definition key_ok (flags : Z) (k : Item) : bool :=
  match k with
  | TextString _ => true
  | _ => negb (Z.land flags 8 =? 0) && scalar_ok k
  end.

Fixpoint well_formed (flags : Z) (d : Data) : bool :=
  match d with
  | Scalar i => scalar_ok i
  | Array es => forallb (well_formed flags) es
  | Map ps => forallb (fun '(k, v) => key_ok flags k && well_formed flags v) ps
  end.

(** An item that is a value by itself: not the header of a container,
    and a byte string shorter than [2^62]. *)
Definition plain (i : Item) : bool :=
  match i with
  | ArrayOf _ | MapOf _ => false
  | ByteString s => Z.of_nat (String.length s) <? 2 ^ 62
  | _ => true
  end.

(** A tree whose scalars and keys are such items. *)
Fixpoint proper (d : Data) : bool :=
  match d with
  | Scalar i => plain i
  | Array es => forallb proper es
  | Map ps => forallb (fun '(k, v) => plain k && proper v) ps
  end.

(** The errors of a tree the converter does not render. *)
Definition unsupported (err : CborError) : Prop :=
  err = CborErrorUnsupportedType \/ err = CborErrorJsonObjectKeyNotString.

(** Trees whose text strings, values and keys, hold unescaped characters
    only. *)
Definition unescaped_item (i : Item) : bool :=
  match i with
  | TextString s => string_forall unescaped s
  | _ => true
  end.

Fixpoint unescaped_strings (d : Data) : bool :=
  match d with
  | Scalar i => unescaped_item i
  | Array es => forallb unescaped_strings es
  | Map ps => forallb (fun '(k, v) => unescaped_item k && unescaped_strings v) ps
  end.

(** The items [l] are in the stream at position [p]. *)
Definition occurs (items : list Item) (p : nat) (l : list Item) : Prop :=
  exists pre post, items = pre ++ l ++ post /\ List.length pre = p.

(** A sample: a map with a text key and a stringified key, an array, a
    nested map, strings and numbers. *)
Definition sample : Data :=
  Map [(TextString "a",
        Array [Scalar (Integer false 1); Scalar (Integer true 1);
               Map [(TextString "b", Scalar (Double (S754_finite false 7881299347898368 (-51))))]]);
       (Integer false 42, Array []);
       (TextString "s", Scalar (ByteString "hi"));
       (TextString "t", Scalar (TextString "x"))].

(** Samples the converter does not render: an array with a tag in a
    map, and a map with an integer key. *)
Definition sample_with_tag : Data :=
  Map [(TextString "a", Array [Scalar (Integer false 1); Scalar (Tag 1)])].
Definition sample_with_integer_key : Data :=
  Array [Map [(Integer false 42, Scalar Null)]].

End Data.


(** The brackets of a container. *)
Definition open_bracket (type : CborType) : ascii :=
  if CborType_eqb type CborArrayType then "["%char else "{"%char.
Definition close_bracket (type : CborType) : ascii :=
  if CborType_eqb type CborArrayType then "]"%char else "}"%char.

(** The three bytes 00 10 83. *)
Definition bytes_00_10_83 : string :=
  String "000" (String "016" (String "131" EmptyString)).

(** Sample streams of items. *)
Module Samples.
Import Items.


Definition map_with_key_42 : list Item :=
  [MapOf 1; Integer false 42; Integer false 1].

Definition map_with_half_float_key : list Item :=
  [MapOf 1; HalfFloat 15360; Integer false 1].

(** An array header that promises an element the stream does not hold,
    and an array whose second element is a tag. *)
Definition truncated_array : list Item := [ArrayOf 1].
Definition array_with_tag : list Item :=
  [ArrayOf 3; Integer true 0; Tag 1; Integer true 0].

(** The double nearest to 0.1. *)
Definition double_0_1 : double := S754_finite false 7205759403792794 (-56).

(** The double -3.0. *)
Definition double_minus_3 : double :=
  S754_finite true 6755399441055744 (-51).

(** The float 1.5. *)
Definition float_1_5 : spec_float := S754_finite false 12582912 (-23).

Definition text_a_nul_b : string := String "a" (String NUL "b").

(** A text with a double quote in it. *)
Definition text_with_quote : string := String "a" (String dquote "b").

(** An array that promises two elements and holds a byte string only. *)
Definition truncated_after_bytes : list Item := [ArrayOf 2; ByteString "x"].

End Samples.

(** * Properties *)

(** ** The stream and the heap *)

Lemma fwrite_ok s w k : can_write (S k) w = true ->
  fwrite s w = Ret (Z.of_nat (String.length s)) (put s w)
  /\ can_write k (put s w) = true.
Proof.
  unfold can_write, fwrite, put.
  destruct s as [|c s]; destruct w as [[wr [m|]] h];
    cbn [out writes_left written heap option_map]; auto.
  - intros Hk. split; [reflexivity|].
    apply Nat.leb_le in Hk. apply Nat.leb_le. lia.
  - destruct m; [discriminate|]. intros Hk. split; [reflexivity|].
    apply Nat.leb_le in Hk. apply Nat.leb_le. cbn [pred]. lia.
Qed.

Lemma fwrite_fail s w : s <> EmptyString -> writes_left (out w) = Some O ->
  fwrite s w = Ret (-1) w.
Proof.
  unfold fwrite. intros Hs ->. destruct s; [congruence|reflexivity].
Qed.

Lemma malloc_ok n w k : can_alloc (S k) w = true ->
  malloc n w = Ret (Some (fresh_block w n)) (took w)
  /\ can_alloc k (took w) = true.
Proof.
  unfold can_alloc, malloc, took, fresh_block.
  destruct w as [o [[m|] f b]]; simpl.
  - destruct m; simpl; [discriminate|]. intros Hk. split; [reflexivity|].
    apply Nat.leb_le in Hk. apply Nat.leb_le. lia.
  - auto.
Qed.

Lemma malloc_fail n w : allocs_left (heap w) = Some O ->
  malloc n w = Ret None w.
Proof. unfold malloc. intros ->. reflexivity. Qed.

Lemma can_write_took k w : can_write k (took w) = can_write k w.
Proof. reflexivity. Qed.

Lemma can_alloc_put k s w : can_alloc k (put s w) = can_alloc k w.
Proof. reflexivity. Qed.

Lemma can_write_le k k' w : (k' <= k)%nat ->
  can_write k w = true -> can_write k' w = true.
Proof.
  unfold can_write. destruct (writes_left (out w)); auto.
  intros Hk Hw. apply Nat.leb_le in Hw. apply Nat.leb_le. lia.
Qed.

Lemma length_fresh_block w n : List.length (fresh_block w n) = Z.to_nat n.
Proof. unfold fresh_block. rewrite length_map, length_seq. reflexivity. Qed.

(** ** Memory blocks and bit operations *)

Lemma load_ok buf i w : 0 <= i < Z.of_nat (List.length buf) ->
  load buf i w = Ret (znth buf i) w.
Proof.
  intros Hi. unfold load, znth. destruct (i <? 0) eqn:E; [apply Z.ltb_lt in E; lia|].
  destruct (nth_error buf (Z.to_nat i)) eqn:E2.
  - rewrite (nth_error_nth _ _ _ E2). reflexivity.
  - apply nth_error_None in E2. lia.
Qed.

Lemma length_update l i v : List.length (update l i v) = List.length l.
Proof. revert i; induction l; destruct i; simpl; auto. Qed.

Lemma nth_update l i v j : (i < List.length l)%nat ->
  nth j (update l i v) 0 = if Nat.eqb j i then v else nth j l 0.
Proof.
  revert i j; induction l; intros i j Hi; simpl in Hi; [lia|].
  destruct i, j; simpl; auto. apply IHl. lia.
Qed.

Lemma store_ok buf i v w : 0 <= i < Z.of_nat (List.length buf) ->
  store buf i v w = Ret (update buf (Z.to_nat i) (uint8 v)) w.
Proof.
  intros Hi. unfold store.
  replace ((0 <=? i) && (i <? Z.of_nat (List.length buf))) with true; [reflexivity|].
  symmetry. apply andb_true_iff. split; [apply Z.leb_le|apply Z.ltb_lt]; lia.
Qed.

Lemma znth_update buf i v j : 0 <= i < Z.of_nat (List.length buf) -> 0 <= j ->
  znth (update buf (Z.to_nat i) v) j = if j =? i then v else znth buf j.
Proof.
  intros Hi Hj. unfold znth. rewrite nth_update by lia.
  destruct (j =? i) eqn:E.
  - apply Z.eqb_eq in E. subst. rewrite Nat.eqb_refl. reflexivity.
  - apply Z.eqb_neq in E. replace (Nat.eqb (Z.to_nat j) (Z.to_nat i)) with false; auto.
    symmetry. apply Nat.eqb_neq. lia.
Qed.

Lemma byte_of_char_range c : 0 <= byte_of_char c < 256.
Proof.
  unfold byte_of_char. pose proof (N_ascii_bounded c). lia. 
Qed.

Lemma char_at_range a i : 0 <= char_at a i < 256.
Proof.
  unfold char_at. generalize (Z.to_nat i). induction (a); intros n; simpl.
  - destruct n; lia.
  - destruct n; [apply byte_of_char_range|apply IHs].
Qed.

Lemma uint8_small v : 0 <= v < 256 -> uint8 v = v.
Proof. intros. unfold uint8. apply Z.mod_small. lia. Qed.

(* bit ops *)
Lemma land_shiftl_small a b k : 0 <= b < 2 ^ k -> 0 <= k ->
  Z.land (Z.shiftl a k) b = 0.
Proof.
  intros Hb Hk. apply Z.bits_inj'; intros n Hn.
  rewrite Z.land_spec, Z.bits_0.
  destruct (Z.lt_ge_cases n k).
  - rewrite Z.shiftl_spec_low by lia. reflexivity.
  - destruct (Z.eq_dec b 0) as [->|Hb0].
    + rewrite Z.bits_0. apply andb_false_r.
    + rewrite (Z.bits_above_log2 b n); [apply andb_false_r| lia |].
      assert (Z.log2 b < k) by (apply Z.log2_lt_pow2; lia). lia.
Qed.

Lemma lor_disjoint_add a b k : 0 <= b < 2 ^ k -> 0 <= k ->
  Z.lor (Z.shiftl a k) b = a * 2 ^ k + b.
Proof.
  intros Hb Hk.
  rewrite <- Z.lxor_lor, <- Z.add_nocarry_lxor, Z.shiftl_mul_pow2;
    auto using land_shiftl_small.
Qed.



Lemma group3 a b c : 0 <= b < 256 -> 0 <= c < 256 ->
  Z.lor (Z.lor (Z.shiftl a 16) (Z.shiftl b 8)) c = a * 65536 + b * 256 + c.
Proof.
  intros Hb Hc.
  rewrite <- Z.lor_assoc, (lor_disjoint_add b c 8) by lia.
  rewrite (lor_disjoint_add a _ 16) by lia. lia.
Qed.

Lemma group2 a b : 0 <= b < 256 ->
  Z.lor (Z.shiftl a 16) (Z.shiftl b 8) = a * 65536 + b * 256.
Proof.
  intros Hb. rewrite (Z.shiftl_mul_pow2 b 8) by lia.
  rewrite (lor_disjoint_add a _ 16) by lia. lia.
Qed.

Lemma sextet_bits alphabet g k : 0 <= k ->
  char_at alphabet (Z.land (Z.shiftr g (6 * k)) 63) = sextet alphabet g k.
Proof.
  intros Hk. unfold sextet. change 63 with (Z.ones 6).
  rewrite Z.land_ones, Z.shiftr_div_pow2 by lia.
  rewrite Z.pow_mul_r by lia. reflexivity.
Qed.

Lemma sextet_bits0 alphabet g :
  char_at alphabet (Z.land g 63) = sextet alphabet g 0.
Proof.
  unfold sextet. change 63 with (Z.ones 6).
  rewrite Z.land_ones by lia. rewrite Z.pow_0_r, Z.div_1_r. reflexivity.
Qed.

Lemma znth_cons_pos x l j : 0 < j -> znth (x :: l) j = znth l (j - 1).
Proof.
  intros. unfold znth. replace (Z.to_nat j) with (S (Z.to_nat (j - 1))) by lia. reflexivity.
Qed.
Lemma znth_cons_0 x l : znth (x :: l) 0 = x.
Proof. reflexivity. Qed.

Ltac eqb_cases :=
  repeat match goal with
         | |- context [?x =? ?y] => destruct (Z.eqb_spec x y); try lia
         end.


Ltac run_mem :=
  repeat first
    [ rewrite load_ok by (rewrite ?length_update; lia)
    | rewrite store_ok by (rewrite ?length_update; lia)
    | progress (unfold bind at 1)
    | progress (cbv beta iota)
    | progress (unfold ret at 1) ].

Lemma base64_loop_S fuel alphabet buf n out_ in_ :
  base64_loop (S fuel) alphabet buf n out_ in_ =
  if 3 <=? n then
        in0 <- load buf in_ ;;
        in1 <- load buf (in_ + 1) ;;
        in2 <- load buf (in_ + 2) ;;
        let val := Z.lor (Z.lor (Z.shiftl in0 16) (Z.shiftl in1 8)) in2 in
        buf <- store buf out_
                 (char_at alphabet (Z.land (Z.shiftr val 18) 63)) ;;
        buf <- store buf (out_ + 1)
                 (char_at alphabet (Z.land (Z.shiftr val 12) 63)) ;;
        buf <- store buf (out_ + 2)
                 (char_at alphabet (Z.land (Z.shiftr val 6) 63)) ;;
        buf <- store buf (out_ + 3)
                 (char_at alphabet (Z.land val 63)) ;;
        base64_loop fuel alphabet buf (n - 3) (out_ + 4) (in_ + 3)
  else ret (buf, n, out_, in_).
Proof. reflexivity. Qed.

(** ** The base64 encoder works in place *)

Lemma bytes_ok_cons a bs : bytes_ok (a :: bs) -> 0 <= a < 256 /\ bytes_ok bs.
Proof. intros Hx. inversion Hx; auto. Qed.

Lemma encode_in_place alphabet : forall fuel bs buf out_ in_ w,
  (List.length bs <= fuel)%nat ->
  bytes_ok bs ->
  0 <= out_ ->
  Z.of_nat (List.length bs) + 10 <= 3 * (in_ - out_) ->
  in_ + Z.of_nat (List.length bs) < Z.of_nat (List.length buf) ->
  (forall j, 0 <= j < Z.of_nat (List.length bs) -> znth buf (in_ + j) = znth bs j) ->
  exists buf',
    encode_loop_tail fuel alphabet buf (Z.of_nat (List.length bs)) out_ in_ w = Ret buf' w /\
    List.length buf' = List.length buf /\
    (forall j, 0 <= j < out_ -> znth buf' j = znth buf j) /\
    (forall j, 0 <= j < Z.of_nat (List.length (base64_text alphabet bs ++ [0])) ->
       znth buf' (out_ + j) = znth (base64_text alphabet bs ++ [0]) j).
Proof.
  induction fuel as [|fuel IH]; intros bs buf out_ in_ w Hfuel Hok Hout Hgap Hin Hdata.
  - destruct bs; [|simpl in Hfuel; lia]. simpl List.length in *.
    unfold encode_loop_tail. simpl. unfold bind, ret, base64_tail. simpl.
    rewrite store_ok by lia. eexists; split; [reflexivity|].
    rewrite length_update. split; [reflexivity|]. split.
    + intros j Hj. rewrite znth_update by lia. eqb_cases; try reflexivity.
    + intros j Hj. assert (j = 0) by lia. subst. rewrite Z.add_0_r, znth_update by lia.
      rewrite Z.eqb_refl. reflexivity.
  - destruct bs as [|a [|b [|c bs]]].
    + (* empty *)
      simpl List.length in *.
      unfold encode_loop_tail. simpl. unfold bind, ret, base64_tail. simpl.
      rewrite store_ok by lia. eexists; split; [reflexivity|].
      rewrite length_update. split; [reflexivity|]. split.
      * intros j Hj. rewrite znth_update by lia. eqb_cases; try reflexivity.
      * intros j Hj. assert (j = 0) by lia. subst. rewrite Z.add_0_r, znth_update by lia.
        rewrite Z.eqb_refl. reflexivity.
    + (* one byte *)
      simpl List.length in *. change (Z.of_nat 1) with 1 in *.
      pose proof (Hdata 0 ltac:(lia)) as Ha. rewrite Z.add_0_r, znth_cons_0 in Ha.
      apply bytes_ok_cons in Hok. destruct Hok as [Hra _].
      unfold encode_loop_tail. simpl base64_loop. unfold bind at 1. unfold ret at 1.
      unfold base64_tail. change (negb (1 =? 0)) with true. change (negb (2 =? 0)) with true. cbv iota.
      change (1 =? 2) with false. run_mem.
      eexists; split; [reflexivity|].
      rewrite !length_update. split; [reflexivity|]. split.
      * intros j Hj. rewrite !znth_update by (rewrite ?length_update; lia).
        eqb_cases; try reflexivity.
      * simpl List.length. intros j Hj.
        rewrite !znth_update by (rewrite ?length_update; lia).
        rewrite Ha. rewrite !uint8_small by (try apply char_at_range; lia).
        change 18 with (6 * 3). change 12 with (6 * 2).
        rewrite !sextet_bits by lia. rewrite Z.shiftl_mul_pow2 by lia. change (2 ^ 16) with 65536.
        assert (j = 0 \/ j = 1 \/ j = 2 \/ j = 3 \/ j = 4) as Hc by lia.
        destruct Hc as [->|[->|[->|[->| ->]]]]; eqb_cases; try reflexivity.
    + (* two bytes *)
      simpl List.length in *. change (Z.of_nat 2) with 2 in *.
      pose proof (Hdata 0 ltac:(lia)) as Ha. rewrite Z.add_0_r, znth_cons_0 in Ha.
      pose proof (Hdata 1 ltac:(lia)) as Hb. change (znth [a; b] 1) with b in Hb.
      apply bytes_ok_cons in Hok. destruct Hok as [Hra Hok].
      apply bytes_ok_cons in Hok. destruct Hok as [Hrb _].
      unfold encode_loop_tail. simpl base64_loop. unfold bind at 1. unfold ret at 1.
      unfold base64_tail. change (negb (1 =? 0)) with true. change (negb (2 =? 0)) with true. cbv iota.
      change (2 =? 2) with true. run_mem.
      eexists; split; [reflexivity|].
      rewrite !length_update. split; [reflexivity|]. split.
      * intros j Hj. rewrite !znth_update by (rewrite ?length_update; lia).
        eqb_cases; try reflexivity.
      * simpl List.length. intros j Hj.
        rewrite !znth_update by (rewrite ?length_update; lia).
        replace (in_ + 1 =? out_ + 3) with false by (symmetry; apply Z.eqb_neq; lia).
        replace (in_ + 1 =? out_ + 4) with false by (symmetry; apply Z.eqb_neq; lia).
        rewrite Ha, Hb. rewrite !uint8_small by (try apply char_at_range; lia).
        rewrite group2 by lia.
        change 18 with (6 * 3). change 12 with (6 * 2). change 6 with (6 * 1) at 3.
        rewrite !sextet_bits by lia.
        assert (j = 0 \/ j = 1 \/ j = 2 \/ j = 3 \/ j = 4) as Hc by lia.
        destruct Hc as [->|[->|[->|[->| ->]]]]; eqb_cases; try reflexivity.
    + (* three bytes or more: one turn of the loop *)
      assert (Hn : Z.of_nat (List.length (a :: b :: c :: bs)) = Z.of_nat (List.length bs) + 3)
        by (simpl List.length; lia).
      rewrite Hn in *.
      pose proof (Hdata 0 ltac:(lia)) as Ha. rewrite Z.add_0_r, znth_cons_0 in Ha.
      pose proof (Hdata 1 ltac:(lia)) as Hb. change (znth (a :: b :: c :: bs) 1) with b in Hb.
      pose proof (Hdata 2 ltac:(lia)) as Hc. change (znth (a :: b :: c :: bs) 2) with c in Hc.
      apply bytes_ok_cons in Hok. destruct Hok as [Hra Hok].
      apply bytes_ok_cons in Hok. destruct Hok as [Hrb Hok].
      apply bytes_ok_cons in Hok. destruct Hok as [Hrc Hok].
      unfold encode_loop_tail. rewrite base64_loop_S.
      replace (3 <=? Z.of_nat (List.length bs) + 3) with true by (symmetry; apply Z.leb_le; lia).
      run_mem. cbv zeta.
      rewrite Ha, Hb, Hc. rewrite !uint8_small by (try apply char_at_range; lia).
      rewrite group3 by lia.
      change 18 with (6 * 3). change 12 with (6 * 2). change 6 with (6 * 1).
      rewrite !sextet_bits by lia. rewrite sextet_bits0.
      set (g := a * 65536 + b * 256 + c).
      set (buf1 := update _ _ (sextet alphabet g 0)).
      replace (Z.of_nat (List.length bs) + 3 - 3) with (Z.of_nat (List.length bs)) by lia.
      assert (Hlen1 : List.length buf1 = List.length buf) by (unfold buf1; rewrite !length_update; reflexivity).
      destruct (IH bs buf1 (out_ + 4) (in_ + 3) w) as (buf' & Hrun & Hlen & Hlow & Henc).
      * simpl in Hfuel. lia.
      * exact Hok.
      * lia.
      * lia.
      * rewrite Hlen1. lia.
      * intros j Hj. unfold buf1. rewrite !znth_update by (rewrite ?length_update; lia).
        eqb_cases. rewrite <- Z.add_assoc. rewrite Hdata by lia.
        rewrite !znth_cons_pos by lia. f_equal. lia.
      * exists buf'. split; [unfold encode_loop_tail, bind in Hrun; exact Hrun|].
        split; [congruence|]. split.
        -- intros j Hj. rewrite Hlow by lia. unfold buf1.
           rewrite !znth_update by (rewrite ?length_update; lia). eqb_cases; try reflexivity.
        -- intros j Hj. 
           change (base64_text alphabet (a :: b :: c :: bs))
             with (sextet alphabet g 3 :: sextet alphabet g 2 :: sextet alphabet g 1 :: sextet alphabet g 0 :: base64_text alphabet bs) in *.
           simpl List.length in Hj. 
           destruct (Z_lt_ge_dec j 4) as [Hj4|Hj4].
           ++ rewrite Hlow by lia. unfold buf1.
              rewrite !znth_update by (rewrite ?length_update; lia).
              assert (j = 0 \/ j = 1 \/ j = 2 \/ j = 3) as Hcase by lia.
              destruct Hcase as [->|[->|[->| ->]]]; eqb_cases; try reflexivity.
           ++ replace (out_ + j) with (out_ + 4 + (j - 4)) by lia.
              rewrite Henc by lia.
              simpl app. rewrite !znth_cons_pos by lia. f_equal. lia.
Qed.

Lemma bytes_ok_of_string s : bytes_ok (bytes_of_string s).
Proof.
  induction s; simpl; constructor; auto using byte_of_char_range.
Qed.

Lemma length_bytes_of_string s : List.length (bytes_of_string s) = String.length s.
Proof. induction s; simpl; auto. Qed.

Lemma store_bytes_ok : forall bs buf i w,
  bytes_ok bs -> 0 <= i -> i + Z.of_nat (List.length bs) <= Z.of_nat (List.length buf) ->
  exists buf',
    store_bytes buf i bs w = Ret buf' w /\
    List.length buf' = List.length buf /\
    (forall j, 0 <= j < Z.of_nat (List.length bs) -> znth buf' (i + j) = znth bs j) /\
    (forall j, 0 <= j -> j < i \/ i + Z.of_nat (List.length bs) <= j -> znth buf' j = znth buf j).
Proof.
  induction bs as [|b bs IH]; intros buf i w Hok Hi Hlen.
  - exists buf. simpl. split; [reflexivity|]. split; [reflexivity|]. split; [lia|auto].
  - apply bytes_ok_cons in Hok. destruct Hok as [Hb Hok].
    simpl List.length in *. simpl store_bytes. unfold bind. rewrite store_ok by lia.
    destruct (IH (update buf (Z.to_nat i) (uint8 b)) (i + 1) w Hok) as (buf' & Hrun & Hl & Hin & Hout).
    + lia.
    + rewrite length_update. lia.
    + exists buf'. split; [exact Hrun|]. rewrite length_update in Hl. split; [exact Hl|]. split.
      * intros j Hj. destruct (Z.eq_dec j 0) as [->|Hj0].
        -- rewrite Z.add_0_r, Hout by lia. rewrite znth_update by lia.
           rewrite Z.eqb_refl. apply uint8_small; exact Hb.
        -- replace (i + j) with (i + 1 + (j - 1)) by lia. rewrite Hin by lia.
           rewrite znth_cons_pos by lia. reflexivity.
      * intros j Hj0 Hj. rewrite Hout by lia. rewrite znth_update by lia.
        eqb_cases; try reflexivity.
Qed.

Lemma length_base64_text alphabet : forall fuel bs, (List.length bs <= fuel)%nat ->
  Z.of_nat (List.length (base64_text alphabet bs)) = 4 * ((Z.of_nat (List.length bs) + 2) / 3).
Proof.
  induction fuel as [|fuel IH]; intros bs Hf.
  - destruct bs; [reflexivity|simpl in Hf; lia].
  - destruct bs as [|a [|b [|c bs]]]; try reflexivity.
    change (base64_text alphabet (a :: b :: c :: bs))
      with (sextet alphabet (a * 65536 + b * 256 + c) 3 :: sextet alphabet (a * 65536 + b * 256 + c) 2
            :: sextet alphabet (a * 65536 + b * 256 + c) 1 :: sextet alphabet (a * 65536 + b * 256 + c) 0
            :: base64_text alphabet bs).
    simpl List.length in *.
    replace (Z.of_nat (S (S (S (List.length bs)))) + 2)
      with (Z.of_nat (List.length bs) + 2 + 1 * 3) by lia.
    rewrite Z.div_add by lia.
    specialize (IH bs ltac:(lia)). lia.
Qed.

Lemma firstn_znth_ext : forall (l1 l2 : list Z),
  (List.length l2 <= List.length l1)%nat ->
  (forall j, 0 <= j < Z.of_nat (List.length l2) -> znth l1 j = znth l2 j) ->
  firstn (List.length l2) l1 = l2.
Proof.
  induction l1 as [|x l1 IH]; intros l2 Hlen Hnth.
  - destruct l2; [reflexivity|simpl in Hlen; lia].
  - destruct l2 as [|y l2]; [reflexivity|].
    simpl. f_equal.
    + apply (Hnth 0). simpl List.length. lia.
    + apply IH; [simpl in Hlen; lia|].
      intros j Hj. specialize (Hnth (j + 1)).
      rewrite !znth_cons_pos in Hnth by lia.
      replace (j + 1 - 1) with j in Hnth by lia. apply Hnth. simpl List.length. lia.
Qed.

Section Dump.
Context {St : Type} `{CborParser St} `{Target}.

Lemma generic_dump_base64_ok old (it next : CborValue St) alphabet s w :
  cbor_value_calculate_string_length it = (CborNoError, Z.of_nat (String.length s)) ->
  cbor_value_string_contents it = (CborNoError, s, next) ->
  Z.of_nat (String.length s) < 2 ^ 62 ->
  can_alloc 1 w = true ->
  exists buf,
    generic_dump_base64 old it alphabet w
      = Ret (CborNoError, Chars (string_of_bytes buf), next) (took w) /\
    firstn (List.length (base64_text alphabet (bytes_of_string s)) + 1) buf
      = base64_text alphabet (bytes_of_string s) ++ [0].
Proof.
  intros Hlen Hcont Hsmall Halloc.
  remember (Z.of_nat (String.length s)) as n eqn:Hn.
  assert (Hn0 : 0 <= n) by lia.
  unfold generic_dump_base64. rewrite Hlen. cbv beta iota. change (is_error CborNoError) with false. cbv iota.
  unfold size_t.
  assert (Hq : n + 3 <= 3 * ((n + 5) / 3) <= n + 5)
    by (Z.to_euclidean_division_equations; lia).
  assert (H62 : 2 ^ 62 * 4 = 2 ^ 64) by reflexivity.
  rewrite (Z.mod_small n) by lia.
  rewrite (Z.mod_small (n + 5)) by lia.
  rewrite (Z.mod_small ((n + 5) / 3 * 4)) by lia.
  rewrite (Z.mod_small ((n + 5) / 3 * 4 + 1)) by lia.
  rewrite (Z.mod_small (n + 1)) by lia.
  set (len := (n + 5) / 3 * 4).
  assert (Hlen3 : n + 12 <= 3 * len) by (unfold len; lia).
  unfold bind at 1.
  destruct (malloc_ok (len + 1) w 0 Halloc) as [Hm _]. rewrite Hm.
  set (blk := fresh_block w (len + 1)).
  assert (Hblk : Z.of_nat (List.length blk) = len + 1)
    by (unfold blk; rewrite length_fresh_block; unfold len; lia).
  unfold bind at 1. unfold cbor_value_copy_byte_string. rewrite Hcont.
  change (is_error CborNoError) with false. cbv iota.
  rewrite <- ?Hn.
  replace (n + 1 <? n) with false by (symmetry; apply Z.ltb_ge; lia).
  replace (n <? n + 1) with true by (symmetry; apply Z.ltb_lt; lia).
  pose proof (bytes_ok_of_string s) as Hbs.
  pose proof (length_bytes_of_string s) as Hbl.
  destruct (store_bytes_ok (bytes_of_string s) blk (len - n) (took w) Hbs)
    as (buf1 & Hrun1 & Hl1 & Hin1 & Hout1); [lia| rewrite Hbl, <- Hn; unfold len; lia |].
  unfold bind at 1. rewrite Hrun1.
  unfold bind at 1. rewrite store_ok by (rewrite Hl1; lia).
  unfold ret at 1. cbv beta iota. change (is_error CborNoError) with false. cbv iota.
  set (buf2 := update buf1 _ _).
  assert (Hl2 : List.length buf2 = List.length blk)
    by (unfold buf2; rewrite length_update; exact Hl1).
  destruct (encode_in_place alphabet (Z.to_nat n) (bytes_of_string s) buf2 0 (len - n) (took w))
    as (buf' & Hrun & Hl' & _ & Henc).
  - rewrite Hbl. lia.
  - exact Hbs.
  - lia.
  - rewrite Hbl. rewrite <- ?Hn. lia.
  - rewrite Hbl, Hl2. rewrite <- ?Hn. lia.
  - intros j Hj. unfold buf2. rewrite znth_update by (rewrite ?Hl1; lia).
    rewrite Hbl in Hj. rewrite <- Hn in Hj.
    eqb_cases. apply Hin1. rewrite Hbl. rewrite <- ?Hn. lia.
  - rewrite Hbl in Hrun. rewrite <- Hn in Hrun.
    unfold encode_loop_tail, bind in Hrun.
    exists buf'. split.
    + unfold bind.
      destruct (base64_loop (Z.to_nat n) alphabet buf2 n 0 (len - n) (took w))
        as [[[[b1 n1] o1] i1] w1| |]; try discriminate.
      rewrite Hrun. reflexivity.
    + rewrite Nat.add_comm.
      change (1 + List.length (base64_text alphabet (bytes_of_string s)))%nat
        with (S (List.length (base64_text alphabet (bytes_of_string s)))).
      replace (S (List.length (base64_text alphabet (bytes_of_string s))))
        with (List.length (base64_text alphabet (bytes_of_string s) ++ [0]))
        by (rewrite length_app; simpl; lia).
      apply firstn_znth_ext.
      * rewrite length_app. simpl List.length.
        pose proof (length_base64_text alphabet _ (bytes_of_string s) (Nat.le_refl _)) as Ht.
        rewrite Hbl in Ht. rewrite <- Hn in Ht.
        assert (3 * ((n + 2) / 3) <= n + 2) by (Z.to_euclidean_division_equations; lia).
        lia.
      * intros j Hj. rewrite <- (Henc j Hj). reflexivity.
Qed.
End Dump.

(** ** C strings *)

Lemma c_str_app_nul s r : no_nul s = true ->
  c_str (s ++ String NUL r) = Some s.
Proof.
  induction s as [|c s IH]; simpl; intros Hs.
  - reflexivity.
  - apply andb_true_iff in Hs. destruct Hs as [Hc Hs].
    destruct (Ascii.eqb c NUL); [discriminate|].
    rewrite IH by exact Hs. reflexivity.
Qed.

Lemma string_app_assoc (a b c : string) :
  ((a ++ b) ++ c = a ++ (b ++ c))%string.
Proof. induction a; simpl; congruence. Qed.

Lemma ltb_length_false s : (Z.of_nat (String.length s) <? 0) = false.
Proof. apply Z.ltb_ge. lia. Qed.

Lemma no_nul_app a b : no_nul (a ++ b) = no_nul a && no_nul b.
Proof.
  induction a as [|c a IH]; simpl; [reflexivity|].
  rewrite IH, andb_assoc. reflexivity.
Qed.

(** A write that succeeds, inside a computation. *)
Lemma bind_fprintf_ok {A} s (k : Z -> C A) w n :
  can_write (S n) w = true ->
  bind (fprintf s) k w = k (Z.of_nat (String.length s)) (put s w).
Proof.
  intros Hw. unfold bind, fprintf. destruct (fwrite_ok s w n Hw) as [-> _].
  reflexivity.
Qed.

Lemma bind_fputc_ok {A} c (k : Z -> C A) w n :
  can_write (S n) w = true ->
  bind (fputc c) k w = k 1 (put (String c EmptyString) w).
Proof.
  intros Hw. unfold bind, fputc.
  destruct (fwrite_ok (String c EmptyString) w n Hw) as [-> _]. reflexivity.
Qed.

Lemma can_write_put s w n :
  can_write (S n) w = true -> can_write n (put s w) = true.
Proof. intros Hw. apply (fwrite_ok s w n Hw). Qed.

Lemma can_alloc_took w n :
  can_alloc (S n) w = true -> can_alloc n (took w) = true.
Proof. intros Hw. apply (malloc_ok 0 w n Hw). Qed.

Lemma strdup_ok s w n : can_alloc (S n) w = true ->
  strdup s w = Ret (Chars (s ++ String NUL EmptyString)) (took w).
Proof.
  intros Ha. unfold strdup, bind. destruct (malloc_ok (Z.of_nat (String.length s) + 1) w n Ha) as [-> _].
  reflexivity.
Qed.

Lemma asprintf_ok old s w n : can_alloc (S n) w = true ->
  asprintf old s w = Ret (Chars (s ++ String NUL EmptyString)) (took w).
Proof.
  intros Ha. unfold asprintf, bind. destruct (malloc_ok (Z.of_nat (String.length s) + 1) w n Ha) as [-> _].
  reflexivity.
Qed.


(** ** The formatted texts hold no NUL *)

Lemma digit_char_no_nul d : Ascii.eqb (digit_char d) NUL = false.
Proof.
  unfold digit_char. pose proof (Z.mod_pos_bound d 10 ltac:(lia)) as Hd.
  assert (Hc : d mod 10 = 0 \/ d mod 10 = 1 \/ d mod 10 = 2 \/ d mod 10 = 3
               \/ d mod 10 = 4 \/ d mod 10 = 5 \/ d mod 10 = 6
               \/ d mod 10 = 7 \/ d mod 10 = 8 \/ d mod 10 = 9) by lia.
  repeat (destruct Hc as [-> | Hc]; [reflexivity|]). rewrite Hc. reflexivity.
Qed.

Lemma no_nul_digits_fixed w : forall n, no_nul (digits_fixed w n) = true.
Proof.
  induction w as [|w IH]; intros n; simpl; [reflexivity|].
  rewrite no_nul_app, IH. simpl. rewrite digit_char_no_nul. reflexivity.
Qed.

Lemma no_nul_dec_uint n : no_nul (dec_uint n) = true.
Proof. apply no_nul_digits_fixed. Qed.

Lemma no_nul_dec z : no_nul (dec z) = true.
Proof.
  unfold dec. destruct (z <? 0); simpl; rewrite ?no_nul_dec_uint; reflexivity.
Qed.

Lemma no_nul_strip_zeros s : no_nul s = true -> no_nul (strip_zeros s) = true.
Proof.
  induction s as [|c s IH]; simpl; [reflexivity|]. intros Hs.
  apply andb_true_iff in Hs. destruct Hs as [Hc Hs].
  specialize (IH Hs). destruct (strip_zeros s).
  - destruct (Ascii.eqb c "0"); simpl; rewrite ?Hc; reflexivity.
  - change (no_nul (String c (String a s0)))
      with (negb (Ascii.eqb c NUL) && no_nul (String a s0)).
    rewrite Hc, IH. reflexivity.
Qed.

Lemma no_nul_point_frac s : no_nul s = true -> no_nul (point_frac s) = true.
Proof. destruct s; simpl; auto. Qed.

Lemma no_nul_exp_text X : no_nul (exp_text X) = true.
Proof.
  unfold exp_text. simpl. destruct (X <? 0), (Z.abs X <? 10); simpl;
    rewrite no_nul_dec_uint; reflexivity.
Qed.

Lemma no_nul_g_text P N X : no_nul (g_text P N X) = true.
Proof.
  unfold g_text.
  destruct ((-4 <=? X) && (X <? P)); [destruct (0 <=? X)|];
    simpl; rewrite ?no_nul_app, ?no_nul_dec_uint, ?no_nul_exp_text;
    rewrite ?no_nul_point_frac; auto using no_nul_strip_zeros, no_nul_digits_fixed.
Qed.

Lemma no_nul_sign_text s : no_nul (sign_text s) = true.
Proof. destruct s; reflexivity. Qed.

Lemma no_nul_printf_g P x : no_nul (printf_g P x) = true.
Proof.
  destruct x as [s|s| |s m e]; simpl; rewrite ?no_nul_app, ?no_nul_sign_text; try reflexivity.
  destruct (sig_digits P (numer m e) (denom e)) as [N X].
  rewrite no_nul_app, no_nul_sign_text, no_nul_g_text. reflexivity.
Qed.

Lemma char_of_byte_0 : char_of_byte 0 = NUL.
Proof. reflexivity. Qed.

Lemma string_of_bytes_app a b :
  string_of_bytes (a ++ b) = (string_of_bytes a ++ string_of_bytes b)%string.
Proof. induction a; simpl; congruence. Qed.

Lemma c_str_app_some a b s : c_str a = Some s -> c_str (a ++ b) = Some s.
Proof.
  revert s. induction a as [|c a IH]; simpl; intros s; [discriminate|].
  destruct (Ascii.eqb c NUL); [auto|].
  destruct (c_str a) as [t|]; [|discriminate].
  rewrite (IH t eq_refl). auto.
Qed.

Lemma c_str_terminated l :
  c_str (string_of_bytes (l ++ [0])) = Some (c_string (l ++ [0])).
Proof.
  unfold c_string.
  assert (Hs : exists s, c_str (string_of_bytes (l ++ [0])) = Some s).
  { induction l as [|b l [s Hs]]; simpl.
    - eexists; reflexivity.
    - destruct (Ascii.eqb (char_of_byte b) NUL); [eexists; reflexivity|].
      rewrite Hs. eexists; reflexivity. }
  destruct Hs as [s Hs]. rewrite Hs. reflexivity.
Qed.

Lemma c_str_of_prefix buf l m :
  firstn m buf = l ++ [0] ->
  c_str (string_of_bytes buf) = Some (c_string (l ++ [0])).
Proof.
  intros Hf. rewrite <- (firstn_skipn m buf), Hf, string_of_bytes_app.
  apply c_str_app_some, c_str_terminated.
Qed.

(** ** The converter *)

Section ConverterFacts.

Context {St : Type} `{CborParser St} `{Target}.

Lemma dup_text_string_ok old (it next : CborValue St) s w n :
  cbor_value_string_contents it = (CborNoError, s, next) ->
  can_alloc (S n) w = true ->
  cbor_value_dup_text_string old it w
    = Ret (CborNoError, Chars (s ++ String NUL EmptyString), next) (took w).
Proof.
  intros Hc Ha. unfold cbor_value_dup_text_string. rewrite Hc.
  change (is_error CborNoError) with false. cbv iota.
  unfold bind. destruct (malloc_ok (Z.of_nat (String.length s) + 1) w n Ha) as [-> _].
  reflexivity.
Qed.

(** What [stringify_map_key] returns for the keys it formats. *)
Lemma stringify_map_key_formatted old (it : CborValue St) flags type w n :
  formatted_key type = true ->
  can_alloc (S n) w = true ->
  stringify_map_key old it flags type w
    = Ret (fst (cbor_value_advance_fixed it),
           Chars (key_text it type ++ String NUL EmptyString),
           snd (cbor_value_advance_fixed it)) (took w).
Proof.
  intros Hty Ha.
  destruct type; try discriminate Hty; unfold stringify_map_key, key_text.
  - (* integer *)
    destruct (cbor_value_is_unsigned_integer it).
    + unfold bind. rewrite (asprintf_ok _ _ _ n Ha). unfold ret.
      destruct (cbor_value_advance_fixed it). reflexivity.
    + cbv zeta. destruct (int64 (cbor_value_get_int64 it) <? 0);
        unfold bind; rewrite (asprintf_ok _ _ _ n Ha); unfold ret;
        destruct (cbor_value_advance_fixed it); reflexivity.
  - unfold bind. rewrite (asprintf_ok _ _ _ n Ha). unfold ret.
    destruct (cbor_value_advance_fixed it). reflexivity.
  - unfold bind. rewrite (strdup_ok _ _ n Ha). unfold ret.
    destruct (cbor_value_advance_fixed it); destruct (cbor_value_get_boolean it); reflexivity.
  - unfold bind. rewrite (strdup_ok _ _ n Ha). unfold ret.
    destruct (cbor_value_advance_fixed it). reflexivity.
  - unfold bind. rewrite (strdup_ok _ _ n Ha). unfold ret.
    destruct (cbor_value_advance_fixed it). reflexivity.
  - destruct (isnan _ || isinf _); unfold bind;
      [rewrite (strdup_ok _ _ n Ha) | rewrite (asprintf_ok _ _ _ n Ha)];
      unfold ret; destruct (cbor_value_advance_fixed it); reflexivity.
  - destruct (isnan _ || isinf _); unfold bind;
      [rewrite (strdup_ok _ _ n Ha) | rewrite (asprintf_ok _ _ _ n Ha)];
      unfold ret; destruct (cbor_value_advance_fixed it); reflexivity.
Qed.

(** One turn of the loop of [map_to_json], up to the fetch of the key. *)
Lemma map_to_json_loop_S value fuel comma (it : CborValue St) flags w n :
  cbor_value_at_end it = false ->
  can_write (S n) w = true ->
  map_to_json_loop value (S fuel) comma it flags w =
    (let after fetched :=
       let '(err, key, it) := fetched in
       if is_error err then ret (err, it)
       else
         r <- fprintf_s (String dquote EmptyString) key (String dquote ":") ;;
         if r <? 0 then ret (CborErrorIO, it)
         else map_pair_rest value fuel it flags in
     if CborType_eqb (cbor_value_get_type it) CborTextStringType then
       fetched <- cbor_value_dup_text_string WildPtr it ;; after fetched
     else if negb (Z.land flags CborConvertStringifyMapKeys =? 0) then
       fetched <- stringify_map_key WildPtr it flags (cbor_value_get_type it) ;;
       after fetched
     else ret (CborErrorJsonObjectKeyNotString, it)) (put comma w).
Proof.
  intros Hend Hw. simpl map_to_json_loop. rewrite Hend. change (negb false) with true. cbv iota.
  rewrite (bind_fprintf_ok _ _ _ n Hw). rewrite ltb_length_false. reflexivity.
Qed.




Lemma value_to_json_container fuel (it : CborValue St) flags type :
  type = CborArrayType \/ type = CborMapType ->
  value_to_json (S fuel) it flags type =
    let '(err, recursed) := cbor_value_enter_container it in
    if is_error err then ret (err, set_ptr it (ptr recursed))
    else
      r <- fputc (open_bracket type) ;;
      if r <? 0 then ret (CborErrorIO, it)
      else
        '(err, recursed) <- contents_to_json fuel type recursed flags ;;
        if is_error err then ret (err, set_ptr it (ptr recursed))
        else
          r <- fputc (close_bracket type) ;;
          if r <? 0 then ret (CborErrorIO, it)
          else
            let '(err, it') := cbor_value_leave_container it recursed in
            if is_error err then ret (err, it')
            else ret (CborNoError, it').
Proof. intros [-> | ->]; reflexivity. Qed.

(** C9.  For an array or a map: when entering the container fails, and
    when the rendering of its contents fails, [value_to_json] returns that
    error with a cursor whose [ptr] is the [ptr] of the child cursor and
    whose other part is that of the parent cursor. *)
Theorem C9_cursor_resync fuel (it : CborValue St) flags type w :
  type = CborArrayType \/ type = CborMapType ->
  (forall err recursed,
     cbor_value_enter_container it = (err, recursed) ->
     is_error err = true ->
     exists it',
       value_to_json (S fuel) it flags type w = Ret (err, it') w
       /\ ptr it' = ptr recursed /\ rest it' = rest it)
  /\
  (forall recursed err recursed' w',
     cbor_value_enter_container it = (CborNoError, recursed) ->
     can_write 1 w = true ->
     contents_to_json fuel type recursed flags
       (put (String (open_bracket type) EmptyString) w)
       = Ret (err, recursed') w' ->
     is_error err = true ->
     exists it',
       value_to_json (S fuel) it flags type w = Ret (err, it') w'
       /\ ptr it' = ptr recursed' /\ rest it' = rest it).
Proof.
  intros Hty. rewrite (value_to_json_container _ _ _ _ Hty). split.
  - intros err recursed Henter Herr. rewrite Henter, Herr.
    exists (mkCborValue (ptr recursed) (rest it)).
    split; [reflexivity|split; reflexivity].
  - intros recursed err recursed' w' Henter Hw Hrun Herr.
    rewrite Henter. change (is_error CborNoError) with false. cbv iota.
    rewrite (bind_fputc_ok _ _ _ 0 Hw). change (1 <? 0) with false. cbv iota.
    unfold bind. rewrite Hrun, Herr.
    exists (mkCborValue (ptr recursed') (rest it)).
    split; [reflexivity|split; reflexivity].
Qed.

(** C10.  A text string with an embedded NUL: as a value and as a map
    key, only the characters before the first NUL are written between the
    quotes, and the cursor moves past the whole string (to the [next] the
    parser gives). *)
Theorem C10_text_with_nul value fuel comma (it next : CborValue St) flags
    pre post w :
  no_nul pre = true ->
  cbor_value_string_contents it
    = (CborNoError, (pre ++ String NUL post)%string, next) ->
  can_alloc 1 w = true ->
  (can_write 1 w = true ->
   value_to_json (S fuel) it flags CborTextStringType w
     = Ret (CborNoError, next) (put (quoted pre) (took w)))
  /\
  (cbor_value_at_end it = false ->
   cbor_value_get_type it = CborTextStringType ->
   can_write 2 w = true ->
   map_to_json_loop value (S fuel) comma it flags w
     = map_pair_rest value fuel next flags
         (put (String dquote (pre ++ String dquote ":")) (took (put comma w)))).
Proof.
  intros Hpre Hcont Ha.
  assert (Hstr : c_str ((pre ++ String NUL post) ++ String NUL EmptyString)
                 = Some pre).
  { rewrite string_app_assoc. apply c_str_app_nul. exact Hpre. }
  split.
  - intros Hw. simpl value_to_json. unfold bind at 1.
    rewrite (dup_text_string_ok _ _ _ _ _ 0 Hcont Ha).
    change (is_error CborNoError) with false. cbv iota.
    unfold fprintf_s. rewrite Hstr.
    rewrite (bind_fprintf_ok _ _ (took w) 0 Hw). rewrite ltb_length_false. reflexivity.
  - intros Hend Hty Hw.
    rewrite (map_to_json_loop_S _ _ _ _ _ _ 1 Hend Hw). cbv zeta.
    rewrite Hty. change (CborType_eqb CborTextStringType CborTextStringType) with true.
    cbv iota. unfold bind at 1.
    rewrite (dup_text_string_ok _ _ _ _ (put comma w) 0 Hcont Ha).
    change (is_error CborNoError) with false. cbv iota.
    unfold fprintf_s. rewrite Hstr.
    rewrite (bind_fprintf_ok _ _ (took (put comma w)) 0 (can_write_put _ _ _ Hw)).
    rewrite ltb_length_false. reflexivity.
Qed.

Lemma no_nul_key_text (it : CborValue St) type : no_nul (key_text it type) = true.
Proof.
  destruct type; unfold key_text; try reflexivity.
  - destruct (cbor_value_is_unsigned_integer it); [apply no_nul_dec|].
    cbv zeta. destruct (_ <? 0); [apply no_nul_dec|].
    change (no_nul (String "-" ?x)) with (no_nul x). simpl. apply no_nul_dec.
  - rewrite !no_nul_app, no_nul_dec. reflexivity.
  - destruct (cbor_value_get_boolean it); reflexivity.
  - destruct (_ || _); [reflexivity|apply no_nul_printf_g].
  - destruct (_ || _); [reflexivity|apply no_nul_printf_g].
Qed.

(** One turn of [map_to_json] on a key that is not a text string, with
    the stringify flag set. *)
Lemma map_stringified_key value fuel comma (it : CborValue St) flags w n :
  cbor_value_at_end it = false ->
  CborType_eqb (cbor_value_get_type it) CborTextStringType = false ->
  Z.land flags CborConvertStringifyMapKeys <> 0 ->
  can_write (S n) w = true ->
  map_to_json_loop value (S fuel) comma it flags w =
    match stringify_map_key WildPtr it flags (cbor_value_get_type it)
            (put comma w) with
    | Ret (err, key, it') w' =>
        if is_error err then Ret (err, it') w'
        else
          (r <- fprintf_s (String dquote EmptyString) key (String dquote ":") ;;
           if r <? 0 then ret (CborErrorIO, it')
           else map_pair_rest value fuel it' flags) w'
    | Fault => Fault
    | OutOfFuel => OutOfFuel
    end.
Proof.
  intros Hend Hty Hf Hw. rewrite (map_to_json_loop_S _ _ _ _ _ _ n Hend Hw).
  cbv zeta. rewrite Hty. apply Z.eqb_neq in Hf. rewrite Hf.
  change (negb false) with true. cbv iota. unfold bind at 1.
  destruct (stringify_map_key _ _ _ _ _) as [[[err key] it'] w'| |];
    try reflexivity.
  destruct (is_error err); reflexivity.
Qed.

(** C4 (amended).  A map whose current key is not a text string.  With
    the stringify flag unset the conversion fails with
    [CborErrorJsonObjectKeyNotString].  With the flag set, an integer,
    simple, null, undefined, boolean, float, double or byte string key is
    written as a quoted string followed by a colon and the conversion goes
    on with the value of the pair (allocation, writes and the step of the
    cursor succeeding); a tag or half-precision float key fails with
    [CborErrorUnsupportedType]. *)
Theorem C4_nonstring_key value fuel comma (it : CborValue St) flags w :
  cbor_value_at_end it = false ->
  CborType_eqb (cbor_value_get_type it) CborTextStringType = false ->
  (* the flag is unset *)
  (Z.land flags CborConvertStringifyMapKeys = 0 ->
   can_write 1 w = true ->
   map_to_json_loop value (S fuel) comma it flags w
     = Ret (CborErrorJsonObjectKeyNotString, it) (put comma w))
  /\
  (* the flag is set: a key the stringifier formats *)
  (forall it',
   Z.land flags CborConvertStringifyMapKeys <> 0 ->
   formatted_key (cbor_value_get_type it) = true ->
   cbor_value_advance_fixed it = (CborNoError, it') ->
   can_write 2 w = true -> can_alloc 1 w = true ->
   map_to_json_loop value (S fuel) comma it flags w
     = map_pair_rest value fuel it' flags
         (put (String dquote (key_text it (cbor_value_get_type it)
                              ++ String dquote ":"))
              (took (put comma w))))
  /\
  (* the flag is set: a byte string key *)
  (forall s next,
   Z.land flags CborConvertStringifyMapKeys <> 0 ->
   cbor_value_get_type it = CborByteStringType ->
   cbor_value_calculate_string_length it
     = (CborNoError, Z.of_nat (String.length s)) ->
   cbor_value_string_contents it = (CborNoError, s, next) ->
   Z.of_nat (String.length s) < 2 ^ 62 ->
   can_write 2 w = true -> can_alloc 1 w = true ->
   map_to_json_loop value (S fuel) comma it flags w
     = map_pair_rest value fuel next flags
         (put (String dquote
                 (c_string (base64_text base64url_alphabet (bytes_of_string s)
                            ++ [0])
                  ++ String dquote ":"))
              (took (put comma w))))
  /\
  (* the flag is set: a tag or a half-precision float *)
  (Z.land flags CborConvertStringifyMapKeys <> 0 ->
   cbor_value_get_type it = CborTagType
   \/ cbor_value_get_type it = CborHalfFloatType ->
   can_write 1 w = true ->
   map_to_json_loop value (S fuel) comma it flags w
     = Ret (CborErrorUnsupportedType, it) (put comma w)).
Proof.
  intros Hend Hty. split; [|split; [|split]].
  - intros Hf Hw. rewrite (map_to_json_loop_S _ _ _ _ _ _ 0 Hend Hw).
    cbv zeta. rewrite Hty. apply Z.eqb_eq in Hf. rewrite Hf. reflexivity.
  - intros it' Hf Hfmt Hadv Hw Ha.
    rewrite (map_stringified_key _ _ _ _ _ _ 1 Hend Hty Hf Hw).
    rewrite (stringify_map_key_formatted _ _ _ _ (put comma w) 0 Hfmt Ha).
    rewrite Hadv. simpl fst. simpl snd.
    change (is_error CborNoError) with false. cbv iota.
    unfold fprintf_s. rewrite c_str_app_nul by apply no_nul_key_text.
    rewrite (bind_fprintf_ok _ _ (took (put comma w)) 0 (can_write_put _ _ _ Hw)).
    rewrite ltb_length_false. reflexivity.
  - intros s next Hf Hbs Hlen Hcont Hsmall Hw Ha.
    rewrite (map_stringified_key _ _ _ _ _ _ 1 Hend Hty Hf Hw).
    rewrite Hbs.
    destruct (generic_dump_base64_ok WildPtr it next base64url_alphabet s
                (put comma w) Hlen Hcont Hsmall Ha) as (buf & Hrun & Hbuf).
    change (stringify_map_key WildPtr it flags CborByteStringType)
      with (generic_dump_base64 WildPtr it base64url_alphabet).
    rewrite Hrun. change (is_error CborNoError) with false. cbv iota.
    unfold fprintf_s. rewrite (c_str_of_prefix _ _ _ Hbuf).
    rewrite (bind_fprintf_ok _ _ (took (put comma w)) 0 (can_write_put _ _ _ Hw)).
    rewrite ltb_length_false. reflexivity.
  - intros Hf Hk Hw.
    rewrite (map_stringified_key _ _ _ _ _ _ 0 Hend Hty Hf Hw).
    destruct Hk as [-> | ->]; reflexivity.
Qed.

(** With a heap that cannot allocate, the base64 encoder does not return:
    it writes through the pointer [malloc] returned. *)
Lemma generic_dump_base64_no_memory old (it : CborValue St) alphabet w n :
  cbor_value_calculate_string_length it = (CborNoError, n) ->
  allocs_left (heap w) = Some O ->
  generic_dump_base64 old it alphabet w = Fault.
Proof.
  intros Hlen Hm. unfold generic_dump_base64. rewrite Hlen.
  change (is_error CborNoError) with false. cbv iota.
  unfold bind at 1. rewrite (malloc_fail _ _ Hm). reflexivity.
Qed.

(** The places that do check: [strdup] in the stringifier, and the
    allocation of a text string. *)
Lemma stringify_null_no_memory old (it : CborValue St) flags w :
  allocs_left (heap w) = Some O ->
  stringify_map_key old it flags CborNullType w
    = Ret (CborErrorOutOfMemory, NullPtr, it) w.
Proof.
  intros Hm. unfold stringify_map_key, bind, strdup, bind.
  rewrite (malloc_fail _ _ Hm). reflexivity.
Qed.

(** C5.  A float or double that is NaN or infinite, as a value: exactly
    the text null is written, without quotes, and the conversion succeeds
    when the write does (and the cursor steps on). *)
Theorem C5_nan_inf_null fuel (it it' : CborValue St) flags type w :
  (type = CborDoubleType
   /\ (isnan (cbor_value_get_double it)
       || isinf (cbor_value_get_double it)) = true)
  \/ (type = CborFloatType
      /\ (isnan (cbor_value_get_float it)
          || isinf (cbor_value_get_float it)) = true) ->
  can_write 1 w = true ->
  cbor_value_advance_fixed it = (CborNoError, it') ->
  value_to_json (S fuel) it flags type w
    = Ret (CborNoError, it') (put "null" w).
Proof.
  intros Hty Hw Hadv.
  destruct (fwrite_ok "null" w 0 Hw) as [Hf _].
  destruct Hty as [[-> Hv] | [-> Hv]]; simpl value_to_json.
  - rewrite orb_comm in Hv. rewrite Hv. unfold bind, fprintf. rewrite Hf.
    simpl. rewrite Hadv. reflexivity.
  - assert (Hd : (isinf (double_of_float (cbor_value_get_float it))
                  || isnan (double_of_float (cbor_value_get_float it))) = true).
    { destruct (cbor_value_get_float it); simpl in *;
        try discriminate; reflexivity. }
    rewrite Hd. unfold bind, fprintf. rewrite Hf. simpl. rewrite Hadv.
    reflexivity.
Qed.

End ConverterFacts.

(** ** C7: the base64 encoder *)

(** C7. [generic_dump_base64] yields, at the front of the block it
    returns, the base64 text of the byte string followed by a NUL; the text
    has [4 * ceil(n/3)] characters, fillers included.  The bytes 00 10 83
    give ABCD; one byte FF gives two characters and two fillers; a tail of
    one or two bytes is encoded with zero bits appended. *)
Theorem C7_base64_encoder {St : Type} `{CborParser St} `{Target}
    old (it next : CborValue St) alphabet s w :
  cbor_value_calculate_string_length it
    = (CborNoError, Z.of_nat (String.length s)) ->
  cbor_value_string_contents it = (CborNoError, s, next) ->
  Z.of_nat (String.length s) < 2 ^ 62 ->
  can_alloc 1 w = true ->
  (exists buf,
     generic_dump_base64 old it alphabet w
       = Ret (CborNoError, Chars (string_of_bytes buf), next) (took w)
     /\ firstn (Z.to_nat (4 * ((Z.of_nat (String.length s) + 2) / 3) + 1)) buf
        = base64_text alphabet (bytes_of_string s) ++ [0])
  /\ Z.of_nat (List.length (base64_text alphabet (bytes_of_string s)))
     = 4 * ((Z.of_nat (String.length s) + 2) / 3)
  /\ base64_text base64url_alphabet [0; 16; 131] = bytes_of_string "ABCD"
  /\ base64_text alphabet [255]
     = [char_at alphabet 63; char_at alphabet 48;
        char_at alphabet 64; char_at alphabet 64]
  /\ (forall a, base64_text alphabet [a]
        = [sextet alphabet (a * 65536) 3; sextet alphabet (a * 65536) 2;
           char_at alphabet 64; char_at alphabet 64])
  /\ (forall a b, base64_text alphabet [a; b]
        = [sextet alphabet (a * 65536 + b * 256) 3;
           sextet alphabet (a * 65536 + b * 256) 2;
           sextet alphabet (a * 65536 + b * 256) 1; char_at alphabet 64]).
Proof.
  intros Hlen Hcont Hsmall Ha.
  pose proof (length_base64_text alphabet _ (bytes_of_string s) (Nat.le_refl _))
    as Ht.
  rewrite length_bytes_of_string in Ht.
  split; [|split; [exact Ht|repeat split]].
  destruct (generic_dump_base64_ok old it next alphabet s w Hlen Hcont Hsmall Ha)
    as (buf & Hrun & Hbuf).
  exists buf. split; [exact Hrun|].
  rewrite <- Ht.
  replace (Z.to_nat (Z.of_nat (List.length (base64_text alphabet (bytes_of_string s))) + 1))
    with (List.length (base64_text alphabet (bytes_of_string s)) + 1)%nat by lia.
  exact Hbuf.
Qed.

(** ** Runs on streams of items *)

Import Items.

Lemma C7_base64_encoder_witness :
  exists buf,
    generic_dump_base64 WildPtr (start [ByteString bytes_00_10_83])
        base64url_alphabet fresh_world
      = Ret (CborNoError, Chars (string_of_bytes buf),
             cursor [ByteString bytes_00_10_83] 1 0) (took fresh_world)
    /\ firstn 5 buf = bytes_of_string "ABCD" ++ [0].
Proof.
  exact (proj1 (C7_base64_encoder WildPtr (start [ByteString bytes_00_10_83])
                  (cursor [ByteString bytes_00_10_83] 1 0) base64url_alphabet
                  bytes_00_10_83 fresh_world eq_refl eq_refl eq_refl eq_refl)).
Defined.

(** C8. With a heap that cannot allocate, the conversion of a byte string
    does not return [CborErrorOutOfMemory]: [generic_dump_base64] does not
    test the pointer and writes through it.  The [strdup] paths of the
    stringifier and the text string path do return the error. *)
Theorem C8_base64_missing_check :
  value_to_json 1 (start [ByteString "hello"]) 0 CborByteStringType
      (world_mem 0 true) = Fault
  /\ stringify_map_key WildPtr (cursor [MapOf 1; ByteString "hello"; Null] 1 2)
       8 CborByteStringType (world_mem 0 true) = Fault
  /\ stringify_map_key WildPtr (cursor [MapOf 1; Null; Null] 1 2)
       8 CborNullType (world_mem 0 true)
     = Ret (CborErrorOutOfMemory, NullPtr, cursor [MapOf 1; Null; Null] 1 2)
           (world_mem 0 true)
  /\ value_to_json 1 (start [TextString "hello"]) 0 CborTextStringType
       (world_mem 0 true)
     = Ret (CborErrorOutOfMemory, start [TextString "hello"]) (world_mem 0 true).
Proof. repeat split. Qed.

Import Samples.

(** *** C3 *)



(** *** C4 *)

Lemma C4_nonstring_key_witness :
  map_to_json_loop (value_to_json 1) 1 "" (cursor map_with_key_42 1 2) 0
      fresh_world
    = Ret (CborErrorJsonObjectKeyNotString, cursor map_with_key_42 1 2)
          (put "" fresh_world)
  /\ map_to_json_loop (value_to_json 1) 1 "" (cursor map_with_key_42 1 2) 8
       fresh_world
     = map_pair_rest (value_to_json 1) 0 (cursor map_with_key_42 2 1) 8
         (put (String dquote ("42" ++ String dquote ":"))
              (took (put "" fresh_world))).
Proof.
  pose proof (fun flags =>
    C4_nonstring_key (value_to_json 1) 0 "" (cursor map_with_key_42 1 2)
      flags fresh_world eq_refl eq_refl) as Hthm.
  split.
  - apply (proj1 (Hthm 0)); reflexivity.
  - apply (proj1 (proj2 (Hthm 8)) (cursor map_with_key_42 2 1));
      try reflexivity. discriminate.
Defined.

(** The claim as stated fails: a half-precision float is a scalar that is
    not a string, the flag is set, and the key is not rendered. *)
Lemma C4_half_float_key_counterexample :
  cbor_value_get_type (cursor map_with_half_float_key 1 2) = CborHalfFloatType
  /\ Z.land 8 CborConvertStringifyMapKeys <> 0
  /\ convert 2 map_with_half_float_key 8 fresh_world
     = Some (CborErrorUnsupportedType, 1, "{"%string).
Proof. repeat split. discriminate. Qed.

(** *** C5 *)

Lemma C5_nan_inf_null_witness :
  value_to_json 1 (start [Double S754_nan]) 0 CborDoubleType (world_io 1)
    = Ret (CborNoError, cursor [Double S754_nan] 1 0)
          (put "null" (world_io 1))
  /\ value_to_json 1 (start [Float (S754_infinity true)]) 0 CborFloatType
       fresh_world
     = Ret (CborNoError, cursor [Float (S754_infinity true)] 1 0)
           (put "null" fresh_world).
Proof.
  split.
  - apply (C5_nan_inf_null 0 (start [Double S754_nan])); try reflexivity.
    left. split; reflexivity.
  - apply (C5_nan_inf_null 0 (start [Float (S754_infinity true)]));
      try reflexivity.
    right. split; reflexivity.
Defined.

(** *** C9 *)


Lemma C9_cursor_resync_witness :
  (exists it',
     value_to_json 1 (start truncated_array) 0 CborArrayType fresh_world
       = Ret (CborErrorUnexpectedEOF, it') fresh_world
     /\ ptr it' = 1 /\ rest it' = mkPos truncated_array 1)
  /\ (exists it',
      value_to_json 3 (start array_with_tag) 0 CborArrayType fresh_world
        = Ret (CborErrorUnsupportedType, it')
              (put "," (put "-1" (put "[" fresh_world)))
      /\ ptr it' = 2 /\ rest it' = mkPos array_with_tag 1).
Proof.
  split.
  - apply (proj1 (C9_cursor_resync 0 (start truncated_array) 0 CborArrayType
                    fresh_world (or_introl eq_refl))
             CborErrorUnexpectedEOF (cursor truncated_array 1 1));
      reflexivity.
  - apply (proj2 (C9_cursor_resync 2 (start array_with_tag) 0 CborArrayType
                    fresh_world (or_introl eq_refl))
             (cursor array_with_tag 1 3) CborErrorUnsupportedType
             (cursor array_with_tag 2 2));
      reflexivity.
Defined.

(** *** C10 *)

Lemma C10_text_with_nul_witness :
  value_to_json 1 (start [TextString text_a_nul_b]) 0 CborTextStringType
      fresh_world
    = Ret (CborNoError, cursor [TextString text_a_nul_b] 1 0)
          (put (quoted "a") (took fresh_world))
  /\ map_to_json_loop (value_to_json 1) 1 ""
       (cursor [MapOf 1; TextString text_a_nul_b; Null] 1 2) 0 fresh_world
     = map_pair_rest (value_to_json 1) 0
         (cursor [MapOf 1; TextString text_a_nul_b; Null] 2 1) 0
         (put (String dquote ("a" ++ String dquote ":"))
              (took (put "" fresh_world))).
Proof.
  split.
  - destruct (C10_text_with_nul (value_to_json 1) 0 ""
                (start [TextString text_a_nul_b])
                (cursor [TextString text_a_nul_b] 1 0) 0 "a" "b"
                fresh_world) as [Hvalue _];
      [reflexivity | reflexivity | reflexivity | ].
    apply Hvalue. reflexivity.
  - destruct (C10_text_with_nul (value_to_json 1) 0 ""
                (cursor [MapOf 1; TextString text_a_nul_b; Null] 1 2)
                (cursor [MapOf 1; TextString text_a_nul_b; Null] 2 1)
                0 "a" "b" fresh_world) as [_ Hkey];
      [reflexivity | reflexivity | reflexivity | ].
    apply Hkey; reflexivity.
Defined.

(** * IEEE 754 binary64: the library's rounding *)

Ltac dlia := Z.to_euclidean_division_equations; lia.

(** ** Digits and shifts *)

Lemma digits2_log2 m : Zpos (digits2_pos m) = Z.log2 (Zpos m) + 1.
Proof.
  assert (Hs : forall p, digits2_pos p = Pos.size p)
    by (induction p; simpl; congruence).
  rewrite Hs. destruct m; simpl; lia.
Qed.

Lemma iter_xO m d : Zpos (Pos.iter xO m d) = Zpos m * 2 ^ Zpos d.
Proof.
  induction d using Pos.peano_ind.
  - simpl. lia.
  - rewrite Pos.iter_succ, Pos2Z.inj_xO, IHd, Pos2Z.inj_succ, Z.pow_succ_r by lia.
    lia.
Qed.

Lemma iter_pos_nat {A} (f : A -> A) p : forall x,
  SpecFloat.iter_pos f p x = Nat.iter (Pos.to_nat p) f x.
Proof.
  induction p; intros x; cbn [SpecFloat.iter_pos].
  - rewrite !IHp. rewrite Pos2Nat.inj_xI.
    replace (S (2 * Pos.to_nat p))%nat
      with (Pos.to_nat p + (Pos.to_nat p + 1))%nat by lia.
    rewrite !Nat.iter_add. reflexivity.
  - rewrite !IHp. rewrite Pos2Nat.inj_xO.
    replace (2 * Pos.to_nat p)%nat with (Pos.to_nat p + Pos.to_nat p)%nat by lia.
    rewrite Nat.iter_add. reflexivity.
  - reflexivity.
Qed.

Lemma shr_1_spec m r s : 0 <= m ->
  shr_1 (Build_shr_record m r s) = Build_shr_record (m / 2) (Z.odd m) (r || s).
Proof.
  intros Hm. destruct m as [|p|p]; [reflexivity| |lia].
  destruct p; simpl shr_1; f_equal.
  - rewrite Pos2Z.inj_xI. dlia.
  - rewrite Pos2Z.inj_xO. dlia.
Qed.

(** [k+1] right shifts of [M]: the quotient, the bit shifted out last, and
    whether a lower bit was set. *)
Lemma shr_iter M : 0 <= M -> forall k,
  Nat.iter (S k) shr_1 (Build_shr_record M false false)
  = Build_shr_record (M / 2 ^ Z.of_nat (S k))
      (Z.odd (M / 2 ^ Z.of_nat k))
      (negb (M mod 2 ^ Z.of_nat k =? 0)).
Proof.
  intros HM. induction k as [|k IH].
  - change (Nat.iter 1 shr_1 ?x) with (shr_1 x). rewrite shr_1_spec by lia.
    change (2 ^ Z.of_nat 1) with 2. change (2 ^ Z.of_nat 0) with 1.
    rewrite Z.div_1_r, Z.mod_1_r. reflexivity.
  - change (Nat.iter (S (S k)) shr_1 ?x) with (shr_1 (Nat.iter (S k) shr_1 x)).
    rewrite IH. rewrite shr_1_spec by (apply Z.div_pos; lia).
    assert (Hp : 0 < 2 ^ Z.of_nat k) by (apply Z.pow_pos_nonneg; lia).
    assert (HA : 2 ^ Z.of_nat (S (S k)) = 2 ^ Z.of_nat (S k) * 2)
      by (rewrite (Nat2Z.inj_succ (S k)), Z.pow_succ_r by lia; lia).
    assert (Hp1 : 0 < 2 ^ Z.of_nat (S k)) by (apply Z.pow_pos_nonneg; lia).
    f_equal.
    + rewrite HA, Z.div_div by lia. reflexivity.
    + replace (2 ^ Z.of_nat (S k)) with (2 ^ Z.of_nat k * 2)
        by (rewrite Nat2Z.inj_succ, Z.pow_succ_r by lia; lia).
      set (h := 2 ^ Z.of_nat k) in *.
      rewrite Z.rem_mul_r, Zmod_odd by lia.
      pose proof (Z.mod_pos_bound M h ltac:(lia)) as H2.
      destruct (Z.odd (M / h)); destruct (Z.eqb_spec (M mod h) 0) as [E|E];
        cbn [orb negb];
        try (symmetry; apply negb_true_iff, Z.eqb_neq; lia).
      rewrite E, Z.mul_0_r. reflexivity.
Qed.


(** ** Rounding to nearest, ties to even *)

Lemma div_nearest_even_exact c B : 0 < B -> div_nearest_even (c * B) B = c.
Proof.
  intros HB. unfold div_nearest_even.
  rewrite Z.div_mul, Z.mod_mul by lia.
  destruct (Z.compare_spec (2 * 0) B); lia.
Qed.

Lemma div_nearest_even_scale c A B : 0 < c -> 0 < B ->
  div_nearest_even (c * A) (c * B) = div_nearest_even A B.
Proof.
  intros Hc HB. unfold div_nearest_even.
  rewrite Z.div_mul_cancel_l by lia.
  rewrite Zmult_mod_distr_l.
  replace (2 * (c * (A mod B))) with (c * (2 * (A mod B))) by lia.
  rewrite <- Zmult_compare_compat_l by lia. reflexivity.
Qed.

Lemma div_nearest_even_unique A B m : 0 < B ->
  2 * Z.abs (A - m * B) < B -> div_nearest_even A B = m.
Proof.
  intros HB Hm. unfold div_nearest_even.
  pose proof (Z.div_mod A B ltac:(lia)) as H1.
  pose proof (Z.mod_pos_bound A B ltac:(lia)) as H2.
  set (q := A / B) in *. set (r := A mod B) in *.
  assert (Hq : q = m \/ q + 1 = m).
  { destruct (Z_lt_le_dec q (m - 1)) as [Hlt|Hge].
    - assert (B * (m - q) >= 2 * B) by nia. lia.
    - destruct (Z_lt_le_dec m q) as [Hlt'|Hge'].
      + assert (B * (q - m) >= B) by nia. lia.
      + lia. }
  destruct (Z.compare_spec (2 * r) B) as [E|E|E]; destruct Hq as [Hq|Hq];
    subst m; try (exfalso; nia); try lia.
Qed.

Ltac div_nearest_cases A B :=
  unfold div_nearest_even;
  let H1 := fresh "H1" in let H2 := fresh "H2" in
  pose proof (Z.div_mod A B ltac:(lia)) as H1;
  pose proof (Z.mod_pos_bound A B ltac:(lia)) as H2;
  let q := fresh "q" in let r := fresh "r" in
  set (q := A / B) in *; set (r := A mod B) in *;
  assert (A - q * B = r) by lia;
  assert (A - (q + 1) * B = r - B) by lia;
  destruct (Z.compare_spec (2 * r) B); [destruct (Z.even q)| |].

Lemma div_nearest_even_bound A B : 0 < B ->
  2 * Z.abs (A - div_nearest_even A B * B) <= B.
Proof. intros HB. div_nearest_cases A B; lia. Qed.

Lemma div_nearest_even_nonneg A B : 0 <= A -> 0 < B ->
  0 <= div_nearest_even A B.
Proof.
  intros HA HB. pose proof (Z.div_pos A B HA HB).
  div_nearest_cases A B; lia.
Qed.

Lemma div_nearest_even_le A B c : 0 < B -> A <= c * B ->
  div_nearest_even A B <= c.
Proof.
  intros HB Hc.
  assert (A / B <= c) by (apply Z.div_le_upper_bound; lia).
  destruct (Z.eq_dec (A / B) c) as [E|E].
  - pose proof (Z.div_mod A B ltac:(lia)) as H1.
    pose proof (Z.mod_pos_bound A B ltac:(lia)) as H2.
    assert (A mod B = 0) by nia.
    unfold div_nearest_even. rewrite H0.
    destruct (Z.compare_spec (2 * 0) B); lia.
  - div_nearest_cases A B; lia.
Qed.

Lemma div_nearest_even_ge A B c : 0 < B -> c * B <= A ->
  c <= div_nearest_even A B.
Proof.
  intros HB Hc.
  assert (c <= A / B) by (apply Z.div_le_lower_bound; lia).
  div_nearest_cases A B; lia.
Qed.

(** What the shifts of [shr] and the location they keep amount to. *)
Lemma shr_round M k : 0 <= M ->
  let r := Nat.iter (S k) shr_1 (Build_shr_record M false false) in
  round_nearest_even (shr_m r) (loc_of_shr_record r)
  = div_nearest_even M (2 ^ Z.of_nat (S k)).
Proof.
  intros HM. cbv zeta. rewrite shr_iter by exact HM.
  cbn [shr_m]. unfold div_nearest_even.
  replace (2 ^ Z.of_nat (S k)) with (2 ^ Z.of_nat k * 2)
    by (rewrite Nat2Z.inj_succ, Z.pow_succ_r by lia; lia).
  set (h := 2 ^ Z.of_nat k).
  assert (Hh : 0 < h) by (apply Z.pow_pos_nonneg; lia).
  rewrite Z.rem_mul_r, Zmod_odd by lia.
  pose proof (Z.mod_pos_bound M h ltac:(lia)) as H2.
  destruct (Z.odd (M / h)); destruct (Z.eqb_spec (M mod h) 0) as [E|E];
    cbn [negb loc_of_shr_record round_nearest_even].
  - replace (2 * (M mod h + h * 1) ?= h * 2) with Eq; [reflexivity|].
    symmetry. apply Z.compare_eq_iff. lia.
  - replace (2 * (M mod h + h * 1) ?= h * 2) with Gt; [reflexivity|].
    symmetry. apply Z.compare_gt_iff. lia.
  - replace (2 * (M mod h + h * 0) ?= h * 2) with Lt; [reflexivity|].
    symmetry. apply Z.compare_lt_iff. lia.
  - replace (2 * (M mod h + h * 0) ?= h * 2) with Lt; [reflexivity|].
    symmetry. apply Z.compare_lt_iff. lia.
Qed.


(** ** The binary exponent of a fraction *)

Lemma floor_log2_unique A B j : 0 < A -> 0 < B ->
  B * 2 ^ Z.max 0 j <= A * 2 ^ Z.max 0 (- j) ->
  A * 2 ^ Z.max 0 (- (j + 1)) < B * 2 ^ Z.max 0 (j + 1) ->
  floor_log2 A B = j.
Proof.
  intros HA HB Hlo Hhi. unfold floor_log2.
  destruct (Z.leb_spec B A) as [Hle|Hlt].
  - assert (Hj : 0 <= j).
    { destruct (Z_lt_le_dec j 0) as [Hneg|]; [|assumption]. exfalso.
      rewrite (Z.max_l 0 (j + 1)), (Z.max_r 0 (- (j + 1))), Z.pow_0_r, Z.mul_1_r
        in Hhi by lia.
      assert (0 < 2 ^ (- (j + 1))) by (apply Z.pow_pos_nonneg; lia). nia. }
    rewrite (Z.max_r 0 j), (Z.max_l 0 (- j)), Z.pow_0_r, Z.mul_1_r in Hlo by lia.
    rewrite (Z.max_r 0 (j + 1)), (Z.max_l 0 (- (j + 1))), Z.pow_0_r, Z.mul_1_r in Hhi by lia.
    apply Z.log2_unique; [exact Hj|]. split.
    + apply Z.div_le_lower_bound; lia.
    + apply Z.div_lt_upper_bound; [lia|]. replace (Z.succ j) with (j + 1) by lia. lia.
  - assert (Hj : j < 0).
    { destruct (Z_lt_le_dec j 0) as [|Hpos]; [assumption|]. exfalso.
      rewrite (Z.max_r 0 j), (Z.max_l 0 (- j)), Z.pow_0_r, Z.mul_1_r in Hlo by lia.
      assert (0 < 2 ^ j) by (apply Z.pow_pos_nonneg; lia). nia. }
    rewrite (Z.max_l 0 j), (Z.max_r 0 (- j)), Z.pow_0_r, Z.mul_1_r in Hlo by lia.
    rewrite (Z.max_l 0 (j + 1)), (Z.max_r 0 (- (j + 1))), Z.pow_0_r, Z.mul_1_r in Hhi by lia.
    assert (Hl : Z.log2 ((B - 1) / A) = - j - 1).
    { apply Z.log2_unique; [lia|]. split.
      - apply Z.div_le_lower_bound; [lia|].
        replace (- (j + 1)) with (- j - 1) in Hhi by lia. lia.
      - apply Z.div_lt_upper_bound; [lia|].
        replace (Z.succ (- j - 1)) with (- j) by lia. lia. }
    rewrite Hl. lia.
Qed.


Lemma pow2_pos x : 0 <= x -> 0 < 2 ^ x.
Proof. intros. apply Z.pow_pos_nonneg; lia. Qed.

Lemma pow2_split x y : 0 <= y <= x -> 2 ^ x = 2 ^ (x - y) * 2 ^ y.
Proof. intros. rewrite <- Z.pow_add_r by lia. f_equal. lia. Qed.

Lemma floor_log2_float M e :
  floor_log2 (Zpos M * 2 ^ Z.max 0 e) (2 ^ Z.max 0 (- e))
  = Z.log2 (Zpos M) + e.
Proof.
  pose proof (Z.log2_spec (Zpos M) ltac:(lia)) as [Hlo Hhi].
  pose proof (Z.log2_nonneg (Zpos M)) as HL.
  set (L := Z.log2 (Zpos M)) in *.
  replace (Z.succ L) with (L + 1) in Hhi by lia.
  apply floor_log2_unique.
  - pose proof (pow2_pos (Z.max 0 e) ltac:(lia)). nia.
  - apply pow2_pos. lia.
  - rewrite <- Z.pow_add_r, <- Z.mul_assoc, <- Z.pow_add_r by lia.
    set (u := Z.max 0 e + Z.max 0 (- (L + e))).
    rewrite (pow2_split (Z.max 0 (- e) + Z.max 0 (L + e)) u) by (unfold u; lia).
    replace (Z.max 0 (- e) + Z.max 0 (L + e) - u) with L by (unfold u; lia).
    pose proof (pow2_pos u ltac:(unfold u; lia)). nia.
  - rewrite <- Z.pow_add_r, <- Z.mul_assoc, <- Z.pow_add_r by lia.
    set (u := Z.max 0 e + Z.max 0 (- (L + e + 1))).
    rewrite (pow2_split (Z.max 0 (- e) + Z.max 0 (L + e + 1)) u) by (unfold u; lia).
    replace (Z.max 0 (- e) + Z.max 0 (L + e + 1) - u) with (L + 1) by (unfold u; lia).
    pose proof (pow2_pos u ltac:(unfold u; lia)). nia.
Qed.

Lemma binary_round_spec s M e :
  binary_round 53 1024 s M e
  = round_to_double s (Zpos M * 2 ^ Z.max 0 e) (2 ^ Z.max 0 (- e)).
Proof.
  unfold round_to_double. rewrite floor_log2_float.
  pose proof (Z.log2_spec (Zpos M) ltac:(lia)) as [Hlo Hhi].
  pose proof (Z.log2_nonneg (Zpos M)) as HL.
  set (L := Z.log2 (Zpos M)) in *.
  replace (Z.succ L) with (L + 1) in Hhi by lia.
  set (e' := Z.max (L + e - 52) (-1074)).
  assert (He' : fexp 53 1024 (Zpos (digits2_pos M) + e) = e').
  { unfold fexp, emin. rewrite digits2_log2. fold L. unfold e'. lia. }
  set (A := Zpos M * 2 ^ Z.max 0 e * 2 ^ Z.max 0 (- e')).
  set (B := 2 ^ Z.max 0 (- e) * 2 ^ Z.max 0 e').
  set (u := Z.max 0 e + Z.max 0 (- e')).
  set (v := Z.max 0 (- e) + Z.max 0 e').
  assert (HA : A = Zpos M * 2 ^ u)
    by (unfold A, u; rewrite <- Z.mul_assoc, <- Z.pow_add_r by lia; reflexivity).
  assert (HB : B = 2 ^ v)
    by (unfold B, v; rewrite <- Z.pow_add_r by lia; reflexivity).
  assert (Huv : u - v = e - e') by (unfold u, v; lia).
  assert (Hu : 0 <= u) by (unfold u; lia).
  assert (Hv : 0 <= v) by (unfold v; lia).
  unfold binary_round. rewrite He'.
  destruct (Z_le_gt_dec e' e) as [Hle|Hgt].
  - (* the mantissa is shifted left, or kept *)
    assert (Hm : div_nearest_even A B = Zpos M * 2 ^ (e - e')).
    { rewrite HA, HB. rewrite (pow2_split u v) by lia.
      rewrite Z.mul_assoc, Huv. apply div_nearest_even_exact, pow2_pos; lia. }
    rewrite Hm.
    assert (Hsh : shl_align M e e' = (Z.to_pos (Zpos M * 2 ^ (e - e')), e')).
    { unfold shl_align. destruct (e' - e) as [|p|p] eqn:Ed; try lia.
      - replace (e - e') with 0 by lia. rewrite Z.pow_0_r, Z.mul_1_r.
        cbn [Z.to_pos]. f_equal. lia.
      - f_equal. apply Pos2Z.inj. rewrite iter_xO.
        replace (e - e') with (Zpos p) by lia.
        rewrite Z2Pos.id; [reflexivity|].
        pose proof (pow2_pos (Zpos p) ltac:(lia)). nia. }
    rewrite Hsh.
    pose proof (pow2_pos (e - e') ltac:(lia)) as Hpp.
    assert (Hmz : 0 < Zpos M * 2 ^ (e - e')) by nia.
    destruct (Zpos M * 2 ^ (e - e')) as [|mz|mz] eqn:Emz; try lia.
    simpl Z.to_pos.
    assert (Hlog : Z.log2 (Zpos mz) = L + (e - e')).
    { rewrite <- Emz, Z.log2_mul_pow2 by lia. unfold L. lia. }
    assert (Hlt : Zpos mz < 2 ^ 53).
    { apply Z.log2_lt_pow2; [lia|]. rewrite Hlog. unfold e'. lia. }
    replace (Zpos mz =? 2 ^ 53) with false by (symmetry; apply Z.eqb_neq; lia).
    unfold binary_round_aux, shr_fexp.
    cbn [Zdigits2]. unfold fexp, emin. rewrite digits2_log2, Hlog.
    replace (Z.max (L + (e - e') + 1 + e' - 53) (3 - 1024 - 53) - e') with 0
      by (unfold e'; lia).
    cbn [shr shr_record_of_loc loc_of_shr_record shr_m round_nearest_even Zdigits2].
    rewrite digits2_log2, Hlog.
    replace (Z.max (L + (e - e') + 1 + e' - 53) (3 - 1024 - 53) - e') with 0
      by (unfold e'; lia).
    cbn [shr shr_m]. reflexivity.
  - (* the mantissa is shifted right and rounded *)
    assert (Hk : 0 < e' - e) by lia.
    assert (Hm : div_nearest_even A B = div_nearest_even (Zpos M) (2 ^ (e' - e))).
    { rewrite HA, HB. rewrite (pow2_split v u) by lia.
      replace (v - u) with (e' - e) by lia.
      rewrite (Z.mul_comm (Zpos M)), (Z.mul_comm (2 ^ (e' - e))).
      apply div_nearest_even_scale; apply pow2_pos; lia. }
    rewrite Hm.
    unfold shl_align. destruct (e' - e) as [|p|p] eqn:Ed; try lia.
    unfold binary_round_aux, shr_fexp.
    cbn [Zdigits2 shr_record_of_loc]. rewrite He'. rewrite Ed.
    cbn [shr]. rewrite iter_pos_nat.
    destruct (Pos.to_nat p) as [|j] eqn:Ej; [lia|].
    pose proof (shr_round (Zpos M) j ltac:(lia)) as Hr. cbv zeta in Hr.
    rewrite Hr.
    replace (Z.of_nat (S j)) with (Zpos p) by lia.
    set (m1 := div_nearest_even (Zpos M) (2 ^ Zpos p)).
    assert (Hm1 : 0 <= m1 <= 2 ^ 53).
    { pose proof (pow2_pos (Zpos p) ltac:(lia)).
      split; [apply div_nearest_even_nonneg; lia|].
      apply div_nearest_even_le; [lia|].
      rewrite <- Z.pow_add_r by lia.
      assert (2 ^ (L + 1) <= 2 ^ (53 + Zpos p))
        by (apply Z.pow_le_mono_r; unfold e' in *; lia).
      lia. }
    replace (e + Zpos p) with e' by lia.
    assert (He'min : -1074 <= e') by (unfold e'; lia).
    destruct (Z.eqb_spec m1 (2 ^ 53)) as [E53|E53].
    + rewrite E53. change (Zdigits2 (2 ^ 53)) with 54.
      unfold fexp, emin.
      replace (Z.max (54 + e' - 53) (3 - 1024 - 53) - e') with 1 by lia.
      reflexivity.
    + destruct m1 as [|p1|p1] eqn:Em1; try lia.
      * cbn [Zdigits2]. unfold fexp, emin.
        destruct (Z.max (0 + e' - 53) (3 - 1024 - 53) - e') eqn:En; try lia;
          reflexivity.
      * cbn [Zdigits2]. rewrite digits2_log2. unfold fexp, emin.
        assert (Z.log2 (Zpos p1) < 53) by (apply Z.log2_lt_pow2; lia).
        destruct (Z.max (Z.log2 (Zpos p1) + 1 + e' - 53) (3 - 1024 - 53) - e')
          eqn:En; try lia; reflexivity.
Qed.


(** ** Decimal text *)

Lemma ilog10_fuel_spec : forall fuel n, 1 <= n -> Z.log2 n <= Z.of_nat fuel ->
  0 <= ilog10_fuel fuel n
  /\ 10 ^ ilog10_fuel fuel n <= n < 10 ^ (ilog10_fuel fuel n + 1).
Proof.
  induction fuel as [|fuel IH]; intros n Hn Hf.
  - simpl. assert (n < 2).
    { destruct (Z_lt_le_dec n 2); [assumption|].
      assert (1 <= Z.log2 n) by (apply Z.log2_le_pow2; lia). lia. }
    lia.
  - cbn [ilog10_fuel]. destruct (Z.ltb_spec n 10) as [Hlt|Hge].
    + simpl. lia.
    + assert (Hn' : 1 <= n / 10) by dlia.
      assert (Hl : Z.log2 (n / 10) <= Z.of_nat fuel).
      { assert (n / 10 <= n / 2) by dlia.
        assert (Z.log2 (n / 10) <= Z.log2 (n / 2)) by (apply Z.log2_le_mono; lia).
        assert (Z.log2 (n / 2) = Z.log2 n - 1).
        { assert (3 <= Z.log2 n) by (apply Z.log2_le_pow2; lia).
          rewrite <- Z.div2_div, Z.div2_spec, Z.log2_shiftr by lia. lia. }
        lia. }
      destruct (IH (n / 10) Hn' Hl) as (H0 & Hlo & Hhi).
      set (k := ilog10_fuel fuel (n / 10)) in *.
      split; [lia|].
      rewrite !Z.pow_add_r by lia. rewrite Z.pow_add_r in Hhi by lia.
      change (10 ^ 1) with 10 in *. dlia.
Qed.

Lemma ilog10_spec n : 1 <= n ->
  0 <= ilog10 n /\ 10 ^ ilog10 n <= n < 10 ^ (ilog10 n + 1).
Proof.
  intros Hn. apply ilog10_fuel_spec; [exact Hn|].
  pose proof (Z.log2_nonneg n). lia.
Qed.

Lemma ilog10_unique n k : 0 <= k -> 10 ^ k <= n < 10 ^ (k + 1) -> ilog10 n = k.
Proof.
  intros Hk [Hlo Hhi].
  assert (Hn : 1 <= n) by (pose proof (Z.pow_pos_nonneg 10 k); lia).
  destruct (ilog10_spec n Hn) as (H0 & Hlo' & Hhi').
  destruct (Z.lt_trichotomy (ilog10 n) k) as [Hlt|[Heq|Hgt]]; [|exact Heq|].
  - assert (10 ^ (ilog10 n + 1) <= 10 ^ k) by (apply Z.pow_le_mono_r; lia). lia.
  - assert (10 ^ (k + 1) <= 10 ^ ilog10 n) by (apply Z.pow_le_mono_r; lia). lia.
Qed.

Lemma digit_of_digit_char d : digit_of_char (digit_char d) = Some (d mod 10).
Proof.
  unfold digit_char. pose proof (Z.mod_pos_bound d 10 ltac:(lia)) as Hd.
  assert (Hc : d mod 10 = 0 \/ d mod 10 = 1 \/ d mod 10 = 2 \/ d mod 10 = 3
               \/ d mod 10 = 4 \/ d mod 10 = 5 \/ d mod 10 = 6
               \/ d mod 10 = 7 \/ d mod 10 = 8 \/ d mod 10 = 9) by lia.
  repeat (destruct Hc as [-> | Hc]; [reflexivity|]). rewrite Hc. reflexivity.
Qed.

Lemma digits_value_acc_app a b : forall acc,
  digits_value_acc acc (a ++ b)
  = match digits_value_acc acc a with
    | Some v => digits_value_acc v b
    | None => None
    end.
Proof.
  induction a as [|c a IH]; intros acc; simpl; [reflexivity|].
  destruct (digit_of_char c); [apply IH|reflexivity].
Qed.

Lemma digits_value_acc_fixed w : forall n acc, 0 <= n ->
  digits_value_acc acc (digits_fixed w n)
  = Some (acc * 10 ^ Z.of_nat w + n mod 10 ^ Z.of_nat w).
Proof.
  induction w as [|w IH]; intros n acc Hn.
  - simpl. rewrite Z.mod_1_r. f_equal. lia.
  - cbn [digits_fixed]. rewrite digits_value_acc_app, IH by dlia.
    cbn [digits_value_acc]. rewrite digit_of_digit_char. f_equal.
    rewrite Nat2Z.inj_succ, Z.pow_succ_r by lia.
    set (p := 10 ^ Z.of_nat w).
    assert (Hp : 0 < p) by (apply Z.pow_pos_nonneg; lia).
    rewrite Z.rem_mul_r by lia. lia.
Qed.

Lemma digits_fixed_nonempty w n : digits_fixed (S w) n <> EmptyString.
Proof. cbn [digits_fixed]. destruct (digits_fixed w (n / 10)); discriminate. Qed.

Lemma string_forall_app p a b :
  string_forall p (a ++ b) = string_forall p a && string_forall p b.
Proof.
  induction a as [|c a IH]; simpl; [reflexivity|].
  rewrite IH, andb_assoc. reflexivity.
Qed.

Lemma is_digit_digit_char d : is_digit (digit_char d) = true.
Proof. unfold is_digit. rewrite digit_of_digit_char. reflexivity. Qed.

Lemma digits_fixed_digits w : forall n,
  string_forall is_digit (digits_fixed w n) = true.
Proof.
  induction w as [|w IH]; intros n; cbn [digits_fixed]; [reflexivity|].
  rewrite string_forall_app, IH. simpl. rewrite is_digit_digit_char. reflexivity.
Qed.

Lemma dec_uint_digits n : string_forall is_digit (dec_uint n) = true.
Proof. apply digits_fixed_digits. Qed.

Lemma dec_uint_nonempty n : 0 <= n -> dec_uint n <> EmptyString.
Proof.
  intros Hn. unfold dec_uint.
  destruct (Z.eq_dec n 0) as [->|Hn0]; [discriminate|].
  destruct (ilog10_spec n ltac:(lia)) as (H0 & _).
  replace (Z.to_nat (ilog10 n + 1)) with (S (Z.to_nat (ilog10 n))) by lia.
  apply digits_fixed_nonempty.
Qed.

Lemma digits_value_dec_uint n : 0 <= n -> digits_value (dec_uint n) = Some n.
Proof.
  intros Hn. pose proof (dec_uint_nonempty n Hn) as Hne.
  unfold digits_value. destruct (dec_uint n) eqn:E; [congruence|].
  rewrite <- E. unfold dec_uint.
  rewrite digits_value_acc_fixed by exact Hn. f_equal.
  destruct (Z.eq_dec n 0) as [->|Hn0]; [reflexivity|].
  destruct (ilog10_spec n ltac:(lia)) as (H0 & Hlo & Hhi).
  rewrite Z2Nat.id by lia. rewrite Z.mod_small by lia. lia.
Qed.

Lemma parse_int_dec z : parse_int (dec z) = Some z.
Proof.
  unfold dec. destruct (Z.ltb_spec z 0) as [Hneg|Hpos].
  - cbn [parse_int]. rewrite digits_value_dec_uint by lia. simpl. f_equal. lia.
  - pose proof (dec_uint_digits z) as Hd.
    pose proof (digits_value_dec_uint z Hpos) as Hv.
    unfold parse_int. destruct (dec_uint z) as [|c r] eqn:E; [exact Hv|].
    simpl in Hd. apply andb_true_iff in Hd. destruct Hd as [Hc _].
    destruct c as [[] [] [] [] [] [] [] []]; try exact Hv; discriminate Hc.
Qed.


(** ** Integers that a double holds exactly *)

Lemma floor_log2_int z B : 0 < z -> 0 < B ->
  floor_log2 (z * B) B = Z.log2 z.
Proof.
  intros Hz HB.
  pose proof (Z.log2_spec z Hz) as [Hlo Hhi].
  pose proof (Z.log2_nonneg z) as HL.
  replace (Z.succ (Z.log2 z)) with (Z.log2 z + 1) in Hhi by lia.
  apply floor_log2_unique; try nia.
  - rewrite (Z.max_r 0 (Z.log2 z)), (Z.max_l 0 (- Z.log2 z)), Z.pow_0_r by lia. nia.
  - rewrite (Z.max_r 0 (Z.log2 z + 1)), (Z.max_l 0 (- (Z.log2 z + 1))), Z.pow_0_r
      by lia. nia.
Qed.

Lemma round_to_double_small s z B : 0 < z < 2 ^ 53 -> 0 < B ->
  round_to_double s (z * B) B
  = S754_finite s (Z.to_pos (z * 2 ^ (52 - Z.log2 z))) (Z.log2 z - 52).
Proof.
  intros Hz HB. unfold round_to_double. rewrite floor_log2_int by lia.
  pose proof (Z.log2_spec z ltac:(lia)) as [Hlo Hhi].
  pose proof (Z.log2_nonneg z) as HL.
  assert (HL52 : Z.log2 z < 53) by (apply Z.log2_lt_pow2; lia).
  set (L := Z.log2 z) in *.
  replace (Z.succ L) with (L + 1) in Hhi by lia.
  rewrite (Z.max_l (L - 52) (-1074)) by lia.
  rewrite (Z.max_r 0 (- (L - 52))), (Z.max_l 0 (L - 52)), Z.pow_0_r, Z.mul_1_r by lia.
  replace (- (L - 52)) with (52 - L) by lia.
  pose proof (pow2_pos (52 - L) ltac:(lia)) as Hp.
  replace (z * B * 2 ^ (52 - L)) with (z * 2 ^ (52 - L) * B) by lia.
  rewrite div_nearest_even_exact by lia.
  assert (Hm : 2 ^ 52 <= z * 2 ^ (52 - L) < 2 ^ 53).
  { rewrite (pow2_split 52 (52 - L)), (pow2_split 53 (52 - L)) by lia.
    replace (52 - (52 - L)) with L by lia.
    replace (53 - (52 - L)) with (L + 1) by lia. nia. }
  replace (z * 2 ^ (52 - L) =? 2 ^ 53) with false by (symmetry; apply Z.eqb_neq; lia).
  destruct (z * 2 ^ (52 - L)) as [|p|p] eqn:Ep; try lia.
  replace (L - 52 <=? 971) with true by (symmetry; apply Z.leb_le; lia).
  reflexivity.
Qed.

Lemma printf_f0_round_int s z B : 0 < z <= 2 ^ 53 -> 0 < B ->
  printf_f0 (round_to_double s (z * B) B) = (sign_text s ++ dec_uint z)%string.
Proof.
  intros Hz HB. destruct (Z.eq_dec z (2 ^ 53)) as [->|Hne].
  - unfold round_to_double. rewrite floor_log2_int by lia.
    change (Z.log2 (2 ^ 53)) with 53.
    change (Z.max (53 - 52) (-1074)) with 1.
    change (2 ^ Z.max 0 (- (1))) with 1. change (2 ^ Z.max 0 1) with 2.
    replace (2 ^ 53 * B * 1) with (2 ^ 52 * (B * 2)) by (change (2 ^ 53) with (2 ^ 52 * 2); lia).
    rewrite div_nearest_even_exact by lia. reflexivity.
  - rewrite round_to_double_small by lia.
    pose proof (Z.log2_spec z ltac:(lia)) as [Hlo Hhi].
    pose proof (Z.log2_nonneg z) as HL.
    assert (HL52 : Z.log2 z < 53) by (apply Z.log2_lt_pow2; lia).
    set (L := Z.log2 z) in *.
    pose proof (pow2_pos (52 - L) ltac:(lia)) as Hp.
    assert (Hm : 0 < z * 2 ^ (52 - L)) by nia.
    cbn [printf_f0]. f_equal. f_equal. unfold numer, denom.
    destruct (Z.leb_spec 0 (L - 52)) as [H0|H0].
    + replace (L - 52) with 0 by lia. replace (52 - L) with 0 by lia.
      rewrite Z2Pos.id by (rewrite Z.pow_0_r; lia).
      rewrite Z.pow_0_r, !Z.mul_1_r.
      rewrite <- (Z.mul_1_r z) at 1. apply div_nearest_even_exact. lia.
    + rewrite Z2Pos.id by lia. replace (- (L - 52)) with (52 - L) by lia.
      apply div_nearest_even_exact. lia.
Qed.

Lemma double_of_int_spec v : 0 <= v -> double_of_int v = round_to_double false v 1.
Proof.
  intros Hv. unfold double_of_int, binary_normalize.
  destruct v as [|p|p]; [reflexivity| |lia].
  rewrite binary_round_spec. change (2 ^ Z.max 0 0) with 1.
  change (2 ^ Z.max 0 (- 0)) with 1. rewrite Z.mul_1_r. reflexivity.
Qed.

Lemma shl_align_fst m e e' : e' <= e ->
  Zpos (fst (shl_align m e e')) = Zpos m * 2 ^ (e - e').
Proof.
  intros He. unfold shl_align. destruct (e' - e) as [|p|p] eqn:Ed; try lia.
  - replace (e - e') with 0 by lia. cbn [fst]. lia.
  - cbn [fst]. rewrite iter_xO. f_equal. f_equal. lia.
Qed.

(** [-num - 1] for the double of [v < 2^53] is the double [-(v + 1)]. *)
Lemma double_negate_minus_one v : 0 <= v < 2 ^ 53 ->
  SFsub 53 1024 (SFopp (double_of_int v)) (double_of_int 1)
  = round_to_double true ((v + 1) * 2 ^ 52) (2 ^ 52).
Proof.
  intros Hv. destruct (Z.eq_dec v 0) as [->|Hv0].
  - vm_compute. reflexivity.
  - rewrite double_of_int_spec by lia.
    rewrite <- (Z.mul_1_r v) at 1. rewrite round_to_double_small by lia.
    change (double_of_int 1) with (S754_finite false 4503599627370496 (-52)).
    pose proof (Z.log2_spec v ltac:(lia)) as [Hlo Hhi].
    pose proof (Z.log2_nonneg v) as HL.
    assert (HL52 : Z.log2 v < 53) by (apply Z.log2_lt_pow2; lia).
    set (L := Z.log2 v) in *.
    pose proof (pow2_pos (52 - L) ltac:(lia)) as Hp.
    assert (Hm : 0 < v * 2 ^ (52 - L)) by nia.
    cbn [SFopp negb SFsub].
    rewrite (Z.min_r (L - 52) (-52)) by lia.
    cbn [cond_Zopp].
    rewrite (shl_align_fst _ (L - 52) (-52)) by lia.
    rewrite (shl_align_fst _ (-52) (-52)) by lia.
    rewrite Z2Pos.id by lia.
    replace (L - 52 - -52) with L by lia. change (-52 - -52) with 0.
    rewrite Z.pow_0_r, Z.mul_1_r.
    replace (v * 2 ^ (52 - L) * 2 ^ L) with (v * 2 ^ 52)
      by (rewrite <- Z.mul_assoc, <- Z.pow_add_r by lia; do 2 f_equal; lia).
    assert (Hq : 0 < (v + 1) * 2 ^ 52) by lia.
    replace (- (v * 2 ^ 52) - 4503599627370496) with (- ((v + 1) * 2 ^ 52))
      by (change 4503599627370496 with (2 ^ 52); lia).
    destruct ((v + 1) * 2 ^ 52) as [|q|q] eqn:Eq; try lia.
    cbn [Z.opp binary_normalize]. rewrite binary_round_spec.
    change (2 ^ Z.max 0 (-52)) with 1. change (2 ^ Z.max 0 (- -52)) with (2 ^ 52).
    rewrite Z.mul_1_r. reflexivity.
Qed.

(** * Integers, keys and values *)

(** ** Quotes *)

Lemma length_app_string (a b : string) :
  String.length (a ++ b) = (String.length a + String.length b)%nat.
Proof. induction a; simpl; congruence. Qed.

Lemma get_app_length (a : string) c b : get (String.length a) (a ++ String c b) = Some c.
Proof. induction a; simpl; auto. Qed.

Lemma substring_app_length (a b : string) :
  substring 0 (String.length a) (a ++ b) = a.
Proof.
  induction a as [|c a IH]; simpl.
  - destruct b; reflexivity.
  - rewrite IH. reflexivity.
Qed.

Lemma strip_quotes_quoted s : strip_quotes (quoted s) = s.
Proof.
  unfold quoted, strip_quotes. rewrite Ascii.eqb_refl.
  rewrite length_app_string. simpl String.length.
  rewrite Nat.add_1_r. rewrite get_app_length, Ascii.eqb_refl.
  apply substring_app_length.
Qed.

Lemma strip_quotes_unquoted c r :
  Ascii.eqb c dquote = false -> strip_quotes (String c r) = String c r.
Proof. intros Hc. unfold strip_quotes. rewrite Hc. reflexivity. Qed.

Lemma strip_quotes_digits s :
  string_forall (fun c => is_digit c || Ascii.eqb c "-") s = true ->
  strip_quotes s = s.
Proof.
  destruct s as [|c r]; [reflexivity|]. simpl string_forall. intros Hs.
  apply andb_true_iff in Hs. destruct Hs as [Hc _].
  apply strip_quotes_unquoted.
  destruct (Ascii.eqb_spec c dquote) as [->|]; [discriminate Hc|reflexivity].
Qed.

Lemma string_forall_impl (p q : ascii -> bool) s :
  (forall c, p c = true -> q c = true) ->
  string_forall p s = true -> string_forall q s = true.
Proof.
  intros Hpq. induction s as [|c r IH]; simpl; [reflexivity|].
  intros Hs. apply andb_true_iff in Hs. destruct Hs as [Hc Hr].
  rewrite (Hpq c Hc), (IH Hr). reflexivity.
Qed.

Lemma strip_quotes_dec z : strip_quotes (dec z) = dec z.
Proof.
  apply strip_quotes_digits. unfold dec. destruct (z <? 0).
  - simpl. apply (string_forall_impl is_digit); [|apply dec_uint_digits].
    intros c ->. reflexivity.
  - apply (string_forall_impl is_digit); [|apply dec_uint_digits].
    intros c ->. reflexivity.
Qed.

Section IntegerFacts.
Context {St : Type} `{CborParser St} `{Target}.

(** The text of an integer within 53 bits is its decimal expansion. *)
Lemma integer_text_exact (it : CborValue St) :
  - 2 ^ 53 <= integer_value it <= 2 ^ 53 ->
  integer_text it = dec (integer_value it).
Proof.
  unfold integer_value, integer_text.
  assert (Hraw : 0 <= uint64 (cbor_value_get_raw_integer it))
    by (unfold uint64; apply Z.mod_pos_bound; lia).
  set (v := uint64 (cbor_value_get_raw_integer it)) in *.
  destruct (cbor_value_is_negative_integer it); intros Hr.
  - rewrite double_negate_minus_one by lia.
    rewrite printf_f0_round_int by lia.
    unfold dec. replace (- v - 1 <? 0) with true by (symmetry; apply Z.ltb_lt; lia).
    replace (- (- v - 1)) with (v + 1) by lia. reflexivity.
  - unfold dec. replace (v <? 0) with false by (symmetry; apply Z.ltb_ge; lia).
    destruct (Z.eq_dec v 0) as [->|Hv0]; [reflexivity|].
    rewrite double_of_int_spec by lia.
    rewrite <- (Z.mul_1_r v) at 1. rewrite printf_f0_round_int by lia.
    reflexivity.
Qed.

(** What [value_to_json] does for the types it formats itself. *)
Lemma value_to_json_formatted fuel (it : CborValue St) flags type w :
  formatted_key type = true ->
  can_write 1 w = true ->
  value_to_json (S fuel) it flags type w
    = Ret (cbor_value_advance_fixed it) (put (value_text it type) w).
Proof.
  intros Hty Hw.
  destruct type; try discriminate Hty; cbn [value_to_json value_text].
  - rewrite (bind_fprintf_ok _ _ _ 0 Hw), ltb_length_false. reflexivity.
  - rewrite (bind_fprintf_ok _ _ _ 0 Hw), ltb_length_false.
    unfold quoted. rewrite !string_app_assoc. reflexivity.
  - rewrite (bind_fprintf_ok _ _ _ 0 Hw), ltb_length_false.
    destruct (cbor_value_get_boolean it); reflexivity.
  - rewrite (bind_fprintf_ok _ _ _ 0 Hw), ltb_length_false. reflexivity.
  - rewrite (bind_fprintf_ok _ _ _ 0 Hw), ltb_length_false. reflexivity.
  - destruct (isinf _ || isnan _);
      rewrite (bind_fprintf_ok _ _ _ 0 Hw), ltb_length_false; reflexivity.
  - destruct (isinf _ || isnan _);
      rewrite (bind_fprintf_ok _ _ _ 0 Hw), ltb_length_false; reflexivity.
Qed.

(** C1 (amended).  An integer whose value lies in [-2^53, 2^53]: the
    text written, read back as an integer, is the value.  (The magnitude
    goes through a double, so that outside this range the text can be that
    of another integer.) *)
Theorem C1_integer_text fuel (it it' : CborValue St) flags w :
  cbor_value_advance_fixed it = (CborNoError, it') ->
  can_write 1 w = true ->
  - 2 ^ 53 <= integer_value it <= 2 ^ 53 ->
  value_to_json (S fuel) it flags CborIntegerType w
    = Ret (CborNoError, it') (put (integer_text it) w)
  /\ parse_int (integer_text it) = Some (integer_value it).
Proof.
  intros Hadv Hw Hr. split.
  - rewrite (value_to_json_formatted _ _ _ CborIntegerType _ eq_refl Hw), Hadv.
    reflexivity.
  - rewrite integer_text_exact by exact Hr. apply parse_int_dec.
Qed.

Lemma key_text_integer (it : CborValue St) :
  integer_accessors_agree it ->
  key_text it CborIntegerType = dec (integer_value it).
Proof.
  intros (Hu & Hv & Hi). unfold key_text, integer_value. rewrite Hu.
  assert (Hraw : 0 <= uint64 (cbor_value_get_raw_integer it))
    by (unfold uint64; apply Z.mod_pos_bound; lia).
  destruct (cbor_value_is_negative_integer it); cbn [negb].
  - rewrite (Hi eq_refl). cbv zeta.
    replace (- uint64 (cbor_value_get_raw_integer it) - 1 <? 0) with true
      by (symmetry; apply Z.ltb_lt; lia).
    reflexivity.
  - rewrite (Hv eq_refl). reflexivity.
Qed.

(** C2 (amended).  For a simple, null, undefined or boolean key, for an
    integer key whose value lies in [-2^53, 2^53] (the accessors of the
    parser agreeing on it), for a float or double key that is NaN or
    infinite, and for a byte string key: the string the stringifier
    produces is the text the renderer writes for the same value, without
    its quotes. *)
Theorem C2_key_is_unquoted_value fuel (it : CborValue St) flags w :
  can_write 1 w = true ->
  can_alloc 1 w = true ->
  (forall type,
     type = CborSimpleType \/ type = CborNullType
     \/ type = CborUndefinedType \/ type = CborBooleanType
     \/ (type = CborIntegerType /\ integer_accessors_agree it
         /\ - 2 ^ 53 <= integer_value it <= 2 ^ 53)
     \/ (type = CborDoubleType
         /\ (isnan (cbor_value_get_double it)
             || isinf (cbor_value_get_double it)) = true)
     \/ (type = CborFloatType
         /\ (isnan (cbor_value_get_float it)
             || isinf (cbor_value_get_float it)) = true) ->
     stringify_map_key WildPtr it flags type w
       = Ret (fst (cbor_value_advance_fixed it),
              Chars (key_text it type ++ String NUL EmptyString),
              snd (cbor_value_advance_fixed it)) (took w)
     /\ c_str (key_text it type ++ String NUL EmptyString)
        = Some (key_text it type)
     /\ value_to_json (S fuel) it flags type w
        = Ret (cbor_value_advance_fixed it) (put (value_text it type) w)
     /\ strip_quotes (value_text it type) = key_text it type)
  /\
  (forall s next,
     cbor_value_calculate_string_length it
       = (CborNoError, Z.of_nat (String.length s)) ->
     cbor_value_string_contents it = (CborNoError, s, next) ->
     Z.of_nat (String.length s) < 2 ^ 62 ->
     exists buf k,
       stringify_map_key WildPtr it flags CborByteStringType w
         = Ret (CborNoError, Chars buf, next) (took w)
       /\ c_str buf = Some k
       /\ value_to_json (S fuel) it flags CborByteStringType w
          = Ret (CborNoError, next) (put (quoted k) (took w))
       /\ strip_quotes (quoted k) = k).
Proof.
  intros Hw Ha. split.
  - intros type Hty.
    assert (Hfmt : formatted_key type = true).
    { destruct Hty as [->|[->|[->|[->|[[-> _]|[[-> _]|[-> _]]]]]]]; reflexivity. }
    split; [apply (stringify_map_key_formatted _ _ _ _ _ 0 Hfmt Ha)|].
    split; [apply c_str_app_nul, no_nul_key_text|].
    split; [apply (value_to_json_formatted _ _ _ _ _ Hfmt Hw)|].
    destruct Hty as [->|[->|[->|[->|[[-> [Hagree Hr]]|[[-> Hv]|[-> Hv]]]]]]];
      cbn [value_text key_text].
    + apply strip_quotes_quoted.
    + reflexivity.
    + apply strip_quotes_quoted.
    + destruct (cbor_value_get_boolean it); reflexivity.
    + change (strip_quotes (integer_text it) = key_text it CborIntegerType).
      rewrite key_text_integer by exact Hagree.
      rewrite integer_text_exact by exact Hr. apply strip_quotes_dec.
    + rewrite Hv. rewrite orb_comm in Hv. rewrite Hv. reflexivity.
    + assert (Hd : (isnan (double_of_float (cbor_value_get_float it))
                    || isinf (double_of_float (cbor_value_get_float it))) = true).
      { destruct (cbor_value_get_float it); simpl in *;
          try discriminate; reflexivity. }
      rewrite Hd. rewrite orb_comm in Hd. rewrite Hd. reflexivity.
  - intros s next Hlen Hcont Hsmall.
    destruct (generic_dump_base64_ok WildPtr it next base64url_alphabet s w
                Hlen Hcont Hsmall Ha) as (buf & Hrun & Hbuf).
    exists (string_of_bytes buf).
    exists (c_string (base64_text base64url_alphabet (bytes_of_string s) ++ [0])).
    pose proof (c_str_of_prefix _ _ _ Hbuf) as Hstr.
    split; [exact Hrun|]. split; [exact Hstr|]. split.
    + cbn [value_to_json]. unfold bind at 1.
      change (if CborType_eqb CborByteStringType CborByteStringType
              then dump_bytestring_base64url WildPtr it
              else cbor_value_dup_text_string WildPtr it)
        with (generic_dump_base64 WildPtr it base64url_alphabet).
      rewrite Hrun. change (is_error CborNoError) with false. cbv iota.
      unfold fprintf_s. rewrite Hstr.
      rewrite (bind_fprintf_ok _ _ (took w) 0 Hw), ltb_length_false.
      reflexivity.
    + apply strip_quotes_quoted.
Qed.

End IntegerFacts.

Lemma C1_integer_text_witness :
  (value_to_json 1 (start [Integer true 9007199254740991]) 0 CborIntegerType
       fresh_world
     = Ret (CborNoError, cursor [Integer true 9007199254740991] 1 0)
           (put (integer_text (start [Integer true 9007199254740991]))
                fresh_world)
   /\ parse_int (integer_text (start [Integer true 9007199254740991]))
      = Some (- 9007199254740992))
  /\ (value_to_json 1 (start [Integer false 9007199254740992]) 0
        CborIntegerType fresh_world
      = Ret (CborNoError, cursor [Integer false 9007199254740992] 1 0)
            (put (integer_text (start [Integer false 9007199254740992]))
                 fresh_world)
      /\ parse_int (integer_text (start [Integer false 9007199254740992]))
         = Some 9007199254740992).
Proof.
  split.
  - assert (Hr : - 2 ^ 53
                 <= integer_value (start [Integer true 9007199254740991])
                 <= 2 ^ 53) by (vm_compute; split; discriminate).
    exact (C1_integer_text 0 (start [Integer true 9007199254740991])
             (cursor [Integer true 9007199254740991] 1 0) 0 fresh_world
             eq_refl eq_refl Hr).
  - assert (Hr : - 2 ^ 53
                 <= integer_value (start [Integer false 9007199254740992])
                 <= 2 ^ 53) by (vm_compute; split; discriminate).
    exact (C1_integer_text 0 (start [Integer false 9007199254740992])
             (cursor [Integer false 9007199254740992] 1 0) 0 fresh_world
             eq_refl eq_refl Hr).
Defined.

(** The claim as stated fails at the largest unsigned integer: the text is
    that of 2^64. *)
Lemma C1_max_uint64_counterexample :
  integer_value (start [Integer false 18446744073709551615])
    = 18446744073709551615
  /\ value_to_json 1 (start [Integer false 18446744073709551615]) 0
       CborIntegerType fresh_world
     = Ret (CborNoError, cursor [Integer false 18446744073709551615] 1 0)
           (put "18446744073709551616" fresh_world)
  /\ parse_int "18446744073709551616" = Some 18446744073709551616
  /\ parse_int "18446744073709551616"
     <> Some (integer_value (start [Integer false 18446744073709551615])).
Proof. vm_compute. repeat split. discriminate. Qed.

Lemma C2_key_is_unquoted_value_witness :
  let it := cursor [MapOf 1; Integer true 41; Null] 1 2 in
  stringify_map_key WildPtr it 8 CborIntegerType fresh_world
    = Ret (CborNoError, Chars ("-42" ++ String NUL EmptyString),
           cursor [MapOf 1; Integer true 41; Null] 2 1) (took fresh_world)
  /\ c_str ("-42" ++ String NUL EmptyString) = Some "-42"%string
  /\ value_to_json 1 it 8 CborIntegerType fresh_world
     = Ret (CborNoError, cursor [MapOf 1; Integer true 41; Null] 2 1)
           (put "-42" fresh_world)
  /\ strip_quotes "-42" = "-42"%string.
Proof.
  assert (Hty : CborIntegerType = CborSimpleType
     \/ CborIntegerType = CborNullType
     \/ CborIntegerType = CborUndefinedType
     \/ CborIntegerType = CborBooleanType
     \/ (CborIntegerType = CborIntegerType
         /\ integer_accessors_agree
              (cursor [MapOf 1; Integer true 41; Null] 1 2)
         /\ - 2 ^ 53
            <= integer_value (cursor [MapOf 1; Integer true 41; Null] 1 2)
            <= 2 ^ 53)
     \/ (CborIntegerType = CborDoubleType
         /\ (isnan (cbor_value_get_double
                      (cursor [MapOf 1; Integer true 41; Null] 1 2))
             || isinf (cbor_value_get_double
                         (cursor [MapOf 1; Integer true 41; Null] 1 2)))
            = true)
     \/ (CborIntegerType = CborFloatType
         /\ (isnan (cbor_value_get_float
                      (cursor [MapOf 1; Integer true 41; Null] 1 2))
             || isinf (cbor_value_get_float
                         (cursor [MapOf 1; Integer true 41; Null] 1 2)))
            = true)).
  { do 4 right. left. split; [reflexivity|]. split.
    - repeat split.
    - vm_compute. split; discriminate. }
  exact (proj1 (C2_key_is_unquoted_value 0
                  (cursor [MapOf 1; Integer true 41; Null] 1 2) 8 fresh_world
                  eq_refl eq_refl) CborIntegerType Hty).
Defined.

(** The claim as stated fails: for the integer 2^64 - 1 the key is exact
    and the value is rounded; for the double 0.1 the key has 19
    significant digits and the value 17. *)
Lemma C2_integer_and_double_counterexample :
  (stringify_map_key WildPtr
       (cursor [MapOf 1; Integer false 18446744073709551615; Null] 1 2)
       8 CborIntegerType fresh_world
     = Ret (CborNoError,
            Chars ("18446744073709551615" ++ String NUL EmptyString),
            cursor [MapOf 1; Integer false 18446744073709551615; Null] 2 1)
           (took fresh_world)
   /\ value_to_json 1
        (cursor [MapOf 1; Integer false 18446744073709551615; Null] 1 2)
        8 CborIntegerType fresh_world
      = Ret (CborNoError,
             cursor [MapOf 1; Integer false 18446744073709551615; Null] 2 1)
            (put "18446744073709551616" fresh_world)
   /\ strip_quotes "18446744073709551616" <> "18446744073709551615"%string)
  /\
  (stringify_map_key WildPtr (cursor [MapOf 1; Double double_0_1; Null] 1 2)
       8 CborDoubleType fresh_world
     = Ret (CborNoError,
            Chars ("0.1000000000000000056" ++ String NUL EmptyString),
            cursor [MapOf 1; Double double_0_1; Null] 2 1)
           (took fresh_world)
   /\ value_to_json 1 (cursor [MapOf 1; Double double_0_1; Null] 1 2)
        8 CborDoubleType fresh_world
      = Ret (CborNoError, cursor [MapOf 1; Double double_0_1; Null] 2 1)
            (put "0.10000000000000001" fresh_world)
   /\ strip_quotes "0.10000000000000001" <> "0.1000000000000000056"%string).
Proof. vm_compute. repeat split; discriminate. Qed.

(** * Doubles as values *)

(** ** Fractions as real numbers *)

Lemma IZR_pow b k : 0 <= k -> IZR (b ^ k) = powerRZ (IZR b) k.
Proof.
  intros Hk. rewrite <- (Z2Nat.id k) by exact Hk.
  rewrite <- pow_IZR, pow_powerRZ. reflexivity.
Qed.

Lemma powerRZ_pos b k : (0 < IZR b)%R -> (0 < powerRZ (IZR b) k)%R.
Proof. intros. apply powerRZ_lt. assumption. Qed.

Lemma powerRZ_split b j k : (0 < IZR b)%R ->
  powerRZ (IZR b) (j + k) = (powerRZ (IZR b) j * powerRZ (IZR b) k)%R.
Proof. intros. apply powerRZ_add. lra. Qed.

Lemma powerRZ_ge_1 b k : 1 < b -> 0 <= k -> (1 <= powerRZ (IZR b) k)%R.
Proof.
  intros Hb Hk. rewrite <- IZR_pow by exact Hk. apply IZR_le.
  assert (0 < b ^ k) by (apply Z.pow_pos_nonneg; lia). lia.
Qed.

Lemma powerRZ_gt_1 b k : 1 < b -> 0 < k -> (1 < powerRZ (IZR b) k)%R.
Proof.
  intros Hb Hk. rewrite <- IZR_pow by lia. apply IZR_lt.
  apply Z.pow_gt_1; lia.
Qed.

Lemma powerRZ_le_mono b j k : 1 < b -> j <= k ->
  (powerRZ (IZR b) j <= powerRZ (IZR b) k)%R.
Proof.
  intros Hb Hjk. assert (Hb' : (0 < IZR b)%R) by (apply IZR_lt; lia).
  replace k with (j + (k - j)) by lia. rewrite powerRZ_split by exact Hb'.
  pose proof (powerRZ_ge_1 b (k - j) Hb ltac:(lia)).
  pose proof (powerRZ_pos b j Hb'). nra.
Qed.

Lemma powerRZ_lt_mono b j k : 1 < b -> j < k ->
  (powerRZ (IZR b) j < powerRZ (IZR b) k)%R.
Proof.
  intros Hb Hjk. assert (Hb' : (0 < IZR b)%R) by (apply IZR_lt; lia).
  replace k with (j + (k - j)) by lia. rewrite powerRZ_split by exact Hb'.
  pose proof (powerRZ_gt_1 b (k - j) Hb ltac:(lia)).
  pose proof (powerRZ_pos b j Hb'). nra.
Qed.

Lemma powerRZ_lt_inv b j k : 1 < b ->
  (powerRZ (IZR b) j < powerRZ (IZR b) k)%R -> j < k.
Proof.
  intros Hb Hlt. destruct (Z_lt_le_dec j k) as [|Hge]; [assumption|].
  pose proof (powerRZ_le_mono b k j Hb Hge). lra.
Qed.

(** [a * b^max(0,k) / (c * b^max(0,-k))] is [a / c * b^k]. *)
Lemma fraction_scale b a c k : 1 < b -> 0 < c ->
  (IZR (a * b ^ Z.max 0 k) / IZR (c * b ^ Z.max 0 (- k))
   = IZR a / IZR c * powerRZ (IZR b) k)%R.
Proof.
  intros Hb Hc. assert (Hb' : (0 < IZR b)%R) by (apply IZR_lt; lia).
  assert (Hc' : (0 < IZR c)%R) by (apply IZR_lt; lia).
  rewrite !mult_IZR, !IZR_pow by lia.
  destruct (Z_lt_le_dec k 0) as [Hk|Hk].
  - rewrite (Z.max_l 0 k), (Z.max_r 0 (- k)) by lia.
    replace k with (- (- k)) at 2 by lia. rewrite (powerRZ_neg' _ (- k)).
    pose proof (powerRZ_pos b (- k) Hb'). rewrite powerRZ_O. field. lra.
  - rewrite (Z.max_r 0 k), (Z.max_l 0 (- k)) by lia.
    rewrite powerRZ_O. field. lra.
Qed.

Lemma fraction_pos a c : 0 < a -> 0 < c -> (0 < IZR a / IZR c)%R.
Proof.
  intros Ha Hc. apply Rdiv_lt_0_compat; apply IZR_lt; lia.
Qed.

(** ** Rounding to the nearest integer *)

Lemma div_nearest_even_near A B : 0 < B ->
  (- (1 / 2) <= IZR A / IZR B - IZR (div_nearest_even A B) <= 1 / 2)%R.
Proof.
  intros HB. pose proof (div_nearest_even_bound A B HB) as Hb.
  generalize dependent (div_nearest_even A B). intros n Hb.
  assert (HB' : (0 < IZR B)%R) by (apply IZR_lt; lia).
  assert (H1 : - B <= 2 * (A - n * B)) by lia.
  assert (H2 : 2 * (A - n * B) <= B) by lia.
  apply IZR_le in H1, H2.
  rewrite mult_IZR, minus_IZR, mult_IZR in H1, H2. rewrite opp_IZR in H1.
  assert (Hy : IZR A = (IZR A / IZR B * IZR B)%R) by (field; lra).
  generalize dependent (IZR A / IZR B)%R. intros y Hy.
  rewrite Hy in H1, H2.
  split; (apply Rmult_le_reg_r with (IZR B); [exact HB'|lra]).
Qed.

Lemma div_nearest_even_nearest A B m : 0 < B ->
  (- (1 / 2) < IZR A / IZR B - IZR m < 1 / 2)%R ->
  div_nearest_even A B = m.
Proof.
  intros HB [H1 H2]. apply div_nearest_even_unique; [exact HB|].
  assert (HB' : (0 < IZR B)%R) by (apply IZR_lt; lia).
  assert (Hy : IZR A = (IZR A / IZR B * IZR B)%R) by (field; lra).
  generalize dependent (IZR A / IZR B)%R. intros y H1 H2 Hy.
  assert (H1' := Rmult_lt_compat_r _ _ _ HB' H1).
  assert (H2' := Rmult_lt_compat_r _ _ _ HB' H2).
  assert (- B < 2 * (A - m * B) < B); [|lia].
  split; apply lt_IZR;
    rewrite ?opp_IZR, mult_IZR, minus_IZR, mult_IZR, Hy; lra.
Qed.

(** ** Logarithms of a fraction *)

Section FloorLog.

Variable beta : Z.
Variable lg : Z -> Z.
Variable floor_log : Z -> Z -> Z.
Hypothesis beta_gt_1 : 1 < beta.
Hypothesis lg_spec : forall n, 1 <= n ->
  0 <= lg n /\ beta ^ lg n <= n < beta ^ (lg n + 1).

Hypothesis floor_log_eq : forall a b,
  floor_log a b = if b <=? a then lg (a / b) else - (lg ((b - 1) / a) + 1).

Lemma floor_log_spec a b : 0 < a -> 0 < b ->
  b * beta ^ Z.max 0 (floor_log a b) <= a * beta ^ Z.max 0 (- floor_log a b)
  /\ a * beta ^ Z.max 0 (- (floor_log a b + 1))
     < b * beta ^ Z.max 0 (floor_log a b + 1).
Proof.
  intros Ha Hb. rewrite floor_log_eq. destruct (Z.leb_spec b a) as [Hle|Hlt].
  - assert (Hn : 1 <= a / b) by (apply Z.div_le_lower_bound; lia).
    destruct (lg_spec _ Hn) as [Hj [Hlo Hhi]]. set (j := lg (a / b)) in *.
    rewrite (Z.max_r 0 j), (Z.max_l 0 (- j)), (Z.max_l 0 (- (j + 1))),
      (Z.max_r 0 (j + 1)), !Z.pow_0_r by lia.
    pose proof (Z.div_mod a b ltac:(lia)).
    pose proof (Z.mod_pos_bound a b Hb). nia.
  - assert (Hn : 1 <= (b - 1) / a) by (apply Z.div_le_lower_bound; lia).
    destruct (lg_spec _ Hn) as [Hj [Hlo Hhi]]. set (k := lg ((b - 1) / a)) in *.
    rewrite (Z.max_l 0 (- (k + 1))), (Z.max_r 0 (- - (k + 1))),
      (Z.max_r 0 (- (- (k + 1) + 1))), (Z.max_l 0 (- (k + 1) + 1)),
      !Z.pow_0_r by lia.
    replace (- - (k + 1)) with (k + 1) by lia.
    replace (- (- (k + 1) + 1)) with k by lia.
    pose proof (Z.div_mod (b - 1) a ltac:(lia)).
    pose proof (Z.mod_pos_bound (b - 1) a Ha). nia.
Qed.

Lemma floor_log_bounds a b : 0 < a -> 0 < b ->
  (powerRZ (IZR beta) (floor_log a b) <= IZR a / IZR b
   < powerRZ (IZR beta) (floor_log a b + 1))%R.
Proof.
  intros Ha Hb. destruct (floor_log_spec a b Ha Hb) as [Hlo Hhi].
  set (j := floor_log a b) in *.
  assert (Hbeta : (0 < IZR beta)%R) by (apply IZR_lt; lia).
  assert (Ha' : (0 < IZR a)%R) by (apply IZR_lt; lia).
  assert (Hb' : (0 < IZR b)%R) by (apply IZR_lt; lia).
  apply IZR_le in Hlo. apply IZR_lt in Hhi.
  rewrite !mult_IZR, !IZR_pow in Hlo, Hhi by lia.
  set (y := (IZR a / IZR b)%R).
  assert (Hy : IZR a = (y * IZR b)%R) by (unfold y; field; lra).
  rewrite Hy in Hlo, Hhi. split.
  - destruct (Z_lt_le_dec j 0) as [Hj|Hj].
    + rewrite (Z.max_l 0 j), (Z.max_r 0 (- j)), powerRZ_O in Hlo by lia.
      rewrite powerRZ_neg' in Hlo. pose proof (powerRZ_pos beta j Hbeta) as Hp.
      assert (Hi := Rinv_0_lt_compat _ Hp).
      assert (Hone : (powerRZ (IZR beta) j * / powerRZ (IZR beta) j = 1)%R)
        by (field; lra).
      nra.
    + rewrite (Z.max_r 0 j), (Z.max_l 0 (- j)), powerRZ_O in Hlo by lia. nra.
  - destruct (Z_lt_le_dec (j + 1) 0) as [Hj|Hj].
    + rewrite (Z.max_l 0 (j + 1)), (Z.max_r 0 (- (j + 1))), powerRZ_O in Hhi by lia.
      rewrite powerRZ_neg' in Hhi.
      pose proof (powerRZ_pos beta (j + 1) Hbeta) as Hp.
      assert (Hi := Rinv_0_lt_compat _ Hp).
      assert (Hone : (powerRZ (IZR beta) (j + 1) * / powerRZ (IZR beta) (j + 1) = 1)%R)
        by (field; lra).
      nra.
    + rewrite (Z.max_r 0 (j + 1)), (Z.max_l 0 (- (j + 1))), powerRZ_O in Hhi by lia.
      nra.
Qed.

Lemma floor_log_unique a b j : 0 < a -> 0 < b ->
  (powerRZ (IZR beta) j <= IZR a / IZR b < powerRZ (IZR beta) (j + 1))%R ->
  floor_log a b = j.
Proof.
  intros Ha Hb [Hlo Hhi]. destruct (floor_log_bounds a b Ha Hb) as [Hlo' Hhi'].
  assert (floor_log a b < j + 1)
    by (apply (powerRZ_lt_inv beta); [exact beta_gt_1|lra]).
  assert (j < floor_log a b + 1)
    by (apply (powerRZ_lt_inv beta); [exact beta_gt_1|lra]).
  lia.
Qed.

End FloorLog.

Lemma log2_spec n : 1 <= n ->
  0 <= Z.log2 n /\ 2 ^ Z.log2 n <= n < 2 ^ (Z.log2 n + 1).
Proof.
  intros Hn. split; [apply Z.log2_nonneg|].
  pose proof (Z.log2_spec n ltac:(lia)) as Hs.
  replace (Z.succ (Z.log2 n)) with (Z.log2 n + 1) in Hs by lia. exact Hs.
Qed.

Lemma floor_log2_bounds a b : 0 < a -> 0 < b ->
  (powerRZ 2 (floor_log2 a b) <= IZR a / IZR b
   < powerRZ 2 (floor_log2 a b + 1))%R.
Proof.
  apply (floor_log_bounds 2 Z.log2 floor_log2 ltac:(lia) log2_spec
           (fun _ _ => eq_refl)).
Qed.

Lemma floor_log2_real a b j : 0 < a -> 0 < b ->
  (powerRZ 2 j <= IZR a / IZR b < powerRZ 2 (j + 1))%R ->
  floor_log2 a b = j.
Proof.
  apply (floor_log_unique 2 Z.log2 floor_log2 ltac:(lia) log2_spec
           (fun _ _ => eq_refl)).
Qed.

Lemma floor_log10_bounds a b : 0 < a -> 0 < b ->
  (powerRZ 10 (floor_log10 a b) <= IZR a / IZR b
   < powerRZ 10 (floor_log10 a b + 1))%R.
Proof.
  apply (floor_log_bounds 10 ilog10 floor_log10 ltac:(lia) ilog10_spec
           (fun _ _ => eq_refl)).
Qed.

(** ** A fraction near a double *)

Lemma bounded_double m e : bounded 53 1024 m e = true ->
  Z.max (Z.log2 (Zpos m) + e - 52) (-1074) = e /\ e <= 971.
Proof.
  unfold bounded, canonical_mantissa, fexp, emin. intros Hb.
  apply andb_prop in Hb. destruct Hb as [Hc He].
  apply Z.eqb_eq in Hc. apply Z.leb_le in He.
  rewrite digits2_log2 in Hc. split; lia.
Qed.

Lemma powerRZ_2_const k : 0 <= k -> powerRZ 2 k = IZR (2 ^ k).
Proof. intros. symmetry. apply IZR_pow. assumption. Qed.

Lemma mantissa_real m : 
  (IZR (2 ^ Z.log2 (Zpos m)) <= IZR (Zpos m) <= IZR (2 ^ (Z.log2 (Zpos m) + 1)) - 1)%R.
Proof.
  destruct (log2_spec (Zpos m) ltac:(lia)) as [_ [Hlo Hhi]].
  split; [apply IZR_le; exact Hlo|].
  rewrite <- minus_IZR. apply IZR_le. lia.
Qed.

Lemma near_unit q u lo hi m : (0 < u)%R ->
  (lo * u < q - m * u < hi * u)%R -> (lo < q / u - m < hi)%R.
Proof.
  intros Hu. assert (Hq : q = (q / u * u)%R) by (field; lra).
  generalize dependent (q / u)%R. intros y Hy. rewrite Hy. intros [H1 H2].
  split; (apply Rmult_lt_reg_r with u; [exact Hu|lra]).
Qed.

Lemma fraction_unscale A B e : 0 < B ->
  (IZR (A * 2 ^ Z.max 0 (- e)) / IZR (B * 2 ^ Z.max 0 e)
   = IZR A / IZR B / powerRZ 2 e)%R.
Proof.
  intros HB. replace (Z.max 0 e) with (Z.max 0 (- - e)) by (f_equal; lia).
  rewrite (fraction_scale 2 A B (- e)), powerRZ_neg' by lia. reflexivity.
Qed.

Lemma powerRZ_2_pred e : powerRZ 2 (e - 1) = (powerRZ 2 e / 2)%R.
Proof.
  replace (e - 1) with (e + -1) by lia. rewrite powerRZ_split by lra.
  change (powerRZ 2 (-1)) with (/ (2 * 1))%R. field.
Qed.

(** A fraction within half a unit in the last place of a double (a
    quarter below a power of two) rounds to that double. *)
Lemma round_to_double_near s A B m e : 0 < A -> 0 < B ->
  bounded 53 1024 m e = true ->
  (- (powerRZ 2 e / 2) < IZR A / IZR B - IZR (Zpos m) * powerRZ 2 e
     < powerRZ 2 e / 2)%R ->
  (Zpos m = 2 ^ 52 -> -1074 < e ->
   (- (powerRZ 2 e / 4) < IZR A / IZR B - IZR (Zpos m) * powerRZ 2 e)%R) ->
  round_to_double s A B = S754_finite s m e.
Proof.
  intros HA HB Hbd Hnear Hlow.
  destruct (bounded_double m e Hbd) as [Hcan Hmax].
  pose proof (mantissa_real m) as Hm.
  pose proof (Z.log2_nonneg (Zpos m)) as HL0.
  set (L := Z.log2 (Zpos m)) in *.
  assert (HL : L <= 52) by lia.
  pose proof (floor_log2_bounds A B HA HB) as Hj.
  pose proof (fraction_pos A B HA HB) as Hq.
  assert (Hu : (0 < powerRZ 2 e)%R) by (apply powerRZ_lt; lra).
  (* the mantissa below 2^53 *)
  assert (Hm53 : (IZR (Zpos m) <= 9007199254740991)%R).
  { apply IZR_le. destruct (log2_spec (Zpos m) ltac:(lia)) as [_ [_ Hhi]].
    fold L in Hhi. assert (2 ^ (L + 1) <= 2 ^ 53) by (apply Z.pow_le_mono_r; lia).
    change (2 ^ 53) with 9007199254740992 in *. lia. }
  assert (Hrd : forall e', 
     div_nearest_even (A * 2 ^ Z.max 0 (- e')) (B * 2 ^ Z.max 0 e') = Zpos m ->
     e' = e ->
     (let '(m0, e0) := if Zpos m =? 2 ^ 53 then (2 ^ 52, e' + 1) else (Zpos m, e') in
      match m0 with
      | Zpos p => if e0 <=? 971 then S754_finite s p e0 else S754_infinity s
      | _ => S754_zero s
      end) = S754_finite s m e).
  { intros e' _ ->. 
    destruct (Z.eqb_spec (Zpos m) (2 ^ 53)) as [E|_].
    - exfalso. rewrite E in Hm53. change (2 ^ 53) with 9007199254740992 in Hm53.
      lra.
    - destruct (Z.leb_spec e 971); [reflexivity|lia]. }
  assert (Hsame : Z.max (floor_log2 A B - 52) (-1074) = e ->
                  round_to_double s A B = S754_finite s m e).
  { intros He. unfold round_to_double. rewrite He.
    assert (Hn : div_nearest_even (A * 2 ^ Z.max 0 (- e)) (B * 2 ^ Z.max 0 e)
                 = Zpos m).
    { apply div_nearest_even_nearest.
      - apply Z.mul_pos_pos; [exact HB|apply Z.pow_pos_nonneg; lia].
      - rewrite fraction_unscale by exact HB.
        apply (near_unit _ _ _ _ _ Hu). lra. }
    rewrite Hn. apply (Hrd e Hn eq_refl). }
  destruct (Rle_dec (powerRZ 2 (52 + e)) (IZR A / IZR B)) as [Hge|Hlt].
  - (* the fraction is in the binade of the double or above *)
    apply Hsame.
    assert (HLe : L = 52 \/ e = -1074) by lia.
    rewrite (floor_log2_real A B (52 + e)); [lia|exact HA|exact HB|].
    split; [exact Hge|].
    replace (52 + e + 1) with (53 + e) by lia.
    rewrite powerRZ_split, (powerRZ_2_const 53) by (lra || lia).
    change (2 ^ 53) with 9007199254740992.
    nra.
  - apply Rnot_le_lt in Hlt.
    assert (Hjlt : floor_log2 A B < 52 + e).
    { apply (powerRZ_lt_inv 2); [lia|]. lra. }
    destruct (Z.eq_dec e (-1074)) as [He|He].
    + apply Hsame. lia.
    + (* just below a power of two *)
      assert (HL52 : L = 52) by lia.
      rewrite powerRZ_split, (powerRZ_2_const 52) in Hlt by (lra || lia).
      change (2 ^ 52) with 4503599627370496 in *.
      rewrite HL52 in Hm.
      assert (Hm52 : Zpos m = 4503599627370496).
      { destruct (Z.eq_dec (Zpos m) 4503599627370496) as [|Hne]; [assumption|].
        exfalso. assert (H1 : 4503599627370497 <= Zpos m).
        { destruct Hm as [Hm _]. apply le_IZR in Hm. 
          change (2 ^ 52) with 4503599627370496 in Hm. lia. }
        apply IZR_le in H1. nra. }
      specialize (Hlow Hm52 ltac:(lia)).
      assert (Hj51 : floor_log2 A B = 51 + e).
      { apply floor_log2_real; [exact HA|exact HB|].
        replace (51 + e + 1) with (52 + e) by lia.
        rewrite !powerRZ_split, (powerRZ_2_const 52), (powerRZ_2_const 51) by (lra || lia).
        change (2 ^ 52) with 4503599627370496. change (2 ^ 51) with 2251799813685248.
        rewrite Hm52 in Hlow. split; nra. }
      unfold round_to_double. rewrite Hj51.
      replace (Z.max (51 + e - 52) (-1074)) with (e - 1) by lia.
      assert (Hn : div_nearest_even (A * 2 ^ Z.max 0 (- (e - 1)))
                     (B * 2 ^ Z.max 0 (e - 1)) = 2 ^ 53).
      { apply div_nearest_even_nearest.
        - apply Z.mul_pos_pos; [exact HB|apply Z.pow_pos_nonneg; lia].
        - rewrite fraction_unscale, powerRZ_2_pred by exact HB.
          change (2 ^ 53) with 9007199254740992.
          rewrite Hm52 in Hlow, Hnear.
          apply near_unit; lra. }
      rewrite Hn. rewrite Z.eqb_refl.
      replace (e - 1 + 1) with e by lia.
      change (2 ^ 52) with 4503599627370496.
      destruct (Z.leb_spec e 971); [|lia].
      f_equal. apply Pos2Z.inj. rewrite Hm52. reflexivity.
Qed.

(** ** The digits of [%.17g] *)

Lemma scale_nearest_even_near a b k : 0 < b ->
  (- (1 / 2) <= IZR a / IZR b * powerRZ 10 k - IZR (scale_nearest_even a b k)
   <= 1 / 2)%R.
Proof.
  intros Hb.
  assert (E : scale_nearest_even a b k
              = div_nearest_even (a * 10 ^ Z.max 0 k) (b * 10 ^ Z.max 0 (- k))).
  { unfold scale_nearest_even. destruct (Z.leb_spec 0 k).
    - rewrite (Z.max_r 0 k), (Z.max_l 0 (- k)), Z.pow_0_r, Z.mul_1_r by lia.
      reflexivity.
    - rewrite (Z.max_l 0 k), (Z.max_r 0 (- k)), Z.pow_0_r, Z.mul_1_r by lia.
      reflexivity. }
  rewrite E, <- (fraction_scale 10 a b k) by lia.
  apply div_nearest_even_near.
  apply Z.mul_pos_pos; [exact Hb|apply Z.pow_pos_nonneg; lia].
Qed.

Lemma float_fraction m e :
  0 < numer m e /\ 0 < denom e /\
  (IZR (numer m e) / IZR (denom e) = IZR (Zpos m) * powerRZ 2 e)%R.
Proof.
  assert (E : numer m e = Zpos m * 2 ^ Z.max 0 e
              /\ denom e = 1 * 2 ^ Z.max 0 (- e)).
  { unfold numer, denom. destruct (Z.leb_spec 0 e).
    - rewrite (Z.max_r 0 e), (Z.max_l 0 (- e)), Z.pow_0_r by lia. split; reflexivity.
    - rewrite (Z.max_l 0 e), (Z.max_r 0 (- e)), Z.pow_0_r by lia. lia. }
  destruct E as [-> ->]. split; [|split].
  - apply Z.mul_pos_pos; [lia|apply Z.pow_pos_nonneg; lia].
  - apply Z.mul_pos_pos; [lia|apply Z.pow_pos_nonneg; lia].
  - rewrite (fraction_scale 2 (Zpos m) 1 e) by lia. field.
Qed.

Lemma scale_digits_17 a b : 0 < a -> 0 < b ->
  let X0 := floor_log10 a b in
  let N0 := scale_nearest_even a b (16 - X0) in
  10 ^ 16 <= N0 <= 10 ^ 17
  /\ (- (IZR a / IZR b / 20000000000000000)
      <= IZR N0 * powerRZ 10 (X0 - 16) - IZR a / IZR b
      <= IZR a / IZR b / 20000000000000000)%R.
Proof.
  intros Ha Hb X0 N0.
  pose proof (floor_log10_bounds a b Ha Hb) as [Hlo Hhi]. fold X0 in Hlo, Hhi.
  pose proof (scale_nearest_even_near a b (16 - X0) Hb) as Hn. fold N0 in Hn.
  assert (Hw : (0 < powerRZ 10 (X0 - 16))%R) by (apply powerRZ_lt; lra).
  assert (Ht : powerRZ 10 (16 - X0) = (/ powerRZ 10 (X0 - 16))%R).
  { replace (16 - X0) with (- (X0 - 16)) by lia. apply powerRZ_neg'. }
  assert (H16 : powerRZ 10 X0 = (10000000000000000 * powerRZ 10 (X0 - 16))%R).
  { replace X0 with (16 + (X0 - 16)) at 1 by lia.
    rewrite powerRZ_split by lra. rewrite <- (IZR_pow 10 16) by lia. reflexivity. }
  assert (H17 : powerRZ 10 (X0 + 1) = (100000000000000000 * powerRZ 10 (X0 - 16))%R).
  { replace (X0 + 1) with (17 + (X0 - 16)) at 1 by lia.
    rewrite powerRZ_split by lra. rewrite <- (IZR_pow 10 17) by lia. reflexivity. }
  rewrite H16 in Hlo. rewrite H17 in Hhi. rewrite Ht in Hn.
  change (IZR a / IZR b * / powerRZ 10 (X0 - 16))%R
    with (IZR a / IZR b / powerRZ 10 (X0 - 16))%R in Hn.
  generalize dependent (IZR a / IZR b)%R. intros x Hlo Hhi Hn.
  assert (Hx : (x = x / powerRZ 10 (X0 - 16) * powerRZ 10 (X0 - 16))%R)
    by (field; lra).
  generalize dependent (x / powerRZ 10 (X0 - 16))%R. intros y Hn Hx. subst x.
  clear Ht H16 H17.
  generalize dependent (powerRZ 10 (X0 - 16)). intros w Hw Hlo Hhi.
  assert (Hy1 : (10000000000000000 <= y)%R)
    by (apply Rmult_le_reg_r with w; [exact Hw|lra]).
  assert (Hy2 : (y < 100000000000000000)%R)
    by (apply Rmult_lt_reg_r with w; [exact Hw|lra]).
  split; [split|].
  - assert (10 ^ 16 - 1 < N0); [|lia]. apply lt_IZR.
    change (10 ^ 16 - 1) with 9999999999999999. lra.
  - assert (N0 < 10 ^ 17 + 1); [|lia]. apply lt_IZR.
    change (10 ^ 17 + 1) with 100000000000000001. lra.
  - assert (H1 : ((y - IZR N0) * w <= 1 / 2 * w)%R)
      by (apply Rmult_le_compat_r; lra).
    assert (H2 : (- (1 / 2) * w <= (y - IZR N0) * w)%R)
      by (apply Rmult_le_compat_r; lra).
    lra.
Qed.

(** The 17 digits [%.17g] prints are within half a unit of the 17th
    digit of the number, which is at most the number over [2 * 10^16]. *)
Lemma sig_digits_17 a b N X : 0 < a -> 0 < b ->
  sig_digits 17 a b = (N, X) ->
  10 ^ 16 <= N < 10 ^ 17
  /\ (- (IZR a / IZR b / 20000000000000000)
      <= IZR N * powerRZ 10 (X - 16) - IZR a / IZR b
      <= IZR a / IZR b / 20000000000000000)%R.
Proof.
  intros Ha Hb. unfold sig_digits.
  destruct (scale_digits_17 a b Ha Hb) as [HN Hq].
  replace (17 - 1 - floor_log10 a b) with (16 - floor_log10 a b) by lia.
  set (X0 := floor_log10 a b) in *.
  set (N0 := scale_nearest_even a b (16 - X0)) in *.
  change (10 ^ (17 - 1)) with (10 ^ 16).
  destruct (Z.eqb_spec N0 (10 ^ 17)) as [E|E]; intros [= <- <-].
  - split; [lia|].
    replace (X0 + 1 - 16) with (1 + (X0 - 16)) by lia.
    rewrite powerRZ_split by lra. change (powerRZ 10 1) with (10 * 1)%R.
    rewrite E in Hq. change (IZR (10 ^ 17)) with 100000000000000000%R in Hq.
    change (IZR (10 ^ 16)) with 10000000000000000%R. lra.
  - split; [lia|]. exact Hq.
Qed.

(** The text of [%.17g], read back and rounded, is the double printed. *)
Lemma digits_17_round_trip s m e N X A B :
  bounded 53 1024 m e = true ->
  sig_digits 17 (numer m e) (denom e) = (N, X) ->
  0 < A -> 0 < B ->
  (IZR A / IZR B = IZR N * powerRZ 10 (X - 16))%R ->
  round_to_double s A B = S754_finite s m e.
Proof.
  intros Hbd Hsd HA HB Hq.
  destruct (float_fraction m e) as [Hn [Hd Hx]].
  destruct (sig_digits_17 _ _ N X Hn Hd Hsd) as [_ Hnear].
  rewrite Hx, <- Hq in Hnear.
  assert (Hu : (0 < powerRZ 2 e)%R) by (apply powerRZ_lt; lra).
  assert (Hm : (IZR (Zpos m) * powerRZ 2 e <= 9007199254740991 * powerRZ 2 e)%R).
  { apply Rmult_le_compat_r; [lra|]. apply IZR_le.
    destruct (bounded_double m e Hbd) as [Hcan _].
    destruct (log2_spec (Zpos m) ltac:(lia)) as [_ [_ Hhi]].
    assert (2 ^ (Z.log2 (Zpos m) + 1) <= 2 ^ 53)
      by (apply Z.pow_le_mono_r; lia).
    change (2 ^ 53) with 9007199254740992 in *. lia. }
  apply round_to_double_near; try assumption.
  - lra.
  - intros Hm52 _. rewrite Hm52 in *. change (2 ^ 52) with 4503599627370496 in *.
    lra.
Qed.

(** ** Reading back what was printed *)

Lemma split_at_none p s :
  string_forall (fun c => negb (p c)) s = true -> split_at p s = (s, None).
Proof.
  induction s as [|c s IH]; simpl; [reflexivity|]. intros H.
  apply andb_true_iff in H. destruct H as [Hc Hs].
  apply negb_true_iff in Hc. rewrite Hc, (IH Hs). reflexivity.
Qed.

Lemma split_at_some p a c b :
  string_forall (fun c => negb (p c)) a = true -> p c = true ->
  split_at p (a ++ String c b) = (a, Some b).
Proof.
  intros Ha Hc. induction a as [|x a IH]; simpl.
  - rewrite Hc. reflexivity.
  - simpl in Ha. apply andb_true_iff in Ha. destruct Ha as [Hx Ha].
    apply negb_true_iff in Hx. rewrite Hx, (IH Ha). reflexivity.
Qed.

Lemma string_app_empty_r (s : string) : (s ++ EmptyString)%string = s.
Proof. induction s as [|c s IH]; simpl; [reflexivity|]. rewrite IH. reflexivity. Qed.

Lemma digit_not_point c : is_digit c = true -> negb (is_point c) = true.
Proof.
  destruct c as [[] [] [] [] [] [] [] []]; intros H; try reflexivity;
    cbv in H; discriminate H.
Qed.

Lemma digit_not_exp c : is_digit c = true -> negb (is_exp c) = true.
Proof.
  destruct c as [[] [] [] [] [] [] [] []]; intros H; try reflexivity;
    cbv in H; discriminate H.
Qed.

Lemma digit_or_point_not_exp c :
  is_digit c || is_point c = true -> negb (is_exp c) = true.
Proof.
  destruct c as [[] [] [] [] [] [] [] []]; intros H; try reflexivity;
    cbv in H; discriminate H.
Qed.

Lemma split_sign_text neg g : starts_with_digit g = true ->
  split_sign (sign_text neg ++ g) = (neg, g).
Proof.
  intros Hg. destruct neg; [reflexivity|]. simpl.
  destruct g as [|c r]; [discriminate Hg|]. simpl in Hg. unfold split_sign.
  destruct c as [[] [] [] [] [] [] [] []]; try reflexivity;
    cbv in Hg; discriminate Hg.
Qed.

Lemma starts_with_digit_app a b :
  a <> EmptyString -> string_forall is_digit a = true ->
  starts_with_digit (a ++ b) = true.
Proof.
  destruct a as [|c a]; [congruence|]. simpl. intros _ H.
  apply andb_true_iff in H. apply H.
Qed.

(** *** Trailing zeros *)

Lemma strip_zeros_digits s :
  string_forall is_digit s = true ->
  string_forall is_digit (strip_zeros s) = true.
Proof.
  induction s as [|c s IH]; simpl; [reflexivity|]. intros H.
  apply andb_true_iff in H. destruct H as [Hc Hs]. specialize (IH Hs).
  destruct (strip_zeros s) as [|c' s'].
  - destruct (Ascii.eqb c "0"); [reflexivity|]. simpl. rewrite Hc. reflexivity.
  - cbn [string_forall]. rewrite Hc. exact IH.
Qed.

(** Removing [d] trailing zeros divides the number by [10 ^ d]. *)
Lemma strip_zeros_value s : forall acc V,
  digits_value_acc acc s = Some V ->
  exists V' d, 0 <= d
    /\ Z.of_nat (String.length s)
       = Z.of_nat (String.length (strip_zeros s)) + d
    /\ digits_value_acc acc (strip_zeros s) = Some V'
    /\ V = V' * 10 ^ d.
Proof.
  induction s as [|c s IH]; intros acc V HV.
  - exists V, 0. simpl in *. repeat split; try lia. exact HV.
  - cbn [digits_value_acc] in HV.
    destruct (digit_of_char c) as [dg|] eqn:Ec; [|discriminate HV].
    destruct (IH _ _ HV) as (V' & d & Hd & Hlen & Hval & HVV).
    cbn [strip_zeros]. destruct (strip_zeros s) as [|c' s'] eqn:Es.
    + destruct (Ascii.eqb_spec c "0") as [->|Hc].
      * exists acc, (d + 1). cbn [String.length] in *.
        simpl in Hval. injection Hval as <-. injection Ec as <-.
        repeat split; try lia. rewrite Z.pow_add_r by lia. lia.
      * exists V', d. cbn [String.length digits_value_acc] in *.
        rewrite Ec. repeat split; try lia. exact Hval.
    + exists V', d. cbn [String.length] in *. repeat split; try lia.
      cbn [digits_value_acc]. rewrite Ec. exact Hval.
Qed.

Lemma length_digits_fixed w : forall n, String.length (digits_fixed w n) = w.
Proof.
  induction w as [|w IH]; intros n; cbn [digits_fixed]; [reflexivity|].
  rewrite length_app_string, IH. simpl. lia.
Qed.

Lemma digits_value_acc_dec_uint n : 0 <= n ->
  digits_value_acc 0 (dec_uint n) = Some n.
Proof.
  intros Hn. pose proof (digits_value_dec_uint n Hn) as H.
  pose proof (dec_uint_nonempty n Hn) as Hne. unfold digits_value in H.
  destruct (dec_uint n); [congruence|exact H].
Qed.

(** *** The mantissa *)

Lemma parse_mantissa_digits i k f : 0 <= i -> 0 <= k -> 0 <= f < 10 ^ k ->
  exists N' d, 0 <= d <= k /\ N' * 10 ^ d = i * 10 ^ k + f
    /\ parse_mantissa
         (dec_uint i
          ++ point_frac (strip_zeros (digits_fixed (Z.to_nat k) f)))
       = Some (N', d - k).
Proof.
  intros Hi Hk Hf.
  pose proof (digits_value_acc_fixed (Z.to_nat k) f 0 ltac:(lia)) as HV.
  rewrite Z2Nat.id, Z.mod_small in HV by lia.
  destruct (strip_zeros_value _ _ _ HV) as (V' & d & Hd & Hlen & Hval & HVV).
  rewrite length_digits_fixed, Z2Nat.id in Hlen by lia.
  pose proof (strip_zeros_digits _ (digits_fixed_digits (Z.to_nat k) f)) as Hdig.
  assert (Hint : string_forall (fun c => negb (is_point c)) (dec_uint i) = true).
  { apply (string_forall_impl is_digit); [exact digit_not_point|].
    apply dec_uint_digits. }
  unfold parse_mantissa.
  destruct (strip_zeros (digits_fixed (Z.to_nat k) f)) as [|c r].
  - cbn [point_frac]. rewrite string_app_empty_r, (split_at_none _ _ Hint).
    rewrite digits_value_dec_uint by exact Hi.
    simpl in Hval, Hlen. injection Hval as <-.
    exists i, k. split; [lia|]. split; [lia|]. do 2 f_equal. lia.
  - cbn [point_frac]. rewrite (split_at_some _ _ "."%char _ Hint eq_refl).
    rewrite digits_value_dec_uint by exact Hi.
    unfold digits_value. rewrite Hval. cbn [option_map].
    set (len := Z.of_nat (String.length (String c r))) in *.
    exists (i * 10 ^ len + V'), d. split; [lia|]. split.
    + replace k with (len + d) by lia. rewrite Z.pow_add_r by lia. lia.
    + do 2 f_equal. lia.
Qed.

Lemma mantissa_no_exp i F : string_forall is_digit F = true ->
  string_forall (fun c => negb (is_exp c)) (dec_uint i ++ point_frac F) = true.
Proof.
  intros HF. apply (string_forall_impl (fun c => is_digit c || is_point c)).
  - exact digit_or_point_not_exp.
  - rewrite string_forall_app. apply andb_true_iff. split.
    + apply (string_forall_impl is_digit); [|apply dec_uint_digits].
      intros c ->. reflexivity.
    + destruct F as [|c r]; [reflexivity|].
      change (point_frac (String c r)) with (String "." (String c r)).
      generalize dependent (String c r). intros F HF.
      cbn [string_forall]. apply andb_true_iff. split; [reflexivity|].
      apply (string_forall_impl is_digit); [|exact HF].
      intros c' ->. reflexivity.
Qed.

(** *** The exponent *)

Lemma parse_exponent_text X :
  exists r, exp_text X = String "e" r /\ parse_exponent r = Some X.
Proof.
  unfold exp_text. eexists. split; [reflexivity|].
  assert (Hd : digits_value
                 (if Z.abs X <? 10 then String "0" (dec_uint (Z.abs X))
                  else dec_uint (Z.abs X)) = Some (Z.abs X)).
  { destruct (Z.abs X <? 10).
    - unfold digits_value. cbn [digits_value_acc].
      change (digit_of_char "0") with (Some 0). cbv iota.
      change (0 * 10 + 0) with 0. apply digits_value_acc_dec_uint. lia.
    - apply digits_value_dec_uint. lia. }
  destruct (Z.ltb_spec X 0).
  - cbn [parse_exponent]. rewrite Hd. simpl. f_equal. lia.
  - cbn [parse_exponent]. rewrite Hd. f_equal. lia.
Qed.

(** *** The whole text *)

(** The text of [%.17g] reads back as the 17 digits printed, up to
    trailing zeros. *)
Lemma g_text_parse neg N X : 10 ^ 16 <= N < 10 ^ 17 ->
  exists N' d, 0 <= d /\ N' * 10 ^ d = N
    /\ parse_number (sign_text neg ++ g_text 17 N X)
       = Some (neg, N', X - 16 + d).
Proof.
  intros HN. unfold parse_number, g_text.
  change (17 - 1) with 16.
  destruct ((-4 <=? X) && (X <? 17)) eqn:Estyle.
  - apply andb_true_iff in Estyle. destruct Estyle as [H1 H2].
    apply Z.leb_le in H1. apply Z.ltb_lt in H2.
    destruct (Z.leb_spec 0 X) as [HX|HX].
    + set (k := 16 - X).
      assert (Hp : 0 < 10 ^ k) by (apply Z.pow_pos_nonneg; lia).
      destruct (parse_mantissa_digits (N / 10 ^ k) k (N mod 10 ^ k))
        as (N' & d & Hd & HN' & Hparse).
      { apply Z.div_pos; lia. }
      { lia. }
      { apply Z.mod_pos_bound. exact Hp. }
      exists N', d. split; [lia|]. split.
      { rewrite HN'. pose proof (Z.div_mod N (10 ^ k) ltac:(lia)). lia. }
      rewrite split_sign_text
        by (apply starts_with_digit_app;
            [apply dec_uint_nonempty, Z.div_pos; lia|apply dec_uint_digits]).
      rewrite split_at_none
        by (apply mantissa_no_exp, strip_zeros_digits, digits_fixed_digits).
      rewrite Hparse. do 2 f_equal. unfold k. lia.
    + set (k := 16 - X).
      destruct (parse_mantissa_digits 0 k N) as (N' & d & Hd & HN' & Hparse).
      { lia. }
      { lia. }
      { split; [lia|]. apply Z.lt_le_trans with (10 ^ 17); [lia|].
        apply Z.pow_le_mono_r; lia. }
      exists N', d. split; [lia|]. split; [lia|].
      change (String "0" (point_frac (strip_zeros (digits_fixed (Z.to_nat k) N))))
        with (dec_uint 0 ++ point_frac (strip_zeros (digits_fixed (Z.to_nat k) N)))%string.
      rewrite split_sign_text
        by (apply starts_with_digit_app;
            [apply dec_uint_nonempty; lia|apply dec_uint_digits]).
      rewrite split_at_none
        by (apply mantissa_no_exp, strip_zeros_digits, digits_fixed_digits).
      rewrite Hparse. do 2 f_equal. unfold k. lia.
  - assert (Hp : 0 < 10 ^ 16) by (apply Z.pow_pos_nonneg; lia).
    destruct (parse_mantissa_digits (N / 10 ^ 16) 16 (N mod 10 ^ 16))
      as (N' & d & Hd & HN' & Hparse).
    { apply Z.div_pos; lia. }
    { lia. }
    { apply Z.mod_pos_bound. exact Hp. }
    destruct (parse_exponent_text X) as (r & -> & Hr).
    exists N', d. split; [lia|]. split.
    { rewrite HN'. pose proof (Z.div_mod N (10 ^ 16) ltac:(lia)). lia. }
    rewrite split_sign_text
      by (apply starts_with_digit_app;
          [apply dec_uint_nonempty, Z.div_pos; lia|apply dec_uint_digits]).
    rewrite <- string_app_assoc.
    rewrite split_at_some;
      [|apply mantissa_no_exp, strip_zeros_digits, digits_fixed_digits
       |reflexivity].
    rewrite Hparse, Hr.
    do 2 f_equal. lia.
Qed.

(** ** Doubles: what is printed reads back *)

Lemma strtod_printf_g s m e : bounded 53 1024 m e = true ->
  strtod (printf_g 17 (S754_finite s m e)) = Some (S754_finite s m e).
Proof.
  intros Hbd. unfold printf_g.
  destruct (sig_digits 17 (numer m e) (denom e)) as [N X] eqn:Hsd.
  destruct (float_fraction m e) as [Hn [Hd _]].
  destruct (sig_digits_17 _ _ N X Hn Hd Hsd) as [HN _].
  destruct (g_text_parse s N X HN) as (N' & d & Hd0 & HN' & Hparse).
  unfold strtod. rewrite Hparse.
  assert (Hp : 0 < 10 ^ d) by (apply Z.pow_pos_nonneg; lia).
  assert (HN'pos : 0 < N') by nia.
  destruct (Z.eqb_spec N' 0) as [E|_]; [lia|]. f_equal.
  set (X' := X - 16 + d).
  apply (digits_17_round_trip s m e N X); try assumption.
  - apply Z.mul_pos_pos; [exact HN'pos|apply Z.pow_pos_nonneg; lia].
  - apply Z.pow_pos_nonneg; lia.
  - replace (10 ^ Z.max 0 (- X')) with (1 * 10 ^ Z.max 0 (- X')) by lia.
    rewrite (fraction_scale 10 N' 1 X') by lia.
    unfold X'. replace (X - 16 + d) with (d + (X - 16)) by lia.
    rewrite powerRZ_split by lra. rewrite <- (IZR_pow 10 d) by lia.
    rewrite <- HN', mult_IZR. field.
Qed.

Lemma strtod_integer_text neg z : 0 <= z ->
  strtod (sign_text neg ++ dec_uint z)
  = Some (if z =? 0 then S754_zero neg else round_to_double neg z 1).
Proof.
  intros Hz. unfold strtod, parse_number.
  rewrite split_sign_text
    by (rewrite <- (string_app_empty_r (dec_uint z));
        apply starts_with_digit_app;
        [apply dec_uint_nonempty; exact Hz|apply dec_uint_digits]).
  rewrite split_at_none
    by (apply (string_forall_impl is_digit);
        [exact digit_not_exp|apply dec_uint_digits]).
  unfold parse_mantissa.
  rewrite split_at_none
    by (apply (string_forall_impl is_digit);
        [exact digit_not_point|apply dec_uint_digits]).
  rewrite digits_value_dec_uint by exact Hz.
  change (Z.max 0 (0 + 0)) with 0. change (Z.max 0 (- (0 + 0))) with 0.
  rewrite Z.pow_0_r, Z.mul_1_r. reflexivity.
Qed.

Lemma round_to_double_sign s a b :
  round_to_double s a b = with_sign s (round_to_double false a b).
Proof.
  unfold round_to_double.
  destruct (div_nearest_even _ _ =? 2 ^ 53).
  - change (2 ^ 52) with 4503599627370496.
    destruct (_ <=? 971); reflexivity.
  - destruct (div_nearest_even _ _); try reflexivity.
    destruct (_ <=? 971); reflexivity.
Qed.

Lemma SFeqb_finite x m e :
  SFeqb x (S754_finite false m e) = true -> x = S754_finite false m e.
Proof.
  unfold SFeqb, SFcompare.
  destruct x as [s'|s'| |s' m' e']; try (destruct s'; discriminate);
    try discriminate.
  destruct s'; [discriminate|].
  destruct (Z.compare_spec e' e) as [->|_|_]; try discriminate.
  change (Pos.compare_cont Eq m' m) with (Pos.compare m' m).
  destruct (Pos.compare_spec m' m) as [->|_|_]; try discriminate.
  reflexivity.
Qed.

Lemma SFeqb_finite_refl m e :
  SFeqb (S754_finite false m e) (S754_finite false m e) = true.
Proof.
  unfold SFeqb, SFcompare. rewrite Z.compare_refl.
  change (Pos.compare_cont Eq m m) with (Pos.compare m m).
  rewrite Pos.compare_refl. reflexivity.
Qed.

Lemma uint64_of_double_range `{Target} x : 0 <= uint64_of_double x < 2 ^ 64.
Proof.
  unfold uint64_of_double.
  destruct (trunc_double x) as [t|]; [|apply Z.mod_pos_bound; lia].
  destruct (Z.leb_spec 0 t); destruct (Z.ltb_spec t (2 ^ 64)); simpl;
    try (apply Z.mod_pos_bound; lia); lia.
Qed.

Lemma uint64_of_double_exact `{Target} x t :
  trunc_double x = Some t -> 0 <= t < 2 ^ 64 -> uint64_of_double x = t.
Proof.
  intros Ht Hr. unfold uint64_of_double. rewrite Ht.
  destruct (Z.leb_spec 0 t); destruct (Z.ltb_spec t (2 ^ 64)); simpl; lia.
Qed.

Lemma SFltb_finite_zero s m e :
  SFltb (S754_finite s m e) (double_of_int 0) = s.
Proof. destruct s; reflexivity. Qed.

Section DoubleText.
Context `{Target}.

(** The text of a finite double other than [-0.0] reads back as the
    double. *)
Lemma finite_double_text_round_trip val :
  valid_double val = true -> isinf val || isnan val = false ->
  val <> S754_zero true ->
  strtod (finite_double_text val) = Some val.
Proof.
  intros Hv Hfin Hnz. destruct val as [[|]| | |s m e]; try discriminate Hfin.
  - congruence.
  - reflexivity.
  - assert (Hbd : bounded 53 1024 m e = true) by exact Hv.
    unfold finite_double_text.
    change (fabs (S754_finite s m e)) with (S754_finite false m e).
    pose proof (uint64_of_double_range (S754_finite false m e)) as Hi.
    set (ival := uint64_of_double (S754_finite false m e)) in *.
    rewrite SFltb_finite_zero.
    destruct (SFeqb (double_of_int ival) (S754_finite false m e)) eqn:Eq.
    + apply SFeqb_finite in Eq. rewrite double_of_int_spec in Eq by lia.
      unfold dec. destruct (Z.ltb_spec ival 0); [lia|].
      change (if s then "-"%string else EmptyString) with (sign_text s).
      rewrite strtod_integer_text by lia.
      destruct (Z.eqb_spec ival 0) as [E|_].
      * rewrite E in Eq. discriminate Eq.
      * rewrite round_to_double_sign, Eq. reflexivity.
    + apply strtod_printf_g. exact Hbd.
Qed.

Lemma dec_no_point z :
  string_forall (fun c => negb (is_point c)) (dec z) = true.
Proof.
  unfold dec. destruct (z <? 0); [cbn [string_forall]; apply andb_true_iff;
    split; [reflexivity|]|];
  (apply (string_forall_impl is_digit);
    [exact digit_not_point|apply dec_uint_digits]).
Qed.

(** A double that is an integer below [2^64] in magnitude is printed as
    that integer. *)
Lemma finite_double_text_integer val z :
  valid_double val = true ->
  double_integer val = Some z -> Z.abs z < 2 ^ 64 ->
  finite_double_text val = dec z.
Proof.
  intros Hv Hz Hr. destruct val as [s|s| |s m e]; try discriminate Hz.
  - injection Hz as <-. reflexivity.
  - assert (Hbd : bounded 53 1024 m e = true) by exact Hv.
    set (mag := if 0 <=? e then Zpos m * 2 ^ e else Zpos m / 2 ^ (- e)).
    assert (Hmag : z = cond_Zopp s mag
                   /\ (IZR mag / IZR 1 = IZR (Zpos m) * powerRZ 2 e)%R
                   /\ 0 < mag).
    { unfold mag. cbn [double_integer] in Hz. destruct (Z.leb_spec 0 e) as [He|He].
      - injection Hz as <-. split; [reflexivity|]. split.
        + rewrite mult_IZR, (IZR_pow 2 e) by lia. field.
        + apply Z.mul_pos_pos; [lia|apply Z.pow_pos_nonneg; lia].
      - destruct (Z.eqb_spec (Zpos m mod 2 ^ (- e)) 0) as [Hm|]; [|discriminate Hz].
        injection Hz as <-. split; [reflexivity|].
        assert (Hp : 0 < 2 ^ (- e)) by (apply Z.pow_pos_nonneg; lia).
        pose proof (Z.div_mod (Zpos m) (2 ^ (- e)) ltac:(lia)) as Hdm.
        rewrite Hm, Z.add_0_r in Hdm. split.
        + rewrite Hdm at 2. rewrite mult_IZR, (IZR_pow 2 (- e)) by lia.
          rewrite powerRZ_neg'. field.
          apply Rgt_not_eq, powerRZ_lt. lra.
        + nia. }
    destruct Hmag as (Hzm & Hreal & Hpos).
    assert (Habs : Z.abs z = mag) by (rewrite Hzm; destruct s; simpl; lia).
    unfold finite_double_text.
    change (fabs (S754_finite s m e)) with (S754_finite false m e).
    rewrite (uint64_of_double_exact (S754_finite false m e) mag)
      by (try reflexivity; lia).
    rewrite double_of_int_spec by lia.
    rewrite (round_to_double_near false mag 1 m e); try assumption; try lia.
    + rewrite SFeqb_finite_refl.
      rewrite SFltb_finite_zero.
      rewrite Hzm. unfold dec. destruct s; simpl cond_Zopp.
      * destruct (Z.ltb_spec (- mag) 0); [|lia].
        destruct (Z.ltb_spec mag 0); [lia|].
        rewrite Z.opp_involutive. reflexivity.
      * destruct (Z.ltb_spec mag 0); [lia|]. reflexivity.
    + rewrite Hreal. assert (0 < powerRZ 2 e)%R by (apply powerRZ_lt; lra). lra.
    + intros _ _. rewrite Hreal.
      assert (0 < powerRZ 2 e)%R by (apply powerRZ_lt; lra). lra.
Qed.

End DoubleText.

(** ** A float as a double *)

Lemma bounded_float m e : bounded 24 128 m e = true ->
  Z.log2 (Zpos m) <= 23 /\ -149 <= e <= 104.
Proof.
  unfold bounded, canonical_mantissa, fexp, emin. intros Hb.
  apply andb_prop in Hb. destruct Hb as [Hc He].
  apply Z.eqb_eq in Hc. apply Z.leb_le in He.
  rewrite digits2_log2 in Hc. lia.
Qed.

(** [(double)f] is exact: the mantissa of the float moved up to 53
    bits. *)
Lemma double_of_float_exact s m e : bounded 24 128 m e = true ->
  let k := 52 - Z.log2 (Zpos m) in
  bounded 53 1024 (Z.to_pos (Zpos m * 2 ^ k)) (e - k) = true
  /\ double_of_float (S754_finite s m e)
     = S754_finite s (Z.to_pos (Zpos m * 2 ^ k)) (e - k).
Proof.
  intros Hb k. destruct (bounded_float m e Hb) as [HL He].
  pose proof (Z.log2_nonneg (Zpos m)) as HL0.
  assert (Hk : 0 <= k) by (unfold k; lia).
  assert (Hp : 0 < 2 ^ k) by (apply Z.pow_pos_nonneg; lia).
  assert (Hm' : Zpos (Z.to_pos (Zpos m * 2 ^ k)) = Zpos m * 2 ^ k)
    by (apply Z2Pos.id; nia).
  assert (Hbd : bounded 53 1024 (Z.to_pos (Zpos m * 2 ^ k)) (e - k) = true).
  { unfold bounded, canonical_mantissa, fexp, emin.
    rewrite digits2_log2, Hm', Z.log2_mul_pow2 by lia.
    apply andb_true_iff. split; [apply Z.eqb_eq|apply Z.leb_le]; unfold k; lia. }
  split; [exact Hbd|].
  assert (E : double_of_float (S754_finite s m e) = binary_round 53 1024 s m e)
    by (destruct s; reflexivity).
  rewrite E, binary_round_spec.
  assert (HA : 0 < Zpos m * 2 ^ Z.max 0 e)
    by (apply Z.mul_pos_pos; [lia|apply Z.pow_pos_nonneg; lia]).
  assert (HB : 0 < 2 ^ Z.max 0 (- e)) by (apply Z.pow_pos_nonneg; lia).
  assert (Hreal : (IZR (Zpos m * 2 ^ Z.max 0 e) / IZR (2 ^ Z.max 0 (- e))
                   = IZR (Zpos (Z.to_pos (Zpos m * 2 ^ k))) * powerRZ 2 (e - k))%R).
  { replace (2 ^ Z.max 0 (- e)) with (1 * 2 ^ Z.max 0 (- e)) by lia.
    rewrite (fraction_scale 2 (Zpos m) 1 e) by lia.
    rewrite Hm', mult_IZR, (IZR_pow 2 k) by lia.
    replace (e - k) with (e + - k) by lia.
    rewrite powerRZ_split, powerRZ_neg' by lra.
    field. apply Rgt_not_eq, powerRZ_lt. lra. }
  assert (Hu : (0 < powerRZ 2 (e - k))%R) by (apply powerRZ_lt; lra).
  apply round_to_double_near; try assumption.
  - rewrite Hreal. lra.
  - intros _ _. rewrite Hreal. lra.
Qed.

Lemma double_of_float_valid f :
  valid_float f = true -> valid_double (double_of_float f) = true.
Proof.
  destruct f as [s|s| |s m e]; try (intros; reflexivity). intros Hv.
  destruct (double_of_float_exact s m e Hv) as [Hbd ->]. exact Hbd.
Qed.

Section DoubleFacts.
Context {St : Type} `{CborParser St} `{Target}.

(** C6.  A finite double [val] as a value (a double item, or a float
    item converted to double): the text written is [finite_double_text].
    If [val] is an integer of magnitude below [2^64], the text is the
    decimal literal of that integer (a minus sign and digits for a negative
    one, digits otherwise) and holds no decimal point; otherwise the text,
    read back as a double, is [val]. *)
Theorem C6_double_text fuel (it : CborValue St) flags type val w :
  (type = CborDoubleType
   /\ val = cbor_value_get_double it
   /\ valid_double val = true)
  \/ (type = CborFloatType
      /\ val = double_of_float (cbor_value_get_float it)
      /\ valid_float (cbor_value_get_float it) = true) ->
  isinf val || isnan val = false ->
  can_write 1 w = true ->
  value_to_json (S fuel) it flags type w
    = Ret (cbor_value_advance_fixed it) (put (finite_double_text val) w)
  /\ (forall z, double_integer val = Some z -> Z.abs z < 2 ^ 64 ->
      finite_double_text val = dec z
      /\ string_forall (fun c => negb (is_point c)) (finite_double_text val)
         = true)
  /\ ((forall z, double_integer val = Some z -> 2 ^ 64 <= Z.abs z) ->
      strtod (finite_double_text val) = Some val).
Proof.
  intros Hty Hfin Hw.
  assert (Hv : valid_double val = true).
  { destruct Hty as [(_ & _ & Hv)|(_ & -> & Hv)]; [exact Hv|].
    apply double_of_float_valid. exact Hv. }
  split; [|split].
  - destruct Hty as [(-> & -> & _)|(-> & -> & _)].
    + rewrite (value_to_json_formatted fuel it flags CborDoubleType w
                 eq_refl Hw).
      cbn [value_text]. rewrite Hfin. reflexivity.
    + rewrite (value_to_json_formatted fuel it flags CborFloatType w
                 eq_refl Hw).
      cbn [value_text]. rewrite Hfin. reflexivity.
  - intros z Hz Hr.
    rewrite (finite_double_text_integer _ z Hv Hz Hr).
    split; [reflexivity|apply dec_no_point].
  - intros Hout. apply finite_double_text_round_trip; try assumption.
    intros E. rewrite E in Hout. specialize (Hout 0 eq_refl).
    change (Z.abs 0) with 0 in Hout. lia.
Qed.

End DoubleFacts.

Lemma C6_double_text_witness :
  (value_to_json 1 (start [Double Samples.double_0_1]) 0 CborDoubleType
     fresh_world
   = Ret (CborNoError, cursor [Double Samples.double_0_1] 1 0)
         (put "0.10000000000000001" fresh_world)
   /\ strtod "0.10000000000000001" = Some Samples.double_0_1)
  /\ (value_to_json 1 (start [Double Samples.double_minus_3]) 0
        CborDoubleType fresh_world
      = Ret (CborNoError, cursor [Double Samples.double_minus_3] 1 0)
            (put "-3" fresh_world)
      /\ string_forall (fun c => negb (is_point c)) "-3" = true)
  /\ (value_to_json 1 (start [Float Samples.float_1_5]) 0 CborFloatType
        fresh_world
      = Ret (CborNoError, cursor [Float Samples.float_1_5] 1 0)
            (put "1.5" fresh_world)
      /\ strtod "1.5" = Some (double_of_float Samples.float_1_5)).
Proof.
  split; [|split].
  - destruct (@C6_double_text Pos parser target 0
                (start [Double Samples.double_0_1]) 0 CborDoubleType
                Samples.double_0_1 fresh_world
                (or_introl (conj eq_refl (conj eq_refl eq_refl)))
                eq_refl eq_refl) as (Hrun & _ & Hback).
    split; [exact Hrun|]. apply Hback. intros z Hz. discriminate Hz.
  - destruct (@C6_double_text Pos parser target 0
                (start [Double Samples.double_minus_3]) 0 CborDoubleType
                Samples.double_minus_3 fresh_world
                (or_introl (conj eq_refl (conj eq_refl eq_refl)))
                eq_refl eq_refl) as (Hrun & Hint & _).
    destruct (Hint (-3) eq_refl ltac:(vm_compute; reflexivity)) as [_ Hpoint].
    split; [exact Hrun|exact Hpoint].
  - destruct (@C6_double_text Pos parser target 0
                (start [Float Samples.float_1_5]) 0 CborFloatType
                (double_of_float Samples.float_1_5) fresh_world
                (or_intror (conj eq_refl (conj eq_refl eq_refl)))
                eq_refl eq_refl) as (Hrun & _ & Hback).
    split; [exact Hrun|]. apply Hback. intros z Hz. discriminate Hz.
Defined.

(** * Further properties of the converter *)

(** ** Failed writes and empty containers *)

Lemma c_str_until_nul s r : c_str (s ++ String NUL r) = Some (until_nul s).
Proof.
  induction s as [|c s IH]; simpl; [reflexivity|].
  destruct (Ascii.eqb c NUL); [reflexivity|]. rewrite IH. reflexivity.
Qed.

Lemma until_nul_no_nul s : no_nul s = true -> until_nul s = s.
Proof.
  induction s as [|c s IH]; simpl; [reflexivity|]. intros Hs.
  apply andb_true_iff in Hs. destruct Hs as [Hc Hs].
  apply negb_true_iff in Hc. rewrite Hc, (IH Hs). reflexivity.
Qed.

Lemma bind_fprintf_fail {A} s (k : Z -> C A) w :
  s <> EmptyString ->
  writes_left (out w) = Some O ->
  bind (fprintf s) k w = k (-1) w.
Proof.
  intros Hs Hw. unfold bind, fprintf. rewrite (fwrite_fail _ _ Hs Hw).
  reflexivity.
Qed.

Lemma bind_fputc_fail {A} c (k : Z -> C A) w :
  writes_left (out w) = Some O ->
  bind (fputc c) k w = k (-1) w.
Proof.
  intros Hw. unfold bind, fputc.
  rewrite (fwrite_fail (String c EmptyString) w); [reflexivity| |exact Hw].
  discriminate.
Qed.

(** A write of nothing. *)
Lemma bind_fprintf_empty {A} (k : Z -> C A) w :
  bind (fprintf EmptyString) k w = k 0 w.
Proof. reflexivity. Qed.

(** *** The texts of the values are not empty *)

Lemma app_nonempty_l (a b : string) :
  a <> EmptyString -> (a ++ b)%string <> EmptyString.
Proof. destruct a; [congruence|discriminate]. Qed.

Lemma app_nonempty_r (a b : string) :
  b <> EmptyString -> (a ++ b)%string <> EmptyString.
Proof. destruct a; [auto|discriminate]. Qed.

Lemma dec_uint_some n : dec_uint n <> EmptyString.
Proof.
  destruct (Z_lt_le_dec n 0) as [Hn|Hn]; [|apply dec_uint_nonempty, Hn].
  destruct n as [|p|p]; try lia. discriminate.
Qed.

Lemma dec_some z : dec z <> EmptyString.
Proof. unfold dec. destruct (z <? 0); [discriminate|apply dec_uint_some]. Qed.

Lemma printf_f0_some x : printf_f0 x <> EmptyString.
Proof.
  destruct x as [s|s| |s m e]; cbn [printf_f0];
    try (apply app_nonempty_r; discriminate); [discriminate|].
  apply app_nonempty_r, dec_uint_some.
Qed.

Lemma g_text_some P N X : g_text P N X <> EmptyString.
Proof.
  unfold g_text. destruct ((-4 <=? X) && (X <? P)); [destruct (0 <=? X)|];
    try discriminate; apply app_nonempty_l, dec_uint_some.
Qed.

Lemma printf_g_some P x : printf_g P x <> EmptyString.
Proof.
  destruct x as [s|s| |s m e]; cbn [printf_g];
    try (apply app_nonempty_r; discriminate); [discriminate|].
  destruct (sig_digits P (numer m e) (denom e)) as [N X].
  apply app_nonempty_r, g_text_some.
Qed.

Lemma finite_double_text_some `{Target} val :
  finite_double_text val <> EmptyString.
Proof.
  unfold finite_double_text. destruct (SFeqb _ _); [|apply printf_g_some].
  apply app_nonempty_r, dec_some.
Qed.

Section ErrorPaths.
Context {St : Type} `{CborParser St} `{Target}.

(** X1.  A write that fails is [CborErrorIO].  With a stream that accepts
    no write: a value that is formatted in place (integer, simple, null,
    undefined, boolean, float, double) and a container that was entered
    return [CborErrorIO] with the cursor where it was and nothing written; a
    text string returns [CborErrorIO] once its copy is allocated, the cursor
    past the string; the loops of [array_to_json] and [map_to_json], not at
    the end of their container, return [CborErrorIO] at a comma that is not
    empty (every turn but the first).  In the first turn the empty comma
    transmits nothing and does not fail: the failure is that of the element
    (an array whose element is formatted in place) or of the write of the
    key, once the key is allocated and the cursor past it (a map with a text
    key). *)
Theorem failed_write_is_io_error fuel (it : CborValue St) flags type w :
  writes_left (out w) = Some O ->
  (formatted_key type = true ->
   value_to_json (S fuel) it flags type w = Ret (CborErrorIO, it) w)
  /\ (forall recursed,
      type = CborArrayType \/ type = CborMapType ->
      cbor_value_enter_container it = (CborNoError, recursed) ->
      value_to_json (S fuel) it flags type w = Ret (CborErrorIO, it) w)
  /\ (forall s next,
      type = CborTextStringType ->
      cbor_value_string_contents it = (CborNoError, s, next) ->
      can_alloc 1 w = true ->
      value_to_json (S fuel) it flags type w
        = Ret (CborErrorIO, next) (took w))
  /\ (forall value comma,
      comma <> EmptyString ->
      cbor_value_at_end it = false ->
      array_to_json_loop value (S fuel) comma it flags w
        = Ret (CborErrorIO, it) w
      /\ map_to_json_loop value (S fuel) comma it flags w
        = Ret (CborErrorIO, it) w)
  /\ (forall n,
      cbor_value_at_end it = false ->
      formatted_key (cbor_value_get_type it) = true ->
      array_to_json_loop (value_to_json (S fuel)) (S n) EmptyString it flags w
        = Ret (CborErrorIO, it) w)
  /\ (forall value n s next,
      cbor_value_at_end it = false ->
      cbor_value_get_type it = CborTextStringType ->
      cbor_value_string_contents it = (CborNoError, s, next) ->
      can_alloc 1 w = true ->
      map_to_json_loop value (S n) EmptyString it flags w
        = Ret (CborErrorIO, next) (took w)).
Proof.
  intros Hw.
  assert (Hfmt : forall ty, formatted_key ty = true ->
            value_to_json (S fuel) it flags ty w = Ret (CborErrorIO, it) w).
  { intros ty Hty. destruct ty; try discriminate Hty; cbn [value_to_json];
      try destruct (isinf _ || isnan _);
      try destruct (cbor_value_get_boolean it);
      rewrite bind_fprintf_fail;
      try reflexivity; try exact Hw; try discriminate;
      try apply printf_f0_some; apply finite_double_text_some. }
  split; [exact (Hfmt type)|]. split; [|split; [|split; [|split]]].
  - intros recursed Hty Henter.
    rewrite (value_to_json_container _ _ _ _ Hty), Henter.
    change (is_error CborNoError) with false. cbv iota.
    rewrite (bind_fputc_fail _ _ _ Hw). reflexivity.
  - intros s next -> Hcont Ha. cbn [value_to_json]. unfold bind at 1.
    change (CborType_eqb CborTextStringType CborByteStringType) with false.
    cbv iota. rewrite (dup_text_string_ok _ _ _ _ _ 0 Hcont Ha).
    change (is_error CborNoError) with false. cbv iota.
    unfold fprintf_s. rewrite c_str_until_nul.
    assert (Hw' : writes_left (out (took w)) = Some O) by exact Hw.
    rewrite bind_fprintf_fail; [reflexivity|discriminate|exact Hw'].
  - intros value comma Hcomma Hend. split.
    + cbn [array_to_json_loop]. rewrite Hend. change (negb false) with true.
      cbv iota. rewrite (bind_fprintf_fail _ _ _ Hcomma Hw). reflexivity.
    + cbn [map_to_json_loop]. rewrite Hend. change (negb false) with true.
      cbv iota. rewrite (bind_fprintf_fail _ _ _ Hcomma Hw). reflexivity.
  - intros n Hend Hty. cbn [array_to_json_loop]. rewrite Hend.
    change (negb false) with true. cbv iota.
    rewrite bind_fprintf_empty. change (0 <? 0) with false. cbv iota.
    unfold bind. rewrite (Hfmt _ Hty). reflexivity.
  - intros value n s next Hend Hty Hcont Ha.
    cbn [map_to_json_loop]. rewrite Hend. change (negb false) with true.
    cbv iota. rewrite bind_fprintf_empty. change (0 <? 0) with false.
    cbv iota zeta. rewrite Hty.
    change (CborType_eqb CborTextStringType CborTextStringType) with true.
    cbv iota. unfold bind at 1.
    rewrite (dup_text_string_ok _ _ _ _ _ 0 Hcont Ha).
    change (is_error CborNoError) with false. cbv iota.
    unfold fprintf_s. rewrite c_str_until_nul.
    assert (Hw' : writes_left (out (took w)) = Some O) by exact Hw.
    rewrite bind_fprintf_fail; [reflexivity|discriminate|exact Hw'].
Qed.

(** X2.  An empty array is written as the two brackets, an empty map as
    the two braces, and the result is what [cbor_value_leave_container]
    returns; no fuel is needed for the contents. *)
Theorem empty_container fuel (it recursed : CborValue St) flags type w :
  type = CborArrayType \/ type = CborMapType ->
  cbor_value_enter_container it = (CborNoError, recursed) ->
  cbor_value_at_end recursed = true ->
  can_write 2 w = true ->
  value_to_json (S fuel) it flags type w
    = Ret (cbor_value_leave_container it recursed)
          (put (String (close_bracket type) EmptyString)
               (put (String (open_bracket type) EmptyString) w)).
Proof.
  intros Hty Henter Hend Hw.
  rewrite (value_to_json_container _ _ _ _ Hty), Henter.
  change (is_error CborNoError) with false. cbv iota.
  rewrite (bind_fputc_ok _ _ _ 1 Hw). change (1 <? 0) with false. cbv iota.
  assert (Hbody : contents_to_json fuel type recursed flags
                    (put (String (open_bracket type) EmptyString) w)
                  = Ret (CborNoError, recursed)
                        (put (String (open_bracket type) EmptyString) w)).
  { unfold contents_to_json, array_to_json, map_to_json.
    destruct (CborType_eqb type CborArrayType); destruct fuel;
      cbn [array_to_json_loop map_to_json_loop]; rewrite Hend; reflexivity. }
  unfold bind at 1. rewrite Hbody.
  change (is_error CborNoError) with false. cbv iota.
  rewrite (bind_fputc_ok _ _ _ 0 (can_write_put _ _ _ Hw)).
  change (1 <? 0) with false. cbv iota.
  destruct (cbor_value_leave_container it recursed) as [[] it']; reflexivity.
Qed.

End ErrorPaths.

(** ** Allocation failures *)

Lemma strdup_fail s w : allocs_left (heap w) = Some O ->
  strdup s w = Ret NullPtr w.
Proof. intros Hm. unfold strdup, bind. rewrite (malloc_fail _ _ Hm). reflexivity. Qed.

Lemma asprintf_fail old s w : allocs_left (heap w) = Some O ->
  asprintf old s w = Ret (if asprintf_nulls (heap w) then NullPtr else old) w.
Proof. intros Hm. unfold asprintf, bind. rewrite (malloc_fail _ _ Hm). reflexivity. Qed.

Section MemoryPaths.
Context {St : Type} `{CborParser St} `{Target}.

(** X3.  A text string without a NUL is written between double quotes
    byte for byte, as a value and as a map key: no character is escaped,
    neither a double quote nor a backslash nor a control character.  The
    cursor moves to the one the parser gives after the string. *)
Theorem text_string_verbatim value fuel comma (it next : CborValue St)
    flags s w :
  no_nul s = true ->
  cbor_value_string_contents it = (CborNoError, s, next) ->
  can_alloc 1 w = true ->
  (can_write 1 w = true ->
   value_to_json (S fuel) it flags CborTextStringType w
     = Ret (CborNoError, next) (put (quoted s) (took w)))
  /\
  (cbor_value_at_end it = false ->
   cbor_value_get_type it = CborTextStringType ->
   can_write 2 w = true ->
   map_to_json_loop value (S fuel) comma it flags w
     = map_pair_rest value fuel next flags
         (put (String dquote (s ++ String dquote ":")) (took (put comma w)))).
Proof.
  intros Hs Hcont Ha.
  assert (Hstr : c_str (s ++ String NUL EmptyString) = Some s)
    by (apply c_str_app_nul; exact Hs).
  split.
  - intros Hw. cbn [value_to_json]. unfold bind at 1.
    change (CborType_eqb CborTextStringType CborByteStringType) with false.
    cbv iota. rewrite (dup_text_string_ok _ _ _ _ _ 0 Hcont Ha).
    change (is_error CborNoError) with false. cbv iota.
    unfold fprintf_s. rewrite Hstr.
    rewrite (bind_fprintf_ok _ _ (took w) 0 Hw), ltb_length_false.
    reflexivity.
  - intros Hend Hty Hw.
    rewrite (map_to_json_loop_S _ _ _ _ _ _ 1 Hend Hw). cbv zeta.
    rewrite Hty.
    change (CborType_eqb CborTextStringType CborTextStringType) with true.
    cbv iota. unfold bind at 1.
    rewrite (dup_text_string_ok _ _ _ _ (put comma w) 0 Hcont Ha).
    change (is_error CborNoError) with false. cbv iota.
    unfold fprintf_s. rewrite Hstr.
    rewrite (bind_fprintf_ok _ _ (took (put comma w)) 0
               (can_write_put _ _ _ Hw)).
    rewrite ltb_length_false. reflexivity.
Qed.

Lemma dup_text_string_fail old (it next : CborValue St) s w :
  cbor_value_string_contents it = (CborNoError, s, next) ->
  allocs_left (heap w) = Some O ->
  cbor_value_dup_text_string old it w = Ret (CborErrorOutOfMemory, old, it) w.
Proof.
  intros Hc Hm. unfold cbor_value_dup_text_string. rewrite Hc.
  change (is_error CborNoError) with false. cbv iota.
  unfold bind. rewrite (malloc_fail _ _ Hm). reflexivity.
Qed.

(** X4.  Allocation failures that are checked.  With a heap that cannot
    allocate: a text string, as a value and as a map key, fails with
    [CborErrorOutOfMemory], the cursor unmoved and nothing written
    after the comma; [stringify_map_key] fails with [CborErrorOutOfMemory]
    and a null key for the keys it copies with [strdup], and for the keys
    it formats with [asprintf] where a failing [asprintf] stores NULL. *)
Theorem allocation_failure_is_out_of_memory value fuel comma
    (it : CborValue St) flags w :
  allocs_left (heap w) = Some O ->
  (* a text string, as a value and as a key *)
  (forall s next,
   cbor_value_string_contents it = (CborNoError, s, next) ->
   value_to_json (S fuel) it flags CborTextStringType w
     = Ret (CborErrorOutOfMemory, it) w
   /\ (cbor_value_at_end it = false ->
       cbor_value_get_type it = CborTextStringType ->
       can_write 1 w = true ->
       map_to_json_loop value (S fuel) comma it flags w
         = Ret (CborErrorOutOfMemory, it) (put comma w)))
  /\
  (* a key of another type that the stringifier formats *)
  (forall old type,
   formatted_key type = true ->
   asprintf_key it type = false \/ asprintf_nulls (heap w) = true ->
   stringify_map_key old it flags type w
     = Ret (CborErrorOutOfMemory, NullPtr, it) w).
Proof.
  intros Hm. split.
  - intros s next Hcont. split.
    + cbn [value_to_json]. unfold bind at 1.
      change (CborType_eqb CborTextStringType CborByteStringType) with false.
      cbv iota. rewrite (dup_text_string_fail _ _ _ _ _ Hcont Hm). reflexivity.
    + intros Hend Hty Hw.
      rewrite (map_to_json_loop_S _ _ _ _ _ _ 0 Hend Hw). cbv zeta.
      rewrite Hty.
      change (CborType_eqb CborTextStringType CborTextStringType) with true.
      cbv iota. unfold bind at 1.
      assert (Hm' : allocs_left (heap (put comma w)) = Some O) by exact Hm.
      rewrite (dup_text_string_fail _ _ _ _ _ Hcont Hm'). reflexivity.
  - intros old type Hty Hcase.
    destruct type; try discriminate Hty; unfold stringify_map_key;
      cbn [asprintf_key] in Hcase.
    + (* integer *)
      destruct Hcase as [Hc|Hn]; [discriminate Hc|].
      destruct (cbor_value_is_unsigned_integer it);
        [|cbv zeta; destruct (_ <? 0)];
        unfold bind; rewrite (asprintf_fail _ _ _ Hm), Hn; reflexivity.
    + destruct Hcase as [Hc|Hn]; [discriminate Hc|].
      unfold bind. rewrite (asprintf_fail _ _ _ Hm), Hn. reflexivity.
    + unfold bind. rewrite (strdup_fail _ _ Hm). reflexivity.
    + unfold bind. rewrite (strdup_fail _ _ Hm). reflexivity.
    + unfold bind. rewrite (strdup_fail _ _ Hm). reflexivity.
    + destruct (isnan _ || isinf _) eqn:E; unfold bind.
      * rewrite (strdup_fail _ _ Hm). reflexivity.
      * destruct Hcase as [Hc|Hn]; [discriminate Hc|].
        rewrite (asprintf_fail _ _ _ Hm), Hn. reflexivity.
    + destruct (isnan _ || isinf _) eqn:E; unfold bind.
      * rewrite (strdup_fail _ _ Hm). reflexivity.
      * destruct Hcase as [Hc|Hn]; [discriminate Hc|].
        rewrite (asprintf_fail _ _ _ Hm), Hn. reflexivity.
Qed.

(** X5.  The result of [asprintf] is not looked at.  Where a failing
    [asprintf] leaves its pointer as it was, [stringify_map_key] tests the
    uninitialised [key] of [map_to_json] against NULL, reports success, and
    [map_to_json] passes that pointer to [fprintf]: undefined behaviour, for
    a key that is an integer, a simple value or a finite float or double. *)
Theorem asprintf_result_unchecked value fuel comma (it it' : CborValue St)
    flags w :
  allocs_left (heap w) = Some O ->
  asprintf_nulls (heap w) = false ->
  cbor_value_at_end it = false ->
  asprintf_key it (cbor_value_get_type it) = true ->
  Z.land flags CborConvertStringifyMapKeys <> 0 ->
  cbor_value_advance_fixed it = (CborNoError, it') ->
  can_write 1 w = true ->
  stringify_map_key WildPtr it flags (cbor_value_get_type it) (put comma w)
    = Ret (CborNoError, WildPtr, it') (put comma w)
  /\ map_to_json_loop value (S fuel) comma it flags w = Fault.
Proof.
  intros Hm Hn Hend Hkey Hf Hadv Hw.
  assert (Hm' : allocs_left (heap (put comma w)) = Some O) by exact Hm.
  assert (Hn' : asprintf_nulls (heap (put comma w)) = false) by exact Hn.
  assert (Hs : stringify_map_key WildPtr it flags (cbor_value_get_type it)
                 (put comma w)
               = Ret (CborNoError, WildPtr, it') (put comma w)).
  { destruct (cbor_value_get_type it); try discriminate Hkey;
      unfold stringify_map_key; cbn [asprintf_key] in Hkey.
    - destruct (cbor_value_is_unsigned_integer it);
        [|cbv zeta; destruct (_ <? 0)];
        unfold bind; rewrite (asprintf_fail _ _ _ Hm'), Hn', Hadv; reflexivity.
    - unfold bind. rewrite (asprintf_fail _ _ _ Hm'), Hn', Hadv. reflexivity.
    - apply negb_true_iff in Hkey. rewrite Hkey. unfold bind.
      rewrite (asprintf_fail _ _ _ Hm'), Hn', Hadv. reflexivity.
    - apply negb_true_iff in Hkey. rewrite Hkey. unfold bind.
      rewrite (asprintf_fail _ _ _ Hm'), Hn', Hadv. reflexivity. }
  split; [exact Hs|].
  assert (Hty : CborType_eqb (cbor_value_get_type it) CborTextStringType = false)
    by (destruct (cbor_value_get_type it); try discriminate Hkey; reflexivity).
  rewrite (map_stringified_key _ _ _ _ _ _ 0 Hend Hty Hf Hw), Hs.
  reflexivity.
Qed.

End MemoryPaths.

Section CopyAssertion.
Context {St : Type} `{CborParser St} `{Target}.

(** X10.  [generic_dump_base64] asserts that the copy of the byte string
    succeeds: when the length is known but [cbor_value_copy_byte_string]
    returns an error (the parser cannot step past the string), the
    conversion of a byte string, as a value and as a key, does not return
    that error but fails the assertion. *)
Theorem copy_failure_fails_assertion fuel old (it next : CborValue St)
    alphabet flags n err s w :
  cbor_value_calculate_string_length it = (CborNoError, n) ->
  cbor_value_string_contents it = (err, s, next) ->
  is_error err = true ->
  can_alloc 1 w = true ->
  generic_dump_base64 old it alphabet w = Fault
  /\ value_to_json (S fuel) it flags CborByteStringType w = Fault
  /\ stringify_map_key old it flags CborByteStringType w = Fault.
Proof.
  intros Hlen Hcont Herr Ha.
  assert (Hdump : forall old alphabet,
            generic_dump_base64 old it alphabet w = Fault).
  { intros old' alphabet'. unfold generic_dump_base64. rewrite Hlen.
    change (is_error CborNoError) with false. cbv iota.
    unfold bind at 1. destruct (malloc_ok (size_t (size_t
      (size_t (size_t n + 5) / 3 * 4) + 1)) w 0 Ha) as [-> _].
    unfold bind at 1, cbor_value_copy_byte_string. rewrite Hcont, Herr.
    unfold ret. cbv beta iota. rewrite Herr. reflexivity. }
  split; [apply Hdump|]. split.
  - cbn [value_to_json]. unfold bind at 1.
    change (CborType_eqb CborByteStringType CborByteStringType) with true.
    cbv iota. unfold dump_bytestring_base64url. rewrite Hdump. reflexivity.
  - unfold stringify_map_key, dump_bytestring_base64url. apply Hdump.
Qed.

End CopyAssertion.

(** ** Base64url *)

Lemma range_forall (P : Z -> bool) n :
  forallb (fun i => P (Z.of_nat i)) (seq 0 n) = true ->
  forall i, 0 <= i < Z.of_nat n -> P i = true.
Proof.
  intros Hall i Hi. rewrite forallb_forall in Hall.
  specialize (Hall (Z.to_nat i)). rewrite Z2Nat.id in Hall by lia.
  apply Hall. apply in_seq. lia.
Qed.

Lemma url_digit_not_nul i : 0 <= i < 64 ->
  char_at base64url_alphabet i <> 0.
Proof.
  intros Hi. apply Z.eqb_neq.
  apply (range_forall (fun i => negb (char_at base64url_alphabet i =? 0)) 64
           eq_refl) in Hi.
  apply negb_true_iff in Hi. exact Hi.
Qed.

Lemma url_filler_is_nul : char_at base64url_alphabet 64 = 0.
Proof. reflexivity. Qed.

Lemma index_of_url_digit i : 0 <= i < 64 ->
  index_of base64url_alphabet (char_at base64url_alphabet i) = Some i.
Proof.
  intros Hi.
  apply (range_forall
           (fun i => match index_of base64url_alphabet
                             (char_at base64url_alphabet i) with
                     | Some j => j =? i
                     | None => false
                     end) 64 eq_refl) in Hi.
  destruct (index_of _ _) as [j|]; [|discriminate Hi].
  apply Z.eqb_eq in Hi. congruence.
Qed.

Lemma base64_digits_ok : forall fuel bs, (List.length bs <= fuel)%nat ->
  digits_ok (base64_digits bs).
Proof.
  assert (Hd : forall x, 0 <= x mod 64 < 64)
    by (intros; apply Z.mod_pos_bound; lia).
  induction fuel as [|fuel IH]; intros bs Hf.
  - destruct bs; [constructor|simpl in Hf; lia].
  - destruct bs as [|a [|b [|c bs]]]; cbn [base64_digits];
      repeat (constructor; [apply Hd|]); try constructor.
    apply IH. simpl in Hf. lia.
Qed.

Lemma indices_url_digits ds : digits_ok ds ->
  indices base64url_alphabet (map (char_at base64url_alphabet) ds) = Some ds.
Proof.
  induction 1 as [|d ds Hd _ IH]; [reflexivity|].
  cbn [map indices]. rewrite (index_of_url_digit d Hd), IH. reflexivity.
Qed.

Lemma group_bytes_digits : forall fuel bs, (List.length bs <= fuel)%nat ->
  bytes_ok bs -> group_bytes (base64_digits bs) = Some bs.
Proof.
  induction fuel as [|fuel IH]; intros bs Hf Hok.
  - destruct bs; [reflexivity|simpl in Hf; lia].
  - destruct bs as [|a [|b [|c bs]]].
    + reflexivity.
    + inversion Hok as [|? ? Ha _]; subst. cbn [base64_digits group_bytes].
      change (64 ^ 3) with 262144. change (64 ^ 2) with 4096.
      do 2 f_equal. dlia.
    + inversion Hok as [|? ? Ha Hok1]; subst.
      inversion Hok1 as [|? ? Hb _]; subst. cbn [base64_digits group_bytes].
      change (64 ^ 3) with 262144. change (64 ^ 2) with 4096.
      change (64 ^ 1) with 64.
      do 2 f_equal; [dlia|]. f_equal. dlia.
    + inversion Hok as [|? ? Ha Hok1]; subst.
      inversion Hok1 as [|? ? Hb Hok2]; subst.
      inversion Hok2 as [|? ? Hc Hok3]; subst.
      cbn [base64_digits group_bytes].
      rewrite (IH bs) by (simpl in Hf; try lia; assumption).
      cbn [option_map].
      change (64 ^ 3) with 262144. change (64 ^ 2) with 4096.
      change (64 ^ 1) with 64. change (64 ^ 0) with 1.
      do 2 f_equal; [dlia|]. f_equal; [dlia|]. f_equal. dlia.
Qed.

Lemma bytes_of_string_of_bytes l :
  Forall (fun b => 0 <= b < 256) l -> bytes_of_string (string_of_bytes l) = l.
Proof.
  induction 1 as [|b l Hb _ IH]; [reflexivity|]. cbn [string_of_bytes bytes_of_string].
  rewrite IH. f_equal. unfold byte_of_char, char_of_byte.
  rewrite N_ascii_embedding.
  - rewrite Z.mod_small by lia. lia.
  - rewrite Z.mod_small by lia. lia.
Qed.

Lemma c_string_cons x l : 0 < x < 256 ->
  c_string (x :: l ++ [0]) = String (char_of_byte x) (c_string (l ++ [0])).
Proof.
  intros Hx. unfold c_string.
  change (string_of_bytes (x :: l ++ [0]))
    with (String (char_of_byte x) (string_of_bytes (l ++ [0]))).
  cbn [c_str].
  assert (Hc : Ascii.eqb (char_of_byte x) NUL = false).
  { apply Ascii.eqb_neq. intros E.
    apply (f_equal byte_of_char) in E. unfold byte_of_char, char_of_byte in E.
    rewrite N_ascii_embedding in E by (rewrite Z.mod_small by lia; lia).
    rewrite Z.mod_small in E by lia. simpl in E. lia. }
  rewrite Hc, c_str_terminated. reflexivity.
Qed.

Lemma c_string_nul l : c_string (0 :: l) = EmptyString.
Proof. reflexivity. Qed.

Lemma url_sextet_range g k : 0 < sextet base64url_alphabet g k < 256.
Proof.
  unfold sextet.
  pose proof (Z.mod_pos_bound (g / 64 ^ k) 64 ltac:(lia)) as Hd.
  pose proof (url_digit_not_nul _ Hd).
  pose proof (char_at_range base64url_alphabet (g / 64 ^ k mod 64)). lia.
Qed.

(** The C string in the block the encoder fills is the text without
    fillers: the filler of the base64url alphabet is its terminator. *)
Lemma c_string_base64url : forall fuel bs, (List.length bs <= fuel)%nat ->
  c_string (base64_text base64url_alphabet bs ++ [0])
  = string_of_bytes (map (char_at base64url_alphabet) (base64_digits bs)).
Proof.
  induction fuel as [|fuel IH]; intros bs Hf.
  - destruct bs; [reflexivity|simpl in Hf; lia].
  - destruct bs as [|a [|b [|c bs]]].
    + reflexivity.
    + cbn [base64_text base64_digits map string_of_bytes].
      rewrite url_filler_is_nul.
      do 2 (rewrite <- app_comm_cons, c_string_cons by apply url_sextet_range).
      reflexivity.
    + cbn [base64_text base64_digits map string_of_bytes].
      rewrite url_filler_is_nul.
      do 3 (rewrite <- app_comm_cons, c_string_cons by apply url_sextet_range).
      reflexivity.
    + change (base64_text base64url_alphabet (a :: b :: c :: bs))
        with (sextet base64url_alphabet (a * 65536 + b * 256 + c) 3
              :: sextet base64url_alphabet (a * 65536 + b * 256 + c) 2
              :: sextet base64url_alphabet (a * 65536 + b * 256 + c) 1
              :: sextet base64url_alphabet (a * 65536 + b * 256 + c) 0
              :: base64_text base64url_alphabet bs).
      do 4 (rewrite <- app_comm_cons, c_string_cons by apply url_sextet_range).
      rewrite (IH bs) by (simpl in Hf; lia). reflexivity.
Qed.

Lemma length_string_of_bytes l :
  String.length (string_of_bytes l) = List.length l.
Proof. induction l; simpl; congruence. Qed.

Lemma length_base64_digits : forall fuel bs, (List.length bs <= fuel)%nat ->
  Z.of_nat (List.length (base64_digits bs))
  = (4 * Z.of_nat (List.length bs) + 2) / 3.
Proof.
  induction fuel as [|fuel IH]; intros bs Hf.
  - destruct bs; [reflexivity|simpl in Hf; lia].
  - destruct bs as [|a [|b [|c bs]]]; try reflexivity.
    cbn [base64_digits List.length].
    specialize (IH bs ltac:(simpl in Hf; lia)).
    rewrite !Nat2Z.inj_succ. dlia.
Qed.

Lemma url_digits_bytes ds : digits_ok ds ->
  Forall (fun b => 0 <= b < 256) (map (char_at base64url_alphabet) ds).
Proof.
  induction 1; constructor; [apply char_at_range|assumption].
Qed.

Section ByteStrings.
Context {St : Type} `{CborParser St} `{Target}.

(** X7.  A byte string as a value is written between double quotes as
    its base64url text without padding: [(4n + 2) / 3] characters for [n]
    bytes, which decode to the bytes of the string. *)
Theorem byte_string_value fuel (it next : CborValue St) flags s w :
  cbor_value_calculate_string_length it
    = (CborNoError, Z.of_nat (String.length s)) ->
  cbor_value_string_contents it = (CborNoError, s, next) ->
  Z.of_nat (String.length s) < 2 ^ 62 ->
  can_alloc 1 w = true ->
  can_write 1 w = true ->
  value_to_json (S fuel) it flags CborByteStringType w
    = Ret (CborNoError, next) (put (quoted (base64url_text s)) (took w))
  /\ Z.of_nat (String.length (base64url_text s))
     = (4 * Z.of_nat (String.length s) + 2) / 3
  /\ base64_decode base64url_alphabet (base64url_text s)
     = Some (bytes_of_string s).
Proof.
  intros Hlen Hcont Hsmall Ha Hw. split; [|split].
  - destruct (generic_dump_base64_ok WildPtr it next base64url_alphabet s w
                Hlen Hcont Hsmall Ha) as (buf & Hrun & Hbuf).
    cbn [value_to_json]. unfold bind at 1.
    change (CborType_eqb CborByteStringType CborByteStringType) with true.
    cbv iota. unfold dump_bytestring_base64url. rewrite Hrun.
    change (is_error CborNoError) with false. cbv iota.
    unfold fprintf_s. rewrite (c_str_of_prefix _ _ _ Hbuf).
    rewrite (c_string_base64url _ _ (Nat.le_refl _)).
    rewrite (bind_fprintf_ok _ _ (took w) 0 Hw), ltb_length_false.
    reflexivity.
  - unfold base64url_text.
    rewrite length_string_of_bytes, length_map.
    rewrite (length_base64_digits _ _ (Nat.le_refl _)), length_bytes_of_string.
    reflexivity.
  - unfold base64_decode, base64url_text.
    pose proof (base64_digits_ok _ (bytes_of_string s) (Nat.le_refl _)) as Hd.
    rewrite bytes_of_string_of_bytes by (apply url_digits_bytes; exact Hd).
    rewrite (indices_url_digits _ Hd).
    apply (group_bytes_digits _ _ (Nat.le_refl _)), bytes_ok_of_string.
Qed.

End ByteStrings.

(** ** Keys: integers and floating-point numbers *)

(** [P] significant digits, for any [P]: the digits are within half a
    unit [u] of the last digit, and the number is at least [10^(P-1)]
    units. *)
Lemma sig_digits_near P a b N X : 1 <= P -> 0 < a -> 0 < b ->
  sig_digits P a b = (N, X) ->
  10 ^ (P - 1) <= N < 10 ^ P
  /\ exists u : R,
       (0 < u)%R
       /\ (- (u / 2) <= IZR N * powerRZ 10 (X - (P - 1)) - IZR a / IZR b
           <= u / 2)%R
       /\ (IZR (10 ^ (P - 1)) * u <= IZR a / IZR b)%R.
Proof.
  intros HP Ha Hb. unfold sig_digits.
  pose proof (floor_log10_bounds a b Ha Hb) as [Hlo Hhi].
  set (X0 := floor_log10 a b) in *.
  pose proof (scale_nearest_even_near a b (P - 1 - X0) Hb) as Hn.
  set (N0 := scale_nearest_even a b (P - 1 - X0)) in *.
  assert (Hw : (0 < powerRZ 10 (X0 - (P - 1)))%R) by (apply powerRZ_lt; lra).
  assert (Ht : powerRZ 10 (P - 1 - X0) = (/ powerRZ 10 (X0 - (P - 1)))%R).
  { replace (P - 1 - X0) with (- (X0 - (P - 1))) by lia. apply powerRZ_neg'. }
  assert (HT : IZR (10 ^ P) = (10 * IZR (10 ^ (P - 1)))%R).
  { replace P with (1 + (P - 1)) at 1 by lia.
    rewrite Z.pow_add_r, mult_IZR by lia. reflexivity. }
  assert (HT1 : (1 <= IZR (10 ^ (P - 1)))%R).
  { apply IZR_le. assert (0 < 10 ^ (P - 1)) by (apply Z.pow_pos_nonneg; lia).
    lia. }
  assert (H16 : powerRZ 10 X0
                = (IZR (10 ^ (P - 1)) * powerRZ 10 (X0 - (P - 1)))%R).
  { replace X0 with ((P - 1) + (X0 - (P - 1))) at 1 by lia.
    rewrite powerRZ_split by lra. rewrite <- (IZR_pow 10 (P - 1)) by lia.
    reflexivity. }
  assert (H17 : powerRZ 10 (X0 + 1)
                = (IZR (10 ^ P) * powerRZ 10 (X0 - (P - 1)))%R).
  { replace (X0 + 1) with (P + (X0 - (P - 1))) at 1 by lia.
    rewrite powerRZ_split by lra. rewrite <- (IZR_pow 10 P) by lia.
    reflexivity. }
  assert (HX1 : powerRZ 10 (X0 + 1 - (P - 1))
                = (10 * powerRZ 10 (X0 - (P - 1)))%R).
  { replace (X0 + 1 - (P - 1)) with (1 + (X0 - (P - 1))) by lia.
    rewrite powerRZ_split by lra. change (powerRZ 10 1) with (10 * 1)%R. ring. }
  rewrite H16 in Hlo. rewrite H17 in Hhi. rewrite Ht in Hn.
  change (IZR a / IZR b * / powerRZ 10 (X0 - (P - 1)))%R
    with (IZR a / IZR b / powerRZ 10 (X0 - (P - 1)))%R in Hn.
  assert (Hfacts :
    10 ^ (P - 1) <= N0 <= 10 ^ P
    /\ (- (powerRZ 10 (X0 - (P - 1)) / 2)
        <= IZR N0 * powerRZ 10 (X0 - (P - 1)) - IZR a / IZR b
        <= powerRZ 10 (X0 - (P - 1)) / 2)%R).
  { generalize dependent (IZR a / IZR b)%R. intros x Hlo Hhi Hn.
    assert (Hx : (x = x / powerRZ 10 (X0 - (P - 1))
                      * powerRZ 10 (X0 - (P - 1)))%R) by (field; lra).
    generalize dependent (x / powerRZ 10 (X0 - (P - 1)))%R.
    intros y Hn Hx. subst x. clear Ht H16 H17 HX1.
    generalize dependent (powerRZ 10 (X0 - (P - 1))). intros w Hw Hlo Hhi.
    assert (Hy1 : (IZR (10 ^ (P - 1)) <= y)%R)
      by (apply Rmult_le_reg_r with w; [exact Hw|lra]).
    assert (Hy2 : (y < IZR (10 ^ P))%R)
      by (apply Rmult_lt_reg_r with w; [exact Hw|lra]).
    split; [split|].
    - assert (10 ^ (P - 1) - 1 < N0); [|lia]. apply lt_IZR.
      rewrite minus_IZR. lra.
    - assert (N0 < 10 ^ P + 1); [|lia]. apply lt_IZR.
      rewrite plus_IZR. lra.
    - assert (H1 : ((y - IZR N0) * w <= 1 / 2 * w)%R)
        by (apply Rmult_le_compat_r; lra).
      assert (H2 : (- (1 / 2) * w <= (y - IZR N0) * w)%R)
        by (apply Rmult_le_compat_r; lra).
      lra. }
  destruct Hfacts as [HN Hq].
  destruct (Z.eqb_spec N0 (10 ^ P)) as [E|E]; intros [= <- <-].
  - split.
    + split; [lia|]. apply Z.pow_lt_mono_r; lia.
    + exists (powerRZ 10 (X0 - (P - 1))). split; [exact Hw|]. split; [|lra].
      rewrite HX1. rewrite E, HT in Hq. lra.
  - split; [lia|].
    exists (powerRZ 10 (X0 - (P - 1))). split; [exact Hw|]. split; [exact Hq|lra].
Qed.

(** A fraction within [x / (2 * 10^16)] of a double [x] rounds to it. *)
Lemma near_decimal_round_trip s m e A B : 
  bounded 53 1024 m e = true -> 0 < A -> 0 < B ->
  (- (IZR (Zpos m) * powerRZ 2 e / 20000000000000000)
   <= IZR A / IZR B - IZR (Zpos m) * powerRZ 2 e
   <= IZR (Zpos m) * powerRZ 2 e / 20000000000000000)%R ->
  round_to_double s A B = S754_finite s m e.
Proof.
  intros Hbd HA HB Hnear.
  assert (Hu : (0 < powerRZ 2 e)%R) by (apply powerRZ_lt; lra).
  assert (Hm : (IZR (Zpos m) * powerRZ 2 e <= 9007199254740991 * powerRZ 2 e)%R).
  { apply Rmult_le_compat_r; [lra|]. apply IZR_le.
    destruct (bounded_double m e Hbd) as [Hcan _].
    destruct (log2_spec (Zpos m) ltac:(lia)) as [_ [_ Hhi]].
    assert (2 ^ (Z.log2 (Zpos m) + 1) <= 2 ^ 53)
      by (apply Z.pow_le_mono_r; lia).
    change (2 ^ 53) with 9007199254740992 in *. lia. }
  apply round_to_double_near; try assumption.
  - lra.
  - intros Hm52 _. rewrite Hm52 in *. change (2 ^ 52) with 4503599627370496 in *.
    lra.
Qed.

(** The text of [%.Pg] reads back as the digits printed, up to trailing
    zeros. *)
Lemma g_text_parse_any P neg N X : 1 <= P -> 10 ^ (P - 1) <= N < 10 ^ P ->
  exists N' d, 0 <= d /\ N' * 10 ^ d = N
    /\ parse_number (sign_text neg ++ g_text P N X)
       = Some (neg, N', X - (P - 1) + d).
Proof.
  intros HP HN. unfold parse_number, g_text.
  assert (HN0 : 0 < N).
  { assert (0 < 10 ^ (P - 1)) by (apply Z.pow_pos_nonneg; lia). lia. }
  destruct ((-4 <=? X) && (X <? P)) eqn:Estyle.
  - apply andb_true_iff in Estyle. destruct Estyle as [H1 H2].
    apply Z.leb_le in H1. apply Z.ltb_lt in H2.
    destruct (Z.leb_spec 0 X) as [HX|HX].
    + set (k := P - 1 - X).
      assert (Hp : 0 < 10 ^ k) by (apply Z.pow_pos_nonneg; unfold k; lia).
      destruct (parse_mantissa_digits (N / 10 ^ k) k (N mod 10 ^ k))
        as (N' & d & Hd & HN' & Hparse).
      { apply Z.div_pos; lia. }
      { unfold k; lia. }
      { apply Z.mod_pos_bound. exact Hp. }
      exists N', d. split; [lia|]. split.
      { rewrite HN'. pose proof (Z.div_mod N (10 ^ k) ltac:(lia)). lia. }
      rewrite split_sign_text
        by (apply starts_with_digit_app;
            [apply dec_uint_nonempty, Z.div_pos; lia|apply dec_uint_digits]).
      rewrite split_at_none
        by (apply mantissa_no_exp, strip_zeros_digits, digits_fixed_digits).
      rewrite Hparse. do 2 f_equal. unfold k. lia.
    + set (k := P - 1 - X).
      destruct (parse_mantissa_digits 0 k N) as (N' & d & Hd & HN' & Hparse).
      { lia. }
      { unfold k; lia. }
      { split; [lia|]. apply Z.lt_le_trans with (10 ^ P); [lia|].
        apply Z.pow_le_mono_r; unfold k; lia. }
      exists N', d. split; [lia|]. split; [lia|].
      change (String "0" (point_frac (strip_zeros (digits_fixed (Z.to_nat k) N))))
        with (dec_uint 0 ++ point_frac (strip_zeros (digits_fixed (Z.to_nat k) N)))%string.
      rewrite split_sign_text
        by (apply starts_with_digit_app;
            [apply dec_uint_nonempty; lia|apply dec_uint_digits]).
      rewrite split_at_none
        by (apply mantissa_no_exp, strip_zeros_digits, digits_fixed_digits).
      rewrite Hparse. do 2 f_equal. unfold k. lia.
  - assert (Hp : 0 < 10 ^ (P - 1)) by (apply Z.pow_pos_nonneg; lia).
    destruct (parse_mantissa_digits (N / 10 ^ (P - 1)) (P - 1)
                (N mod 10 ^ (P - 1)))
      as (N' & d & Hd & HN' & Hparse).
    { apply Z.div_pos; lia. }
    { lia. }
    { apply Z.mod_pos_bound. exact Hp. }
    destruct (parse_exponent_text X) as (r & -> & Hr).
    exists N', d. split; [lia|]. split.
    { rewrite HN'. pose proof (Z.div_mod N (10 ^ (P - 1)) ltac:(lia)). lia. }
    rewrite split_sign_text
      by (apply starts_with_digit_app;
          [apply dec_uint_nonempty, Z.div_pos; lia|apply dec_uint_digits]).
    rewrite <- string_app_assoc.
    rewrite split_at_some;
      [|apply mantissa_no_exp, strip_zeros_digits, digits_fixed_digits
       |reflexivity].
    rewrite Hparse, Hr. do 2 f_equal. lia.
Qed.

(** With 17 significant digits or more, what [%.Pg] prints of a finite
    double reads back as that double. *)
Lemma strtod_printf_g_any P x : 17 <= P ->
  valid_double x = true -> isinf x || isnan x = false ->
  strtod (printf_g P x) = Some x.
Proof.
  intros HP Hv Hfin. destruct x as [[|]| | |s m e]; try discriminate Hfin;
    try reflexivity.
  assert (Hbd : bounded 53 1024 m e = true) by exact Hv.
  unfold printf_g.
  destruct (sig_digits P (numer m e) (denom e)) as [N X] eqn:Hsd.
  destruct (float_fraction m e) as [Hn [Hd Hx]].
  destruct (sig_digits_near P _ _ N X ltac:(lia) Hn Hd Hsd)
    as [HN (u & Hu & Hnear & Hbig)].
  destruct (g_text_parse_any P s N X ltac:(lia) HN)
    as (N' & d & Hd0 & HN' & Hparse).
  unfold strtod. rewrite Hparse.
  assert (Hp : 0 < 10 ^ d) by (apply Z.pow_pos_nonneg; lia).
  assert (HNpos : 0 < N).
  { assert (0 < 10 ^ (P - 1)) by (apply Z.pow_pos_nonneg; lia). lia. }
  assert (HN'pos : 0 < N') by nia.
  destruct (Z.eqb_spec N' 0) as [E|_]; [lia|]. f_equal.
  set (X' := X - (P - 1) + d).
  assert (Hq : (IZR (N' * 10 ^ Z.max 0 X') / IZR (10 ^ Z.max 0 (- X'))
                = IZR N * powerRZ 10 (X - (P - 1)))%R).
  { replace (10 ^ Z.max 0 (- X')) with (1 * 10 ^ Z.max 0 (- X')) by lia.
    rewrite (fraction_scale 10 N' 1 X') by lia.
    unfold X'. replace (X - (P - 1) + d) with (d + (X - (P - 1))) by lia.
    rewrite powerRZ_split by lra. rewrite <- (IZR_pow 10 d) by lia.
    rewrite <- HN', mult_IZR. field. }
  apply near_decimal_round_trip; try assumption.
  - apply Z.mul_pos_pos; [exact HN'pos|apply Z.pow_pos_nonneg; lia].
  - apply Z.pow_pos_nonneg; lia.
  - rewrite Hq. rewrite Hx in Hnear, Hbig.
    assert (H16 : (10000000000000000 <= IZR (10 ^ (P - 1)))%R).
    { apply IZR_le. change 10000000000000000 with (10 ^ 16).
      apply Z.pow_le_mono_r; lia. }
    assert (Hbig' : (10000000000000000 * u <= IZR (10 ^ (P - 1)) * u)%R)
      by (apply Rmult_le_compat_r; lra).
    lra.
Qed.

Section KeyFacts.
Context {St : Type} `{CborParser St} `{Target}.

(** X6.  An integer key keeps all its digits: [stringify_map_key]
    formats the 64-bit value itself, not a double, so the key read back as
    an integer is the value, for every integer whose accessors agree (up to
    [2^64 - 1] and down to [-2^63]). *)
Theorem integer_key_exact old (it : CborValue St) flags w :
  integer_accessors_agree it ->
  can_alloc 1 w = true ->
  stringify_map_key old it flags CborIntegerType w
    = Ret (fst (cbor_value_advance_fixed it),
           Chars (dec (integer_value it) ++ String NUL EmptyString),
           snd (cbor_value_advance_fixed it)) (took w)
  /\ c_str (dec (integer_value it) ++ String NUL EmptyString)
     = Some (dec (integer_value it))
  /\ parse_int (dec (integer_value it)) = Some (integer_value it).
Proof.
  intros Hagree Ha. split; [|split].
  - rewrite (stringify_map_key_formatted old it flags CborIntegerType w 0
               eq_refl Ha).
    rewrite (key_text_integer it Hagree). reflexivity.
  - apply c_str_app_nul, no_nul_dec.
  - apply parse_int_dec.
Qed.

(** X8.  A finite float or double as a map key is formatted with 19
    significant digits, and the key read back as a double is the number
    (negative zero included). *)
Theorem floating_key_round_trip old (it : CborValue St) flags type val w :
  (type = CborDoubleType
   /\ val = cbor_value_get_double it
   /\ valid_double val = true)
  \/ (type = CborFloatType
      /\ val = double_of_float (cbor_value_get_float it)
      /\ valid_float (cbor_value_get_float it) = true) ->
  isinf val || isnan val = false ->
  can_alloc 1 w = true ->
  stringify_map_key old it flags type w
    = Ret (fst (cbor_value_advance_fixed it),
           Chars (printf_g 19 val ++ String NUL EmptyString),
           snd (cbor_value_advance_fixed it)) (took w)
  /\ c_str (printf_g 19 val ++ String NUL EmptyString)
     = Some (printf_g 19 val)
  /\ strtod (printf_g 19 val) = Some val.
Proof.
  intros Hty Hfin Ha.
  assert (Hv : valid_double val = true).
  { destruct Hty as [(_ & _ & Hv)|(_ & -> & Hv)]; [exact Hv|].
    apply double_of_float_valid. exact Hv. }
  assert (Hfin' : isnan val || isinf val = false)
    by (rewrite orb_comm; exact Hfin).
  split; [|split].
  - destruct Hty as [(-> & -> & _)|(-> & -> & _)].
    + rewrite (stringify_map_key_formatted old it flags CborDoubleType w 0
                 eq_refl Ha).
      cbn [key_text]. rewrite Hfin'. reflexivity.
    + rewrite (stringify_map_key_formatted old it flags CborFloatType w 0
                 eq_refl Ha).
      cbn [key_text]. rewrite Hfin'. reflexivity.
  - apply c_str_app_nul, no_nul_printf_g.
  - apply strtod_printf_g_any; [lia|exact Hv|exact Hfin].
Qed.

End KeyFacts.

Import Data.

(** ** Worlds without limits *)

Lemma unlimited_can_write w k : unlimited w -> can_write k w = true.
Proof. intros [Hw _]. unfold can_write. rewrite Hw. reflexivity. Qed.

Lemma unlimited_can_alloc w k : unlimited w -> can_alloc k w = true.
Proof. intros [_ Ha]. unfold can_alloc. rewrite Ha. reflexivity. Qed.

Lemma unlimited_put s w : unlimited w -> unlimited (put s w).
Proof.
  intros [Hw Ha]. split; [|exact Ha].
  destruct s; cbn [put out writes_left]; rewrite Hw; reflexivity.
Qed.

Lemma took_unlimited w : unlimited w -> took w = w.
Proof.
  destruct w as [o [a f n]]. intros [_ Ha]. simpl in Ha. subst a. reflexivity.
Qed.

Lemma put_put a b w : unlimited w -> put b (put a w) = put (a ++ b) w.
Proof.
  destruct w as [[wr wl] h]. intros [Hw _]. simpl in Hw. subst wl.
  unfold put. destruct a as [|c a]; [reflexivity|].
  destruct b as [|d b]; cbn [append out written writes_left heap option_map].
  - rewrite string_app_empty_r. reflexivity.
  - change (String c (a ++ String d b)) with (String c a ++ String d b)%string.
    rewrite string_app_assoc. reflexivity.
Qed.

Lemma put_empty w : put EmptyString w = w.
Proof. destruct w. reflexivity. Qed.

(** ** Positions in a stream of items *)

Lemma occurs_start items : occurs items 0 items.
Proof. exists [], []. rewrite app_nil_r. split; reflexivity. Qed.

Lemma occurs_cons items p x l : occurs items p (x :: l) ->
  nth_error items p = Some x /\ occurs items (S p) l
  /\ (p < List.length items)%nat.
Proof.
  intros (pre & post & -> & <-). split; [|split].
  - rewrite nth_error_app2 by lia. rewrite Nat.sub_diag. reflexivity.
  - exists (pre ++ [x]), post. split.
    + rewrite <- app_assoc. reflexivity.
    + rewrite length_app. simpl. lia.
  - rewrite length_app. simpl. lia.
Qed.

Lemma occurs_app items p a b : occurs items p (a ++ b) ->
  occurs items p a /\ occurs items (p + List.length a) b.
Proof.
  intros (pre & post & -> & <-). split.
  - exists pre, (b ++ post). rewrite <- app_assoc. split; reflexivity.
  - exists (pre ++ a), post. split.
    + rewrite <- !app_assoc. reflexivity.
    + rewrite length_app. reflexivity.
Qed.

(** ** The cursor over items *)

Lemma current_at items p r x : 0 < r ->
  nth_error items p = Some x ->
  current (cursor items (Z.of_nat p) r) = Some x.
Proof.
  intros Hr Hx. unfold current, cursor. cbn [ptr rest remaining input].
  destruct (Z.ltb_spec (Z.of_nat p) 0); [lia|].
  destruct (Z.leb_spec r 0); [lia|]. cbn [orb].
  rewrite Nat2Z.id. exact Hx.
Qed.

(** Arriving where the stream goes on, or with nothing left to read. *)
Lemma arrive_ok items p0 r0 p r :
  (0 < r -> (p < List.length items)%nat) ->
  arrive (cursor items p0 r0) (Z.of_nat p) r
  = (CborNoError, cursor items (Z.of_nat p) r).
Proof.
  intros Hfit. unfold arrive, cursor. cbn [ptr rest remaining input].
  destruct (Z.ltb_spec 0 r); [|reflexivity].
  destruct (Z.leb_spec (Z.of_nat (List.length items)) (Z.of_nat p));
    [|reflexivity].
  specialize (Hfit ltac:(lia)). lia.
Qed.

Lemma advance_fixed_ok items p r :
  (1 < r -> (S p < List.length items)%nat) ->
  advance_fixed (cursor items (Z.of_nat p) r)
  = (CborNoError, cursor items (Z.of_nat (S p)) (r - 1)).
Proof.
  intros Hfit. unfold advance_fixed. cbn [ptr rest remaining cursor].
  replace (Z.of_nat p + 1) with (Z.of_nat (S p)) by lia.
  apply (arrive_ok items (Z.of_nat p) r (S p) (r - 1)). intros. apply Hfit. lia.
Qed.

(** The texts depend on the item at the cursor only. *)
Lemma value_text_at (it : Cursor) i :
  current it = Some i ->
  value_text it (type_of i) = value_text (start [i]) (type_of i).
Proof.
  intros Hc.
  destruct i; cbn [type_of value_text]; try reflexivity;
    unfold integer_text; cbn [cbor_value_get_raw_integer
      cbor_value_is_negative_integer cbor_value_get_simple_type
      cbor_value_get_boolean cbor_value_get_float cbor_value_get_double parser];
    unfold raw_integer, is_negative; rewrite Hc; reflexivity.
Qed.

Lemma key_text_at (it : Cursor) i :
  current it = Some i ->
  key_text it (type_of i) = key_text (start [i]) (type_of i).
Proof.
  intros Hc.
  destruct i; cbn [type_of key_text]; try reflexivity;
    cbn [cbor_value_get_raw_integer cbor_value_get_uint64 cbor_value_get_int64
      cbor_value_is_unsigned_integer
      cbor_value_is_negative_integer cbor_value_get_simple_type
      cbor_value_get_boolean cbor_value_get_float cbor_value_get_double parser];
    unfold raw_integer, is_unsigned, get_int64; rewrite Hc; reflexivity.
Qed.

Lemma get_type_at (it : Cursor) i :
  current it = Some i -> cbor_value_get_type it = type_of i.
Proof.
  intros Hc. cbn [cbor_value_get_type parser]. unfold get_type.
  rewrite Hc. reflexivity.
Qed.

Lemma string_contents_at items p r s :
  (1 < r -> (S p < List.length items)%nat) ->
  current (cursor items (Z.of_nat p) r) = Some (TextString s)
  \/ current (cursor items (Z.of_nat p) r) = Some (ByteString s) ->
  cbor_value_string_contents (cursor items (Z.of_nat p) r)
  = (CborNoError, s, cursor items (Z.of_nat (S p)) (r - 1)).
Proof.
  intros Hfit Hc. cbn [cbor_value_string_contents parser].
  unfold string_contents.
  destruct Hc as [-> | ->]; rewrite (advance_fixed_ok _ _ _ Hfit);
    reflexivity.
Qed.

Lemma string_length_at (it : Cursor) s :
  current it = Some (ByteString s) ->
  cbor_value_calculate_string_length it
  = (CborNoError, Z.of_nat (String.length s)).
Proof.
  intros Hc. cbn [cbor_value_calculate_string_length parser].
  unfold calculate_string_length. rewrite Hc. reflexivity.
Qed.

(** ** Strings as values and as keys *)

Section StringRuns.
Context {St : Type} `{CborParser St} `{Target}.

Lemma text_string_run fuel (it next : CborValue St) flags s w :
  cbor_value_string_contents it = (CborNoError, s, next) ->
  can_alloc 1 w = true -> can_write 1 w = true ->
  value_to_json (S fuel) it flags CborTextStringType w
    = Ret (CborNoError, next) (put (quoted (until_nul s)) (took w)).
Proof.
  intros Hcont Ha Hw. cbn [value_to_json]. unfold bind at 1.
  change (CborType_eqb CborTextStringType CborByteStringType) with false.
  cbv iota. rewrite (dup_text_string_ok _ _ _ _ _ 0 Hcont Ha).
  change (is_error CborNoError) with false. cbv iota.
  unfold fprintf_s. rewrite c_str_until_nul.
  rewrite (bind_fprintf_ok _ _ (took w) 0 Hw), ltb_length_false.
  reflexivity.
Qed.

Lemma text_key_run value fuel comma (it next : CborValue St) flags s w :
  cbor_value_string_contents it = (CborNoError, s, next) ->
  cbor_value_at_end it = false ->
  cbor_value_get_type it = CborTextStringType ->
  can_alloc 1 w = true -> can_write 2 w = true ->
  map_to_json_loop value (S fuel) comma it flags w
    = map_pair_rest value fuel next flags
        (put (String dquote (until_nul s ++ String dquote ":"))
             (took (put comma w))).
Proof.
  intros Hcont Hend Hty Ha Hw.
  rewrite (map_to_json_loop_S _ _ _ _ _ _ 1 Hend Hw). cbv zeta.
  rewrite Hty.
  change (CborType_eqb CborTextStringType CborTextStringType) with true.
  cbv iota. unfold bind at 1.
  rewrite (dup_text_string_ok _ _ _ _ (put comma w) 0 Hcont Ha).
  change (is_error CborNoError) with false. cbv iota.
  unfold fprintf_s. rewrite c_str_until_nul.
  rewrite (bind_fprintf_ok _ _ (took (put comma w)) 0
             (can_write_put _ _ _ Hw)).
  rewrite ltb_length_false. reflexivity.
Qed.

Lemma byte_string_run fuel (it next : CborValue St) flags s w :
  cbor_value_calculate_string_length it
    = (CborNoError, Z.of_nat (String.length s)) ->
  cbor_value_string_contents it = (CborNoError, s, next) ->
  Z.of_nat (String.length s) < 2 ^ 62 ->
  can_alloc 1 w = true -> can_write 1 w = true ->
  value_to_json (S fuel) it flags CborByteStringType w
    = Ret (CborNoError, next) (put (quoted (base64url_text s)) (took w)).
Proof.
  intros Hlen Hcont Hsmall Ha Hw.
  destruct (generic_dump_base64_ok WildPtr it next base64url_alphabet s w
              Hlen Hcont Hsmall Ha) as (buf & Hrun & Hbuf).
  cbn [value_to_json]. unfold bind at 1.
  change (CborType_eqb CborByteStringType CborByteStringType) with true.
  cbv iota. unfold dump_bytestring_base64url. rewrite Hrun.
  change (is_error CborNoError) with false. cbv iota.
  unfold fprintf_s. rewrite (c_str_of_prefix _ _ _ Hbuf).
  rewrite (c_string_base64url _ _ (Nat.le_refl _)).
  rewrite (bind_fprintf_ok _ _ (took w) 0 Hw), ltb_length_false.
  reflexivity.
Qed.

Lemma byte_key_run value fuel comma (it next : CborValue St) flags s w :
  cbor_value_calculate_string_length it
    = (CborNoError, Z.of_nat (String.length s)) ->
  cbor_value_string_contents it = (CborNoError, s, next) ->
  Z.of_nat (String.length s) < 2 ^ 62 ->
  cbor_value_at_end it = false ->
  cbor_value_get_type it = CborByteStringType ->
  Z.land flags CborConvertStringifyMapKeys <> 0 ->
  can_alloc 1 w = true -> can_write 2 w = true ->
  map_to_json_loop value (S fuel) comma it flags w
    = map_pair_rest value fuel next flags
        (put (String dquote (base64url_text s ++ String dquote ":"))
             (took (put comma w))).
Proof.
  intros Hlen Hcont Hsmall Hend Hty Hf Ha Hw.
  assert (Hty' : CborType_eqb (cbor_value_get_type it) CborTextStringType
                 = false) by (rewrite Hty; reflexivity).
  rewrite (map_stringified_key _ _ _ _ _ _ 1 Hend Hty' Hf Hw), Hty.
  destruct (generic_dump_base64_ok WildPtr it next base64url_alphabet s
              (put comma w) Hlen Hcont Hsmall Ha) as (buf & Hrun & Hbuf).
  change (stringify_map_key WildPtr it flags CborByteStringType)
    with (generic_dump_base64 WildPtr it base64url_alphabet).
  rewrite Hrun. change (is_error CborNoError) with false. cbv iota.
  unfold fprintf_s. rewrite (c_str_of_prefix _ _ _ Hbuf).
  rewrite (c_string_base64url _ _ (Nat.le_refl _)).
  rewrite (bind_fprintf_ok _ _ (took (put comma w)) 0
             (can_write_put _ _ _ Hw)).
  rewrite ltb_length_false. reflexivity.
Qed.

Lemma formatted_key_run value fuel comma (it it' : CborValue St) flags w :
  cbor_value_at_end it = false ->
  formatted_key (cbor_value_get_type it) = true ->
  Z.land flags CborConvertStringifyMapKeys <> 0 ->
  cbor_value_advance_fixed it = (CborNoError, it') ->
  can_alloc 1 w = true -> can_write 2 w = true ->
  map_to_json_loop value (S fuel) comma it flags w
    = map_pair_rest value fuel it' flags
        (put (String dquote (key_text it (cbor_value_get_type it)
                             ++ String dquote ":"))
             (took (put comma w))).
Proof.
  intros Hend Hfmt Hf Hadv Ha Hw.
  assert (Hty : CborType_eqb (cbor_value_get_type it) CborTextStringType
                = false)
    by (destruct (cbor_value_get_type it); try discriminate Hfmt; reflexivity).
  rewrite (map_stringified_key _ _ _ _ _ _ 1 Hend Hty Hf Hw).
  rewrite (stringify_map_key_formatted _ _ _ _ (put comma w) 0 Hfmt Ha).
  rewrite Hadv. cbn [fst snd].
  change (is_error CborNoError) with false. cbv iota.
  unfold fprintf_s. rewrite c_str_app_nul by apply no_nul_key_text.
  rewrite (bind_fprintf_ok _ _ (took (put comma w)) 0
             (can_write_put _ _ _ Hw)).
  rewrite ltb_length_false. reflexivity.
Qed.

End StringRuns.

(** ** The converter on trees of data items *)

Lemma encode_nonempty d : (0 < List.length (encode d))%nat.
Proof. destruct d; simpl; lia. Qed.

Lemma occurs_nonempty items p l :
  (0 < List.length l)%nat -> occurs items p l -> (p < List.length items)%nat.
Proof.
  destruct l as [|x l]; [simpl; lia|]. intros _ Ho.
  apply occurs_cons in Ho. apply Ho.
Qed.

Lemma length_flat_map_encode es :
  (List.length es <= List.length (flat_map encode es))%nat.
Proof.
  induction es as [|e es IH]; simpl; [lia|].
  rewrite length_app. pose proof (encode_nonempty e). lia.
Qed.

Lemma length_flat_map_pairs (ps : list (Item * Data)) :
  (List.length ps
   <= List.length (flat_map (fun '(k, v) => k :: encode v) ps))%nat.
Proof.
  induction ps as [|[k v] ps IH]; simpl; [lia|].
  rewrite length_app. lia.
Qed.

Section TreeRuns.
Variable flags : Z.
Variable items : list Item.

Lemma scalar_run fuel i p r w :
  scalar_ok i = true -> unlimited w -> 0 < r ->
  nth_error items p = Some i ->
  (1 < r -> (S p < List.length items)%nat) ->
  value_to_json (S fuel) (cursor items (Z.of_nat p) r) flags (type_of i) w
  = Ret (CborNoError, cursor items (Z.of_nat (S p)) (r - 1))
        (put (scalar_text i) w).
Proof.
  intros Hok Hu Hr Hnth Hfit.
  pose proof (current_at items p r i Hr Hnth) as Hc.
  pose proof (unlimited_can_write w 1 Hu) as Hw.
  pose proof (unlimited_can_alloc w 1 Hu) as Ha.
  assert (Hfmt : formatted_key (type_of i) = true ->
    value_to_json (S fuel) (cursor items (Z.of_nat p) r) flags (type_of i) w
    = Ret (CborNoError, cursor items (Z.of_nat (S p)) (r - 1))
          (put (value_text (start [i]) (type_of i)) w)).
  { intros Hf. rewrite (value_to_json_formatted _ _ _ _ _ Hf Hw).
    rewrite (value_text_at _ _ Hc).
    cbn [cbor_value_advance_fixed parser].
    rewrite (advance_fixed_ok _ _ _ Hfit). reflexivity. }
  destruct i; try discriminate Hok; try (apply Hfmt; reflexivity).
  - (* byte string *)
    cbn [type_of scalar_text]. cbn [scalar_ok] in Hok.
    apply Z.ltb_lt in Hok.
    rewrite (byte_string_run fuel _ (cursor items (Z.of_nat (S p)) (r - 1))
               flags s w (string_length_at _ _ Hc)
               (string_contents_at _ _ _ _ Hfit (or_intror Hc)) Hok Ha Hw).
    rewrite (took_unlimited _ Hu). reflexivity.
  - (* text string *)
    cbn [type_of scalar_text].
    rewrite (text_string_run fuel _ (cursor items (Z.of_nat (S p)) (r - 1))
               flags s w (string_contents_at _ _ _ _ Hfit (or_introl Hc))
               Ha Hw).
    rewrite (took_unlimited _ Hu). reflexivity.
Qed.

Section Loops.
Variable fuel : nat.

(** What the induction gives for the values inside a container. *)
Hypothesis value_run : forall d p r w,
  (List.length (encode d) <= fuel)%nat ->
  well_formed flags d = true -> unlimited w -> 0 < r ->
  occurs items p (encode d) ->
  (1 < r -> (p + List.length (encode d) < List.length items)%nat) ->
  value_to_json fuel (cursor items (Z.of_nat p) r) flags
    (cbor_value_get_type (cursor items (Z.of_nat p) r)) w
  = Ret (CborNoError,
         cursor items (Z.of_nat (p + List.length (encode d))) (r - 1))
        (put (text d) w).

Lemma array_loop_run : forall es k comma q w,
  (List.length es <= k)%nat ->
  (forall e, In e es ->
     (List.length (encode e) <= fuel)%nat /\ well_formed flags e = true) ->
  unlimited w ->
  occurs items q (flat_map encode es) ->
  array_to_json_loop (value_to_json fuel) k comma
    (cursor items (Z.of_nat q) (Z.of_nat (List.length es))) flags w
  = Ret (CborNoError,
         cursor items (Z.of_nat (q + List.length (flat_map encode es))) 0)
        (put (joined comma (map text es)) w).
Proof.
  induction es as [|e es IH]; intros k comma q w Hk Hall Hu Ho.
  - cbn [flat_map List.length joined map]. rewrite Nat.add_0_r, put_empty.
    destruct k; reflexivity.
  - destruct k as [|k]; [simpl in Hk; lia|].
    cbn [flat_map] in Ho |- *. apply occurs_app in Ho. destruct Ho as [Hoe Hor].
    destruct (Hall e (or_introl eq_refl)) as [Hfe Hwe].
    cbn [array_to_json_loop].
    change (cbor_value_at_end
              (cursor items (Z.of_nat q) (Z.of_nat (List.length (e :: es)))))
      with (Z.of_nat (List.length (e :: es)) <=? 0).
    destruct (Z.leb_spec (Z.of_nat (List.length (e :: es))) 0) as [Hn|_];
      [cbn [List.length] in Hn; lia|].
    change (negb false) with true. cbv iota.
    rewrite (bind_fprintf_ok _ _ _ 0 (unlimited_can_write w 1 Hu)).
    rewrite ltb_length_false. unfold bind at 1.
    rewrite (value_run e q _ (put comma w) Hfe Hwe (unlimited_put _ _ Hu)).
    + change (is_error CborNoError) with false. cbv iota.
      replace (Z.of_nat (List.length (e :: es)) - 1)
        with (Z.of_nat (List.length es)) by (cbn [List.length]; lia).
      rewrite (IH k ","%string (q + List.length (encode e))%nat).
      * rewrite !put_put by (try apply unlimited_put; exact Hu).
        rewrite length_app, Nat.add_assoc.
        cbn [map joined]. rewrite ?string_app_assoc. reflexivity.
      * simpl in Hk. lia.
      * intros e' He'. apply Hall. right. exact He'.
      * apply unlimited_put, unlimited_put, Hu.
      * exact Hor.
    + cbn [List.length]. lia.
    + exact Hoe.
    + intros Hr. apply (occurs_nonempty _ _ (flat_map encode es)); [|exact Hor].
      pose proof (length_flat_map_encode es). cbn [List.length] in Hr. lia.
Qed.

(** The text of a pair: the key between quotes, a colon, the value. *)
Lemma key_run k v rest n comma q r w :
  key_ok flags k = true -> unlimited w -> 1 < r ->
  occurs items q (k :: encode v ++ rest) ->
  map_to_json_loop (value_to_json fuel) (S n) comma
    (cursor items (Z.of_nat q) r) flags w
  = map_pair_rest (value_to_json fuel) n
      (cursor items (Z.of_nat (S q)) (r - 1)) flags
      (put (comma ++ String dquote (key_string k ++ String dquote ":")) w).
Proof.
  intros Hk Hu Hr Ho.
  destruct (occurs_cons _ _ _ _ Ho) as (Hnth & Hov & _).
  apply occurs_app in Hov. destruct Hov as [Hov _].
  assert (Hfit : 1 < r -> (S q < List.length items)%nat).
  { intros _. apply (occurs_nonempty _ _ (encode v));
      [apply encode_nonempty|exact Hov]. }
  pose proof (current_at items q r k ltac:(lia) Hnth) as Hc.
  assert (Hend : cbor_value_at_end (cursor items (Z.of_nat q) r) = false).
  { change (cbor_value_at_end (cursor items (Z.of_nat q) r)) with (r <=? 0).
    apply Z.leb_gt. lia. }
  pose proof (unlimited_can_write w 2 Hu) as Hw.
  pose proof (unlimited_can_alloc w 1 Hu) as Ha.
  assert (Hworld : forall t,
    put t (took (put comma w)) = put (comma ++ t) w).
  { intros t. rewrite (took_unlimited _ (unlimited_put _ _ Hu)).
    apply put_put. exact Hu. }
  assert (Hother : key_ok flags k = negb (Z.land flags 8 =? 0) && scalar_ok k ->
    formatted_key (type_of k) = true ->
    map_to_json_loop (value_to_json fuel) (S n) comma
      (cursor items (Z.of_nat q) r) flags w
    = map_pair_rest (value_to_json fuel) n
        (cursor items (Z.of_nat (S q)) (r - 1)) flags
        (put (comma ++ String dquote (key_text (start [k]) (type_of k)
                                      ++ String dquote ":")) w)).
  { intros Hdef Hfmt. rewrite Hdef in Hk. apply andb_true_iff in Hk.
    destruct Hk as [Hf _]. apply negb_true_iff, Z.eqb_neq in Hf.
    rewrite (formatted_key_run (value_to_json fuel) n comma
               (cursor items (Z.of_nat q) r)
               (cursor items (Z.of_nat (S q)) (r - 1)) flags w Hend).
    - rewrite (get_type_at _ _ Hc), (key_text_at _ _ Hc). apply f_equal.
      apply Hworld.
    - rewrite (get_type_at _ _ Hc). exact Hfmt.
    - exact Hf.
    - cbn [cbor_value_advance_fixed parser]. apply advance_fixed_ok, Hfit.
    - exact Ha.
    - exact Hw. }
  destruct k; try (apply Hother; reflexivity);
    try (cbn [key_ok scalar_ok] in Hk; rewrite andb_false_r in Hk;
         discriminate Hk).
  - (* byte string *)
    cbn [key_ok scalar_ok] in Hk. apply andb_true_iff in Hk.
    destruct Hk as [Hf Hlen]. apply negb_true_iff, Z.eqb_neq in Hf.
    apply Z.ltb_lt in Hlen.
    rewrite (byte_key_run (value_to_json fuel) n comma
               (cursor items (Z.of_nat q) r)
               (cursor items (Z.of_nat (S q)) (r - 1))
               flags s w (string_length_at _ _ Hc)
               (string_contents_at _ _ _ _ Hfit (or_intror Hc)) Hlen Hend
               (get_type_at _ _ Hc) Hf Ha Hw).
    apply f_equal. apply Hworld.
  - (* text string *)
    rewrite (text_key_run (value_to_json fuel) n comma
               (cursor items (Z.of_nat q) r)
               (cursor items (Z.of_nat (S q)) (r - 1))
               flags s w (string_contents_at _ _ _ _ Hfit (or_introl Hc)) Hend
               (get_type_at _ _ Hc) Ha Hw).
    apply f_equal. apply Hworld.
Qed.

Lemma map_loop_run : forall (ps : list (Item * Data)) n comma q w,
  (List.length ps <= n)%nat ->
  (forall k v, In (k, v) ps ->
     key_ok flags k = true
     /\ (List.length (encode v) <= fuel)%nat /\ well_formed flags v = true) ->
  unlimited w ->
  occurs items q (flat_map (fun '(k, v) => k :: encode v) ps) ->
  map_to_json_loop (value_to_json fuel) n comma
    (cursor items (Z.of_nat q) (2 * Z.of_nat (List.length ps))) flags w
  = Ret (CborNoError,
         cursor items
           (Z.of_nat (q + List.length
                            (flat_map (fun '(k, v) => k :: encode v) ps))) 0)
        (put (joined comma
                (map (fun '(k, v) =>
                        (String dquote (key_string k ++ String dquote ":")
                         ++ text v)%string) ps)) w).
Proof.
  induction ps as [|[k v] ps IH]; intros n comma q w Hn Hall Hu Ho.
  - cbn [flat_map List.length joined map]. rewrite Nat.add_0_r, put_empty.
    destruct n; reflexivity.
  - destruct n as [|n]; [cbn [List.length] in Hn; lia|].
    cbn [flat_map] in Ho |- *.
    destruct (Hall k v (or_introl eq_refl)) as (Hk & Hfv & Hwv).
    change ((k :: encode v) ++ flat_map (fun '(k0, v0) => k0 :: encode v0) ps)
      with (k :: (encode v ++ flat_map (fun '(k0, v0) => k0 :: encode v0) ps))
      in Ho |- *.
    destruct (occurs_cons _ _ _ _ Ho) as (_ & Hov & _).
    apply occurs_app in Hov. destruct Hov as [Hov Hor].
    set (rest := flat_map (fun '(k0, v0) => k0 :: encode v0) ps) in *.
    rewrite (key_run k v rest n comma q
               (2 * Z.of_nat (List.length ((k, v) :: ps))) w Hk Hu
               ltac:(cbn [List.length]; lia) Ho).
    unfold map_pair_rest, bind at 1.
    replace (2 * Z.of_nat (List.length ((k, v) :: ps)) - 1)
      with (2 * Z.of_nat (List.length ps) + 1) by (cbn [List.length]; lia).
    rewrite (value_run v (S q) _ _ Hfv Hwv (unlimited_put _ _ Hu)).
    + change (is_error CborNoError) with false. cbv iota.
      replace (2 * Z.of_nat (List.length ps) + 1 - 1)
        with (2 * Z.of_nat (List.length ps)) by lia.
      rewrite (IH n ","%string (S q + List.length (encode v))%nat).
      * rewrite !put_put by (try apply unlimited_put; exact Hu).
        cbn [List.length map joined]. rewrite length_app.
        rewrite ?string_app_assoc.
        replace (S q + List.length (encode v) + List.length rest)%nat
          with (q + S (List.length (encode v) + List.length rest))%nat by lia.
        reflexivity.
      * cbn [List.length] in Hn. lia.
      * intros k' v' Hin. apply Hall. right. exact Hin.
      * apply unlimited_put, unlimited_put, Hu.
      * exact Hor.
    + lia.
    + exact Hov.
    + intros Hr. apply (occurs_nonempty _ _ rest); [|exact Hor].
      pose proof (length_flat_map_pairs ps). fold rest in H. lia.
Qed.

End Loops.
End TreeRuns.

Lemma in_flat_map_length (e : Data) es : In e es ->
  (List.length (encode e) <= List.length (flat_map encode es))%nat.
Proof.
  induction es as [|x es IH]; [intros []|]. cbn [flat_map].
  rewrite length_app. intros [-> | Hin]; [lia|]. specialize (IH Hin). lia.
Qed.

Lemma in_pairs_length k (v : Data) ps : In (k, v) ps ->
  (List.length (encode v)
   <= List.length (flat_map (fun '(k, v) => k :: encode v) ps))%nat.
Proof.
  induction ps as [|[k' v'] ps IH]; [intros []|]. cbn [flat_map].
  rewrite length_app. cbn [List.length].
  intros [E | Hin]; [injection E as -> ->; lia|]. specialize (IH Hin). lia.
Qed.

(** A well-formed tree at a position of the stream: the converter
    writes its text and leaves the cursor behind it. *)
Lemma value_run flags items : forall fuel d p r w,
  (List.length (encode d) <= fuel)%nat ->
  well_formed flags d = true -> unlimited w -> 0 < r ->
  occurs items p (encode d) ->
  (1 < r -> (p + List.length (encode d) < List.length items)%nat) ->
  value_to_json fuel (cursor items (Z.of_nat p) r) flags
    (cbor_value_get_type (cursor items (Z.of_nat p) r)) w
  = Ret (CborNoError,
         cursor items (Z.of_nat (p + List.length (encode d))) (r - 1))
        (put (text d) w).
Proof.
  induction fuel as [|fuel IH]; intros d p r w Hf Hwf Hu Hr Ho Hfit.
  - pose proof (encode_nonempty d). lia.
  - destruct d as [i|es|ps].
    + (* a scalar *)
      cbn [encode List.length] in *.
      destruct (occurs_cons _ _ _ _ Ho) as (Hnth & _ & _).
      rewrite (get_type_at _ _ (current_at items p r i Hr Hnth)).
      replace (p + 1)%nat with (S p) in * by lia.
      apply scalar_run; assumption.
    + (* an array *)
      cbn [encode List.length well_formed] in *.
      destruct (occurs_cons _ _ _ _ Ho) as (Hnth & Hoc & _).
      pose proof (current_at items p r _ Hr Hnth) as Hc.
      rewrite (get_type_at _ _ Hc). cbn [type_of].
      rewrite (value_to_json_container fuel _ flags CborArrayType
                 (or_introl eq_refl)).
      cbn [cbor_value_enter_container parser]. unfold enter_container.
      rewrite Hc. cbn [ptr cursor].
      replace (Z.of_nat p + 1) with (Z.of_nat (S p)) by lia.
      rewrite arrive_ok.
      2:{ intros Hn. apply (occurs_nonempty _ _ (flat_map encode es));
            [|exact Hoc].
          pose proof (length_flat_map_encode es). lia. }
      change (is_error CborNoError) with false. cbv iota.
      rewrite (bind_fputc_ok _ _ _ 0 (unlimited_can_write w 1 Hu)).
      change (1 <? 0) with false. cbv iota. unfold bind at 1.
      unfold contents_to_json.
      change (CborType_eqb CborArrayType CborArrayType) with true. cbv iota.
      unfold array_to_json.
      rewrite (array_loop_run flags items fuel (IH) es fuel EmptyString (S p)).
      * change (is_error CborNoError) with false. cbv iota.
        rewrite (bind_fputc_ok _ _ _ 0).
        2:{ apply unlimited_can_write, unlimited_put, unlimited_put, Hu. }
        change (1 <? 0) with false. cbv iota.
        cbn [cbor_value_leave_container parser]. unfold leave_container.
        cbn [ptr rest remaining cursor].
        rewrite (arrive_ok items (Z.of_nat p) r).
        2:{ intros Hr1. specialize (Hfit ltac:(lia)). lia. }
        change (is_error CborNoError) with false. cbv iota.
        rewrite !put_put by (try apply unlimited_put; exact Hu).
        replace (S p + List.length (flat_map encode es))%nat
          with (p + S (List.length (flat_map encode es)))%nat by lia.
        reflexivity.
      * pose proof (length_flat_map_encode es). lia.
      * intros e He. split.
        -- pose proof (in_flat_map_length e es He). lia.
        -- rewrite forallb_forall in Hwf. apply Hwf. exact He.
      * apply unlimited_put. exact Hu.
      * exact Hoc.
    + (* a map *)
      cbn [encode List.length well_formed] in *.
      destruct (occurs_cons _ _ _ _ Ho) as (Hnth & Hoc & _).
      pose proof (current_at items p r _ Hr Hnth) as Hc.
      rewrite (get_type_at _ _ Hc). cbn [type_of].
      rewrite (value_to_json_container fuel _ flags CborMapType
                 (or_intror eq_refl)).
      cbn [cbor_value_enter_container parser]. unfold enter_container.
      rewrite Hc. cbn [ptr cursor].
      replace (Z.of_nat p + 1) with (Z.of_nat (S p)) by lia.
      rewrite arrive_ok.
      2:{ intros Hn.
          apply (occurs_nonempty _ _
                   (flat_map (fun '(k, v) => k :: encode v) ps)); [|exact Hoc].
          pose proof (length_flat_map_pairs ps). lia. }
      change (is_error CborNoError) with false. cbv iota.
      rewrite (bind_fputc_ok _ _ _ 0 (unlimited_can_write w 1 Hu)).
      change (1 <? 0) with false. cbv iota. unfold bind at 1.
      unfold contents_to_json.
      change (CborType_eqb CborMapType CborArrayType) with false. cbv iota.
      unfold map_to_json.
      rewrite (map_loop_run flags items fuel (IH) ps fuel EmptyString (S p)).
      * change (is_error CborNoError) with false. cbv iota.
        rewrite (bind_fputc_ok _ _ _ 0).
        2:{ apply unlimited_can_write, unlimited_put, unlimited_put, Hu. }
        change (1 <? 0) with false. cbv iota.
        cbn [cbor_value_leave_container parser]. unfold leave_container.
        cbn [ptr rest remaining cursor].
        rewrite (arrive_ok items (Z.of_nat p) r).
        2:{ intros Hr1. specialize (Hfit ltac:(lia)). lia. }
        change (is_error CborNoError) with false. cbv iota.
        rewrite !put_put by (try apply unlimited_put; exact Hu).
        replace (S p + List.length
                         (flat_map (fun '(k, v) => k :: encode v) ps))%nat
          with (p + S (List.length
                         (flat_map (fun '(k, v) => k :: encode v) ps)))%nat
          by lia.
        reflexivity.
      * pose proof (length_flat_map_pairs ps). lia.
      * intros k v Hin. rewrite forallb_forall in Hwf.
        specialize (Hwf (k, v) Hin). cbv beta iota in Hwf.
        apply andb_true_iff in Hwf. destruct Hwf as [Hk Hv].
        split; [exact Hk|]. split; [|exact Hv].
        pose proof (in_pairs_length k v ps Hin). lia.
      * apply unlimited_put. exact Hu.
      * exact Hoc.
Qed.

(** X9.  On the stream of items of a well-formed tree of data, with a
    stream and a heap without limits and fuel for every item,
    [cbor_value_to_json_advance] succeeds, writes the JSON text of the tree
    (arrays in brackets and maps in braces, elements and pairs separated by
    commas, a pair as its quoted key, a colon and its value) and leaves the
    cursor behind the last item. *)
Theorem tree_to_json flags d fuel w :
  well_formed flags d = true ->
  unlimited w ->
  (List.length (encode d) <= fuel)%nat ->
  cbor_value_to_json_advance fuel (start (encode d)) flags w
  = Ret (CborNoError,
         cursor (encode d) (Z.of_nat (List.length (encode d))) 0)
        (put (text d) w).
Proof.
  intros Hwf Hu Hf. unfold cbor_value_to_json_advance, start.
  apply (value_run flags (encode d) fuel d 0 1 w Hf Hwf Hu ltac:(lia)
           (occurs_start _)).
  lia.
Qed.

(** ** Trees the converter does not render *)

Lemma unsupported_is_error err : unsupported err -> is_error err = true.
Proof. intros [-> | ->]; reflexivity. Qed.

Section TreeFailures.
Variable flags : Z.
Variable items : list Item.

Lemma scalar_fail fuel i (it : Cursor) w :
  plain i = true -> scalar_ok i = false ->
  value_to_json (S fuel) it flags (type_of i) w
  = Ret (CborErrorUnsupportedType, it) w.
Proof.
  intros Hp Hok. destruct i; try discriminate Hp; try discriminate Hok;
    try reflexivity.
  cbn [plain scalar_ok] in *. congruence.
Qed.

Section Loops.
Variable fuel : nat.

Hypothesis value_fail_hyp : forall d p r w,
  (List.length (encode d) <= fuel)%nat ->
  proper d = true -> well_formed flags d = false -> unlimited w -> 0 < r ->
  occurs items p (encode d) ->
  exists err it' w',
    value_to_json fuel (cursor items (Z.of_nat p) r) flags
      (cbor_value_get_type (cursor items (Z.of_nat p) r)) w
    = Ret (err, it') w'
    /\ unsupported err.

Lemma array_loop_fail : forall es k comma q w,
  (List.length es <= k)%nat ->
  (forall e, In e es ->
     (List.length (encode e) <= fuel)%nat /\ proper e = true) ->
  forallb (well_formed flags) es = false ->
  unlimited w ->
  occurs items q (flat_map encode es) ->
  exists err it' w',
    array_to_json_loop (value_to_json fuel) k comma
      (cursor items (Z.of_nat q) (Z.of_nat (List.length es))) flags w
    = Ret (err, it') w'
    /\ unsupported err.
Proof.
  induction es as [|e es IH]; intros k comma q w Hk Hall Hbad Hu Ho;
    [discriminate Hbad|].
  destruct k as [|k]; [cbn [List.length] in Hk; lia|].
  cbn [flat_map] in Ho. apply occurs_app in Ho. destruct Ho as [Hoe Hor].
  destruct (Hall e (or_introl eq_refl)) as [Hfe Hpe].
  cbn [array_to_json_loop].
  change (cbor_value_at_end
            (cursor items (Z.of_nat q) (Z.of_nat (List.length (e :: es)))))
    with (Z.of_nat (List.length (e :: es)) <=? 0).
  destruct (Z.leb_spec (Z.of_nat (List.length (e :: es))) 0) as [Hn|_];
    [cbn [List.length] in Hn; lia|].
  change (negb false) with true. cbv iota.
  rewrite (bind_fprintf_ok _ _ _ 0 (unlimited_can_write w 1 Hu)).
  rewrite ltb_length_false. unfold bind at 1.
  cbn [forallb] in Hbad. destruct (well_formed flags e) eqn:Hwe.
  - rewrite (value_run flags items fuel e q _ (put comma w) Hfe Hwe
               (unlimited_put _ _ Hu)).
    + change (is_error CborNoError) with false. cbv iota.
      replace (Z.of_nat (List.length (e :: es)) - 1)
        with (Z.of_nat (List.length es)) by (cbn [List.length]; lia).
      apply IH.
      * cbn [List.length] in Hk. lia.
      * intros e' He'. apply Hall. right. exact He'.
      * exact Hbad.
      * apply unlimited_put, unlimited_put, Hu.
      * exact Hor.
    + cbn [List.length]. lia.
    + exact Hoe.
    + intros Hr. apply (occurs_nonempty _ _ (flat_map encode es)); [|exact Hor].
      pose proof (length_flat_map_encode es). cbn [List.length] in Hr. lia.
  - destruct (value_fail_hyp e q (Z.of_nat (List.length (e :: es))) (put comma w)
                Hfe Hpe Hwe (unlimited_put _ _ Hu)
                ltac:(cbn [List.length]; lia) Hoe)
      as (err & it' & w' & Hrun & Herr).
    rewrite Hrun, (unsupported_is_error _ Herr).
    exists err, it', w'. split; [reflexivity|exact Herr].
Qed.

(** A key the converter does not render. *)
Lemma key_fail k n comma q r w rest :
  plain k = true -> key_ok flags k = false -> unlimited w -> 0 < r ->
  occurs items q (k :: rest) ->
  exists err it' w',
    map_to_json_loop (value_to_json fuel) (S n) comma
      (cursor items (Z.of_nat q) r) flags w
    = Ret (err, it') w'
    /\ unsupported err.
Proof.
  intros Hp Hk Hu Hr Ho.
  destruct (occurs_cons _ _ _ _ Ho) as (Hnth & _ & _).
  pose proof (current_at items q r k Hr Hnth) as Hc.
  assert (Hend : cbor_value_at_end (cursor items (Z.of_nat q) r) = false).
  { change (cbor_value_at_end (cursor items (Z.of_nat q) r)) with (r <=? 0).
    apply Z.leb_gt. lia. }
  pose proof (unlimited_can_write w 1 Hu) as Hw.
  assert (Hty : CborType_eqb (cbor_value_get_type (cursor items (Z.of_nat q) r))
                  CborTextStringType = false).
  { rewrite (get_type_at _ _ Hc). destruct k; try reflexivity.
    discriminate Hk. }
  destruct (Z.eqb_spec (Z.land flags 8) 0) as [Hf|Hf].
  - (* the flag is unset *)
    rewrite (map_to_json_loop_S _ _ _ _ _ _ 0 Hend Hw). cbv zeta.
    rewrite Hty.
    change (Z.land flags CborConvertStringifyMapKeys) with (Z.land flags 8).
    rewrite Hf. change (negb (0 =? 0)) with false. cbv iota.
    eexists _, _, _. split; [reflexivity|right; reflexivity].
  - (* the flag is set: a tag or a half-precision float *)
    rewrite (map_stringified_key _ _ _ _ _ _ 0 Hend Hty Hf Hw).
    rewrite (get_type_at _ _ Hc).
    assert (Hcase : type_of k = CborTagType \/ type_of k = CborHalfFloatType).
    { apply Z.eqb_neq in Hf.
      destruct k; cbn [key_ok scalar_ok plain] in *; try discriminate Hp;
        try discriminate Hk; rewrite ?Hf in Hk; try discriminate Hk; auto.
      cbn [negb andb] in Hk. congruence. }
    destruct Hcase as [-> | ->]; cbn [stringify_map_key];
      eexists _, _, _; (split; [reflexivity|left; reflexivity]).
Qed.

Lemma map_loop_fail : forall (ps : list (Item * Data)) n comma q w,
  (List.length ps <= n)%nat ->
  (forall k v, In (k, v) ps ->
     plain k = true
     /\ (List.length (encode v) <= fuel)%nat /\ proper v = true) ->
  forallb (fun '(k, v) => key_ok flags k && well_formed flags v) ps = false ->
  unlimited w ->
  occurs items q (flat_map (fun '(k, v) => k :: encode v) ps) ->
  exists err it' w',
    map_to_json_loop (value_to_json fuel) n comma
      (cursor items (Z.of_nat q) (2 * Z.of_nat (List.length ps))) flags w
    = Ret (err, it') w'
    /\ unsupported err.
Proof.
  induction ps as [|[k v] ps IH]; intros n comma q w Hn Hall Hbad Hu Ho;
    [discriminate Hbad|].
  destruct n as [|n]; [cbn [List.length] in Hn; lia|].
  cbn [flat_map] in Ho.
  destruct (Hall k v (or_introl eq_refl)) as (Hpk & Hfv & Hpv).
  change ((k :: encode v) ++ flat_map (fun '(k0, v0) => k0 :: encode v0) ps)
    with (k :: (encode v ++ flat_map (fun '(k0, v0) => k0 :: encode v0) ps))
    in Ho.
  set (rest := flat_map (fun '(k0, v0) => k0 :: encode v0) ps) in *.
  cbn [forallb] in Hbad.
  destruct (key_ok flags k) eqn:Hk.
  - destruct (occurs_cons _ _ _ _ Ho) as (_ & Hov & _).
    apply occurs_app in Hov. destruct Hov as [Hov Hor].
    rewrite (key_run flags items fuel k v rest n comma q
               (2 * Z.of_nat (List.length ((k, v) :: ps))) w Hk Hu
               ltac:(cbn [List.length]; lia) Ho).
    unfold map_pair_rest, bind at 1.
    replace (2 * Z.of_nat (List.length ((k, v) :: ps)) - 1)
      with (2 * Z.of_nat (List.length ps) + 1) by (cbn [List.length]; lia).
    cbn [andb] in Hbad. destruct (well_formed flags v) eqn:Hwv.
    + rewrite (value_run flags items fuel v (S q) _ _ Hfv Hwv
                 (unlimited_put _ _ Hu)).
      * change (is_error CborNoError) with false. cbv iota.
        replace (2 * Z.of_nat (List.length ps) + 1 - 1)
          with (2 * Z.of_nat (List.length ps)) by lia.
        apply IH.
        -- cbn [List.length] in Hn. lia.
        -- intros k' v' Hin. apply Hall. right. exact Hin.
        -- exact Hbad.
        -- apply unlimited_put, unlimited_put, Hu.
        -- exact Hor.
      * lia.
      * exact Hov.
      * intros Hr. apply (occurs_nonempty _ _ rest); [|exact Hor].
        pose proof (length_flat_map_pairs ps) as Hl. fold rest in Hl. lia.
    + destruct (value_fail_hyp v (S q) (2 * Z.of_nat (List.length ps) + 1)
                  (put (comma ++ String dquote
                                   (key_string k ++ String dquote ":")) w)
                  Hfv Hpv Hwv (unlimited_put _ _ Hu) ltac:(lia) Hov)
        as (err & it' & w' & Hrun & Herr).
      rewrite Hrun, (unsupported_is_error _ Herr).
      exists err, it', w'. split; [reflexivity|exact Herr].
  - apply (key_fail k n comma q _ w (encode v ++ rest) Hpk Hk Hu); [|exact Ho].
    cbn [List.length]. lia.
Qed.

End Loops.

Lemma value_fail : forall fuel d p r w,
  (List.length (encode d) <= fuel)%nat ->
  proper d = true -> well_formed flags d = false -> unlimited w -> 0 < r ->
  occurs items p (encode d) ->
  exists err it' w',
    value_to_json fuel (cursor items (Z.of_nat p) r) flags
      (cbor_value_get_type (cursor items (Z.of_nat p) r)) w
    = Ret (err, it') w'
    /\ unsupported err.
Proof.
  induction fuel as [|fuel IH]; intros d p r w Hf Hp Hbad Hu Hr Ho.
  - pose proof (encode_nonempty d). lia.
  - destruct d as [i|es|ps].
    + cbn [encode List.length proper well_formed] in *.
      destruct (occurs_cons _ _ _ _ Ho) as (Hnth & _ & _).
      rewrite (get_type_at _ _ (current_at items p r i Hr Hnth)).
      rewrite (scalar_fail fuel i _ w Hp Hbad).
      eexists _, _, _. split; [reflexivity|left; reflexivity].
    + cbn [encode List.length proper well_formed] in *.
      destruct (occurs_cons _ _ _ _ Ho) as (Hnth & Hoc & _).
      pose proof (current_at items p r _ Hr Hnth) as Hc.
      rewrite (get_type_at _ _ Hc). cbn [type_of].
      rewrite (value_to_json_container fuel _ flags CborArrayType
                 (or_introl eq_refl)).
      cbn [cbor_value_enter_container parser]. unfold enter_container.
      rewrite Hc. cbn [ptr cursor].
      replace (Z.of_nat p + 1) with (Z.of_nat (S p)) by lia.
      rewrite arrive_ok.
      2:{ intros Hn. apply (occurs_nonempty _ _ (flat_map encode es));
            [|exact Hoc].
          pose proof (length_flat_map_encode es). lia. }
      change (is_error CborNoError) with false. cbv iota.
      rewrite (bind_fputc_ok _ _ _ 0 (unlimited_can_write w 1 Hu)).
      change (1 <? 0) with false. cbv iota. unfold bind at 1.
      unfold contents_to_json.
      change (CborType_eqb CborArrayType CborArrayType) with true. cbv iota.
      unfold array_to_json.
      destruct (array_loop_fail fuel IH es fuel EmptyString (S p)
                  (put (String (open_bracket CborArrayType) EmptyString) w))
        as (err & it' & w' & Hrun & Herr).
      * pose proof (length_flat_map_encode es). lia.
      * intros e He. split.
        -- pose proof (in_flat_map_length e es He). lia.
        -- rewrite forallb_forall in Hp. apply Hp. exact He.
      * exact Hbad.
      * apply unlimited_put. exact Hu.
      * exact Hoc.
      * rewrite Hrun, (unsupported_is_error _ Herr).
        eexists _, _, _. split; [reflexivity|exact Herr].
    + cbn [encode List.length proper well_formed] in *.
      destruct (occurs_cons _ _ _ _ Ho) as (Hnth & Hoc & _).
      pose proof (current_at items p r _ Hr Hnth) as Hc.
      rewrite (get_type_at _ _ Hc). cbn [type_of].
      rewrite (value_to_json_container fuel _ flags CborMapType
                 (or_intror eq_refl)).
      cbn [cbor_value_enter_container parser]. unfold enter_container.
      rewrite Hc. cbn [ptr cursor].
      replace (Z.of_nat p + 1) with (Z.of_nat (S p)) by lia.
      rewrite arrive_ok.
      2:{ intros Hn.
          apply (occurs_nonempty _ _
                   (flat_map (fun '(k, v) => k :: encode v) ps)); [|exact Hoc].
          pose proof (length_flat_map_pairs ps). lia. }
      change (is_error CborNoError) with false. cbv iota.
      rewrite (bind_fputc_ok _ _ _ 0 (unlimited_can_write w 1 Hu)).
      change (1 <? 0) with false. cbv iota. unfold bind at 1.
      unfold contents_to_json.
      change (CborType_eqb CborMapType CborArrayType) with false. cbv iota.
      unfold map_to_json.
      destruct (map_loop_fail fuel IH ps fuel EmptyString (S p)
                  (put (String (open_bracket CborMapType) EmptyString) w))
        as (err & it' & w' & Hrun & Herr).
      * pose proof (length_flat_map_pairs ps). lia.
      * intros k v Hin. rewrite forallb_forall in Hp.
        specialize (Hp (k, v) Hin). cbv beta iota in Hp.
        apply andb_true_iff in Hp. destruct Hp as [Hk Hv].
        split; [exact Hk|]. split; [|exact Hv].
        pose proof (in_pairs_length k v ps Hin). lia.
      * exact Hbad.
      * apply unlimited_put. exact Hu.
      * exact Hoc.
      * rewrite Hrun, (unsupported_is_error _ Herr).
        eexists _, _, _. split; [reflexivity|exact Herr].
Qed.

End TreeFailures.

(** X11.  On the stream of items of a tree of data that is not
    well-formed (it holds a tag or a half-precision float, or a key that is
    not a text string while the stringify flag is unset, or a tag or a
    half-precision float as a key), with a stream and a heap without limits
    and fuel for every item, [cbor_value_to_json_advance] returns an error,
    [CborErrorUnsupportedType] or [CborErrorJsonObjectKeyNotString]: it
    does not succeed and it fails no assertion. *)
Theorem unsupported_tree_fails flags d fuel w :
  proper d = true ->
  well_formed flags d = false ->
  unlimited w ->
  (List.length (encode d) <= fuel)%nat ->
  exists err it' w',
    cbor_value_to_json_advance fuel (start (encode d)) flags w
    = Ret (err, it') w'
    /\ (err = CborErrorUnsupportedType
        \/ err = CborErrorJsonObjectKeyNotString).
Proof.
  intros Hp Hbad Hu Hf. unfold cbor_value_to_json_advance, start.
  apply (value_fail flags (encode d) fuel d 0 1 w Hf Hp Hbad Hu ltac:(lia)
           (occurs_start _)).
Qed.

(** ** Integers beyond 53 bits *)

(** An integer of 53 bits or more rounds to a double that is an integer
    [M], a multiple of [2^e0] nearest to it, [e0] being the number of bits
    beyond 53. *)
Lemma round_to_double_integer s z B : 2 ^ 52 <= z < 2 ^ 1000 -> 0 < B ->
  exists m e,
    round_to_double s (z * B) B = S754_finite s m e
    /\ 0 <= Z.log2 z - 52 <= e
    /\ Zpos m * 2 ^ e
       = div_nearest_even z (2 ^ (Z.log2 z - 52)) * 2 ^ (Z.log2 z - 52).
Proof.
  intros Hz HB. unfold round_to_double. rewrite floor_log2_int by lia.
  pose proof (Z.log2_spec z ltac:(lia)) as [Hlo Hhi].
  assert (HL52 : 52 <= Z.log2 z) by (apply Z.log2_le_pow2; lia).
  assert (HL1000 : Z.log2 z < 1000) by (apply Z.log2_lt_pow2; lia).
  set (L := Z.log2 z) in *.
  replace (Z.succ L) with (L + 1) in Hhi by lia.
  rewrite (Z.max_l (L - 52) (-1074)) by lia.
  rewrite (Z.max_l 0 (- (L - 52))), (Z.max_r 0 (L - 52)), Z.pow_0_r, Z.mul_1_r
    by lia.
  pose proof (pow2_pos (L - 52) ltac:(lia)) as Hp.
  rewrite (Z.mul_comm z B), (Z.mul_comm B (2 ^ (L - 52))).
  rewrite (Z.mul_comm (2 ^ (L - 52)) B), div_nearest_even_scale by lia.
  set (m0 := div_nearest_even z (2 ^ (L - 52))).
  assert (Hm0 : 2 ^ 52 <= m0 <= 2 ^ 53).
  { split.
    - apply div_nearest_even_ge; [lia|].
      rewrite <- Z.pow_add_r by lia. replace (52 + (L - 52)) with L by lia. lia.
    - apply div_nearest_even_le; [lia|].
      rewrite <- Z.pow_add_r by lia.
      replace (53 + (L - 52)) with (L + 1) by lia. lia. }
  destruct (Z.eqb_spec m0 (2 ^ 53)) as [E|E].
  - change (2 ^ 52) with 4503599627370496.
    destruct (Z.leb_spec (L - 52 + 1) 971); [|lia].
    exists 4503599627370496%positive, (L - 52 + 1). split; [reflexivity|].
    split; [lia|]. rewrite E, Z.pow_add_r by lia.
    change (2 ^ 53) with (4503599627370496 * 2 ^ 1). lia.
  - destruct m0 as [|p|p] eqn:Em; try (change (2 ^ 52) with 4503599627370496 in Hm0; lia).
    destruct (Z.leb_spec (L - 52) 971); [|lia].
    exists p, (L - 52). split; [reflexivity|]. split; [lia|reflexivity].
Qed.

Lemma div_nearest_even_one x : div_nearest_even x 1 = x.
Proof. rewrite <- (Z.mul_1_r x) at 1. apply div_nearest_even_exact. lia. Qed.

(** [%.0f] of a double that is an integer. *)
Lemma printf_f0_integer s m e : 0 <= e ->
  printf_f0 (S754_finite s m e) = (sign_text s ++ dec_uint (Zpos m * 2 ^ e))%string.
Proof.
  intros He. cbn [printf_f0]. unfold numer, denom.
  destruct (Z.leb_spec 0 e); [|lia]. rewrite div_nearest_even_one. reflexivity.
Qed.

(** [-num - 1] for a double [num] that is an integer [M]: the double
    nearest to [-(M + 1)]. *)
Lemma negate_minus_one m e : 0 <= e ->
  SFsub 53 1024 (S754_finite true m e) (double_of_int 1)
  = round_to_double true ((Zpos m * 2 ^ e + 1) * 2 ^ 52) (2 ^ 52).
Proof.
  intros He.
  change (double_of_int 1) with (S754_finite false 4503599627370496 (-52)).
  cbn [SFsub negb].
  rewrite (Z.min_r e (-52)) by lia. cbn [cond_Zopp].
  rewrite (shl_align_fst _ e (-52)) by lia.
  rewrite (shl_align_fst _ (-52) (-52)) by lia.
  change (-52 - -52) with 0. rewrite Z.pow_0_r, Z.mul_1_r.
  replace (e - -52) with (e + 52) by lia.
  pose proof (pow2_pos e He) as Hp.
  assert (Hq : 0 < (Zpos m * 2 ^ e + 1) * 2 ^ 52) by nia.
  replace (- (Zpos m * 2 ^ (e + 52)) - 4503599627370496)
    with (- ((Zpos m * 2 ^ e + 1) * 2 ^ 52))
    by (rewrite Z.pow_add_r by lia; change 4503599627370496 with (2 ^ 52); lia).
  destruct ((Zpos m * 2 ^ e + 1) * 2 ^ 52) as [|q|q] eqn:Eq; try lia.
  cbn [Z.opp binary_normalize]. rewrite binary_round_spec.
  change (2 ^ Z.max 0 (-52)) with 1. change (2 ^ Z.max 0 (- -52)) with (2 ^ 52).
  rewrite Z.mul_1_r. reflexivity.
Qed.

Lemma nearest_double_integer_error z : 2 ^ 53 <= z ->
  Z.abs (nearest_double_integer z - z) <= 2 ^ (Z.log2 z - 53)
  /\ 2 ^ 53 * 2 ^ (Z.log2 z - 53) <= z
  /\ 2 ^ 53 <= nearest_double_integer z <= 2 ^ (Z.log2 z + 1).
Proof.
  intros Hz. unfold nearest_double_integer.
  pose proof (Z.log2_spec z ltac:(lia)) as [Hlo Hhi].
  assert (HL : 53 <= Z.log2 z) by (apply Z.log2_le_pow2; lia).
  set (L := Z.log2 z) in *.
  replace (Z.succ L) with (L + 1) in Hhi by lia.
  pose proof (pow2_pos (L - 53) ltac:(lia)) as Hp.
  assert (E1 : 2 ^ (L - 52) = 2 * 2 ^ (L - 53)).
  { replace (L - 52) with (1 + (L - 53)) by lia.
    rewrite Z.pow_add_r by lia. reflexivity. }
  assert (E2 : 2 ^ L = 2 ^ 53 * 2 ^ (L - 53)).
  { rewrite <- Z.pow_add_r by lia. f_equal. lia. }
  assert (E3 : 2 ^ (L + 1) = 2 ^ 53 * (2 * 2 ^ (L - 53))).
  { rewrite <- E1, <- Z.pow_add_r by lia. f_equal. lia. }
  pose proof (div_nearest_even_bound z (2 ^ (L - 52)) ltac:(lia)) as Hb.
  assert (Hge : 2 ^ 52 <= div_nearest_even z (2 ^ (L - 52))).
  { apply div_nearest_even_ge; [lia|]. rewrite E1.
    change (2 ^ 53) with (2 ^ 52 * 2) in E2. lia. }
  assert (Hle : div_nearest_even z (2 ^ (L - 52)) <= 2 ^ 53).
  { apply div_nearest_even_le; [lia|]. rewrite E1. lia. }
  set (m0 := div_nearest_even z (2 ^ (L - 52))) in *.
  rewrite E1 in *. rewrite E3.
  set (P := 2 ^ (L - 53)) in *.
  split; [lia|]. split; [lia|]. split; [|nia].
  change (2 ^ 53) with (2 ^ 52 * 2). nia.
Qed.

(** Adding one to such a double and rounding again is off by one at
    most. *)
Lemma nearest_double_integer_succ z : 2 ^ 53 <= z ->
  Z.abs (nearest_double_integer (nearest_double_integer z + 1)
         - (nearest_double_integer z + 1)) <= 1.
Proof.
  intros Hz.
  pose proof (Z.log2_spec z ltac:(lia)) as [Hlo Hhi].
  assert (HL : 53 <= Z.log2 z) by (apply Z.log2_le_pow2; lia).
  unfold nearest_double_integer at 2 3.
  set (L := Z.log2 z) in *.
  replace (Z.succ L) with (L + 1) in Hhi by lia.
  pose proof (pow2_pos (L - 53) ltac:(lia)) as Hp.
  assert (E1 : 2 ^ (L - 52) = 2 * 2 ^ (L - 53)).
  { replace (L - 52) with (1 + (L - 53)) by lia.
    rewrite Z.pow_add_r by lia. reflexivity. }
  assert (E2 : 2 ^ L = 2 ^ 53 * 2 ^ (L - 53)).
  { rewrite <- Z.pow_add_r by lia. f_equal. lia. }
  assert (E3 : 2 ^ (L + 1) = 2 ^ 53 * (2 * 2 ^ (L - 53))).
  { rewrite <- E1, <- Z.pow_add_r by lia. f_equal. lia. }
  assert (Hge : 2 ^ 52 <= div_nearest_even z (2 ^ (L - 52))).
  { apply div_nearest_even_ge; [lia|]. rewrite E1.
    change (2 ^ 53) with (2 ^ 52 * 2) in E2. lia. }
  assert (Hle : div_nearest_even z (2 ^ (L - 52)) <= 2 ^ 53).
  { apply div_nearest_even_le; [lia|]. rewrite E1. lia. }
  set (m0 := div_nearest_even z (2 ^ (L - 52))) in *.
  set (M := m0 * 2 ^ (L - 52)).
  unfold nearest_double_integer.
  destruct (Z.eq_dec m0 (2 ^ 53)) as [Em|Em].
  - (* the double is [2 ^ (L + 1)] *)
    assert (EM : M = 2 ^ (L + 1)).
    { unfold M. rewrite Em, E3, E1. reflexivity. }
    assert (HL' : Z.log2 (M + 1) = L + 1).
    { apply Z.log2_unique; [lia|]. rewrite EM.
      replace (Z.succ (L + 1)) with (1 + (L + 1)) by lia.
      rewrite (Z.pow_add_r 2 1) by lia. change (2 ^ 1) with 2.
      pose proof (pow2_pos (L + 1) ltac:(lia)). lia. }
    rewrite HL'. replace (L + 1 - 52) with (2 + (L - 53)) by lia.
    rewrite Z.pow_add_r by lia. change (2 ^ 2) with 4.
    rewrite (div_nearest_even_unique _ _ (2 ^ 52)).
    + rewrite EM, E3. change (2 ^ 53) with (2 ^ 52 * 2). lia.
    + lia.
    + rewrite EM, E3. change (2 ^ 53) with (2 ^ 52 * 2). lia.
  - (* the double is below [2 ^ (L + 1)] *)
    assert (EM : M = m0 * (2 * 2 ^ (L - 53))) by (unfold M; rewrite E1; reflexivity).
    assert (HL' : Z.log2 (M + 1) = L).
    { apply Z.log2_unique; [lia|].
      replace (Z.succ L) with (L + 1) by lia. rewrite EM, E2, E3.
      change (2 ^ 53) with (2 ^ 52 * 2) at 1.
      set (P := 2 ^ (L - 53)) in *. split; nia. }
    rewrite HL', E1.
    pose proof (div_nearest_even_bound (M + 1) (2 * 2 ^ (L - 53)) ltac:(lia)) as Hb.
    destruct (Z.eq_dec (2 ^ (L - 53)) 1) as [E|E].
    + rewrite E in *. lia.
    + rewrite (div_nearest_even_unique _ _ m0); [lia|lia|].
      rewrite EM. lia.
Qed.

Section BigIntegers.
Context {St : Type} `{CborParser St} `{Target}.

(** The text of any integer is the decimal expansion of an integer near
    its value. *)
Lemma integer_text_near (it : CborValue St) :
  exists z,
    integer_text it = dec z
    /\ Z.abs (z - integer_value it) <= 1025
    /\ Z.abs (z - integer_value it) <= Z.abs (integer_value it) / 2 ^ 52.
Proof.
  assert (Hraw : 0 <= uint64 (cbor_value_get_raw_integer it) < 2 ^ 64)
    by (unfold uint64; apply Z.mod_pos_bound; lia).
  destruct (Z_lt_le_dec (uint64 (cbor_value_get_raw_integer it)) (2 ^ 53))
    as [Hsmall|Hbig].
  - exists (integer_value it). split.
    + apply integer_text_exact. unfold integer_value.
      destruct (cbor_value_is_negative_integer it); lia.
    + replace (integer_value it - integer_value it) with 0 by lia.
      split; [cbn; lia|]. apply Z.div_pos; [lia|reflexivity].
  - unfold integer_value, integer_text.
    set (r := uint64 (cbor_value_get_raw_integer it)) in *.
    destruct (nearest_double_integer_error r Hbig) as (He & Hrel & HM).
    pose proof (nearest_double_integer_succ r Hbig) as Hs.
    assert (HL : 53 <= Z.log2 r <= 63).
    { split; [apply Z.log2_le_pow2; lia|].
      assert (Z.log2 r < 64) by (apply Z.log2_lt_pow2; lia). lia. }
    assert (HP : 1 <= 2 ^ (Z.log2 r - 53) <= 1024).
    { split; [pose proof (pow2_pos (Z.log2 r - 53) ltac:(lia)); lia|].
      change 1024 with (2 ^ 10). apply Z.pow_le_mono_r; lia. }
    assert (HM64 : nearest_double_integer r <= 2 ^ 64).
    { eapply Z.le_trans; [apply HM|]. apply Z.pow_le_mono_r; lia. }
    destruct (round_to_double_integer false r 1 ltac:(lia) ltac:(lia))
      as (m & e & Hnum & Hexp & Hval).
    fold (nearest_double_integer r) in Hval.
    rewrite double_of_int_spec by lia.
    replace (round_to_double false r 1) with (round_to_double false (r * 1) 1)
      by (rewrite Z.mul_1_r; reflexivity).
    rewrite Hnum.
    set (M := nearest_double_integer r) in *.
    assert (Hdiv : forall a k, 2 ^ 52 * k <= a -> k <= a / 2 ^ 52).
    { intros a k Hle. apply Z.div_le_lower_bound; [reflexivity|lia]. }
    destruct (cbor_value_is_negative_integer it).
    + cbn [SFopp negb]. rewrite negate_minus_one by lia. rewrite Hval.
      assert (HM1 : 2 ^ 52 <= M + 1 < 2 ^ 1000).
      { split; [lia|]. eapply Z.le_lt_trans with (2 ^ 64 + 1); [lia|reflexivity]. }
      destruct (round_to_double_integer true (M + 1) (2 ^ 52) HM1 eq_refl)
        as (m' & e' & Hnum' & Hexp' & Hval').
      fold (nearest_double_integer (M + 1)) in Hval'.
      rewrite Hnum', printf_f0_integer, Hval' by lia.
      set (M' := nearest_double_integer (M + 1)) in *.
      exists (- M'). split.
      * unfold dec. replace (- M' <? 0) with true
          by (symmetry; apply Z.ltb_lt; lia).
        rewrite Z.opp_involutive. reflexivity.
      * split; [lia|].
        apply Z.le_trans with (2 * 2 ^ (Z.log2 r - 53)); [lia|].
        apply Hdiv. change (2 ^ 53) with (2 ^ 52 * 2) in Hrel. lia.
    + rewrite printf_f0_integer, Hval by lia.
      exists M. split.
      * unfold dec. replace (M <? 0) with false
          by (symmetry; apply Z.ltb_ge; lia).
        reflexivity.
      * split; [lia|].
        apply Z.le_trans with (2 ^ (Z.log2 r - 53)); [lia|].
        apply Hdiv. change (2 ^ 53) with (2 ^ 52 * 2) in Hrel. lia.
Qed.

(** X12.  An integer of any magnitude, as a value: the text written is
    the decimal expansion of an integer [z] (digits with an optional minus
    sign, which reads back as [z]); the magnitude going through a double,
    [z] is within 1025 of the value of the item, and within the value
    divided by [2^52]: exact below [2^52] in magnitude. *)
Theorem integer_within_double_precision fuel (it : CborValue St) flags w :
  can_write 1 w = true ->
  exists z,
    value_to_json (S fuel) it flags CborIntegerType w
      = Ret (cbor_value_advance_fixed it) (put (dec z) w)
    /\ parse_int (dec z) = Some z
    /\ Z.abs (z - integer_value it) <= 1025
    /\ Z.abs (z - integer_value it) <= Z.abs (integer_value it) / 2 ^ 52.
Proof.
  intros Hw. destruct (integer_text_near it) as (z & Htext & Habs & Hrel).
  exists z. split.
  - rewrite (value_to_json_formatted _ _ _ CborIntegerType _ eq_refl Hw).
    cbn [value_text]. rewrite Htext. reflexivity.
  - split; [apply parse_int_dec|]. split; assumption.
Qed.

End BigIntegers.

(** ** Write calls, one after the other *)

Lemma attempt_cons s r w :
  attempt (s :: r) w = attempt r (attempt [s] w).
Proof.
  cbn [attempt]. unfold fwrite.
  destruct s; destruct (writes_left (out w)) as [[|m]|]; reflexivity.
Qed.

Lemma attempt_app a b w : attempt (a ++ b) w = attempt b (attempt a w).
Proof.
  revert w. induction a as [|s a IH]; intros w; [reflexivity|].
  rewrite <- app_comm_cons, attempt_cons, IH, <- attempt_cons. reflexivity.
Qed.

Lemma attempt_dead ss w : writes_left (out w) = Some O -> attempt ss w = w.
Proof.
  intros Hw. induction ss as [|s ss IH]; [reflexivity|].
  cbn [attempt]. destruct s as [|c s]; [exact IH|].
  rewrite (fwrite_fail (String c s) w); [exact IH|discriminate|exact Hw].
Qed.

Lemma can_write_0 w : can_write 0 w = true.
Proof. unfold can_write. destruct (writes_left (out w)); reflexivity. Qed.

Lemma attempt_put s w : accepts [s] w = true -> attempt [s] w = put s w.
Proof.
  intros Hw. destruct s as [|c s]; [destruct w; reflexivity|].
  cbn [attempt]. destruct (fwrite_ok (String c s) w 0 Hw) as [-> _].
  reflexivity.
Qed.

Lemma can_write_dead w : can_write 1 w = false -> writes_left (out w) = Some O.
Proof.
  unfold can_write. destruct (writes_left (out w)) as [[|m]|];
    [reflexivity|discriminate|discriminate].
Qed.

Lemma heap_attempt ss w : heap (attempt ss w) = heap w.
Proof.
  revert w. induction ss as [|s ss IH]; intros w; [reflexivity|].
  rewrite attempt_cons, IH. cbn [attempt]. unfold fwrite.
  destruct s; destruct (writes_left (out w)) as [[|m]|]; reflexivity.
Qed.

(** What is written: the texts of the calls the stream accepts. *)
Lemma attempt_limited ss : forall w k, writes_left (out w) = Some k ->
  attempt ss w
  = mkWorld (mkFILE (written (out w) ++ appended (firstn k (transmitted ss)))
                    (Some (k - List.length (transmitted ss))%nat))
            (heap w).
Proof.
  induction ss as [|s ss IH]; intros [[wr wl] h] k Hk; cbn [out writes_left] in Hk;
    subst wl.
  - cbn [attempt transmitted filter firstn appended fold_right List.length
         out written heap].
    rewrite firstn_nil, Nat.sub_0_r. cbn [appended fold_right].
    rewrite string_app_empty_r. reflexivity.
  - destruct s as [|c s].
    + cbn [attempt fwrite transmitted filter transmits].
      apply (IH (mkWorld (mkFILE wr (Some k)) h) k eq_refl).
    + cbn [transmitted filter transmits]. fold (transmitted ss).
      destruct k as [|k].
      * rewrite attempt_dead by reflexivity.
        cbn [firstn appended fold_right out written heap Nat.sub].
        rewrite string_app_empty_r. reflexivity.
      * cbn [attempt]. unfold fwrite. cbn [out writes_left written heap].
        rewrite (IH (mkWorld (mkFILE (wr ++ String c s) (Some k)) h) k eq_refl).
        cbn [out written heap firstn appended fold_right List.length Nat.sub].
        rewrite string_app_assoc. reflexivity.
Qed.

Lemma attempt_unlimited ss : forall w, writes_left (out w) = None ->
  attempt ss w
  = mkWorld (mkFILE (written (out w) ++ appended ss) None) (heap w).
Proof.
  induction ss as [|s ss IH]; intros [[wr wl] h] Hk; cbn [out writes_left] in Hk;
    subst wl.
  - cbn [attempt appended fold_right out written heap].
    rewrite string_app_empty_r. reflexivity.
  - destruct s as [|c s].
    + cbn [attempt fwrite].
      apply (IH (mkWorld (mkFILE wr None) h) eq_refl).
    + cbn [attempt]. unfold fwrite. cbn [out writes_left written heap].
      rewrite (IH (mkWorld (mkFILE (wr ++ String c s) None) h) eq_refl).
      cbn [out written heap appended fold_right].
      rewrite string_app_assoc. reflexivity.
Qed.

Lemma accepts_limited ss w k : writes_left (out w) = Some k ->
  accepts ss w = (List.length (transmitted ss) <=? k)%nat.
Proof. intros Hk. unfold accepts, can_write. rewrite Hk. reflexivity. Qed.

Lemma accepts_app a b w :
  accepts (a ++ b) w = accepts a w && accepts b (attempt a w).
Proof.
  unfold accepts, transmitted. rewrite filter_app, length_app.
  fold (transmitted a). fold (transmitted b).
  destruct (writes_left (out w)) as [k|] eqn:Hk.
  - rewrite (attempt_limited a w k Hk).
    unfold can_write. rewrite Hk. cbn [out writes_left].
    destruct (Nat.leb_spec (List.length (transmitted a)) k); cbn [andb].
    + destruct (Nat.leb_spec (List.length (transmitted b))
                  (k - List.length (transmitted a)));
        [apply Nat.leb_le|apply Nat.leb_gt]; lia.
    + apply Nat.leb_gt. lia.
  - rewrite (attempt_unlimited a w Hk). unfold can_write. rewrite Hk.
    reflexivity.
Qed.

Lemma attempt_failed a w :
  accepts a w = false -> writes_left (out (attempt a w)) = Some O.
Proof.
  intros Hw. destruct (writes_left (out w)) as [k|] eqn:Hk.
  - rewrite (attempt_limited a w k Hk). cbn [out writes_left].
    rewrite (accepts_limited _ _ _ Hk) in Hw. apply Nat.leb_gt in Hw.
    f_equal. lia.
  - unfold accepts, can_write in Hw. rewrite Hk in Hw. discriminate.
Qed.

(** A write inside a computation, accepted or not. *)
Lemma bind_fwrite {A} s (k : Z -> C A) w :
  bind (fprintf s) k w
  = k (if accepts [s] w then Z.of_nat (String.length s) else -1)
      (attempt [s] w).
Proof.
  unfold bind, fprintf, accepts, can_write. cbn [attempt]. unfold fwrite.
  destruct s; cbn [transmitted filter transmits List.length];
    destruct (writes_left (out w)) as [[|m]|]; reflexivity.
Qed.

Lemma bind_fputc_any {A} c (k : Z -> C A) w :
  bind (fputc c) k w
  = k (if can_write 1 w then 1 else -1) (attempt [String c EmptyString] w).
Proof. apply (bind_fwrite (String c EmptyString)). Qed.

Lemma written_result (c : bool) n :
  ((if c then Z.of_nat n else -1) <? 0) = negb c.
Proof. destruct c; [apply Z.ltb_ge; lia|reflexivity]. Qed.

Lemma took_quiet w : allocs_left (heap w) = None -> took w = w.
Proof.
  destruct w as [o [a f n]]. cbn [heap allocs_left]. intros ->. reflexivity.
Qed.

Lemma quiet_can_alloc w n : allocs_left (heap w) = None -> can_alloc n w = true.
Proof. intros Ha. unfold can_alloc. rewrite Ha. reflexivity. Qed.

(** The calls after one that failed change nothing. *)
Lemma attempt_app_failed a b w :
  accepts a w = false ->
  attempt (a ++ b) w = attempt a w /\ accepts (a ++ b) w = false.
Proof.
  intros Hw. split.
  - rewrite attempt_app. apply attempt_dead, attempt_failed, Hw.
  - rewrite accepts_app, Hw. reflexivity.
Qed.

Lemma attempt_app_passed a b w :
  accepts a w = true -> accepts (a ++ b) w = accepts b (attempt a w).
Proof. intros Hw. rewrite accepts_app, Hw. reflexivity. Qed.

(** ** Values and keys, the write accepted or not *)

Section Steps.
Context {St : Type} `{CborParser St} `{Target}.

Lemma value_to_json_formatted_any fuel (it : CborValue St) flags type w :
  formatted_key type = true ->
  value_to_json (S fuel) it flags type w
  = Ret (if accepts [value_text it type] w then cbor_value_advance_fixed it
         else (CborErrorIO, it))
        (attempt [value_text it type] w).
Proof.
  intros Hty.
  destruct type; try discriminate Hty; cbn [value_to_json value_text];
    try destruct (isinf _ || isnan _);
    rewrite bind_fwrite, written_result; unfold quoted;
    rewrite ?string_app_assoc;
    match goal with |- context [accepts ?l w] => destruct (accepts l w) end;
    reflexivity.
Qed.

Lemma text_string_any fuel (it next : CborValue St) flags s w :
  cbor_value_string_contents it = (CborNoError, s, next) ->
  can_alloc 1 w = true ->
  value_to_json (S fuel) it flags CborTextStringType w
  = Ret (if can_write 1 (took w) then CborNoError else CborErrorIO, next)
        (attempt [quoted (until_nul s)] (took w)).
Proof.
  intros Hcont Ha. cbn [value_to_json]. unfold bind at 1.
  change (CborType_eqb CborTextStringType CborByteStringType) with false.
  cbv iota. rewrite (dup_text_string_ok _ _ _ _ _ 0 Hcont Ha).
  change (is_error CborNoError) with false. cbv iota.
  unfold fprintf_s. rewrite c_str_until_nul.
  rewrite bind_fwrite, written_result.
  match goal with
  | |- context [accepts ?l (took w)] =>
      change (accepts l (took w)) with (can_write 1 (took w))
  end.
  destruct (can_write 1 (took w)); reflexivity.
Qed.

Lemma byte_string_any fuel (it next : CborValue St) flags s w :
  cbor_value_calculate_string_length it
    = (CborNoError, Z.of_nat (String.length s)) ->
  cbor_value_string_contents it = (CborNoError, s, next) ->
  Z.of_nat (String.length s) < 2 ^ 62 ->
  can_alloc 1 w = true ->
  value_to_json (S fuel) it flags CborByteStringType w
  = Ret (if can_write 1 (took w) then CborNoError else CborErrorIO, next)
        (attempt [quoted (base64url_text s)] (took w)).
Proof.
  intros Hlen Hcont Hsmall Ha.
  destruct (generic_dump_base64_ok WildPtr it next base64url_alphabet s w
              Hlen Hcont Hsmall Ha) as (buf & Hrun & Hbuf).
  cbn [value_to_json]. unfold bind at 1.
  change (CborType_eqb CborByteStringType CborByteStringType) with true.
  cbv iota. unfold dump_bytestring_base64url. rewrite Hrun.
  change (is_error CborNoError) with false. cbv iota.
  unfold fprintf_s. rewrite (c_str_of_prefix _ _ _ Hbuf).
  rewrite (c_string_base64url _ _ (Nat.le_refl _)).
  rewrite bind_fwrite, written_result.
  match goal with
  | |- context [accepts ?l (took w)] =>
      change (accepts l (took w)) with (can_write 1 (took w))
  end.
  destruct (can_write 1 (took w)); reflexivity.
Qed.

(** One turn of the loop of [map_to_json], up to the fetch of the key,
    the comma accepted or not. *)
Lemma map_to_json_loop_any value fuel comma (it : CborValue St) flags w :
  cbor_value_at_end it = false ->
  map_to_json_loop value (S fuel) comma it flags w =
    (if accepts [comma] w then
       let after fetched :=
         let '(err, key, it) := fetched in
         if is_error err then ret (err, it)
         else
           r <- fprintf_s (String dquote EmptyString) key (String dquote ":") ;;
           if r <? 0 then ret (CborErrorIO, it)
           else map_pair_rest value fuel it flags in
       if CborType_eqb (cbor_value_get_type it) CborTextStringType then
         fetched <- cbor_value_dup_text_string WildPtr it ;; after fetched
       else if negb (Z.land flags CborConvertStringifyMapKeys =? 0) then
         fetched <- stringify_map_key WildPtr it flags (cbor_value_get_type it) ;;
         after fetched
       else ret (CborErrorJsonObjectKeyNotString, it)
     else ret (CborErrorIO, it)) (attempt [comma] w).
Proof.
  intros Hend. cbn [map_to_json_loop]. rewrite Hend.
  change (negb false) with true. cbv iota.
  rewrite bind_fwrite, written_result.
  destruct (accepts [comma] w); reflexivity.
Qed.

(** The write of a key that was fetched. *)
Lemma key_write_any value fuel (next : CborValue St) flags buf s w :
  c_str buf = Some s ->
  (r <- fprintf_s (String dquote EmptyString) (Chars buf) (String dquote ":") ;;
   if r <? 0 then ret (CborErrorIO, next)
   else map_pair_rest value fuel next flags) w
  = (if can_write 1 w then map_pair_rest value fuel next flags
     else ret (CborErrorIO, next))
      (attempt [String dquote (s ++ String dquote ":")] w).
Proof.
  intros Hs. unfold fprintf_s. rewrite Hs.
  rewrite bind_fwrite, written_result.
  match goal with
  | |- context [accepts ?l w] => change (accepts l w) with (can_write 1 w)
  end.
  destruct (can_write 1 w); reflexivity.
Qed.

Lemma text_key_any value fuel comma (it next : CborValue St) flags s w :
  cbor_value_string_contents it = (CborNoError, s, next) ->
  cbor_value_at_end it = false ->
  cbor_value_get_type it = CborTextStringType ->
  can_alloc 1 w = true -> accepts [comma] w = true ->
  map_to_json_loop value (S fuel) comma it flags w
  = (if can_write 1 (took (attempt [comma] w))
     then map_pair_rest value fuel next flags
     else ret (CborErrorIO, next))
      (attempt [String dquote (until_nul s ++ String dquote ":")]
               (took (attempt [comma] w))).
Proof.
  intros Hcont Hend Hty Ha Hw.
  rewrite (map_to_json_loop_any _ _ _ _ _ _ Hend), Hw. cbv zeta.
  rewrite Hty.
  change (CborType_eqb CborTextStringType CborTextStringType) with true.
  cbv iota. unfold bind at 1.
  assert (Ha' : can_alloc 1 (attempt [comma] w) = true).
  { unfold can_alloc. rewrite heap_attempt. exact Ha. }
  rewrite (dup_text_string_ok _ _ _ _ _ 0 Hcont Ha').
  change (is_error CborNoError) with false. cbv iota.
  apply key_write_any, c_str_until_nul.
Qed.

Lemma byte_key_any value fuel comma (it next : CborValue St) flags s w :
  cbor_value_calculate_string_length it
    = (CborNoError, Z.of_nat (String.length s)) ->
  cbor_value_string_contents it = (CborNoError, s, next) ->
  Z.of_nat (String.length s) < 2 ^ 62 ->
  cbor_value_at_end it = false ->
  cbor_value_get_type it = CborByteStringType ->
  Z.land flags CborConvertStringifyMapKeys <> 0 ->
  can_alloc 1 w = true -> accepts [comma] w = true ->
  map_to_json_loop value (S fuel) comma it flags w
  = (if can_write 1 (took (attempt [comma] w))
     then map_pair_rest value fuel next flags
     else ret (CborErrorIO, next))
      (attempt [String dquote (base64url_text s ++ String dquote ":")]
               (took (attempt [comma] w))).
Proof.
  intros Hlen Hcont Hsmall Hend Hty Hf Ha Hw.
  rewrite (map_to_json_loop_any _ _ _ _ _ _ Hend), Hw. cbv zeta.
  rewrite Hty.
  change (CborType_eqb CborByteStringType CborTextStringType) with false.
  apply Z.eqb_neq in Hf. rewrite Hf. change (negb false) with true.
  cbv iota. unfold bind at 1.
  assert (Ha' : can_alloc 1 (attempt [comma] w) = true).
  { unfold can_alloc. rewrite heap_attempt. exact Ha. }
  destruct (generic_dump_base64_ok WildPtr it next base64url_alphabet s
              (attempt [comma] w) Hlen Hcont Hsmall Ha')
    as (buf & Hrun & Hbuf).
  change (stringify_map_key WildPtr it flags CborByteStringType)
    with (generic_dump_base64 WildPtr it base64url_alphabet).
  rewrite Hrun. change (is_error CborNoError) with false. cbv iota.
  rewrite (key_write_any _ _ _ _ _ _ _ (c_str_of_prefix _ _ _ Hbuf)).
  rewrite (c_string_base64url _ _ (Nat.le_refl _)). reflexivity.
Qed.

Lemma formatted_key_any value fuel comma (it it' : CborValue St) flags w :
  cbor_value_at_end it = false ->
  formatted_key (cbor_value_get_type it) = true ->
  Z.land flags CborConvertStringifyMapKeys <> 0 ->
  cbor_value_advance_fixed it = (CborNoError, it') ->
  can_alloc 1 w = true -> accepts [comma] w = true ->
  map_to_json_loop value (S fuel) comma it flags w
  = (if can_write 1 (took (attempt [comma] w))
     then map_pair_rest value fuel it' flags
     else ret (CborErrorIO, it'))
      (attempt [String dquote (key_text it (cbor_value_get_type it)
                               ++ String dquote ":")]
               (took (attempt [comma] w))).
Proof.
  intros Hend Hfmt Hf Hadv Ha Hw.
  assert (Hty : CborType_eqb (cbor_value_get_type it) CborTextStringType
                = false)
    by (destruct (cbor_value_get_type it); try discriminate Hfmt; reflexivity).
  rewrite (map_to_json_loop_any _ _ _ _ _ _ Hend), Hw. cbv zeta.
  rewrite Hty. apply Z.eqb_neq in Hf. rewrite Hf.
  change (negb false) with true. cbv iota. unfold bind at 1.
  assert (Ha' : can_alloc 1 (attempt [comma] w) = true).
  { unfold can_alloc. rewrite heap_attempt. exact Ha. }
  rewrite (stringify_map_key_formatted _ _ _ _ _ 0 Hfmt Ha').
  rewrite Hadv. cbn [fst snd].
  change (is_error CborNoError) with false. cbv iota.
  apply key_write_any, c_str_app_nul, no_nul_key_text.
Qed.

End Steps.

(** ** Trees, with a stream that fails after some writes *)

Section TreeWrites.
Variable flags : Z.
Variable items : list Item.

Lemma scalar_writes fuel i p r w :
  scalar_ok i = true -> allocs_left (heap w) = None -> 0 < r ->
  nth_error items p = Some i ->
  (1 < r -> (S p < List.length items)%nat) ->
  exists bad,
    value_to_json (S fuel) (cursor items (Z.of_nat p) r) flags (type_of i) w
    = Ret (if accepts [scalar_text i] w
           then (CborNoError, cursor items (Z.of_nat (S p)) (r - 1))
           else (CborErrorIO, bad))
          (attempt [scalar_text i] w).
Proof.
  intros Hok Hq Hr Hnth Hfit.
  pose proof (current_at items p r i Hr Hnth) as Hc.
  pose proof (quiet_can_alloc w 1 Hq) as Ha.
  assert (Hfmt : formatted_key (type_of i) = true ->
    exists bad,
    value_to_json (S fuel) (cursor items (Z.of_nat p) r) flags (type_of i) w
    = Ret (if accepts [value_text (start [i]) (type_of i)] w
           then (CborNoError, cursor items (Z.of_nat (S p)) (r - 1))
           else (CborErrorIO, bad))
          (attempt [value_text (start [i]) (type_of i)] w)).
  { intros Hf. exists (cursor items (Z.of_nat p) r).
    rewrite (value_to_json_formatted_any _ _ _ _ _ Hf).
    rewrite (value_text_at _ _ Hc).
    cbn [cbor_value_advance_fixed parser].
    rewrite (advance_fixed_ok _ _ _ Hfit). reflexivity. }
  destruct i; try discriminate Hok; try (apply Hfmt; reflexivity).
  - (* byte string *)
    cbn [type_of scalar_text]. cbn [scalar_ok] in Hok.
    apply Z.ltb_lt in Hok.
    exists (cursor items (Z.of_nat (S p)) (r - 1)).
    rewrite (byte_string_any fuel _ (cursor items (Z.of_nat (S p)) (r - 1))
               flags s w (string_length_at _ _ Hc)
               (string_contents_at _ _ _ _ Hfit (or_intror Hc)) Hok Ha).
    rewrite (took_quiet _ Hq).
    match goal with
    | |- context [accepts ?l w] => change (accepts l w) with (can_write 1 w)
    end.
    destruct (can_write 1 w); reflexivity.
  - (* text string *)
    cbn [type_of scalar_text].
    exists (cursor items (Z.of_nat (S p)) (r - 1)).
    rewrite (text_string_any fuel _ (cursor items (Z.of_nat (S p)) (r - 1))
               flags s w (string_contents_at _ _ _ _ Hfit (or_introl Hc)) Ha).
    rewrite (took_quiet _ Hq).
    match goal with
    | |- context [accepts ?l w] => change (accepts l w) with (can_write 1 w)
    end.
    destruct (can_write 1 w); reflexivity.
Qed.

Section Loops.
Variable fuel : nat.

(** What the induction gives for the values inside a container. *)
Hypothesis value_writes_hyp : forall d p r w,
  (List.length (encode d) <= fuel)%nat ->
  well_formed flags d = true -> allocs_left (heap w) = None -> 0 < r ->
  occurs items p (encode d) ->
  (1 < r -> (p + List.length (encode d) < List.length items)%nat) ->
  exists bad,
    value_to_json fuel (cursor items (Z.of_nat p) r) flags
      (cbor_value_get_type (cursor items (Z.of_nat p) r)) w
    = Ret (if accepts (writes d) w
           then (CborNoError,
                 cursor items (Z.of_nat (p + List.length (encode d))) (r - 1))
           else (CborErrorIO, bad))
          (attempt (writes d) w).

Lemma array_loop_writes : forall es k comma q w,
  (List.length es <= k)%nat ->
  (forall e, In e es ->
     (List.length (encode e) <= fuel)%nat /\ well_formed flags e = true) ->
  allocs_left (heap w) = None ->
  occurs items q (flat_map encode es) ->
  exists bad,
    array_to_json_loop (value_to_json fuel) k comma
      (cursor items (Z.of_nat q) (Z.of_nat (List.length es))) flags w
    = Ret (if accepts (joined_writes comma (map writes es)) w
           then (CborNoError,
                 cursor items
                   (Z.of_nat (q + List.length (flat_map encode es))) 0)
           else (CborErrorIO, bad))
          (attempt (joined_writes comma (map writes es)) w).
Proof.
  induction es as [|e es IH]; intros k comma q w Hk Hall Hq Ho.
  - cbn [flat_map List.length joined_writes map attempt].
    change (accepts [] w) with (can_write 0 w).
    rewrite Nat.add_0_r, can_write_0. exists (cursor items 0 0).
    destruct k; reflexivity.
  - destruct k as [|k]; [cbn [List.length] in Hk; lia|].
    cbn [flat_map] in Ho |- *. apply occurs_app in Ho. destruct Ho as [Hoe Hor].
    destruct (Hall e (or_introl eq_refl)) as [Hfe Hwe].
    cbn [array_to_json_loop].
    change (cbor_value_at_end
              (cursor items (Z.of_nat q) (Z.of_nat (List.length (e :: es)))))
      with (Z.of_nat (List.length (e :: es)) <=? 0).
    destruct (Z.leb_spec (Z.of_nat (List.length (e :: es))) 0) as [Hn|_];
      [cbn [List.length] in Hn; lia|].
    change (negb false) with true. cbv iota.
    rewrite bind_fwrite, written_result.
    cbn [map joined_writes].
    change (comma :: writes e ++ joined_writes "," (map writes es))
      with ([comma] ++ writes e ++ joined_writes "," (map writes es)).
    set (rest := joined_writes "," (map writes es)).
    destruct (accepts [comma] w) eqn:Hc1; cbn [negb]; cbv iota.
    + (* the comma is written *)
      rewrite (attempt_app_passed [comma] _ w Hc1), (attempt_app [comma]).
      assert (Hq1 : allocs_left (heap (attempt [comma] w)) = None)
        by (rewrite heap_attempt; exact Hq).
      destruct (value_writes_hyp e q (Z.of_nat (List.length (e :: es)))
                  (attempt [comma] w) Hfe Hwe Hq1
                  ltac:(cbn [List.length]; lia) Hoe) as [bad1 Hrun1].
      { intros Hr. apply (occurs_nonempty _ _ (flat_map encode es));
          [|exact Hor].
        pose proof (length_flat_map_encode es). cbn [List.length] in Hr. lia. }
      unfold bind at 1. rewrite Hrun1.
      destruct (accepts (writes e) (attempt [comma] w)) eqn:Hc2.
      * (* the value is written *)
        change (is_error CborNoError) with false. cbv iota.
        rewrite (attempt_app_passed (writes e) _ _ Hc2), (attempt_app (writes e)).
        replace (Z.of_nat (List.length (e :: es)) - 1)
          with (Z.of_nat (List.length es)) by (cbn [List.length]; lia).
        destruct (IH k ","%string (q + List.length (encode e))%nat
                    (attempt (writes e) (attempt [comma] w))) as [bad2 Hrun2].
        -- cbn [List.length] in Hk. lia.
        -- intros e' He'. apply Hall. right. exact He'.
        -- rewrite heap_attempt. exact Hq1.
        -- exact Hor.
        -- exists bad2. rewrite Hrun2. rewrite length_app, Nat.add_assoc.
           reflexivity.
      * (* a write of the value fails *)
        change (is_error CborErrorIO) with true. cbv iota.
        destruct (attempt_app_failed (writes e) rest _ Hc2) as [-> ->].
        exists bad1. reflexivity.
    + (* the comma is not written *)
      destruct (attempt_app_failed [comma] (writes e ++ rest) w Hc1)
        as [-> ->].
      eexists. reflexivity.
Qed.

(** One turn of [map_to_json] up to the value. *)
Lemma key_writes k v rest n comma q r w :
  key_ok flags k = true -> allocs_left (heap w) = None -> 1 < r ->
  occurs items q (k :: encode v ++ rest) ->
  exists bad,
    map_to_json_loop (value_to_json fuel) (S n) comma
      (cursor items (Z.of_nat q) r) flags w
    = (if accepts [comma; String dquote (key_string k ++ String dquote ":")] w
       then map_pair_rest (value_to_json fuel) n
              (cursor items (Z.of_nat (S q)) (r - 1)) flags
       else ret (CborErrorIO, bad))
        (attempt [comma; String dquote (key_string k ++ String dquote ":")] w).
Proof.
  intros Hk Hq Hr Ho.
  destruct (occurs_cons _ _ _ _ Ho) as (Hnth & Hov & _).
  apply occurs_app in Hov. destruct Hov as [Hov _].
  assert (Hfit : 1 < r -> (S q < List.length items)%nat).
  { intros _. apply (occurs_nonempty _ _ (encode v));
      [apply encode_nonempty|exact Hov]. }
  pose proof (current_at items q r k ltac:(lia) Hnth) as Hc.
  assert (Hend : cbor_value_at_end (cursor items (Z.of_nat q) r) = false).
  { change (cbor_value_at_end (cursor items (Z.of_nat q) r)) with (r <=? 0).
    apply Z.leb_gt. lia. }
  pose proof (quiet_can_alloc w 1 Hq) as Ha.
  destruct (accepts [comma] w) eqn:Hc1.
  - (* the comma is written *)
    assert (Hq1 : allocs_left (heap (attempt [comma] w)) = None)
      by (rewrite heap_attempt; exact Hq).
    assert (Hworld : forall t,
      attempt [t] (took (attempt [comma] w)) = attempt [comma; t] w).
    { intros t. rewrite (took_quiet _ Hq1), <- attempt_cons. reflexivity. }
    assert (Hcan : forall t,
      can_write 1 (took (attempt [comma] w))
      = accepts [comma; String dquote t] w).
    { intros t. rewrite (took_quiet _ Hq1).
      change [comma; String dquote t] with ([comma] ++ [String dquote t]).
      rewrite (attempt_app_passed [comma] _ w Hc1). reflexivity. }
    assert (Hother :
      key_ok flags k = negb (Z.land flags 8 =? 0) && scalar_ok k ->
      formatted_key (type_of k) = true ->
      key_string k = key_text (start [k]) (type_of k) ->
      exists bad,
      map_to_json_loop (value_to_json fuel) (S n) comma
        (cursor items (Z.of_nat q) r) flags w
      = (if accepts [comma; String dquote (key_string k ++ String dquote ":")] w
         then map_pair_rest (value_to_json fuel) n
                (cursor items (Z.of_nat (S q)) (r - 1)) flags
         else ret (CborErrorIO, bad))
          (attempt [comma; String dquote (key_string k ++ String dquote ":")]
                   w)).
    { intros Hdef Hfmt Hks. rewrite Hdef in Hk. apply andb_true_iff in Hk.
      destruct Hk as [Hf _]. apply negb_true_iff, Z.eqb_neq in Hf.
      exists (cursor items (Z.of_nat (S q)) (r - 1)).
      rewrite (formatted_key_any (value_to_json fuel) n comma
                 (cursor items (Z.of_nat q) r)
                 (cursor items (Z.of_nat (S q)) (r - 1)) flags w Hend).
      - rewrite (get_type_at _ _ Hc), (key_text_at _ _ Hc), Hks, Hworld.
        rewrite (Hcan (key_text (start [k]) (type_of k) ++ String dquote ":")%string).
        reflexivity.
      - rewrite (get_type_at _ _ Hc). exact Hfmt.
      - exact Hf.
      - cbn [cbor_value_advance_fixed parser]. apply advance_fixed_ok, Hfit.
      - exact Ha.
      - exact Hc1. }
    destruct k; try (apply Hother; reflexivity);
      try (cbn [key_ok scalar_ok] in Hk; rewrite andb_false_r in Hk;
           discriminate Hk).
    + (* byte string *)
      cbn [key_ok scalar_ok] in Hk. apply andb_true_iff in Hk.
      destruct Hk as [Hf Hlen]. apply negb_true_iff, Z.eqb_neq in Hf.
      apply Z.ltb_lt in Hlen.
      exists (cursor items (Z.of_nat (S q)) (r - 1)).
      rewrite (byte_key_any (value_to_json fuel) n comma
                 (cursor items (Z.of_nat q) r)
                 (cursor items (Z.of_nat (S q)) (r - 1))
                 flags s w (string_length_at _ _ Hc)
                 (string_contents_at _ _ _ _ Hfit (or_intror Hc)) Hlen Hend
                 (get_type_at _ _ Hc) Hf Ha Hc1).
      cbn [key_string].
      rewrite Hworld, (Hcan (base64url_text s ++ String dquote ":")%string).
      reflexivity.
    + (* text string *)
      exists (cursor items (Z.of_nat (S q)) (r - 1)).
      rewrite (text_key_any (value_to_json fuel) n comma
                 (cursor items (Z.of_nat q) r)
                 (cursor items (Z.of_nat (S q)) (r - 1))
                 flags s w (string_contents_at _ _ _ _ Hfit (or_introl Hc)) Hend
                 (get_type_at _ _ Hc) Ha Hc1).
      cbn [key_string].
      rewrite Hworld, (Hcan (until_nul s ++ String dquote ":")%string).
      reflexivity.
  - (* the comma is not written *)
    exists (cursor items (Z.of_nat q) r).
    rewrite (map_to_json_loop_any _ _ _ _ _ _ Hend), Hc1.
    change [comma; String dquote (key_string k ++ String dquote ":")]
      with ([comma] ++ [String dquote (key_string k ++ String dquote ":")]).
    destruct (attempt_app_failed [comma]
                [String dquote (key_string k ++ String dquote ":")] w Hc1)
      as [-> ->].
    reflexivity.
Qed.

Lemma map_loop_writes : forall (ps : list (Item * Data)) n comma q w,
  (List.length ps <= n)%nat ->
  (forall k v, In (k, v) ps ->
     key_ok flags k = true
     /\ (List.length (encode v) <= fuel)%nat /\ well_formed flags v = true) ->
  allocs_left (heap w) = None ->
  occurs items q (flat_map (fun '(k, v) => k :: encode v) ps) ->
  exists bad,
    map_to_json_loop (value_to_json fuel) n comma
      (cursor items (Z.of_nat q) (2 * Z.of_nat (List.length ps))) flags w
    = Ret (if accepts
                (joined_writes comma
                   (map (fun '(k, v) =>
                           String dquote (key_string k ++ String dquote ":")
                             :: writes v) ps)) w
           then (CborNoError,
                 cursor items
                   (Z.of_nat
                      (q + List.length
                             (flat_map (fun '(k, v) => k :: encode v) ps))) 0)
           else (CborErrorIO, bad))
          (attempt
             (joined_writes comma
                (map (fun '(k, v) =>
                        String dquote (key_string k ++ String dquote ":")
                          :: writes v) ps)) w).
Proof.
  induction ps as [|[k v] ps IH]; intros n comma q w Hn Hall Hq Ho.
  - cbn [flat_map List.length joined_writes map attempt].
    change (accepts [] w) with (can_write 0 w).
    rewrite Nat.add_0_r, can_write_0. exists (cursor items 0 0).
    destruct n; reflexivity.
  - destruct n as [|n]; [cbn [List.length] in Hn; lia|].
    cbn [flat_map] in Ho |- *.
    destruct (Hall k v (or_introl eq_refl)) as (Hk & Hfv & Hwv).
    change ((k :: encode v) ++ flat_map (fun '(k0, v0) => k0 :: encode v0) ps)
      with (k :: (encode v ++ flat_map (fun '(k0, v0) => k0 :: encode v0) ps))
      in Ho |- *.
    destruct (occurs_cons _ _ _ _ Ho) as (_ & Hov & _).
    apply occurs_app in Hov. destruct Hov as [Hov Hor].
    set (rest := flat_map (fun '(k0, v0) => k0 :: encode v0) ps) in *.
    destruct (key_writes k v rest n comma q
                (2 * Z.of_nat (List.length ((k, v) :: ps))) w Hk Hq
                ltac:(cbn [List.length]; lia) Ho) as [bad0 Hrun0].
    rewrite Hrun0. cbn [map joined_writes].
    set (key := String dquote (key_string k ++ String dquote ":")).
    set (more := joined_writes ","
                   (map (fun '(k0, v0) =>
                           String dquote (key_string k0 ++ String dquote ":")
                             :: writes v0) ps)).
    change (comma :: (key :: writes v) ++ more)
      with ([comma; key] ++ writes v ++ more).
    destruct (accepts [comma; key] w) eqn:Hc1.
    + (* the comma and the key are written *)
      rewrite (attempt_app_passed [comma; key] _ w Hc1),
        (attempt_app [comma; key]).
      assert (Hq1 : allocs_left (heap (attempt [comma; key] w)) = None)
        by (rewrite heap_attempt; exact Hq).
      unfold map_pair_rest, bind at 1.
      replace (2 * Z.of_nat (List.length ((k, v) :: ps)) - 1)
        with (2 * Z.of_nat (List.length ps) + 1) by (cbn [List.length]; lia).
      destruct (value_writes_hyp v (S q) (2 * Z.of_nat (List.length ps) + 1)
                  (attempt [comma; key] w) Hfv Hwv Hq1 ltac:(lia) Hov)
        as [bad1 Hrun1].
      { intros Hr. apply (occurs_nonempty _ _ rest); [|exact Hor].
        pose proof (length_flat_map_pairs ps) as Hl. fold rest in Hl. lia. }
      rewrite Hrun1.
      destruct (accepts (writes v) (attempt [comma; key] w))
        eqn:Hc2.
      * change (is_error CborNoError) with false. cbv iota.
        rewrite (attempt_app_passed (writes v) _ _ Hc2),
          (attempt_app (writes v)).
        replace (2 * Z.of_nat (List.length ps) + 1 - 1)
          with (2 * Z.of_nat (List.length ps)) by lia.
        destruct (IH n ","%string (S q + List.length (encode v))%nat
                    (attempt (writes v) (attempt [comma; key] w)))
          as [bad2 Hrun2].
        -- cbn [List.length] in Hn. lia.
        -- intros k' v' Hin. apply Hall. right. exact Hin.
        -- rewrite heap_attempt. exact Hq1.
        -- exact Hor.
        -- exists bad2. rewrite Hrun2. fold more.
           cbn [List.length]. rewrite length_app.
           replace (S q + List.length (encode v) + List.length rest)%nat
             with (q + S (List.length (encode v) + List.length rest))%nat
             by lia.
           reflexivity.
      * change (is_error CborErrorIO) with true. cbv iota.
        destruct (attempt_app_failed (writes v) more _ Hc2) as [-> ->].
        exists bad1. reflexivity.
    + (* the comma or the key is not written *)
      destruct (attempt_app_failed [comma; key] (writes v ++ more) w Hc1)
        as [-> ->].
      exists bad0. reflexivity.
Qed.

End Loops.
End TreeWrites.

(** A well-formed tree at a position of the stream, whatever the stream
    accepts: the write calls are made in order up to the first that
    fails. *)
Lemma value_writes flags items : forall fuel d p r w,
  (List.length (encode d) <= fuel)%nat ->
  well_formed flags d = true -> allocs_left (heap w) = None -> 0 < r ->
  occurs items p (encode d) ->
  (1 < r -> (p + List.length (encode d) < List.length items)%nat) ->
  exists bad,
    value_to_json fuel (cursor items (Z.of_nat p) r) flags
      (cbor_value_get_type (cursor items (Z.of_nat p) r)) w
    = Ret (if accepts (writes d) w
           then (CborNoError,
                 cursor items (Z.of_nat (p + List.length (encode d))) (r - 1))
           else (CborErrorIO, bad))
          (attempt (writes d) w).
Proof.
  induction fuel as [|fuel IH]; intros d p r w Hf Hwf Hq Hr Ho Hfit.
  - pose proof (encode_nonempty d). lia.
  - destruct d as [i|es|ps].
    + (* a scalar *)
      cbn [encode List.length writes] in *.
      destruct (occurs_cons _ _ _ _ Ho) as (Hnth & _ & _).
      rewrite (get_type_at _ _ (current_at items p r i Hr Hnth)).
      replace (p + 1)%nat with (S p) in * by lia.
      apply scalar_writes; assumption.
    + (* an array *)
      cbn [encode List.length well_formed writes] in *.
      destruct (occurs_cons _ _ _ _ Ho) as (Hnth & Hoc & _).
      pose proof (current_at items p r _ Hr Hnth) as Hc.
      rewrite (get_type_at _ _ Hc). cbn [type_of].
      rewrite (value_to_json_container fuel _ flags CborArrayType
                 (or_introl eq_refl)).
      cbn [cbor_value_enter_container parser]. unfold enter_container.
      rewrite Hc. cbn [ptr cursor].
      replace (Z.of_nat p + 1) with (Z.of_nat (S p)) by lia.
      rewrite arrive_ok.
      2:{ intros Hn. apply (occurs_nonempty _ _ (flat_map encode es));
            [|exact Hoc].
          pose proof (length_flat_map_encode es). lia. }
      change (is_error CborNoError) with false. cbv iota.
      set (body := joined_writes "" (map writes es)).
      change ("["%string :: body ++ ["]"%string])
        with (["["%string] ++ body ++ ["]"%string]).
      rewrite bind_fputc_any.
      change (String (open_bracket CborArrayType) EmptyString) with "["%string.
      destruct (can_write 1 w) eqn:Hc1.
      * change (1 <? 0) with false. cbv iota.
        rewrite (attempt_app_passed ["["%string] _ w Hc1),
          (attempt_app ["["%string]).
        unfold bind at 1. unfold contents_to_json.
        change (CborType_eqb CborArrayType CborArrayType) with true. cbv iota.
        unfold array_to_json.
        destruct (array_loop_writes flags items fuel IH es fuel EmptyString
                    (S p) (attempt ["["%string] w)) as [bad1 Hrun1].
        -- pose proof (length_flat_map_encode es). lia.
        -- intros e He. split.
           ++ pose proof (in_flat_map_length e es He). lia.
           ++ rewrite forallb_forall in Hwf. apply Hwf. exact He.
        -- rewrite heap_attempt. exact Hq.
        -- exact Hoc.
        -- rewrite Hrun1. fold body.
           destruct (accepts body (attempt ["["%string] w))
             eqn:Hc2.
           ++ change (is_error CborNoError) with false. cbv iota.
              rewrite (attempt_app_passed body _ _ Hc2), (attempt_app body).
              rewrite bind_fputc_any.
              change (String (close_bracket CborArrayType) EmptyString)
                with "]"%string.
              change (accepts ["]"%string]
                        (attempt body (attempt ["["%string] w)))
                with (can_write 1 (attempt body (attempt ["["%string] w))).
              destruct (can_write 1 (attempt body (attempt ["["%string] w))).
              ** change (1 <? 0) with false. cbv iota.
                 cbn [cbor_value_leave_container parser].
                 unfold leave_container. cbn [ptr rest remaining cursor].
                 rewrite (arrive_ok items (Z.of_nat p) r).
                 2:{ intros Hr1. specialize (Hfit ltac:(lia)). lia. }
                 change (is_error CborNoError) with false. cbv iota.
                 replace (S p + List.length (flat_map encode es))%nat
                   with (p + S (List.length (flat_map encode es)))%nat by lia.
                 exists (cursor items 0 0). reflexivity.
              ** change (-1 <? 0) with true. cbv iota.
                 eexists. reflexivity.
           ++ change (is_error CborErrorIO) with true. cbv iota.
              destruct (attempt_app_failed body ["]"%string] _ Hc2) as [-> ->].
              eexists. reflexivity.
      * change (-1 <? 0) with true. cbv iota.
        destruct (attempt_app_failed ["["%string] (body ++ ["]"%string]) w Hc1)
          as [-> ->].
        eexists. reflexivity.
    + (* a map *)
      cbn [encode List.length well_formed writes] in *.
      destruct (occurs_cons _ _ _ _ Ho) as (Hnth & Hoc & _).
      pose proof (current_at items p r _ Hr Hnth) as Hc.
      rewrite (get_type_at _ _ Hc). cbn [type_of].
      rewrite (value_to_json_container fuel _ flags CborMapType
                 (or_intror eq_refl)).
      cbn [cbor_value_enter_container parser]. unfold enter_container.
      rewrite Hc. cbn [ptr cursor].
      replace (Z.of_nat p + 1) with (Z.of_nat (S p)) by lia.
      rewrite arrive_ok.
      2:{ intros Hn.
          apply (occurs_nonempty _ _
                   (flat_map (fun '(k, v) => k :: encode v) ps)); [|exact Hoc].
          pose proof (length_flat_map_pairs ps). lia. }
      change (is_error CborNoError) with false. cbv iota.
      set (body := joined_writes ""
                     (map (fun '(k, v) =>
                             String dquote (key_string k ++ String dquote ":")
                               :: writes v) ps)).
      change ("{"%string :: body ++ ["}"%string])
        with (["{"%string] ++ body ++ ["}"%string]).
      rewrite bind_fputc_any.
      change (String (open_bracket CborMapType) EmptyString) with "{"%string.
      destruct (can_write 1 w) eqn:Hc1.
      * change (1 <? 0) with false. cbv iota.
        rewrite (attempt_app_passed ["{"%string] _ w Hc1),
          (attempt_app ["{"%string]).
        unfold bind at 1. unfold contents_to_json.
        change (CborType_eqb CborMapType CborArrayType) with false. cbv iota.
        unfold map_to_json.
        destruct (map_loop_writes flags items fuel IH ps fuel EmptyString
                    (S p) (attempt ["{"%string] w)) as [bad1 Hrun1].
        -- pose proof (length_flat_map_pairs ps). lia.
        -- intros k v Hin. rewrite forallb_forall in Hwf.
           specialize (Hwf (k, v) Hin). cbv beta iota in Hwf.
           apply andb_true_iff in Hwf. destruct Hwf as [Hk Hv].
           split; [exact Hk|]. split; [|exact Hv].
           pose proof (in_pairs_length k v ps Hin). lia.
        -- rewrite heap_attempt. exact Hq.
        -- exact Hoc.
        -- rewrite Hrun1. fold body.
           destruct (accepts body (attempt ["{"%string] w))
             eqn:Hc2.
           ++ change (is_error CborNoError) with false. cbv iota.
              rewrite (attempt_app_passed body _ _ Hc2), (attempt_app body).
              rewrite bind_fputc_any.
              change (String (close_bracket CborMapType) EmptyString)
                with "}"%string.
              change (accepts ["}"%string]
                        (attempt body (attempt ["{"%string] w)))
                with (can_write 1 (attempt body (attempt ["{"%string] w))).
              destruct (can_write 1 (attempt body (attempt ["{"%string] w))).
              ** change (1 <? 0) with false. cbv iota.
                 cbn [cbor_value_leave_container parser].
                 unfold leave_container. cbn [ptr rest remaining cursor].
                 rewrite (arrive_ok items (Z.of_nat p) r).
                 2:{ intros Hr1. specialize (Hfit ltac:(lia)). lia. }
                 change (is_error CborNoError) with false. cbv iota.
                 replace (S p + List.length
                                  (flat_map (fun '(k, v) => k :: encode v) ps))%nat
                   with (p + S (List.length
                                  (flat_map (fun '(k, v) => k :: encode v) ps)))%nat
                   by lia.
                 exists (cursor items 0 0). reflexivity.
              ** change (-1 <? 0) with true. cbv iota.
                 eexists. reflexivity.
           ++ change (is_error CborErrorIO) with true. cbv iota.
              destruct (attempt_app_failed body ["}"%string] _ Hc2) as [-> ->].
              eexists. reflexivity.
      * change (-1 <? 0) with true. cbv iota.
        destruct (attempt_app_failed ["{"%string] (body ++ ["}"%string]) w Hc1)
          as [-> ->].
        eexists. reflexivity.
Qed.

(** ** The write calls make up the text *)

Lemma appended_app a b :
  appended (a ++ b) = (appended a ++ appended b)%string.
Proof.
  unfold appended. induction a as [|s a IH]; cbn [app fold_right];
    [reflexivity|].
  rewrite IH, string_app_assoc. reflexivity.
Qed.

Lemma appended_joined {A} (f : A -> list string) (g : A -> string) :
  forall l comma, (forall x, In x l -> appended (f x) = g x) ->
  appended (joined_writes comma (map f l)) = joined comma (map g l).
Proof.
  induction l as [|x l IH]; intros comma Hall; [reflexivity|].
  cbn [map joined_writes joined appended fold_right].
  change (fold_right String.append EmptyString (f x ++ joined_writes "," (map f l)))
    with (appended (f x ++ joined_writes "," (map f l))).
  rewrite appended_app, (Hall x (or_introl eq_refl)), IH.
  - reflexivity.
  - intros y Hy. apply Hall. right. exact Hy.
Qed.

Lemma appended_writes : forall n d, (List.length (encode d) <= n)%nat ->
  appended (writes d) = text d.
Proof.
  induction n as [|n IH]; intros d Hn.
  - pose proof (encode_nonempty d). lia.
  - destruct d as [i|es|ps]; cbn [writes text encode List.length] in *.
    + cbn [appended fold_right]. apply string_app_empty_r.
    + change ("["%string :: joined_writes "" (map writes es) ++ ["]"%string])
        with (["["%string] ++ joined_writes "" (map writes es) ++ ["]"%string]).
      rewrite !appended_app, (appended_joined writes text).
      * reflexivity.
      * intros e He. apply IH. pose proof (in_flat_map_length e es He). lia.
    + set (f := fun '(k, v) =>
                  String dquote (key_string k ++ String dquote ":") :: writes v).
      set (g := fun '(k, v) =>
                  (String dquote (key_string k ++ String dquote ":")
                   ++ text v)%string).
      change ("{"%string :: joined_writes "" (map f ps) ++ ["}"%string])
        with (["{"%string] ++ joined_writes "" (map f ps) ++ ["}"%string]).
      rewrite !appended_app, (appended_joined f g).
      * reflexivity.
      * intros [k v] Hin. unfold f, g. cbn [appended fold_right].
        change (fold_right String.append EmptyString (writes v))
          with (appended (writes v)).
        rewrite (IH v); [reflexivity|].
        pose proof (in_pairs_length k v ps Hin). lia.
Qed.

Lemma appended_transmitted ss : appended (transmitted ss) = appended ss.
Proof.
  induction ss as [|s ss IH]; [reflexivity|].
  destruct s as [|c s]; cbn [transmitted filter transmits];
    fold (transmitted ss); cbn [appended fold_right];
    fold (appended (transmitted ss)); fold (appended ss); rewrite IH;
    reflexivity.
Qed.

(** X13.  On the stream of items of a well-formed tree of data, with a
    heap that does not fail and a stream that accepts [k] more writes: the
    converter makes the write calls of the tree in order ([writes d]) up to
    the first that the stream refuses.  The calls that transmit something
    (all but the empty comma of a first turn) make up the JSON text of the
    tree, and they are the calls the stream counts: what was written is the
    text of the first [k] of them; with [k] of them or fewer the result is
    [CborNoError] with the cursor behind the last item, and otherwise it is
    [CborErrorIO]: a failed write is never passed over. *)
Theorem output_failure_is_reported flags d fuel w k :
  well_formed flags d = true ->
  allocs_left (heap w) = None ->
  writes_left (out w) = Some k ->
  (List.length (encode d) <= fuel)%nat ->
  appended (transmitted (writes d)) = text d
  /\ exists err it',
       cbor_value_to_json_advance fuel (start (encode d)) flags w
       = Ret (err, it')
             (mkWorld
                (mkFILE (written (out w)
                         ++ appended (firstn k (transmitted (writes d))))
                        (Some (k - List.length (transmitted (writes d)))%nat))
                (heap w))
       /\ ((List.length (transmitted (writes d)) <= k)%nat ->
           err = CborNoError
           /\ it' = cursor (encode d) (Z.of_nat (List.length (encode d))) 0)
       /\ ((k < List.length (transmitted (writes d)))%nat ->
           err = CborErrorIO).
Proof.
  intros Hwf Hq Hk Hf. split.
  { rewrite appended_transmitted. apply (appended_writes _ _ (Nat.le_refl _)). }
  destruct (value_writes flags (encode d) fuel d 0 1 w Hf Hwf Hq ltac:(lia)
              (occurs_start _) ltac:(lia)) as [bad Hrun].
  change (value_to_json fuel (cursor (encode d) (Z.of_nat 0) 1) flags
            (cbor_value_get_type (cursor (encode d) (Z.of_nat 0) 1)) w)
    with (cbor_value_to_json_advance fuel (start (encode d)) flags w) in Hrun.
  rewrite Hrun, (attempt_limited _ _ _ Hk), (accepts_limited _ _ _ Hk).
  destruct (Nat.leb_spec (List.length (transmitted (writes d))) k) as [Hle|Hlt].
  - eexists _, _. split; [reflexivity|]. split; [|lia].
    intros _. split; reflexivity.
  - eexists _, _. split; [reflexivity|]. split; [lia|]. reflexivity.
Qed.

(** ** The output as a JSON text *)

(** *** Numbers *)

Lemma digits_fixed_head w : forall n,
  digits_fixed (S w) n
  = String (digit_char (n / 10 ^ Z.of_nat w)) (digits_fixed w n).
Proof.
  induction w as [|w IH]; intros n.
  - cbn [digits_fixed]. rewrite Z.pow_0_r, Z.div_1_r. reflexivity.
  - change (digits_fixed (S (S w)) n)
      with (digits_fixed (S w) (n / 10) ++ String (digit_char n) EmptyString)%string.
    rewrite IH. cbn [append digits_fixed].
    rewrite Z.div_div by (try apply Z.pow_pos_nonneg; lia).
    replace (10 * 10 ^ Z.of_nat w) with (10 ^ Z.of_nat (S w))
      by (rewrite Nat2Z.inj_succ, Z.pow_succ_r by lia; reflexivity).
    reflexivity.
Qed.

Lemma digit_char_nonzero d : d mod 10 <> 0 -> digit_char d <> "0"%char.
Proof.
  intros Hd E. pose proof (digit_of_digit_char d) as H. rewrite E in H.
  change (digit_of_char "0") with (Some 0) in H. congruence.
Qed.

Lemma json_int_dec_uint n : json_int (dec_uint n).
Proof.
  unfold dec_uint. destruct (Z_lt_le_dec n 1) as [Hn|Hn].
  - (* a single digit *)
    assert (E : ilog10 n = 0).
    { unfold ilog10. destruct n as [|p|p]; try lia; reflexivity. }
    rewrite E. change (Z.to_nat (0 + 1)) with 1%nat.
    cbn [digits_fixed append].
    destruct (ascii_dec (digit_char n) "0") as [->|Hne]; [constructor|].
    constructor; [apply is_digit_digit_char|exact Hne|reflexivity].
  - destruct (ilog10_spec n Hn) as (H0 & Hlo & Hhi).
    replace (Z.to_nat (ilog10 n + 1)) with (S (Z.to_nat (ilog10 n))) by lia.
    rewrite digits_fixed_head, Z2Nat.id by lia.
    constructor.
    + apply is_digit_digit_char.
    + apply digit_char_nonzero.
      rewrite Z.pow_add_r, Z.pow_1_r in Hhi by lia.
      pose proof (Z.pow_pos_nonneg 10 (ilog10 n) ltac:(lia) H0) as Hp.
      assert (1 <= n / 10 ^ ilog10 n < 10).
      { split; [apply Z.div_le_lower_bound; lia|].
        apply Z.div_lt_upper_bound; lia. }
      rewrite Z.mod_small by lia. lia.
    + apply digits_fixed_digits.
Qed.

Lemma json_frac_point s : string_forall is_digit s = true ->
  json_frac (point_frac (strip_zeros s)).
Proof.
  intros Hs. apply strip_zeros_digits in Hs.
  destruct (strip_zeros s) as [|c r]; [constructor|].
  cbn [point_frac string_forall] in *. apply andb_true_iff in Hs.
  constructor; apply Hs.
Qed.

Lemma json_exp_text X : json_exp (exp_text X).
Proof.
  unfold exp_text.
  assert (Hs : forall body c r, body = String c r ->
            is_digit c = true -> string_forall is_digit r = true ->
            json_exp (String "e" (String (if X <? 0 then "-"%char else "+"%char)
                                         body))).
  { intros body c r -> Hc Hr.
    destruct (X <? 0).
    - apply (json_exp_digits "e" "-" c r); auto.
    - apply (json_exp_digits "e" "+" c r); auto. }
  destruct (Z.abs X <? 10).
  - apply (Hs _ "0"%char (dec_uint (Z.abs X)) eq_refl eq_refl).
    apply dec_uint_digits.
  - pose proof (dec_uint_digits (Z.abs X)) as Hd.
    pose proof (dec_uint_nonempty (Z.abs X) ltac:(lia)) as Hne.
    destruct (dec_uint (Z.abs X)) as [|c r]; [congruence|].
    cbn [string_forall] in Hd. apply andb_true_iff in Hd.
    apply (Hs _ c r eq_refl); apply Hd.
Qed.

(** The parts of a number in a text of [%g]. *)
Lemma g_text_parts P N X : exists i f e,
  g_text P N X = (i ++ f ++ e)%string
  /\ json_int i /\ json_frac f /\ json_exp e.
Proof.
  unfold g_text. destruct ((-4 <=? X) && (X <? P)).
  - destruct (0 <=? X).
    + eexists _, _, EmptyString. split; [|split; [|split]].
      * rewrite string_app_empty_r. reflexivity.
      * apply json_int_dec_uint.
      * apply json_frac_point, digits_fixed_digits.
      * constructor.
    + exists "0"%string. eexists _, EmptyString. split; [|split; [|split]].
      * rewrite string_app_empty_r. reflexivity.
      * constructor.
      * apply json_frac_point, digits_fixed_digits.
      * constructor.
  - eexists _, _, _. split; [reflexivity|]. split; [|split].
    + apply json_int_dec_uint.
    + apply json_frac_point, digits_fixed_digits.
    + apply json_exp_text.
Qed.

Lemma json_number_signed s i f e :
  json_int i -> json_frac f -> json_exp e ->
  json_number (sign_text s ++ i ++ f ++ e).
Proof.
  intros Hi Hf He. constructor; try assumption.
  destruct s; [right|left]; reflexivity.
Qed.

Lemma json_number_printf_g P x : isinf x || isnan x = false ->
  json_number (printf_g P x).
Proof.
  destruct x as [s|s| |s m e]; try discriminate; intros _; cbn [printf_g].
  - apply (json_number_signed s "0" "" ""); constructor.
  - destruct (sig_digits P (numer m e) (denom e)) as [N X].
    destruct (g_text_parts P N X) as (i & f & e' & -> & Hi & Hf & He).
    apply json_number_signed; assumption.
Qed.

Lemma json_number_int minus n : minus = ""%string \/ minus = "-"%string ->
  json_number (minus ++ dec_uint n).
Proof.
  intros Hm.
  replace (dec_uint n) with (dec_uint n ++ "" ++ "")%string
    by (cbn [append]; apply string_app_empty_r).
  constructor; [exact Hm|apply json_int_dec_uint|constructor|constructor].
Qed.

Lemma json_number_dec z : json_number (dec z).
Proof.
  unfold dec. destruct (z <? 0).
  - apply (json_number_int "-"). right. reflexivity.
  - apply (json_number_int ""). left. reflexivity.
Qed.

Lemma json_number_double `{Target} val : isinf val || isnan val = false ->
  json_number (finite_double_text val).
Proof.
  intros Hv. unfold finite_double_text.
  destruct (SFeqb _ _).
  - pose proof (uint64_of_double_range (fabs val)) as Hr.
    unfold dec. destruct (Z.ltb_spec (uint64_of_double (fabs val)) 0); [lia|].
    apply json_number_int. destruct (SFltb _ _); [right|left]; reflexivity.
  - apply json_number_printf_g. exact Hv.
Qed.

(** *** Strings *)

Lemma is_digit_unescaped c : is_digit c = true -> unescaped c = true.
Proof.
  destruct c as [[] [] [] [] [] [] [] []]; intros H; try reflexivity;
    discriminate H.
Qed.

Lemma unescaped_not_nul s : string_forall unescaped s = true -> no_nul s = true.
Proof.
  induction s as [|c s IH]; cbn [string_forall no_nul]; [reflexivity|].
  intros Hs. apply andb_true_iff in Hs. destruct Hs as [Hc Hs].
  rewrite (IH Hs), andb_true_r.
  destruct c as [[] [] [] [] [] [] [] []]; try reflexivity; discriminate Hc.
Qed.

Lemma digits_unescaped s :
  string_forall is_digit s = true -> string_forall unescaped s = true.
Proof. apply string_forall_impl, is_digit_unescaped. Qed.

Lemma json_number_unescaped s : json_number s ->
  string_forall unescaped s = true.
Proof.
  intros [minus i f e Hm Hi Hf He]. rewrite !string_forall_app.
  repeat (apply andb_true_iff; split).
  - destruct Hm as [-> | ->]; reflexivity.
  - destruct Hi as [|c r Hc _ Hr]; [reflexivity|].
    cbn [string_forall]. rewrite (is_digit_unescaped _ Hc), (digits_unescaped _ Hr).
    reflexivity.
  - destruct Hf as [|c r Hc Hr]; [reflexivity|].
    cbn [string_forall]. rewrite (is_digit_unescaped _ Hc), (digits_unescaped _ Hr).
    reflexivity.
  - destruct He as [|x sign c r Hx Hsign Hc Hr]; [reflexivity|].
    cbn [string_forall]. rewrite string_forall_app. cbn [string_forall].
    rewrite (is_digit_unescaped _ Hc), (digits_unescaped _ Hr).
    destruct Hx as [-> | ->]; destruct Hsign as [-> | [-> | ->]]; reflexivity.
Qed.

Lemma unescaped_dec z : string_forall unescaped (dec z) = true.
Proof. apply json_number_unescaped, json_number_dec. Qed.

Section Texts.
Context {St : Type} `{CborParser St} `{Target}.

Lemma unescaped_key_text (it : CborValue St) type :
  string_forall unescaped (key_text it type) = true.
Proof.
  assert (Hfl : forall val,
            string_forall unescaped
              (if isnan val || isinf val then "null"%string
               else printf_g 19 val) = true).
  { intros val. destruct (isnan val || isinf val) eqn:E; [reflexivity|].
    apply json_number_unescaped, json_number_printf_g.
    rewrite orb_comm. exact E. }
  destruct type; cbn [key_text]; try reflexivity; try apply Hfl.
  - destruct (cbor_value_is_unsigned_integer it); [apply unescaped_dec|].
    destruct (_ <? 0); [apply unescaped_dec|].
    cbn [string_forall]. rewrite unescaped_dec. reflexivity.
  - rewrite !string_forall_app, unescaped_dec. reflexivity.
  - destruct (cbor_value_get_boolean it); reflexivity.
Qed.

(** The values formatted in place are JSON values. *)
Lemma json_value_text (it : CborValue St) type :
  formatted_key type = true -> json_value (value_text it type).
Proof.
  assert (Hfl : forall val,
            json_value (if isinf val || isnan val then "null"%string
                        else finite_double_text val)).
  { intros val. destruct (isinf val || isnan val) eqn:E; [constructor|].
    apply json_a_number, json_number_double. exact E. }
  intros Hty. destruct type; try discriminate Hty; cbn [value_text];
    try apply Hfl.
  - destruct (integer_text_near it) as (z & -> & _).
    apply json_a_number, json_number_dec.
  - apply json_a_string. constructor.
    rewrite !string_forall_app, unescaped_dec. reflexivity.
  - destruct (cbor_value_get_boolean it); constructor.
  - constructor.
  - apply json_a_string. constructor. reflexivity.
Qed.

End Texts.

Lemma unescaped_url_digit i : 0 <= i < 64 ->
  unescaped (char_of_byte (char_at base64url_alphabet i)) = true.
Proof.
  intros Hi.
  apply (range_forall
           (fun i => unescaped (char_of_byte (char_at base64url_alphabet i)))
           64 eq_refl).
  exact Hi.
Qed.

Lemma unescaped_base64url s :
  string_forall unescaped (base64url_text s) = true.
Proof.
  unfold base64url_text.
  pose proof (base64_digits_ok _ (bytes_of_string s) (Nat.le_refl _)) as Hd.
  induction Hd as [|d ds Hd _ IH]; [reflexivity|].
  cbn [map string_of_bytes string_forall].
  rewrite (unescaped_url_digit d Hd), IH. reflexivity.
Qed.

(** *** Trees *)

Lemma json_scalar_text i :
  scalar_ok i = true -> unescaped_item i = true -> json_value (scalar_text i).
Proof.
  intros Hok Hs.
  destruct i; try discriminate Hok; cbn [scalar_text];
    try (apply json_value_text; reflexivity).
  - apply json_a_string. constructor. apply unescaped_base64url.
  - cbn [unescaped_item] in Hs. apply json_a_string.
    rewrite until_nul_no_nul by (apply unescaped_not_nul; exact Hs).
    constructor. exact Hs.
Qed.

Lemma json_key_string flags k :
  key_ok flags k = true -> unescaped_item k = true ->
  json_string (quoted (key_string k)).
Proof.
  intros Hok Hs. constructor.
  destruct k; cbn [key_string]; try apply unescaped_key_text.
  - apply unescaped_base64url.
  - cbn [unescaped_item] in Hs.
    rewrite until_nul_no_nul by (apply unescaped_not_nul; exact Hs). exact Hs.
Qed.

Lemma key_colon s v :
  (String dquote (s ++ String dquote ":") ++ v)%string
  = (quoted s ++ ":" ++ v)%string.
Proof.
  unfold quoted. cbn [append]. f_equal.
  rewrite !string_app_assoc. reflexivity.
Qed.

Lemma json_elements_joined : forall l, l <> [] ->
  Forall json_value l -> json_elements (joined "" l).
Proof.
  induction l as [|t l IH]; [congruence|]. intros _ Hall.
  inversion Hall as [|? ? Ht Hl]; subst.
  destruct l as [|t2 l].
  - cbn [joined append]. rewrite string_app_empty_r. constructor. exact Ht.
  - change (joined "" (t :: t2 :: l))
      with (t ++ "," ++ joined "" (t2 :: l))%string.
    apply (json_elements_more t (joined "" (t2 :: l))); [exact Ht|].
    apply IH; [discriminate|exact Hl].
Qed.

Lemma json_members_joined : forall (ps : list (Item * Data)), ps <> [] ->
  Forall (fun '(k, v) =>
            json_string (quoted (key_string k)) /\ json_value (text v)) ps ->
  json_members
    (joined ""
       (map (fun '(k, v) =>
               (String dquote (key_string k ++ String dquote ":")
                ++ text v)%string) ps)).
Proof.
  induction ps as [|[k v] ps IH]; [congruence|]. intros _ Hall.
  inversion Hall as [|? ? Hkv Hl]; subst. destruct Hkv as [Hk Hv].
  destruct ps as [|[k2 v2] ps].
  - cbn [map joined]. change (String "," EmptyString) with ","%string.
    change (EmptyString ++ ?x)%string with x.
    rewrite (string_app_empty_r (_ ++ text v)), key_colon.
    constructor; assumption.
  - set (f := fun '(k, v) =>
                (String dquote (key_string k ++ String dquote ":")
                 ++ text v)%string) in *.
    change (joined "" (map f ((k, v) :: (k2, v2) :: ps)))
      with ((String dquote (key_string k ++ String dquote ":") ++ text v)
            ++ "," ++ joined "" (map f ((k2, v2) :: ps)))%string.
    rewrite (string_app_assoc
               (String dquote (key_string k ++ String dquote ":")) (text v)).
    rewrite key_colon.
    apply (json_members_more (quoted (key_string k)) (text v));
      [exact Hk|exact Hv|].
    apply (IH ltac:(discriminate) Hl).
Qed.

(** The text of a well-formed tree with unescaped text strings is a
    JSON value. *)
Lemma json_text flags : forall n d, (List.length (encode d) <= n)%nat ->
  well_formed flags d = true -> unescaped_strings d = true ->
  json_value (text d).
Proof.
  induction n as [|n IH]; intros d Hn Hwf Hs.
  - pose proof (encode_nonempty d). lia.
  - destruct d as [i|es|ps];
      cbn [text encode List.length well_formed unescaped_strings] in *.
    + apply json_scalar_text; assumption.
    + destruct es as [|e es]; [apply json_empty_array|].
      apply json_array, json_elements_joined; [discriminate|].
      apply Forall_map, Forall_forall. intros x Hx.
      rewrite forallb_forall in Hwf, Hs.
      apply IH; [|apply Hwf, Hx|apply Hs, Hx].
      pose proof (in_flat_map_length x _ Hx). lia.
    + destruct ps as [|p ps]; [apply json_empty_object|].
      apply json_object, json_members_joined; [discriminate|].
      apply Forall_forall. intros [k v] Hx.
      rewrite forallb_forall in Hwf, Hs.
      specialize (Hwf _ Hx). specialize (Hs _ Hx). cbv beta iota in Hwf, Hs.
      apply andb_true_iff in Hwf, Hs. destruct Hwf as [Hk Hv], Hs as [Hks Hvs].
      split; [apply (json_key_string flags); assumption|].
      apply IH; [|assumption|assumption].
      pose proof (in_pairs_length k v _ Hx). lia.
Qed.

(** X14.  When is the output a JSON text?  On the stream of items of a
    well-formed tree of data whose text strings, values and keys, hold
    only characters that JSON allows unescaped (printable ASCII without the
    quotation mark and the backslash), with a stream and a heap without
    limits, [cbor_value_to_json_advance] succeeds and what it writes is a
    JSON value by the grammar of RFC 8259: integers, floats and doubles as
    numbers or [null], byte strings, simple values and undefined as
    strings, every key as a string. *)
Theorem unescaped_tree_to_json flags d fuel w :
  well_formed flags d = true ->
  unescaped_strings d = true ->
  unlimited w ->
  (List.length (encode d) <= fuel)%nat ->
  cbor_value_to_json_advance fuel (start (encode d)) flags w
  = Ret (CborNoError,
         cursor (encode d) (Z.of_nat (List.length (encode d))) 0)
        (put (text d) w)
  /\ json_value (text d).
Proof.
  intros Hwf Hs Hu Hf. split; [|apply (json_text flags _ d (Nat.le_refl _) Hwf Hs)].
  unfold cbor_value_to_json_advance, start.
  apply (value_run flags (encode d) fuel d 0 1 w Hf Hwf Hu ltac:(lia)
           (occurs_start _)).
  lia.
Qed.

(** ** Runs on streams of items, continued *)

Lemma failed_write_is_io_error_witness :
  value_to_json 1 (start [Null]) 0 CborNullType (world_io 0)
    = Ret (CborErrorIO, start [Null]) (world_io 0)
  /\ value_to_json 1 (start [ArrayOf 0]) 0 CborArrayType (world_io 0)
     = Ret (CborErrorIO, start [ArrayOf 0]) (world_io 0)
  /\ array_to_json_loop (value_to_json 1) 1 "" (cursor [ArrayOf 1; Null] 1 1)
       0 (world_io 0)
     = Ret (CborErrorIO, cursor [ArrayOf 1; Null] 1 1) (world_io 0)
  /\ map_to_json_loop (value_to_json 1) 1 ""
       (cursor [MapOf 1; TextString "a"; Null] 1 2) 0 (world_io 0)
     = Ret (CborErrorIO, cursor [MapOf 1; TextString "a"; Null] 2 1)
           (world_io 0).
Proof.
  split; [|split; [|split]].
  - exact (proj1 (@failed_write_is_io_error Pos parser target 0
                    (start [Null]) 0 CborNullType (world_io 0) eq_refl)
             eq_refl).
  - exact (proj1 (proj2 (@failed_write_is_io_error Pos parser target 0
                           (start [ArrayOf 0]) 0 CborArrayType (world_io 0)
                           eq_refl))
             (cursor [ArrayOf 0] 1 0) (or_introl eq_refl) eq_refl).
  - exact (proj1 (proj2 (proj2 (proj2 (proj2
             (@failed_write_is_io_error Pos parser target 0
                (cursor [ArrayOf 1; Null] 1 1) 0 CborNullType (world_io 0)
                eq_refl)))))
             0%nat eq_refl eq_refl).
  - exact (proj2 (proj2 (proj2 (proj2 (proj2
             (@failed_write_is_io_error Pos parser target 0
                (cursor [MapOf 1; TextString "a"; Null] 1 2) 0
                CborTextStringType (world_io 0) eq_refl)))))
             (value_to_json 1) 0%nat "a"%string
             (cursor [MapOf 1; TextString "a"; Null] 2 1)
             eq_refl eq_refl eq_refl eq_refl).
Defined.

Lemma empty_container_witness :
  value_to_json 1 (start [ArrayOf 0]) 0 CborArrayType fresh_world
    = Ret (CborNoError, cursor [ArrayOf 0] 1 0)
          (put "]" (put "[" fresh_world)).
Proof.
  exact (@empty_container Pos parser target 0 (start [ArrayOf 0])
           (cursor [ArrayOf 0] 1 0) 0 CborArrayType fresh_world
           (or_introl eq_refl) eq_refl eq_refl eq_refl).
Defined.

Lemma text_string_verbatim_witness :
  value_to_json 1 (start [TextString text_with_quote]) 0 CborTextStringType
      fresh_world
    = Ret (CborNoError, cursor [TextString text_with_quote] 1 0)
          (put (quoted text_with_quote) (took fresh_world)).
Proof.
  exact (proj1 (@text_string_verbatim Pos parser target (value_to_json 0) 0
                  EmptyString (start [TextString text_with_quote])
                  (cursor [TextString text_with_quote] 1 0) 0
                  text_with_quote fresh_world eq_refl eq_refl eq_refl)
           eq_refl).
Defined.

Lemma allocation_failure_is_out_of_memory_witness :
  value_to_json 1 (start [TextString "hello"]) 0 CborTextStringType
      (world_mem 0 false)
    = Ret (CborErrorOutOfMemory, start [TextString "hello"])
          (world_mem 0 false).
Proof.
  exact (proj1 (proj1 (@allocation_failure_is_out_of_memory Pos parser target
                         (value_to_json 0) 0 EmptyString
                         (start [TextString "hello"]) 0 (world_mem 0 false)
                         eq_refl)
                  "hello"%string (cursor [TextString "hello"] 1 0) eq_refl)).
Defined.

Lemma asprintf_result_unchecked_witness :
  map_to_json_loop (value_to_json 0) 1 EmptyString
    (cursor map_with_key_42 1 2) 8 (world_mem 0 false) = Fault.
Proof.
  exact (proj2 (@asprintf_result_unchecked Pos parser
                  (value_to_json 0) 0 EmptyString
                  (cursor map_with_key_42 1 2) (cursor map_with_key_42 2 1)
                  8 (world_mem 0 false)
                  eq_refl eq_refl eq_refl eq_refl
                  ltac:(discriminate) eq_refl eq_refl)).
Defined.

Lemma integer_key_exact_witness :
  stringify_map_key WildPtr (start [Integer false 18446744073709551615]) 8
      CborIntegerType fresh_world
    = Ret (CborNoError,
           Chars ("18446744073709551615" ++ String NUL EmptyString),
           cursor [Integer false 18446744073709551615] 1 0)
          (took fresh_world)
  /\ parse_int "18446744073709551615" = Some 18446744073709551615.
Proof.
  assert (Hag : integer_accessors_agree
                  (start [Integer false 18446744073709551615])).
  { split; [reflexivity|].
    split; [intros _; reflexivity|intros E; discriminate E]. }
  destruct (@integer_key_exact Pos parser WildPtr
              (start [Integer false 18446744073709551615]) 8 fresh_world
              Hag eq_refl) as (Hrun & _ & Hback).
  split; [exact Hrun|exact Hback].
Defined.

Lemma byte_string_value_witness :
  value_to_json 1 (start [ByteString "hi"]) 0 CborByteStringType fresh_world
    = Ret (CborNoError, cursor [ByteString "hi"] 1 0)
          (put (quoted "aGk") (took fresh_world))
  /\ base64_decode base64url_alphabet "aGk" = Some (bytes_of_string "hi").
Proof.
  destruct (@byte_string_value Pos parser target 0 (start [ByteString "hi"])
              (cursor [ByteString "hi"] 1 0) 0 "hi"%string fresh_world
              eq_refl eq_refl eq_refl eq_refl eq_refl)
    as (Hrun & _ & Hback).
  split; [exact Hrun|exact Hback].
Defined.

Lemma floating_key_round_trip_witness :
  stringify_map_key WildPtr (start [Double double_0_1]) 8 CborDoubleType
      fresh_world
    = Ret (CborNoError,
           Chars ("0.1000000000000000056" ++ String NUL EmptyString),
           cursor [Double double_0_1] 1 0) (took fresh_world)
  /\ strtod "0.1000000000000000056" = Some double_0_1.
Proof.
  destruct (@floating_key_round_trip Pos parser WildPtr
              (start [Double double_0_1]) 8 CborDoubleType double_0_1
              fresh_world
              (or_introl (conj eq_refl (conj eq_refl eq_refl)))
              eq_refl eq_refl) as (Hrun & _ & Hback).
  split; [exact Hrun|exact Hback].
Defined.

Lemma copy_failure_fails_assertion_witness :
  value_to_json 1 (cursor truncated_after_bytes 1 2) 0 CborByteStringType
    fresh_world = Fault.
Proof.
  exact (proj1 (proj2 (@copy_failure_fails_assertion Pos parser target 0
                         WildPtr (cursor truncated_after_bytes 1 2)
                         (cursor truncated_after_bytes 2 1)
                         base64url_alphabet 0 1 CborErrorUnexpectedEOF
                         "x"%string fresh_world
                         eq_refl eq_refl eq_refl eq_refl))).
Defined.

Lemma tree_to_json_witness :
  cbor_value_to_json_advance 14 (start (encode sample)) 8 fresh_world
  = Ret (CborNoError, cursor (encode sample) 14 0)
        (put (text sample) fresh_world).
Proof.
  exact (tree_to_json 8 sample 14 fresh_world eq_refl (conj eq_refl eq_refl)
           (Nat.le_refl _)).
Defined.

Lemma unsupported_tree_fails_witness :
  (exists err it' w',
     cbor_value_to_json_advance 5 (start (encode sample_with_tag)) 0
       fresh_world = Ret (err, it') w'
     /\ (err = CborErrorUnsupportedType
         \/ err = CborErrorJsonObjectKeyNotString))
  /\ (exists err it' w',
      cbor_value_to_json_advance 4 (start (encode sample_with_integer_key)) 0
        fresh_world = Ret (err, it') w'
      /\ (err = CborErrorUnsupportedType
          \/ err = CborErrorJsonObjectKeyNotString)).
Proof.
  split.
  - exact (unsupported_tree_fails 0 sample_with_tag 5 fresh_world
             eq_refl eq_refl (conj eq_refl eq_refl) (Nat.le_refl _)).
  - exact (unsupported_tree_fails 0 sample_with_integer_key 4 fresh_world
             eq_refl eq_refl (conj eq_refl eq_refl) (Nat.le_refl _)).
Defined.

Lemma integer_within_double_precision_witness :
  exists z,
    value_to_json 1 (start [Integer true 18446744073709551614]) 0
      CborIntegerType fresh_world
    = Ret (CborNoError, cursor [Integer true 18446744073709551614] 1 0)
          (put (dec z) fresh_world)
    /\ parse_int (dec z) = Some z
    /\ Z.abs (z - integer_value (start [Integer true 18446744073709551614]))
       <= 1025
    /\ Z.abs (z - integer_value (start [Integer true 18446744073709551614]))
       <= Z.abs (integer_value (start [Integer true 18446744073709551614]))
          / 2 ^ 52.
Proof.
  exact (integer_within_double_precision 0
           (start [Integer true 18446744073709551614]) 0 fresh_world eq_refl).
Defined.

Lemma output_failure_is_reported_witness :
  exists it',
    cbor_value_to_json_advance 14 (start (encode sample)) 8 (world_io 3)
    = Ret (CborErrorIO, it')
          (mkWorld
             (mkFILE ("{" ++ String dquote ("a" ++ String dquote ":") ++ "[")
                     (Some O))
             (heap (world_io 3))).
Proof.
  destruct (output_failure_is_reported 8 sample 14 (world_io 3) 3
              eq_refl eq_refl eq_refl (Nat.le_refl _))
    as (_ & err & it' & Hrun & _ & Hbad).
  exists it'. rewrite Hrun, (Hbad ltac:(vm_compute; lia)). reflexivity.
Defined.

Lemma unescaped_tree_to_json_witness :
  cbor_value_to_json_advance 14 (start (encode sample)) 8 fresh_world
  = Ret (CborNoError, cursor (encode sample) 14 0)
        (put (text sample) fresh_world)
  /\ json_value (text sample).
Proof.
  exact (unescaped_tree_to_json 8 sample 14 fresh_world eq_refl eq_refl
           (conj eq_refl eq_refl) (Nat.le_refl _)).
Defined.
